(* ===== verification/_CoqProject ===== *)
-Q . S2P
Prelude.v
GoStrings.v
Float64.v
Types.v
ProviderErrors.v
CircuitBreaker.v
Retry.v
LoadBalancer.v
Fallback.v
Cost.v
VirtualKey.v
Routing.v
Calendar.v
RateLimit.v
Budget.v
Access.v
EventStream.v
ExactCache.v
CacheFlights.v
Chat.v
Guardrail.v
Adapters.v
ProviderStreams.v
Streaming.v
ProviderKeys.v
Catalog.v
ABTest.v
Health.v
MLRouter.v
Alerting.v
Mcp.v
Prompts.v
Endpoints.v
Sessions.v
Logs.v
Rows.v
Csv.v
Billing.v
AuditLog.v
GuardrailAdmin.v
Config.v
HttpServer.v
Startup.v
RoutingAdmin.v
Gateway.v
Metrics.v
Orgs.v
McpTransport.v
Operator.v
Routes.v
ApiDoc.v
