(* ===== verification/Prelude.v ===== *)
(** * A verification library for the LLM router gateway

    The gateway (cmd/gateway, internal/...) accepts OpenAI-compatible requests, authenticates
    them with virtual keys, applies rate limits, budgets, tenant and residency rules,
    guardrails and an exact cache, chooses a chain of provider targets, and runs the chain
    with retries, circuit breakers and load balancing, answering as JSON or as an event
    stream. Around that path are the provider adapters, the catalogue of providers and their
    encrypted keys, experiments, health checks, alerting, prompt templates, a proxy for tool
    servers, logs, billing and an audit trail, logins and roles, the tenant directory, and the
    configuration and start-up that put them together. This library translates those parts into
    executable definitions and proves what each promises. Names follow the source; file names
    below are relative to src/internal.

    ** The files and the code they model

    - [Prelude]: results, 64-bit integers with wrap-around, time, the parts of package
      strings the gateway uses, sorting (sort.Slice as an interface [SliceSorter] that
      promises a sorted permutation, sort.SliceStable as insertion sort, which gives the one
      stable order), tactics and hints. [Float64]: IEEE binary64 over the Standard Library's
      specification floats. [GoStrings]: white space, words, trimming and the lines of a
      scanner, on bytes. [Types]: gateway/types.
    - [ProviderErrors]: provider/errors.go and the OpenAI, Anthropic and Gemini error parsers.
    - [CircuitBreaker] (module [CB]): gateway/circuitbreaker. The state is the provider map;
      each method holds the mutex, so a method is one atomic step and interleavings are
      sequences of steps ([step], [reachable]).
    - [Retry]: gateway/retry. Randomness and waiting come from the class [RetryEnv].
    - [LoadBalancer] (modules [Latency], [LB]): gateway/fallback/load_balancer.go and
      telemetry/latency_tracker.go.
    - [Fallback] (modules [Registry], [Fallback]): provider/interface.go and
      gateway/fallback/router.go. Requests run in a [World] (clock, randomness, the shared
      breaker); a load balancer is any function that satisfies the class [LoadBalancer],
      with instances for the round robin, least latency and least cost balancers.
    - [Cost]: cost. [Calendar]: budget/period.go over a calendar computed from nanoseconds.
    - [VirtualKey] (module [VK]): auth/virtual_key.go, auth/cache.go, auth/middleware.go,
      store/postgres/virtual_key_store.go and gateway/handler/admin_keys.go. One state holds
      the table and the Redis cache; requests and admin calls are its transitions.
    - [Routing]: gateway/router (rule compilation, reload, matching, strategies, resolution).
    - [RateLimit] (module [RL]): ratelimit and gateway/middleware/rate_limit.go; the Lua
      script works on the modelled sorted sets.
    - [Budget]: budget, store/redis/budget_cache.go, store/postgres/budget_store.go,
      gateway/middleware/budget_check.go, gateway/handler/admin_budgets.go.
    - [Access] (modules [Rbac], [Tenant], [Residency]): auth/rbac, tenant, residency.
    - [ExactCache] (module [Exact]): cache/exact and gateway/middleware/cache.go. [CacheFlights]
      (module [Flights]): the same middleware with many requests in flight, over the class
      [SingleFlight] of groups that join duplicate calls.
    - [Chat] (modules [Telemetry], [Sse], [Chat]): telemetry/request_log.go, the channel-based
      writers of gateway/proxy/stream.go and gateway/handler/chat.go, which composes routing,
      residency and the fallback router.
    - [Guardrail] (module [Guard]): guardrail and gateway/middleware/guardrail.go.
    - [EventStream] (module [SSE]): gateway/proxy/sse_parser.go.
    - [Adapters]: provider/openai, selfhosted, anthropic, gemini, azure, mistral, grok, cohere
      and bedrock (requests, responses, embeddings, errors, AWS request signing); JSON is the
      class [Json] with its law [JsonLaws]. [ProviderStreams] (module [Streams]): how each
      adapter turns a response body into chunks; the readers of pieces satisfy the class
      [Incremental]. [Streaming] (module [Wire]): the bytes gateway/proxy/stream.go writes, as the
      SSE parser and the adapters read them.
    - [ProviderKeys] (modules [Base64], [Crypto], [Keys]): crypto/aes.go over the class [GCM],
      provider/key_manager.go, key_selector.go, store/postgres/provider_key_store.go and
      gateway/handler/admin_provider_keys.go; a reload of the key cache is two steps, so that
      other operations can come between them.
    - [Catalog]: provider/store.go, store/postgres/provider_store.go and model_store.go,
      gateway/handler/admin_providers.go, with the registry and price table they refresh.
    - [ABTest]: abtest, store/postgres/abtest_store.go, gateway/middleware/abtest.go,
      gateway/handler/admin_abtests.go. [MLRouter]: mlrouter.
    - [Health]: health and gateway/handler/health.go; the cached status object is a shared cell.
    - [Alerting]: alerting and gateway/handler/admin_alerts.go; one notification is one step.
    - [Mcp]: mcp/policy.go, hub.go, proxy.go, gateway/handler/mcp.go and admin_mcp.go.
      [McpTransport] (module [Transport]): mcp/transport.go and its three implementations; the
      shared client is a step function over the events of its goroutines.
    - [Prompts]: prompt, store/postgres/prompt_store.go, gateway/handler/admin_prompts.go.
    - [Endpoints] (modules [Completions], [Embeddings], [ModelsHandler]):
      gateway/handler/completions.go, embeddings.go and models.go.
    - [Sessions] (modules [Session], [OAuth], [Roles], [AdminAuth]): auth/session, auth/oauth,
      auth/jwt.go, store/postgres/role_store.go and admin_credential_store.go,
      gateway/handler/auth.go and admin_auth.go.
    - [Orgs]: store/postgres/org_store.go and gateway/handler/admin_orgs.go, with the tables'
      keys and references.
    - [Logs] (modules [LogWriter], [LogStore]): telemetry/log_writer.go as a step relation over
      its channel, buffer and worker; the log and usage tables, gateway/middleware/logging.go and
      the handlers of logs and usage. [Csv]: encoding/csv. [Billing]: billing,
      store/postgres/billing_store.go and the report handlers. [Rows]: what the columns of seven tables
      keep of a record, over the class [Pg] of column types, and the key store on rows. [AuditLog] (module
      [Audit]): audit,
      store/postgres/audit_store.go, gateway/handler/admin_audit.go.
    - [GuardrailAdmin] (module [Policies]): store/postgres/guardrail_policy_store.go,
      gateway/handler/admin_guardrails.go and the pipeline builders of cmd/gateway/main.go.
      [RoutingAdmin]: store/postgres/routing_rule_store.go, gateway/handler/admin_routing_rules.go
      and admin_routing.go. [Operator]: the playground, the cache flush and the inspection of
      residency and rate limits.
    - [Config] (module [Conf]): config/config.go. [Startup]: what cmd/gateway/main.go builds.
      [HttpServer] (module [Srv]): server/server.go with its graceful shutdown, the outermost
      middlewares, and the deferred clean-ups at the end of main.
    - [Metrics]: telemetry/metrics.go, otel.go and tracer.go, with the updates that requests make;
      the libraries are the classes [Prom] and [Otel].
    - [Gateway]: gateway/router/router.go. The middlewares of /v1/chat/completions, each a
      function from the next handler over one state, are composed in the order of the router from
      the models of the components. [Routes]: the table of all routes with the middlewares in front
      of each. [ApiDoc]: the document of gateway/handler/admin_openapi.go against that table.

    ** What the theorems show

    - The request path: the gates come in order, a refused request leaves what lies behind its
      gate as it was, and no provider is reached with a message a guardrail blocks (C2); every
      route is behind its gates (C3); a log entry names the key that passed the gates and the cost
      its budgets were charged (C24); log, metrics and health tracker agree (C39).
    - The process: at its end what the log writer and the audit log had taken has been handed to
      the database (C23), and the server stops ([server_stops]).
    - Failover: chains return the first answering target in the balancer's order and errors
      are reported by kind (C1, C31); with it, that a provider behind an open circuit is not
      called ([open_circuit_never_called]).
    - Circuit breaker: tripping exactly on consecutive failures, the invariant of all reachable
      states (C4, C15), blocking, recovery and half-open probes. Retry: bounded attempts (C40)
      and the bounds of the delay ([Delay_spec]). Load balancing: lemmas on each balancer.
    - Virtual keys: revocation and authentication soundness (C5, C6); the rows of the database
      implement the table these are about (C37), and seven tables read back ([tables_read_back]).
    - Routing: the highest priority wins, and the engine follows the table of rules (C7, C16).
      Rate limits: the script refines an abstract sliding window (C8). Budgets: the check (C10),
      periods tile time ([period_tiling]).
    - Access: tenant isolation (C11) and residency as configured ([configured_residency]). Requests:
      the chat handler, the cache with duplicates in flight, guardrails at start-up (C9, C22, C25),
      soundness of one cache hit ([cache_hit_sound]) and of the input guardrails
      ([GuardrailCheck_input]).
    - Logins: sessions refine the log of what happened, roles are not escalated, password guessing
      is throttled (C12, C26, C30). Directory: references and unique columns hold and no one
      changes organisation (C29).
    - Logs: the writer loses nothing in silence and the usage report is the log (C27, C28).
      Billing: the chargeback accounts for the usage (C38) and its export reads back
      ([ToCSV_reads_back]).
    - Adapters: bodies reach OpenAI-style providers unchanged but for the assigned fields,
      conversations are translated turn by turn, failures decide the failover, signatures
      verify (C17, C18, C33, C34). Streams: any cut of the body gives the same chunks (C13), which
      are those of the events ([streams_deliver]); a stream survives a chain of gateways (C32);
      ParseSSE inverts the rendering of events ([ParseSSE_render]).
    - Provider keys: only active keys are served (C14). Catalogue: the tables stay well formed
      (C19). Health: the tracker refines the log of outcomes (C35).
    - Alerting: a recurring alert is neither repeated nor silenced (C21). Tool servers: the
      policies are enforced and audited, and calls are answered by their own answers (C20, C36).
      Prompts: the switch of the active version ([active_version_switched]).

    Further theorems that are not numbered stand beside them, among them [audit_queue_keeps],
    [scheduler_covers_months], [bulk_update_atomic], [stored_policies_active], [tables_loaded],
    [rule_read_back], [provision_refines_login], [stdio_spawn_safe], [sse_reads_back],
    [playground_as_chat], [flush_complete], [documented_operations_routed], [replay_reads_back],
    [missing_price_list_panics], [Recovery_spec], [metrics_register], [trace_continued],
    [Render_template], [validate_agrees], [RankTier_stable_sort] and
    [assignment_share].

    Lemmas and examples named after a behaviour show where the code departs from its
    documentation or from what it means to do, for instance [half_open_admits_every_request],
    [tpm_counts_requests], [reset_keeps_blocking], [deleted_key_served_after_race],
    [disabled_through_other_url_still_listed], [cached_result_exceeds_limit],
    [failed_alert_suppressed], [rollback_to_nowhere], [no_org_created], [stdio_never_connects],
    [bad_pattern_accepted] and [ml_router_never_active].

    ** Assumptions and bounds

    Code outside the repository is an argument: SHA-256, HMAC, AES-GCM, JSON and gzip codecs,
    HTTP and SMTP exchanges, regular expressions, the error function, random draws, the clock,
    provider and tool server answers, float parsing, Unicode case mapping. Where a theorem
    needs a law of one (a codec round trip, a load balancer that permutes, a random draw in
    range, a clock that does not run backwards) the law is a hypothesis or a class, with an
    instance in the theorem's witness. Database and Redis calls can fail: the failures are
    fields of records such as [faults], [world] and [dbcall], universally quantified. Loops
    over lists are structural. Fuel is chosen where it cannot run out, and shown sufficient:
    the attempts left for the retry and webhook loops, the byte length for the rune counter,
    for the stream buffers and for the placeholders of a template. Locks make each method one
    step; data races inside a method are outside the model. Counters that cannot reach 2^63 in
    the modelled runs carry that bound as a hypothesis where a theorem needs it.

    ** Not modelled

    The HTTP clients of the adapters and the constructors that only store their arguments; sockets
    and signals, which are events of the server's state machine; the text of JSON documents, whose
    decoding and encoding are arguments with their laws; trace headers of outgoing calls and errors
    on spans, which nothing sets; log lines. The migrations (the constraints the theorems need
    are in the models of the tables), the web console and the deployment files are outside. *)

From Stdlib Require Export ZArith Lia Bool.
From stdpp Require Export base option list gmap strings sorting.
From stdpp Require Export fin_maps.
From Stdlib Require Export Ascii.

#[global] Set Default Goal Selector "!".

(** ** Scopes and notations *)

Declare Scope go_scope.
Delimit Scope go_scope with go.

(** ** The development's tactics and hint databases *)

Create HintDb go discriminated.

(** Case analysis on the scrutinee of the outermost [if] or [match] of the goal or of a
    hypothesis, keeping the equation. *)
Ltac split_match :=
  match goal with
  | |- context [if ?b then _ else _] => destruct b eqn:?
  | |- context [match ?x with _ => _ end] => destruct x eqn:?
  | H : context [if ?b then _ else _] |- _ => destruct b eqn:?
  | H : context [match ?x with _ => _ end] |- _ => destruct x eqn:?
  end.

(** Turns boolean tests of the code into the propositions they decide. *)
Ltac breflect :=
  repeat match goal with
  | H : (_ && _)%bool = true |- _ => apply andb_true_iff in H as [? ?]
  | H : (_ || _)%bool = false |- _ => apply orb_false_iff in H as [? ?]
  | H : negb _ = true |- _ => apply negb_true_iff in H
  | H : negb _ = false |- _ => apply negb_false_iff in H
  | H : (_ =? _)%Z = true |- _ => apply Z.eqb_eq in H
  | H : (_ =? _)%Z = false |- _ => apply Z.eqb_neq in H
  | H : (_ <? _)%Z = true |- _ => apply Z.ltb_lt in H
  | H : (_ <? _)%Z = false |- _ => apply Z.ltb_ge in H
  | H : (_ <=? _)%Z = true |- _ => apply Z.leb_le in H
  | H : (_ <=? _)%Z = false |- _ => apply Z.leb_gt in H
  | H : bool_decide _ = true |- _ => apply bool_decide_eq_true in H
  | H : bool_decide _ = false |- _ => apply bool_decide_eq_false in H
  | H : String.eqb _ _ = true |- _ => apply String.eqb_eq in H
  | H : String.eqb _ _ = false |- _ => apply String.eqb_neq in H
  end.

(** ** Results: a Go function that returns [(value, error)] *)

Inductive res (E A : Type) : Type :=
| Ok (a : A)
| Err (e : E).
Arguments Ok {E A} a.
Arguments Err {E A} e.

Notation "'let*' x ':=' c 'in' k" :=
  (match c with Ok x => k | Err e => Err e end)
  (at level 10, x pattern, c at level 200, k at level 200) : go_scope.

(** ** Machine integers

    Go's [int] and [int64] are 64-bit two's complement and wrap silently; [uint64] is
    arithmetic modulo 2^64. *)

Definition int64_min : Z := (- 2 ^ 63)%Z.
Definition int64_max : Z := (2 ^ 63 - 1)%Z.
Definition in_int64 (z : Z) : Prop := (int64_min <= z <= int64_max)%Z.
Definition wrap64 (z : Z) : Z := ((z + 2 ^ 63) mod 2 ^ 64 - 2 ^ 63)%Z.
Definition wrapu64 (z : Z) : Z := (z mod 2 ^ 64)%Z.

Notation "a '+i' b" := (wrap64 (a + b)%Z) (at level 50, left associativity) : go_scope.
Notation "a '-i' b" := (wrap64 (a - b)%Z) (at level 50, left associativity) : go_scope.
Notation "a '*i' b" := (wrap64 (a * b)%Z) (at level 40, left associativity) : go_scope.

Lemma wrap64_id z : in_int64 z -> wrap64 z = z.
Proof.
  unfold in_int64, wrap64, int64_min, int64_max. intros H.
  rewrite Z.mod_small; lia.
Qed.

Lemma wrap64_range z : in_int64 (wrap64 z).
Proof.
  unfold in_int64, wrap64, int64_min, int64_max.
  pose proof (Z.mod_pos_bound (z + 2 ^ 63) (2 ^ 64) ltac:(lia)). lia.
Qed.

#[export] Hint Resolve wrap64_range : go.

(** ** Time

    [time.Time] as nanoseconds since 0001-01-01 00:00:00 UTC, so that Go's zero [Time] is 0;
    [time.Duration] as int64 nanoseconds. *)

Abbreviation Time := Z.
Abbreviation Duration := Z.
Definition Nanosecond : Duration := 1%Z.
Definition Millisecond : Duration := 1000000%Z.
Definition Second : Duration := 1000000000%Z.
Definition Minute : Duration := (60 * Second)%Z.
Definition Hour : Duration := (60 * Minute)%Z.

(** [Time.IsZero]. *)
Definition IsZero (t : Time) : bool := (t =? 0)%Z.

(** [Time.Sub] saturates at the extreme durations. *)
Definition time_Sub (t u : Time) : Duration :=
  (Z.max int64_min (Z.min int64_max (t - u)))%Z.

(** [Time.Add], [Time.After] and [Time.Before]. *)
Definition time_Add (t : Time) (d : Duration) : Time := (t + d)%Z.
Definition time_After (t u : Time) : bool := (u <? t)%Z.
Definition time_Before (t u : Time) : bool := (t <? u)%Z.

Lemma time_Sub_exact t u : in_int64 (t - u)%Z -> time_Sub t u = (t - u)%Z.
Proof. unfold time_Sub, in_int64. lia. Qed.

Lemma time_Sub_mono t t' u : (t <= t')%Z -> (time_Sub t u <= time_Sub t' u)%Z.
Proof. unfold time_Sub. lia. Qed.

(** ** Strings: the parts of package [strings] the gateway uses

    Go strings are byte strings, and so are Rocq's. *)

#[global] Arguments String.append !s1 s2 : simpl nomatch.

Fixpoint HasPrefix (s p : string) : bool :=
  match p, s with
  | EmptyString, _ => true
  | String a p', String b s' => if Ascii.eqb a b then HasPrefix s' p' else false
  | String _ _, EmptyString => false
  end.

Fixpoint drop_str (n : nat) (s : string) : string :=
  match n, s with
  | O, _ => s
  | S n', String _ s' => drop_str n' s'
  | S _, EmptyString => EmptyString
  end.

Fixpoint take_str (n : nat) (s : string) : string :=
  match n, s with
  | S n', String a s' => String a (take_str n' s')
  | _, _ => EmptyString
  end.

Definition TrimPrefix (s p : string) : string :=
  if HasPrefix s p then drop_str (String.length p) s else s.

Fixpoint Contains (s sub : string) : bool :=
  HasPrefix s sub ||
  match s with
  | EmptyString => false
  | String _ s' => Contains s' sub
  end.

Fixpoint HasSuffix (s p : string) : bool :=
  String.eqb s p ||
  match s with
  | EmptyString => false
  | String _ s' => HasSuffix s' p
  end.

(** [strings.Index]: the offset of the first occurrence, [None] for -1. *)
Fixpoint Index (s sub : string) : option nat :=
  if HasPrefix s sub then Some O
  else match s with
       | EmptyString => None
       | String _ s' => S <$> Index s' sub
       end.

Lemma HasPrefix_app p s : HasPrefix (p +:+ s) p = true.
Proof. induction p as [|a p IH]; [by destruct s|]. simpl. by rewrite Ascii.eqb_refl. Qed.

Lemma HasPrefix_spec s p : HasPrefix s p = true <-> exists r, s = p +:+ r.
Proof.
  split.
  - revert s. induction p as [|a p IH]; intros s H; [by exists s|].
    destruct s as [|b s]; [done|]. simpl in H.
    destruct (Ascii.eqb_spec a b) as [->|]; [|done].
    destruct (IH s H) as [r ->]. by exists r.
  - intros [r ->]. apply HasPrefix_app.
Qed.

Lemma drop_str_app p s : drop_str (String.length p) (p +:+ s) = s.
Proof. induction p; [by destruct s|]. done. Qed.

Lemma TrimPrefix_app p s : TrimPrefix (p +:+ s) p = s.
Proof. unfold TrimPrefix. by rewrite HasPrefix_app, drop_str_app. Qed.

Lemma str_app_assoc (a b c : string) : (a +:+ b) +:+ c = a +:+ (b +:+ c).
Proof. induction a; simpl; congruence. Qed.

Lemma str_app_nil_r (a : string) : a +:+ "" = a.
Proof. induction a; simpl; congruence. Qed.

Lemma str_app_inj_l (p a b : string) : p +:+ a = p +:+ b -> a = b.
Proof. induction p; simpl; [done|]. intros H. injection H. auto. Qed.

Lemma Contains_unfold s sub :
  Contains s sub =
  HasPrefix s sub || match s with EmptyString => false | String _ s' => Contains s' sub end.
Proof. by destruct s. Qed.

Lemma Contains_spec s sub :
  Contains s sub = true <-> exists a b, s = a +:+ (sub +:+ b).
Proof.
  split.
  - induction s as [|c s IH]; rewrite Contains_unfold, orb_true_iff; intros [H|H];
      try (apply HasPrefix_spec in H as [r ->]; by exists EmptyString, r).
    + done.
    + destruct (IH H) as (a & b & ->). by exists (String c a), b.
  - intros (a & b & ->). induction a as [|c a IH]; rewrite Contains_unfold.
    + simpl. by rewrite HasPrefix_app.
    + simpl. by rewrite IH, orb_true_r.
Qed.

(** ASCII lower-casing: what [strings.ToLower] does on ASCII text. *)
Definition ascii_lower (c : Ascii.ascii) : Ascii.ascii :=
  let n := Ascii.nat_of_ascii c in
  if (65 <=? n)%nat && (n <=? 90)%nat then Ascii.ascii_of_nat (n + 32) else c.

Fixpoint ascii_ToLower (s : string) : string :=
  match s with
  | EmptyString => EmptyString
  | String c s' => String (ascii_lower c) (ascii_ToLower s')
  end.

(** [slices.Contains] on a slice of strings. *)
Definition slices_Contains (l : list string) (x : string) : bool :=
  existsb (String.eqb x) l.

Lemma slices_Contains_spec l x : slices_Contains l x = true <-> x ∈ l.
Proof.
  unfold slices_Contains. rewrite existsb_exists, list_elem_of_In. split.
  - intros (y & Hy & E). apply String.eqb_eq in E. congruence.
  - intros H. exists x. split; [done|]. apply String.eqb_refl.
Qed.

Lemma slices_Contains_false l x : slices_Contains l x = false <-> x ∉ l.
Proof.
  rewrite <- slices_Contains_spec. destruct (slices_Contains l x); naive_solver.
Qed.

(** ** Sorting

    [sort.SliceStable] and, on slices of at most twelve elements, [sort.Slice] run
    insertion sort: element [i] moves left while it is less than its left neighbour. The
    sorted prefix is kept reversed, so that its last element is at the head. *)

Fixpoint ins_rev {A} (less : A -> A -> bool) (x : A) (rp : list A) : list A :=
  match rp with
  | [] => [x]
  | y :: rp' => if less x y then y :: ins_rev less x rp' else x :: y :: rp'
  end.

Definition insertionSort {A} (less : A -> A -> bool) (l : list A) : list A :=
  reverse (foldl (fun rp x => ins_rev less x rp) [] l).

(** What [sort] requires of a [less] function: a strict weak ordering. *)
Record StrictWeak {A} (less : A -> A -> bool) : Prop := {
  sw_irrefl : forall x, less x x = false;
  sw_trans : forall x y z, less x y = true -> less y z = true -> less x z = true;
  sw_cotrans : forall x y z, less x z = true -> less x y = true \/ less y z = true
}.

(** What [sort.Slice] promises: a rearrangement of the slice with no element less than an
    earlier one. The order of equivalent elements is not promised. *)
Class SliceSorter {A} (less : A -> A -> bool) (sort : list A -> list A) : Prop := {
  sorter_perm : forall l, sort l ≡ₚ l;
  sorter_sorted : forall l, StronglySorted (fun a b => less b a = false) (sort l)
}.

Section Insertion.
Context {A : Type} (less : A -> A -> bool).

Lemma ins_rev_perm x rp : ins_rev less x rp ≡ₚ x :: rp.
Proof.
  induction rp as [|y rp IH]; simpl; [done|]. destruct (less x y); [|done].
  rewrite IH. apply Permutation_swap.
Qed.

Lemma foldl_ins_perm l rp : foldl (fun rp x => ins_rev less x rp) rp l ≡ₚ l ++ rp.
Proof.
  revert rp. induction l as [|x l IH]; intros rp; simpl; [done|].
  rewrite IH, ins_rev_perm. by rewrite <- Permutation_middle.
Qed.

Lemma insertionSort_perm l : insertionSort less l ≡ₚ l.
Proof.
  unfold insertionSort. rewrite reverse_Permutation, foldl_ins_perm. by rewrite app_nil_r.
Qed.

Context (SW : StrictWeak less).

Lemma ins_rev_sorted x rp :
  StronglySorted (fun a b => less a b = false) rp ->
  StronglySorted (fun a b => less a b = false) (ins_rev less x rp).
Proof.
  induction rp as [|y rp IH]; simpl; intros H; [by repeat constructor|].
  inversion H as [|? ? H1 H2]; subst. destruct (less x y) eqn:E.
  - constructor; [auto|]. rewrite ins_rev_perm. constructor; [|done].
    destruct (less y x) eqn:E'; [|done].
    pose proof (sw_trans _ SW _ _ _ E E') as F. by rewrite sw_irrefl in F.
  - constructor; [done|]. constructor; [done|].
    eapply Forall_impl; [exact H2|]. intros z Hz.
    destruct (less x z) eqn:E'; [|done].
    destruct (sw_cotrans _ SW _ y _ E'); congruence.
Qed.

Lemma foldl_ins_sorted l rp :
  StronglySorted (fun a b => less a b = false) rp ->
  StronglySorted (fun a b => less a b = false)
    (foldl (fun rp x => ins_rev less x rp) rp l).
Proof.
  revert rp. induction l as [|x l IH]; intros rp H; simpl; [done|].
  apply IH. by apply ins_rev_sorted.
Qed.

Lemma StronglySorted_snoc {B} (R : B -> B -> Prop) l x :
  StronglySorted R l -> Forall (fun y => R y x) l -> StronglySorted R (l ++ [x]).
Proof.
  induction 1 as [|y l Hs IH Hf]; intros H; simpl; [by repeat constructor|].
  inversion H; subst. constructor; [auto|].
  apply Forall_app. auto.
Qed.

Lemma StronglySorted_reverse {B} (R : B -> B -> Prop) l :
  StronglySorted R l -> StronglySorted (fun a b => R b a) (reverse l).
Proof.
  induction 1 as [|x l Hs IH Hf]; [constructor|].
  rewrite reverse_cons. apply StronglySorted_snoc; [done|].
  by rewrite reverse_Permutation.
Qed.

Lemma insertionSort_sorted l :
  StronglySorted (fun a b => less b a = false) (insertionSort less l).
Proof.
  apply (StronglySorted_reverse (fun a b => less a b = false)), foldl_ins_sorted.
  constructor.
Qed.

(** Stability: a class of mutually incomparable elements keeps its order. *)
Lemma ins_rev_filter (P : A -> bool) x rp :
  (forall a b, P a = true -> P b = true -> less a b = false) ->
  List.filter P (ins_rev less x rp) =
  (if P x then x :: List.filter P rp else List.filter P rp).
Proof.
  intros HP. induction rp as [|y rp IH]; simpl; [done|].
  destruct (less x y) eqn:E; simpl.
  - rewrite IH. destruct (P x) eqn:Px, (P y) eqn:Py; try done.
    by rewrite HP in E.
  - by destruct (P x), (P y).
Qed.

Lemma foldl_ins_filter (P : A -> bool) l rp :
  (forall a b, P a = true -> P b = true -> less a b = false) ->
  List.filter P (foldl (fun rp x => ins_rev less x rp) rp l) =
  reverse (List.filter P l) ++ List.filter P rp.
Proof.
  intros HP. revert rp. induction l as [|x l IH]; intros rp; simpl; [done|].
  rewrite IH, ins_rev_filter by done. destruct (P x); [|done].
  by rewrite reverse_cons, <- (assoc_L app).
Qed.

Lemma filter_reverse (P : A -> bool) l :
  List.filter P (reverse l) = reverse (List.filter P l).
Proof.
  induction l as [|x l IH]; [done|].
  rewrite reverse_cons, List.filter_app, IH. simpl.
  destruct (P x); [by rewrite reverse_cons|by rewrite app_nil_r].
Qed.

Lemma insertionSort_stable (P : A -> bool) l :
  (forall a b, P a = true -> P b = true -> less a b = false) ->
  List.filter P (insertionSort less l) = List.filter P l.
Proof.
  intros HP. unfold insertionSort. rewrite filter_reverse, foldl_ins_filter by done.
  simpl. by rewrite app_nil_r, reverse_involutive.
Qed.

#[export] Instance insertionSort_sorter : SliceSorter less (insertionSort less).
Proof. split; [apply insertionSort_perm|apply insertionSort_sorted]. Qed.

End Insertion.

Lemma StronglySorted_impl {B} (R R' : B -> B -> Prop) l :
  (forall x y, R x y -> R' x y) -> StronglySorted R l -> StronglySorted R' l.
Proof.
  intros H. induction 1 as [|x l Hs IH Hf]; constructor; [done|].
  eapply Forall_impl; eauto.
Qed.

(** An integer key gives a strict weak ordering, ascending or descending. *)
Lemma StrictWeak_key {A} (f : A -> Z) : StrictWeak (fun a b => (f a <? f b)%Z).
Proof.
  split; intros *; rewrite ?Z.ltb_lt, ?Z.ltb_ge; lia.
Qed.

Lemma StrictWeak_key_desc {A} (f : A -> Z) : StrictWeak (fun a b => (f b <? f a)%Z).
Proof.
  split; intros *; rewrite ?Z.ltb_lt, ?Z.ltb_ge; lia.
Qed.

#[export] Hint Resolve StrictWeak_key StrictWeak_key_desc : go.
