(* ===== verification/GoStrings.v ===== *)
(** * Text: the parts of packages strings and bufio in use

    White space and words as Go decodes them, trimming, and the lines of a [bufio.Scanner], as
    executable functions on byte strings, with the lemmas the components share: words and lines
    survive joining. *)

From S2P Require Import Prelude.
Local Open Scope Z_scope.

(** ** White space and [strings.Fields] *)

Definition bytes (l : list nat) : string :=
  foldr (fun n s => String (Ascii.ascii_of_nat n) s) EmptyString l.

(** The UTF-8 encodings of the runes [unicode.IsSpace] accepts. A lead byte is never a
    continuation byte, so a rune of this list starts where its bytes do, in valid text and in
    text Go decodes with replacement runes. *)
Definition spaces : list string :=
  bytes <$> [[32]; [9]; [10]; [11]; [12]; [13]; [194; 133]; [194; 160]; [225; 154; 128];
    [226; 128; 128]; [226; 128; 129]; [226; 128; 130]; [226; 128; 131]; [226; 128; 132];
    [226; 128; 133]; [226; 128; 134]; [226; 128; 135]; [226; 128; 136]; [226; 128; 137];
    [226; 128; 138]; [226; 128; 168]; [226; 128; 169]; [226; 128; 175]; [226; 129; 159];
    [227; 128; 128]]%nat.

(** The number of bytes of the white space rune at the head of a string, zero if none. *)
Definition space_len (s : string) : nat :=
  match find (HasPrefix s) spaces with Some p => String.length p | None => O end.

#[global] Arguments space_len : simpl never.

(** [strings.Fields]: [cur] is the field being read and [skip] the number of bytes left of
    the white space rune being passed over. *)
Fixpoint fields_from (skip : nat) (cur : string) (s : string) : list string :=
  match s with
  | EmptyString => if String.eqb cur "" then [] else [cur]
  | String c s' =>
      match skip with
      | S k => fields_from k cur s'
      | O => match space_len s with
             | O => fields_from O (cur +:+ String c "") s'
             | S k => if String.eqb cur "" then fields_from k "" s'
                      else cur :: fields_from k "" s'
             end
      end
  end.

Definition Fields (s : string) : list string := fields_from O "" s.

(** [strings.TrimSpace]. White space at the end is a suffix made of whole white space runes. *)
Fixpoint TrimLeft_from (skip : nat) (s : string) : string :=
  match s with
  | EmptyString => EmptyString
  | String _ s' =>
      match skip with
      | S k => TrimLeft_from k s'
      | O => match space_len s with O => s | S k => TrimLeft_from k s' end
      end
  end.

Definition all_space (s : string) : bool := String.eqb (TrimLeft_from O s) "".

Fixpoint TrimRight (s : string) : string :=
  match s with
  | EmptyString => EmptyString
  | String c s' => if all_space s then EmptyString else String c (TrimRight s')
  end.

Definition TrimSpace (s : string) : string := TrimRight (TrimLeft_from O s).

(** ** Lines *)

Definition newline : string := bytes [10]%nat.
Definition LF : ascii := Ascii.ascii_of_nat 10.
Definition CR : ascii := Ascii.ascii_of_nat 13.

(** [dropCR] of package bufio: a carriage return at the end of a line is not part of it. *)
Fixpoint dropCR (s : string) : string :=
  match s with
  | EmptyString => EmptyString
  | String c EmptyString => if Ascii.eqb c CR then EmptyString else s
  | String c s' => String c (dropCR s')
  end.

(** The lines a [bufio.Scanner] with the given maximal token size returns: it stops at a line
    that does not fit, and returns a last line without a line feed unless it is empty. [cur]
    is the line being read. *)
Fixpoint scan_from (max : Z) (cur : string) (s : string) : list string :=
  match s with
  | EmptyString =>
      if String.eqb cur "" then []
      else if max <=? Z.of_nat (String.length cur) then [] else [dropCR cur]
  | String c s' =>
      if Ascii.eqb c LF then
        if max <=? Z.of_nat (String.length cur) then [] else dropCR cur :: scan_from max "" s'
      else scan_from max (cur +:+ String c "") s'
  end.

Definition scan_lines (max : Z) (s : string) : list string := scan_from max "" s.

(** ** Words: lemmas *)

(** No white space rune starts inside [w] when [s] follows it. *)
Definition solid (w s : string) : Prop :=
  forall a b, w = a +:+ b -> b <> "" -> space_len (b +:+ s) = O.

Lemma space_len_find s : space_len s = O <-> find (HasPrefix s) spaces = None.
Proof.
  unfold space_len. split; [|by intros ->].
  destruct (find (HasPrefix s) spaces) as [p|] eqn:E; [|done].
  apply find_some in E as [I _].
  assert (Forall (fun p => String.length p <> O) spaces) as F.
  { apply (bool_decide_unpack _). vm_compute. exact Logic.I. }
  rewrite Forall_forall in F. intros. by destruct (F p (proj2 (list_elem_of_In _ _) I)).
Qed.

Lemma space_len_0 s : space_len s = O <-> forall p, p ∈ spaces -> HasPrefix s p = false.
Proof.
  rewrite space_len_find. split.
  - intros E p I. apply (find_none _ _ E). by apply list_elem_of_In.
  - intros H. destruct (find (HasPrefix s) spaces) as [p|] eqn:E; [|done].
    apply find_some in E as [I P]. rewrite H in P; [done|by apply list_elem_of_In].
Qed.

Lemma space_len_blank t : space_len (String " " t) = 1%nat.
Proof. by destruct t. Qed.

(** A blank after a text completes no white space rune begun in it. *)
Lemma HasPrefix_blank u t p :
  u <> "" -> p ∈ spaces -> HasPrefix (u +:+ " " +:+ t) p = true -> HasPrefix u p = true.
Proof.
  intros U I. assert (p = " " \/ Contains p " " = false) as C.
  { revert p I. apply Forall_forall. repeat (apply List.Forall_cons; [vm_compute; auto|]). constructor. }
  destruct C as [->|C].
  - destruct u as [|c u]; [done|]. cbn [HasPrefix String.append]. by destruct (Ascii.eqb " " c), u.
  - clear U I. revert u. induction p as [|x p IH]; intros u; [by destruct u|].
    rewrite Contains_unfold, orb_false_iff in C. destruct C as [C1 C2].
    destruct u as [|c u]; simpl.
    + intros H. cbn [HasPrefix] in C1. destruct (Ascii.eqb_spec x " "%char) as [->|N]; [|done].
      by destruct p.
    + destruct (Ascii.eqb x c); [|done]. by apply IH.
Qed.

Lemma HasPrefix_app_l u v p : HasPrefix u p = true -> HasPrefix (u +:+ v) p = true.
Proof.
  revert u. induction p as [|x p IH]; intros [|c u]; simpl; try done; [by destruct v|].
  destruct (Ascii.eqb x c); auto.
Qed.

Lemma solid_ends w s : solid w s -> solid w "" /\ forall t, solid w (" " +:+ t).
Proof.
  intros H. assert (solid w "") as H0.
  { intros a b -> N. specialize (H a b eq_refl N). rewrite str_app_nil_r.
    rewrite space_len_0 in H |- *. intros p I. specialize (H p I).
    destruct (HasPrefix b p) eqn:E; [|done]. by rewrite (HasPrefix_app_l b s p) in H. }
  split; [done|]. intros t a b -> N. specialize (H0 a b eq_refl N). rewrite str_app_nil_r in H0.
  rewrite space_len_0 in H0 |- *. intros p I. specialize (H0 p I).
  destruct (HasPrefix (b +:+ " " +:+ t) p) eqn:E; [|done].
  by rewrite (HasPrefix_blank b t p) in H0.
Qed.

(** A word read with nothing pending is read back whole. *)
Lemma fields_from_word w cur t :
  solid w t -> fields_from O cur (w +:+ t) = fields_from O (cur +:+ w) t.
Proof.
  revert cur. induction w as [|c w IH]; intros cur H; simpl; [by rewrite str_app_nil_r|].
  pose proof (H "" (String c w) eq_refl ltac:(done)) as K. simpl in K. rewrite K.
  rewrite IH; [by rewrite str_app_assoc|]. intros a b -> N. by apply (H (String c a) b).
Qed.

Lemma solid_snoc w c s : solid w (String c s) -> space_len (String c s) = O -> solid (w +:+ String c "") s.
Proof.
  intros H C. revert H. induction w as [|x w IH]; intros H a b E N; simpl in E.
  - destruct a as [|y a]; simpl in E; [subst b; by rewrite <- C|].
    injection E as _ E. by destruct a, b.
  - destruct a as [|y a]; simpl in E.
    + subst b. pose proof (H "" (String x w) eq_refl ltac:(done)) as K. rewrite <- K.
      simpl. by rewrite str_app_assoc.
    + injection E as _ E. apply (IH) with (a := a); [|done..].
      intros a' b' -> N'. by apply (H (String x a') b').
Qed.

(** The words [Fields] finds: not empty and without white space. *)
Definition word (w : string) : Prop := w <> "" /\ exists t, solid w t.

Lemma fields_from_words skip cur s :
  solid cur s -> (cur <> "" -> skip = O) -> Forall word (fields_from skip cur s).
Proof.
  revert skip cur. induction s as [|c s IH]; intros skip cur H K; simpl.
  { destruct (String.eqb_spec cur ""); repeat constructor; eauto. }
  assert (forall s, solid "" s) as Z by (intros ? a b E N; by destruct a, b).
  destruct skip as [|k].
  - destruct (space_len (String c s)) eqn:C.
    + apply IH; [by apply solid_snoc|done].
    + destruct (String.eqb_spec cur ""); [|constructor; [by split; [|eexists]|]]; apply IH; auto; done.
  - assert (cur = "") as -> by (destruct (decide (cur = "")); [done|by discriminate K]).
    apply IH; auto; done.
Qed.

Lemma Fields_concat ws : Forall word ws -> Fields (String.concat " " ws) = ws.
Proof.
  induction 1 as [|w ws [N [t S]] F IH]; [done|].
  apply solid_ends in S as [S0 S1]. destruct ws as [|w' ws].
  - unfold Fields. simpl. rewrite <- (str_app_nil_r w) at 1. rewrite fields_from_word by done.
    simpl. by destruct (String.eqb_spec w "").
  - change (String.concat " " (w :: w' :: ws)) with (w +:+ " " +:+ String.concat " " (w' :: ws)).
    unfold Fields. rewrite fields_from_word by apply S1. simpl.
    rewrite space_len_blank.
    destruct (String.eqb_spec w ""); [done|]. f_equal. exact IH.
Qed.


(** ** Lines: lemmas *)

Fixpoint has_char (c : ascii) (s : string) : bool :=
  match s with
  | EmptyString => false
  | String x s' => Ascii.eqb x c || has_char c s'
  end.

Lemma has_char_app c a b : has_char c (a +:+ b) = has_char c a || has_char c b.
Proof. induction a as [|x a IH]; simpl; [done|]. by rewrite IH, orb_assoc. Qed.

Lemma str_length_app a b :
  String.length (a +:+ b) = (String.length a + String.length b)%nat.
Proof. induction a as [|x a IH]; simpl; [done|]. by rewrite IH. Qed.

Lemma dropCR_id s : has_char CR s = false -> dropCR s = s.
Proof.
  induction s as [|c s IH]; [done|]. simpl. rewrite orb_false_iff. intros [H1 H2].
  destruct s; [by rewrite H1|]. by rewrite (IH H2).
Qed.

(** A text that fits on a line of the scanner as it is. *)
Definition line_ok (max : Z) (l : string) : Prop :=
  has_char LF l = false /\ has_char CR l = false /\ Z.of_nat (String.length l) < max.

Lemma scan_from_line max cur l s :
  has_char LF l = false -> Z.of_nat (String.length (cur +:+ l)) < max ->
  scan_from max cur (l +:+ String LF s) = dropCR (cur +:+ l) :: scan_from max "" s.
Proof.
  revert cur. induction l as [|c l IH]; intros cur H L; simpl.
  - rewrite str_app_nil_r in *. destruct (Z.leb_spec max (Z.of_nat (String.length cur))); [lia|done].
  - simpl in H. rewrite orb_false_iff in H. destruct H as [-> H].
    rewrite IH; [by rewrite str_app_assoc|done|]. by rewrite str_app_assoc.
Qed.

Lemma scan_lines_cons max l s :
  line_ok max l -> scan_lines max (l +:+ String LF s) = l :: scan_lines max s.
Proof.
  intros (H1 & H2 & H3). unfold scan_lines. rewrite scan_from_line by done. simpl.
  by rewrite dropCR_id.
Qed.

(** Every line followed by a line feed. *)
Definition unlines (ls : list string) : string := foldr (fun l s => l +:+ String LF s) "" ls.

Lemma unlines_app a b : unlines (a ++ b) = unlines a +:+ unlines b.
Proof.
  induction a as [|l a IH]; simpl; [done|]. by rewrite IH, str_app_assoc.
Qed.

Lemma scan_unlines max ls s :
  Forall (line_ok max) ls -> scan_lines max (unlines ls +:+ s) = ls ++ scan_lines max s.
Proof.
  induction 1 as [|l ls L F IH]; simpl; [done|].
  rewrite str_app_assoc. cbn [String.append]. rewrite scan_lines_cons by done. by rewrite IH.
Qed.

(** The lines of a text: its pieces between line feeds. *)
Fixpoint split_lines (s : string) : list string :=
  match s with
  | EmptyString => [""]
  | String c s' =>
      if Ascii.eqb c LF then "" :: split_lines s'
      else match split_lines s' with
           | [] => [String c ""]
           | l :: ls => String c l :: ls
           end
  end.

Lemma split_lines_nonempty s : split_lines s <> [].
Proof. destruct s as [|c s]; simpl; [done|]. by repeat case_match. Qed.

Lemma split_lines_concat s : String.concat newline (split_lines s) = s.
Proof.
  induction s as [|c s IH]; [done|]. pose proof (split_lines_nonempty s) as N. simpl.
  destruct (Ascii.eqb_spec c LF) as [->|].
  - destruct (split_lines s) as [|l ls]; [done|].
    change (String.concat newline ("" :: l :: ls)) with ("" +:+ newline +:+ String.concat newline (l :: ls)).
    by rewrite IH.
  - destruct (split_lines s) as [|l [|l' ls]]; [done|by simpl in *; subst|].
    change (String.concat newline (String c l :: l' :: ls))
      with (String c (l +:+ newline +:+ String.concat newline (l' :: ls))).
    change (String.concat newline (l :: l' :: ls))
      with (l +:+ newline +:+ String.concat newline (l' :: ls)) in IH. by rewrite IH.
Qed.

Lemma split_lines_LF s : Forall (fun l => has_char LF l = false) (split_lines s).
Proof.
  induction s as [|c s IH]; simpl; [by repeat constructor|].
  destruct (Ascii.eqb c LF) eqn:E; [by constructor|].
  destruct IH as [|l ls L F]; constructor; try done; simpl; by rewrite E.
Qed.

(** [strings.TrimSuffix]. *)
Definition TrimSuffix (s suf : string) : string :=
  if HasSuffix s suf then take_str (String.length s - String.length suf) s else s.

(** ** A text for every countable value *)

(** Bits of a number as a string, and back. *)
Fixpoint bits (p : positive) : string :=
  match p with xH => "" | xO p => String "0" (bits p) | xI p => String "1" (bits p) end.
Fixpoint unbits (s : string) : positive :=
  match s with
  | EmptyString => xH
  | String c s => if Ascii.eqb c "0" then xO (unbits s) else xI (unbits s)
  end.

Lemma unbits_bits p : unbits (bits p) = p.
Proof. induction p; simpl; congruence. Qed.

(** A codec for the witnesses of laws about encodings. *)
Definition text_of `{Countable A} (a : A) : string := bits (encode a).
Definition of_text `{Countable A} (s : string) : option A := decode (unbits s).

Lemma of_text_of `{Countable A} (a : A) : of_text (text_of a) = Some a.
Proof. unfold of_text, text_of. by rewrite unbits_bits, decode_encode. Qed.
