(* ===== verification/Float64.v ===== *)
(** * IEEE 754 binary64, Go's [float64]

    Prices, spends, costs and latencies are [float64] in the gateway. They are modelled by
    the standard library's executable specification of IEEE arithmetic ([SpecFloat]) at
    precision 53 and exponent bound 1024, rounding to nearest even, so every operation here
    computes the value the Go program computes. The lemmas give the order its structure. *)

From Stdlib Require Export SpecFloat.
From Stdlib Require Import Zpower.
From S2P Require Import Prelude.

Definition float64 : Type := spec_float.

Declare Scope f64_scope.
Delimit Scope f64_scope with f64.
Bind Scope f64_scope with float64.

Definition f64_add : float64 -> float64 -> float64 := SFadd 53 1024.
Definition f64_sub : float64 -> float64 -> float64 := SFsub 53 1024.
Definition f64_mul : float64 -> float64 -> float64 := SFmul 53 1024.
Definition f64_div : float64 -> float64 -> float64 := SFdiv 53 1024.
Definition f64_neg : float64 -> float64 := SFopp.
Definition f64_lt : float64 -> float64 -> bool := SFltb.
Definition f64_le : float64 -> float64 -> bool := SFleb.
Definition f64_eq : float64 -> float64 -> bool := SFeqb.

(** The conversion [float64(n)] of an integer, correctly rounded. *)
Definition f64_of_Z (n : Z) : float64 := binary_normalize 53 1024 n 0 false.

(** A Go decimal constant [n/d]: the quotient of two exact integers, correctly rounded. *)
Definition f64_const (n d : Z) : float64 := f64_div (f64_of_Z n) (f64_of_Z d).

Definition f64_0 : float64 := S754_zero false.

(** The value of a finite float truncated toward zero. *)
Definition f64_trunc (x : float64) : Z :=
  match x with
  | S754_finite s m e =>
      let v := (if (0 <=? e)%Z then Z.pos m * 2 ^ e else Z.pos m / 2 ^ (- e))%Z in
      if s then (- v)%Z else v
  | _ => 0%Z
  end.

(** The conversion [int64(x)] truncates toward zero. Go leaves a NaN, an infinity or an
    out-of-range value to the implementation; on amd64 the result is the minimal int64. *)
Definition f64_to_int64 (x : float64) : Z :=
  match x with
  | S754_zero _ => 0%Z
  | S754_finite _ _ _ =>
      let v := f64_trunc x in
      if (int64_min <=? v)%Z && (v <=? int64_max)%Z then v else int64_min
  | _ => int64_min
  end.

Definition f64_is_nan (x : float64) : bool :=
  match x with S754_nan => true | _ => false end.

Infix "+" := f64_add : f64_scope.
Infix "-" := f64_sub : f64_scope.
Infix "*" := f64_mul : f64_scope.
Infix "/" := f64_div : f64_scope.
Infix "<?" := f64_lt : f64_scope.
Infix "<=?" := f64_le : f64_scope.
Infix "=?" := f64_eq : f64_scope.

(** ** The order *)

(** A comparison key for non-NaN values: the order is lexicographic on it. *)
Definition f64_key (x : float64) : Z * Z * Z :=
  match x with
  | S754_nan => (0, 0, 0)
  | S754_zero _ => (0, 0, 0)
  | S754_infinity true => (-2, 0, 0)
  | S754_infinity false => (2, 0, 0)
  | S754_finite true m e => (-1, - e, - Z.pos m)
  | S754_finite false m e => (1, e, Z.pos m)
  end%Z.

Definition key_lt (a b : Z * Z * Z) : Prop :=
  let '(a1, a2, a3) := a in let '(b1, b2, b3) := b in
  (a1 < b1 \/ (a1 = b1 /\ (a2 < b2 \/ (a2 = b2 /\ a3 < b3))))%Z.

Lemma f64_lt_spec x y :
  f64_lt x y = true <->
  f64_is_nan x = false /\ f64_is_nan y = false /\ key_lt (f64_key x) (f64_key y).
Proof.
  unfold f64_lt, SFltb.
  destruct x as [| [] | | [] m e], y as [| [] | | [] m' e']; simpl;
    try (split; [intros; try discriminate; intuition lia | intuition lia || done]).
  - destruct (Z.compare_spec e e') as [->|?|?]; [|intuition (try lia; discriminate)..].
    change (Pcompare m m' Eq) with (m ?= m')%positive.
    destruct (Pos.compare_spec m m'); simpl; intuition (try lia; try discriminate).
  - destruct (Z.compare_spec e e') as [->|?|?]; [|intuition (try lia; discriminate)..].
    change (Pcompare m m' Eq) with (m ?= m')%positive.
    destruct (Pos.compare_spec m m'); simpl; intuition (try lia; try discriminate).
Qed.

Lemma key_lt_irrefl a : ~ key_lt a a.
Proof. destruct a as [[? ?] ?]. simpl. lia. Qed.

Lemma key_lt_trans a b c : key_lt a b -> key_lt b c -> key_lt a c.
Proof. destruct a as [[? ?] ?], b as [[? ?] ?], c as [[? ?] ?]. simpl. lia. Qed.

Lemma key_lt_cotrans a b c : key_lt a c -> key_lt a b \/ key_lt b c.
Proof. destruct a as [[? ?] ?], b as [[? ?] ?], c as [[? ?] ?]. simpl. lia. Qed.

Lemma f64_lt_irrefl x : f64_lt x x = false.
Proof.
  destruct (f64_lt x x) eqn:E; [|done]. apply f64_lt_spec in E as (_ & _ & E).
  by apply key_lt_irrefl in E.
Qed.

Lemma f64_lt_trans x y z :
  f64_lt x y = true -> f64_lt y z = true -> f64_lt x z = true.
Proof.
  rewrite !f64_lt_spec. intros (? & ? & ?) (? & ? & ?). eauto using key_lt_trans.
Qed.

Lemma f64_lt_asym x y : f64_lt x y = true -> f64_lt y x = false.
Proof.
  intros H. destruct (f64_lt y x) eqn:E; [|done].
  pose proof (f64_lt_trans _ _ _ H E) as F. by rewrite f64_lt_irrefl in F.
Qed.

Lemma f64_lt_cotrans x y z :
  f64_is_nan y = false -> f64_lt x z = true -> f64_lt x y = true \/ f64_lt y z = true.
Proof.
  intros Hy. rewrite !f64_lt_spec. intros (Hx & Hz & H).
  destruct (key_lt_cotrans _ (f64_key y) _ H); auto.
Qed.

(** [>=] as the code writes it, [spend >= limit], is [limit <= spend]. *)
Lemma f64_le_lt x y : f64_is_nan x = false -> f64_is_nan y = false ->
  f64_le x y = negb (f64_lt y x).
Proof.
  unfold f64_le, f64_lt, SFleb, SFltb.
  destruct x as [| [] | | [] m e], y as [| [] | | [] m' e']; simpl; try done; intros _ _.
  all: rewrite (Z.compare_antisym e e'); destruct (e ?= e')%Z; simpl; try done.
  all: change (Pcompare m m' Eq) with (m ?= m')%positive;
       change (Pcompare m' m Eq) with (m' ?= m)%positive;
       rewrite (Pos.compare_antisym m m'); by destruct (m ?= m')%positive.
Qed.

Lemma f64_le_nan_r x y : f64_le x y = true -> f64_is_nan y = false.
Proof. by destruct y, x as [| | | []]. Qed.

Lemma f64_le_nan_l x y : f64_le x y = true -> f64_is_nan x = false.
Proof. by destruct x, y. Qed.

Lemma f64_lt_nan_l x y : f64_lt x y = true -> f64_is_nan x = false.
Proof. rewrite f64_lt_spec. naive_solver. Qed.

Lemma f64_lt_nan_r x y : f64_lt x y = true -> f64_is_nan y = false.
Proof. rewrite f64_lt_spec. naive_solver. Qed.

Lemma f64_le_trans x y z : f64_le x y = true -> f64_le y z = true -> f64_le x z = true.
Proof.
  intros H1 H2.
  pose proof (f64_le_nan_l _ _ H1) as Nx. pose proof (f64_le_nan_r _ _ H1) as Ny.
  pose proof (f64_le_nan_r _ _ H2) as Nz.
  rewrite f64_le_lt in * by done. apply negb_true_iff in H1, H2. apply negb_true_iff.
  destruct (f64_lt z x) eqn:E; [|done].
  destruct (f64_lt_cotrans _ y _ Ny E); congruence.
Qed.

Lemma f64_le_refl x : f64_is_nan x = false -> f64_le x x = true.
Proof. intros H. by rewrite f64_le_lt, f64_lt_irrefl by done. Qed.

#[export] Hint Resolve f64_lt_irrefl f64_lt_trans f64_le_trans f64_le_refl : go.

(** A float key without NaN gives a strict weak ordering. *)
Lemma StrictWeak_f64 {A} (f : A -> float64) :
  (forall a, f64_is_nan (f a) = false) -> StrictWeak (fun a b => f64_lt (f a) (f b)).
Proof.
  intros H. split; intros *; eauto using f64_lt_irrefl, f64_lt_trans, f64_lt_cotrans.
Qed.

Lemma f64_of_Z_0 : f64_of_Z 0 = f64_0.
Proof. reflexivity. Qed.

(** Rounding keeps the sign of a positive number. *)
Lemma binary_round_aux_sign m e l : f64_lt (binary_round_aux 53 1024 false m e l) f64_0 = false.
Proof.
  unfold binary_round_aux. destruct (shr_fexp 53 1024 m e l) as [mrs e1].
  destruct (shr_fexp 53 1024 _ e1 _) as [mrs2 e2]. destruct (shr_m mrs2) as [|q|q]; [done| |done].
  by destruct (Z.leb e2 _).
Qed.

Lemma f64_of_Z_pos n : (0 < n)%Z -> f64_lt (f64_of_Z n) f64_0 = false.
Proof.
  destruct n as [|p|p]; try lia. intros _. unfold f64_of_Z, binary_normalize, binary_round.
  destruct (shl_align _ _ _) as [mz ez]. apply binary_round_aux_sign.
Qed.

(** ** Exact integers *)

Section Exact.
Local Open Scope Z_scope.

Lemma digits2_shift d p : digits2_pos (shift_pos d p) = (digits2_pos p + d)%positive.
Proof.
  unfold shift_pos. induction d as [|d IH] using Pos.peano_ind; [simpl; lia|].
  rewrite Pos.iter_succ. simpl. rewrite IH. lia.
Qed.

Lemma digits2_bound p : 2 ^ (Z.pos (digits2_pos p) - 1) <= Z.pos p < 2 ^ Z.pos (digits2_pos p).
Proof.
  induction p as [p IH|p IH|]; cbn [digits2_pos]; [| |simpl; lia];
    rewrite Pos2Z.inj_succ, ?Z.pow_succ_r by lia;
    replace (Z.succ (Z.pos (digits2_pos p)) - 1) with (Z.succ (Z.pos (digits2_pos p) - 1)) by lia;
    rewrite Z.pow_succ_r by lia; lia.
Qed.

(** A positive mantissa of exactly 53 digits needs no rounding. *)
Lemma round_normal m e :
  Zpos (digits2_pos m) = 53 -> -1074 <= e <= 971 ->
  binary_round_aux 53 1024 false (Zpos m) e loc_Exact = S754_finite false m e.
Proof.
  intros D E. assert (forall r, r = Zpos m -> shr_fexp 53 1024 r e loc_Exact = (Build_shr_record r false false, e)) as S.
  { intros r ->. unfold shr_fexp, Zdigits2. rewrite D. unfold fexp, SpecFloat.emin.
    replace (Z.max (53 + e - 53) (3 - 1024 - 53) - e) with 0 by lia. done. }
  unfold binary_round_aux. rewrite (S _ eq_refl). cbn [shr_m loc_of_shr_record round_nearest_even].
  rewrite (S _ eq_refl). cbn [shr_m].
  by rewrite (proj2 (Z.leb_le e (1024 - 53))) by lia.
Qed.

Lemma f64_of_pos p :
  Zpos (digits2_pos p) <= 53 ->
  exists m e, f64_of_Z (Zpos p) = S754_finite false m e /\ e <= 0 /\ Zpos m = Zpos p * 2 ^ (- e).
Proof.
  intros D. unfold f64_of_Z, binary_normalize, binary_round, shl_align, fexp, SpecFloat.emin.
  replace (Z.max (Z.pos (digits2_pos p) + 0 - 53) (3 - 1024 - 53) - 0) with (Z.pos (digits2_pos p) - 53) by lia.
  destruct (Z.pos (digits2_pos p) - 53) as [|d|d] eqn:E; [|lia|].
  - exists p, 0. rewrite round_normal by lia. split_and!; try done; lia.
  - exists (shift_pos d p), (Z.neg d).
    replace (Z.max (Z.pos (digits2_pos p) + 0 - 53) (3 - 1024 - 53)) with (Z.neg d) by lia. fold (shift_pos d p).
    rewrite round_normal by (rewrite ?digits2_shift; lia). split_and!; [done|lia|].
    rewrite shift_pos_correct, Z.mul_comm. done.
Qed.

(** Integers below 2^53 are floats. *)
Lemma f64_trunc_of_Z n : 0 <= n < 2 ^ 53 -> f64_trunc (f64_of_Z n) = n.
Proof.
  destruct n as [|p|p]; [done| |lia]. intros [_ L].
  destruct (f64_of_pos p) as (m & e & -> & E & M).
  { pose proof (digits2_bound p) as [B _]. destruct (Z.le_gt_cases (Z.pos (digits2_pos p)) 53); [done|].
    assert (2 ^ 53 <= 2 ^ (Z.pos (digits2_pos p) - 1)) by (apply Z.pow_le_mono_r; lia). lia. }
  unfold f64_trunc. rewrite M. destruct (Z.leb_spec 0 e).
  - replace e with 0 by lia. change (2 ^ 0) with 1. change (2 ^ - 0) with 1. lia.
  - apply Z.div_mul. assert (0 < 2 ^ (- e)) by (apply Z.pow_pos_nonneg; lia). lia.
Qed.

End Exact.
