(* ===== verification/Types.v ===== *)
(** * Request, response and routing data (internal/gateway/types)

    The records the handlers, the routing engine, the cache and the provider adapters
    exchange. A pointer field is an [option]; [json.RawMessage] is the raw text; a
    [uuid.UUID] is its canonical text, so that [UUID.String] is the identity. *)

From S2P Require Import Prelude Float64.

Abbreviation UUID := string.
Definition zero_uuid : UUID := "00000000-0000-0000-0000-000000000000".

Abbreviation RawMessage := string.

(** ** types/openai.go *)

Record Message := mkMessage {
  Role : string;
  Content : string
}.

Record StreamOptions := { IncludeUsage : bool }.

Record ChatCompletionRequest := mkRequest {
  Model : string;
  Messages : list Message;
  Temperature : option float64;
  MaxTokens : option Z;
  TopP : option float64;
  ReqN : option Z;
  Stream : bool;
  ReqStreamOptions : option StreamOptions;
  Stop : RawMessage;
  PresencePenalty : option float64;
  FrequencyPenalty : option float64;
  User : string;
  Tools : list RawMessage;
  Metadata : gmap string string;
  PromptSlug : string;
  PromptVariables : gmap string string
}.

Record Usage := mkUsage {
  PromptTokens : Z;
  CompletionTokens : Z;
  TotalTokens : Z
}.

Record Choice := mkChoice {
  ChoiceIndex : Z;
  ChoiceMessage : Message;
  FinishReason : string
}.

Record ChatCompletionResponse := mkResponse {
  RespID : string;
  RespObject : string;
  RespCreated : Z;
  RespModel : string;
  Choices : list Choice;
  RespUsage : option Usage
}.

Record ModelInfo := mkModelInfo {
  ModelInfoID : string;
  ModelInfoObject : string;
  ModelInfoCreated : Z;
  OwnedBy : string
}.

Record ErrorDetail := mkErrorDetail {
  ErrMessage : string;
  ErrType : string;
  ErrCode : string
}.

Record ParsedModel := mkParsedModel {
  ParsedProvider : string;
  ParsedModelName : string
}.

(** ** types/routing.go *)

(** [Strategy] is a string type; the named constants are the cases the engine knows. *)
Inductive Strategy :=
| StrategyDirect
| StrategyWeighted
| StrategyLeastCost
| StrategyFailover
| StrategyQuality
| StrategyOther (name : string).

Record RuleTarget := mkRuleTarget {
  RTProvider : string;
  RTModel : string;
  RTWeight : Z
}.

Record RouteMatch := mkRouteMatch {
  MModel : string;
  ModelPrefix : string;
  ModelRegex : string;
  KeyID : option UUID;
  MUserID : option UUID;
  MTeamID : option UUID;
  MOrgID : option UUID;
  MMetadata : gmap string string;
  MinContextTokens : Z;
  MaxContextTokens : Z;
  HasTools : bool
}.

Record RouteRule := mkRouteRule {
  RuleID : UUID;
  RuleName : string;
  Priority : Z;
  Enabled : bool;
  Match : RouteMatch;
  RuleStrategy : Strategy;
  RuleTargets : list RuleTarget;
  RuleCreatedAt : Time;
  RuleUpdatedAt : Time
}.

(** A request with the given model and messages and every optional field absent. *)
Definition simple_request (model : string) (msgs : list Message) : ChatCompletionRequest := {|
  Model := model; Messages := msgs; Temperature := None; MaxTokens := None; TopP := None;
  ReqN := None; Stream := false; ReqStreamOptions := None; Stop := "";
  PresencePenalty := None; FrequencyPenalty := None; User := ""; Tools := [];
  Metadata := ∅; PromptSlug := ""; PromptVariables := ∅ |}.
