(* ===== verification/ProviderErrors.v ===== *)
(** * Provider errors (internal/provider/errors.go and the adapters' errors.go)

    The categorised error an adapter returns, which codes are retryable, the normalisation
    of a provider's HTTP status, and the OpenAI, Anthropic and Gemini error parsers in front
    of it. JSON decoding of an error body is an argument of the parsers. *)

From S2P Require Import Prelude Float64.
Local Open Scope Z_scope.

Module PErr.

Inductive GatewayErrorCode :=
| ErrInvalidRequest
| ErrAuthFailed
| ErrPermissionDenied
| ErrModelNotFound
| ErrContextTooLong
| ErrRateLimited
| ErrProviderError
| ErrTimeout
| ErrNetworkError
| ErrOverloaded.

#[export] Instance GatewayErrorCode_eq_dec : EqDecision GatewayErrorCode.
Proof. solve_decision. Defined.

(** The wire string of a code. *)
Definition code_string (c : GatewayErrorCode) : string :=
  match c with
  | ErrInvalidRequest => "invalid_request_error"
  | ErrAuthFailed => "authentication_error"
  | ErrPermissionDenied => "permission_error"
  | ErrModelNotFound => "model_not_found"
  | ErrContextTooLong => "context_length_exceeded"
  | ErrRateLimited => "rate_limit_error"
  | ErrProviderError => "provider_error"
  | ErrTimeout => "timeout_error"
  | ErrNetworkError => "network_error"
  | ErrOverloaded => "overloaded_error"
  end.

Record GatewayError := mkGatewayError {
  Code : GatewayErrorCode;
  GMessage : string;
  HTTPStatus : Z;
  RetryAfter : Duration
}.

(** [GatewayError.Error]. *)
Definition gw_Error (e : GatewayError) : string :=
  code_string (Code e) +:+ ": " +:+ GMessage e.

Definition IsRetryable (e : GatewayError) : bool :=
  match Code e with
  | ErrRateLimited | ErrProviderError | ErrTimeout | ErrNetworkError | ErrOverloaded => true
  | _ => false
  end.

Definition NewNetworkError (msg : string) : GatewayError :=
  mkGatewayError ErrNetworkError msg 503 0.

(** Go errors as the gateway inspects them: a [GatewayError], the two context errors,
    anything else, and [fmt.Errorf] with [%w] around one of them. *)
Inductive goerror :=
| EGateway (e : GatewayError)
| ECanceled
| EDeadlineExceeded
| EOther (msg : string)
| EWrap (prefix : string) (e : goerror).

(** [errors.As(err, &gwErr)] and [errors.Is(err, context.X)] follow the wrapped chain. *)
Fixpoint errors_As_gateway (e : goerror) : option GatewayError :=
  match e with
  | EGateway g => Some g
  | EWrap _ e' => errors_As_gateway e'
  | _ => None
  end.

Fixpoint errors_Is_context (e : goerror) : bool :=
  match e with
  | ECanceled | EDeadlineExceeded => true
  | EWrap _ e' => errors_Is_context e'
  | _ => false
  end.

Section Headers.
(** [strconv.ParseFloat] on a header value: [None] when it returns an error. *)
Context (ParseFloat : string -> option float64).

(** [ParseRetryAfterHeader]: the header's value, [""] when it is absent. The conversion
    to a Duration truncates the product. *)
Definition ParseRetryAfterHeader (v : string) : Duration :=
  if String.eqb v "" then 0
  else match ParseFloat v with
       | Some secs =>
           if f64_lt f64_0 secs
           then f64_to_int64 (f64_mul secs (f64_of_Z Second))
           else 0
       | None => 0
       end.

Definition NormalizeHTTPError (status : Z) (msg : string) (retry_header : string)
  : GatewayError :=
  let retryAfter := ParseRetryAfterHeader retry_header in
  if status =? 400 then mkGatewayError ErrInvalidRequest msg 400 0
  else if status =? 401 then mkGatewayError ErrAuthFailed msg 401 0
  else if status =? 403 then mkGatewayError ErrPermissionDenied msg 403 0
  else if status =? 404 then mkGatewayError ErrModelNotFound msg 404 0
  else if (status =? 413) || (status =? 422) then mkGatewayError ErrInvalidRequest msg status 0
  else if status =? 429 then mkGatewayError ErrRateLimited msg 429 retryAfter
  else if status =? 503 then mkGatewayError ErrOverloaded msg 503 retryAfter
  else if status =? 504 then mkGatewayError ErrTimeout msg 504 retryAfter
  else if 500 <=? status then mkGatewayError ErrProviderError msg 502 retryAfter
  else mkGatewayError ErrInvalidRequest msg status 0.

(** *** openai/errors.go: the decoded body's message and, when present, its code as
    [fmt] prints it; [None] when the body does not decode. *)
Definition openai_extractMessage (Unmarshal : string -> option (string * option string))
    (body : string) : string :=
  match Unmarshal body with
  | None => body
  | Some (m, code) =>
      if String.eqb m "" then body
      else match code with
           | Some c => m +:+ " (" +:+ c +:+ ")"
           | None => m
           end
  end.

Definition openai_ParseError Unmarshal (status : Z) (body header : string) : GatewayError :=
  NormalizeHTTPError status (openai_extractMessage Unmarshal body) header.

(** *** anthropic/errors.go *)
Definition anthropic_extractMessage (Unmarshal : string -> option string) (body : string)
  : string :=
  match Unmarshal body with
  | None => body
  | Some m => if String.eqb m "" then body else m
  end.

Definition anthropic_ParseError Unmarshal (status : Z) (body header : string) : GatewayError :=
  let msg := anthropic_extractMessage Unmarshal body in
  let status := if status =? 529 then 503 else status in
  NormalizeHTTPError status msg header.

(** *** gemini/errors.go: the decoded body's message and gRPC status name. *)
Definition mapGRPCStatus (grpcStatus : string) (fallback : Z) : Z :=
  if String.eqb grpcStatus "RESOURCE_EXHAUSTED" then 429
  else if String.eqb grpcStatus "UNAUTHENTICATED" then 401
  else if String.eqb grpcStatus "PERMISSION_DENIED" then 403
  else if String.eqb grpcStatus "NOT_FOUND" then 404
  else if String.eqb grpcStatus "INVALID_ARGUMENT"
          || String.eqb grpcStatus "FAILED_PRECONDITION" then 400
  else if String.eqb grpcStatus "UNAVAILABLE" then 503
  else if String.eqb grpcStatus "INTERNAL" then 500
  else fallback.

Definition gemini_extractError (Unmarshal : string -> option (string * string))
    (body : string) (httpStatus : Z) : string * Z :=
  match Unmarshal body with
  | None => (body, httpStatus)
  | Some (m, grpc) =>
      if String.eqb m "" then (body, httpStatus) else (m, mapGRPCStatus grpc httpStatus)
  end.

Definition gemini_ParseError Unmarshal (status : Z) (body header : string) : GatewayError :=
  let '(msg, mapped) := gemini_extractError Unmarshal body status in
  NormalizeHTTPError mapped msg header.

End Headers.

(** The statuses after which another attempt can help: rate limiting and server errors. *)
Definition retryable_status (status : Z) : bool := (status =? 429) || (500 <=? status).

Lemma NormalizeHTTPError_retryable PF status msg h :
  IsRetryable (NormalizeHTTPError PF status msg h) = retryable_status status.
Proof.
  unfold NormalizeHTTPError, retryable_status, IsRetryable.
  repeat (case_match; simpl; breflect; subst; try done); simpl.
  all: repeat match goal with
       | H : (_ || _)%bool = true |- _ => apply orb_true_iff in H as [?|?]; breflect; subst
       end; simpl; try lia; try done.
  all: symmetry; apply orb_false_iff; rewrite Z.eqb_neq, Z.leb_gt; lia.
Qed.

(** The status a client sees for a provider's status. *)
Definition client_status (status : Z) : Z :=
  if (500 <=? status) && negb (status =? 503) && negb (status =? 504) then 502 else status.

(** Every normalised error carries the client-facing status of its class: the provider's
    own status, except that a server error other than 503 and 504 is reported as 502. *)
Lemma NormalizeHTTPError_status PF status msg h :
  HTTPStatus (NormalizeHTTPError PF status msg h) = client_status status.
Proof.
  unfold NormalizeHTTPError, client_status.
  destruct (500 <=? status) eqn:E5, (status =? 503) eqn:E53, (status =? 504) eqn:E54;
    breflect; subst; simpl; try lia;
    repeat (match goal with |- context [status =? ?k] =>
              destruct (Z.eqb_spec status k); subst; simpl; try lia end); done.
Qed.

Lemma NormalizeHTTPError_message PF status msg h :
  GMessage (NormalizeHTTPError PF status msg h) = msg.
Proof. unfold NormalizeHTTPError. by repeat case_match. Qed.

(** A retry hint only ever accompanies a retryable error. *)
Lemma NormalizeHTTPError_hint PF status msg h :
  RetryAfter (NormalizeHTTPError PF status msg h) <> 0 ->
  IsRetryable (NormalizeHTTPError PF status msg h) = true.
Proof. unfold NormalizeHTTPError. repeat case_match; simpl; done. Qed.

(** What an error says of the provider's status it was made from. *)
Record classified (status : Z) (e : GatewayError) : Prop := {
  cl_retry : IsRetryable e = retryable_status status;
  cl_status : HTTPStatus e = client_status status;
  cl_hint : RetryAfter e <> 0 -> IsRetryable e = true
}.

Lemma NormalizeHTTPError_classified PF status msg h :
  classified status (NormalizeHTTPError PF status msg h).
Proof.
  split; [apply NormalizeHTTPError_retryable|apply NormalizeHTTPError_status|
          apply NormalizeHTTPError_hint].
Qed.

(** Every adapter's error parser classifies an HTTP failure the same way, whatever
    the body says: rate limiting and server errors are retryable and nothing else is, a
    server error other than 503 and 504 is reported as 502, and only a retryable error
    carries a retry hint. Anthropic's 529 counts as 503; Gemini's decoded gRPC status name
    overrides the HTTP status, so quota exhaustion is retryable under any HTTP status and an
    invalid argument never is. *)
Theorem ParseError_classified PF Uo Ua Ug status body h :
  classified status (openai_ParseError PF Uo status body h) /\
  classified (if status =? 529 then 503 else status) (anthropic_ParseError PF Ua status body h) /\
  classified (gemini_extractError Ug body status).2 (gemini_ParseError PF Ug status body h) /\
  (forall m, Ug body = Some (m, "RESOURCE_EXHAUSTED") -> m <> "" ->
     IsRetryable (gemini_ParseError PF Ug status body h) = true) /\
  (forall m, Ug body = Some (m, "INVALID_ARGUMENT") -> m <> "" ->
     IsRetryable (gemini_ParseError PF Ug status body h) = false).
Proof.
  assert (classified (gemini_extractError Ug body status).2
    (gemini_ParseError PF Ug status body h)) as G.
  { unfold gemini_ParseError. destruct (gemini_extractError Ug body status).
    apply NormalizeHTTPError_classified. }
  split; [apply NormalizeHTTPError_classified|]. split; [apply NormalizeHTTPError_classified|].
  split; [done|]. rewrite (cl_retry _ _ G). unfold gemini_extractError.
  split; intros m -> N; apply String.eqb_neq in N; by rewrite N.
Qed.

Lemma ParseError_classified_witness :
  IsRetryable (gemini_ParseError (fun _ => None) (fun _ => Some ("quota", "RESOURCE_EXHAUSTED"))
    400 "{}" "") = true.
Proof.
  destruct (ParseError_classified (fun _ => None) (fun _ => None) (fun _ => None)
    (fun _ => Some ("quota", "RESOURCE_EXHAUSTED")) 400 "{}" "") as (_ & _ & _ & H & _).
  apply (H "quota"); [reflexivity|discriminate].
Defined.

Lemma errors_As_context_disjoint e g :
  errors_As_gateway e = Some g -> errors_Is_context e = false.
Proof. induction e; simpl; intros; try done; auto. Qed.

End PErr.
