(* ===== verification/CircuitBreaker.v ===== *)
(** * The circuit breaker (internal/gateway/circuitbreaker/circuit_breaker.go)

    One entry per provider. Every exported method holds the mutex for its whole body, so a
    concurrent execution is a sequence of the atomic operations below; the clock reading
    each method takes is its [now] argument. *)

From S2P Require Import Prelude.
Local Open Scope Z_scope.
Local Open Scope go_scope.

Module CB.

Inductive State := StateClosed | StateOpen | StateHalfOpen.

#[export] Instance State_eq_dec : EqDecision State.
Proof. solve_decision. Defined.

Definition State_String (s : State) : string :=
  match s with
  | StateClosed => "closed"
  | StateOpen => "open"
  | StateHalfOpen => "half_open"
  end.

Record Config := mkConfig {
  FailureThreshold : Z;
  SuccessThreshold : Z;
  OpenTimeout : Duration
}.

Definition DefaultConfig : Config := mkConfig 5 2 (60 * Second).

Record entry := mkEntry {
  state : State;
  failures : Z;
  successes : Z;
  lastFailureAt : Time
}.

Record CircuitBreaker := mkCB {
  entries : gmap string entry;
  cfg : Config
}.

Definition New (c : Config) : CircuitBreaker := mkCB ∅ c.

Definition closed_entry : entry := mkEntry StateClosed 0 0 0.

(** [get] returns the provider's entry, creating a closed one on first use. *)
Definition get (cb : CircuitBreaker) (provider : string) : entry * CircuitBreaker :=
  match entries cb !! provider with
  | Some e => (e, cb)
  | None => (closed_entry, mkCB (<[provider := closed_entry]> (entries cb)) (cfg cb))
  end.

(** A write through the entry pointer [get] returned. *)
Definition put (cb : CircuitBreaker) (provider : string) (e : entry) : CircuitBreaker :=
  mkCB (<[provider := e]> (entries cb)) (cfg cb).

Definition IsOpen (cb : CircuitBreaker) (provider : string) (now : Time)
  : bool * CircuitBreaker :=
  let '(e, cb) := get cb provider in
  match state e with
  | StateOpen =>
      if OpenTimeout (cfg cb) <=? time_Sub now (lastFailureAt e)
      then (false, put cb provider (mkEntry StateHalfOpen (failures e) 0 (lastFailureAt e)))
      else (true, cb)
  | _ => (false, cb)
  end.

Definition RecordSuccess (cb : CircuitBreaker) (provider : string) : CircuitBreaker :=
  let '(e, cb) := get cb provider in
  match state e with
  | StateHalfOpen =>
      let s := successes e +i 1 in
      if SuccessThreshold (cfg cb) <=? s
      then put cb provider (mkEntry StateClosed 0 0 (lastFailureAt e))
      else put cb provider (mkEntry StateHalfOpen (failures e) s (lastFailureAt e))
  | StateClosed => put cb provider (mkEntry StateClosed 0 (successes e) (lastFailureAt e))
  | StateOpen => cb
  end.

Definition RecordFailure (cb : CircuitBreaker) (provider : string) (now : Time)
  : CircuitBreaker :=
  let '(e, cb) := get cb provider in
  let f := failures e +i 1 in
  match state e with
  | StateClosed =>
      let st := if FailureThreshold (cfg cb) <=? f then StateOpen else StateClosed in
      put cb provider (mkEntry st f (successes e) now)
  | StateHalfOpen => put cb provider (mkEntry StateOpen 0 (successes e) now)
  | StateOpen => put cb provider (mkEntry StateOpen f (successes e) now)
  end.

Definition Reset (cb : CircuitBreaker) (provider : string) : CircuitBreaker :=
  mkCB (<[provider := closed_entry]> (entries cb)) (cfg cb).

(** [AdminCircuitBreakerHandler.Reset]: the status, and the breaker. *)
Definition admin_Reset (cb : CircuitBreaker) (provider : string) : Z * CircuitBreaker :=
  if String.eqb provider "" then (400, cb) else (200, Reset cb provider).

Definition AllStatus (cb : CircuitBreaker) : gmap string string :=
  (fun e => State_String (state e)) <$> entries cb.

Record ProviderStatusDetail := mkDetail {
  DProvider : string;
  DState : string;
  FailureCount : Z;
  LastFailure : option Time;
  ResetTime : option Time
}.

(** The body of [AllStatusDetailed]'s loop. *)
Definition detail (c : Config) (p : string) (e : entry) : ProviderStatusDetail :=
  let seen := negb (IsZero (lastFailureAt e)) in
  mkDetail p (State_String (state e)) (failures e)
    (if seen then Some (lastFailureAt e) else None)
    (if seen && bool_decide (state e = StateOpen)
     then Some (time_Add (lastFailureAt e) (OpenTimeout c)) else None).

(** [AllStatusDetailed] ranges over a map, so the order of its rows is unspecified; the
    model fixes the map's canonical enumeration. *)
Definition AllStatusDetailed (cb : CircuitBreaker) : list ProviderStatusDetail :=
  (fun '(p, e) => detail (cfg cb) p e) <$> map_to_list (entries cb).

Definition ProviderStatus (cb : CircuitBreaker) (provider : string)
  : string * CircuitBreaker :=
  let '(e, cb) := get cb provider in (State_String (state e), cb).

(** ** Concurrent executions as sequences of atomic operations *)

Inductive op :=
| OpIsOpen (p : string) (now : Time)
| OpSuccess (p : string)
| OpFailure (p : string) (now : Time)
| OpReset (p : string)
| OpStatus (p : string).

Definition op_provider (o : op) : string :=
  match o with
  | OpIsOpen p _ | OpSuccess p | OpFailure p _ | OpReset p | OpStatus p => p
  end.

Definition apply_op (cb : CircuitBreaker) (o : op) : CircuitBreaker :=
  match o with
  | OpIsOpen p now => (IsOpen cb p now).2
  | OpSuccess p => RecordSuccess cb p
  | OpFailure p now => RecordFailure cb p now
  | OpReset p => Reset cb p
  | OpStatus p => (ProviderStatus cb p).2
  end.

Inductive step (cb : CircuitBreaker) : CircuitBreaker -> Prop :=
| step_op o : step cb (apply_op cb o).

Definition reachable (c : Config) : CircuitBreaker -> Prop := rtc step (New c).

(** The entry an operation works on. *)
Definition look (cb : CircuitBreaker) (p : string) : entry :=
  default closed_entry (entries cb !! p).

(** The well-formedness invariant of an entry. *)
Definition wf_entry (c : Config) (e : entry) : Prop :=
  match state e with
  | StateClosed => 0 <= failures e < FailureThreshold c
  | StateOpen => in_int64 (failures e)
  | StateHalfOpen => 0 <= successes e < SuccessThreshold c
  end /\ in_int64 (failures e) /\ in_int64 (successes e).

Definition wf_config (c : Config) : Prop :=
  1 <= FailureThreshold c <= int64_max /\ 1 <= SuccessThreshold c <= int64_max /\
  0 <= OpenTimeout c <= int64_max.

Definition wf (cb : CircuitBreaker) : Prop := forall p, wf_entry (cfg cb) (look cb p).

(** The circuit's state name for a provider, as the admin API reports it. *)
Definition status (cb : CircuitBreaker) (p : string) : State := state (look cb p).

(** The entry transformer each operation applies: the per-provider view of the breaker. *)
Definition entry_op (c : Config) (o : op) (e : entry) : entry :=
  match o with
  | OpIsOpen _ now =>
      match state e with
      | StateOpen =>
          if OpenTimeout c <=? time_Sub now (lastFailureAt e)
          then mkEntry StateHalfOpen (failures e) 0 (lastFailureAt e) else e
      | _ => e
      end
  | OpSuccess _ =>
      match state e with
      | StateHalfOpen =>
          let s := successes e +i 1 in
          if SuccessThreshold c <=? s then mkEntry StateClosed 0 0 (lastFailureAt e)
          else mkEntry StateHalfOpen (failures e) s (lastFailureAt e)
      | StateClosed => mkEntry StateClosed 0 (successes e) (lastFailureAt e)
      | StateOpen => e
      end
  | OpFailure _ now =>
      let f := failures e +i 1 in
      match state e with
      | StateClosed =>
          mkEntry (if FailureThreshold c <=? f then StateOpen else StateClosed) f
            (successes e) now
      | StateHalfOpen => mkEntry StateOpen 0 (successes e) now
      | StateOpen => mkEntry StateOpen f (successes e) now
      end
  | OpReset _ => closed_entry
  | OpStatus _ => e
  end.

(** ** Lemmas *)

Lemma look_put cb p e q : look (put cb p e) q = if decide (p = q) then e else look cb q.
Proof. unfold look, put. simpl. rewrite lookup_insert. by case_decide. Qed.

Lemma get_look cb p : (get cb p).1 = look cb p.
Proof. unfold get, look. by destruct (entries cb !! p). Qed.

Lemma get_cfg cb p : cfg (get cb p).2 = cfg cb.
Proof. unfold get. by destruct (entries cb !! p). Qed.

Lemma look_get cb p q : look (get cb p).2 q = look cb q.
Proof.
  unfold get, look. destruct (entries cb !! p) eqn:E; [done|]. simpl.
  rewrite lookup_insert. case_decide; subst; [by rewrite E|done].
Qed.

(** Every operation changes its own provider's entry, by its transformer, and no other. *)
Lemma look_apply cb o q :
  look (apply_op cb o) q =
  if decide (op_provider o = q) then entry_op (cfg cb) o (look cb q) else look cb q.
Proof.
  destruct o as [p now|p|p now|p|p]; simpl;
    unfold IsOpen, RecordSuccess, RecordFailure, ProviderStatus, Reset.
  4: { unfold look. simpl. rewrite lookup_insert. by case_decide. }
  all: pose proof (get_look cb p) as G; pose proof (get_cfg cb p) as C;
       pose proof (look_get cb p q) as L; destruct (get cb p) as [e cb']; simpl in *; subst e.
  all: rewrite ?C; destruct (state (look cb p)) eqn:S; simpl; rewrite ?L;
       repeat case_match; simpl; rewrite ?look_put, ?L; try case_decide; subst; auto;
       rewrite ?S; auto.
  all: repeat case_match; simpl; auto; try congruence.
Qed.

Lemma cfg_apply cb o : cfg (apply_op cb o) = cfg cb.
Proof.
  destruct o as [p now|p|p now|p|p]; simpl;
    unfold IsOpen, RecordSuccess, RecordFailure, ProviderStatus, Reset; [..|done|];
    pose proof (get_cfg cb p); destruct (get cb p) as [e cb']; simpl in *;
    repeat case_match; simpl; done.
Qed.

Lemma IsOpen_result cb p now :
  (IsOpen cb p now).1 =
  bool_decide (state (look cb p) = StateOpen) &&
  negb (OpenTimeout (cfg cb) <=? time_Sub now (lastFailureAt (look cb p))).
Proof.
  unfold IsOpen. pose proof (get_look cb p) as G. pose proof (get_cfg cb p) as C.
  destruct (get cb p) as [e cb']; simpl in *; subst e. rewrite C.
  destruct (state (look cb p)); simpl; try done. by case_match.
Qed.

Lemma IsOpen_blocked cb p now : (IsOpen cb p now).1 = true -> (IsOpen cb p now).2 = cb.
Proof.
  unfold IsOpen, get. destruct (entries cb !! p) as [e|]; [|done].
  destruct (state e); simpl; try done. by case_match.
Qed.

Lemma wf_closed c : wf_config c -> wf_entry c closed_entry.
Proof. unfold wf_config, wf_entry, in_int64, int64_min, int64_max. simpl. lia. Qed.

Lemma wf_entry_op c o e : wf_config c -> wf_entry c e -> wf_entry c (entry_op c o e).
Proof.
  intros HC [H1 [H2 H3]]. destruct o; simpl; [| | |by apply wf_closed|by split].
  all: pose proof (wrap64_range (failures e + 1)); pose proof (wrap64_range (successes e + 1)).
  all: destruct (state e) eqn:S; repeat case_match; breflect;
       unfold wf_entry; simpl; rewrite ?S; unfold wf_config in HC;
       try (split; [|split]; try done; unfold in_int64, int64_min, int64_max in *; lia).
  - split; [|done]. rewrite wrap64_id in * by (unfold in_int64, int64_min, int64_max in *; lia).
    lia.
  - split; [|done]. rewrite wrap64_id in * by (unfold in_int64, int64_min, int64_max in *; lia).
    lia.
Qed.

Lemma cfg_run cb ops : cfg (foldl apply_op cb ops) = cfg cb.
Proof.
  revert cb. induction ops as [|o ops IH]; intros cb; [done|]. simpl. by rewrite IH, cfg_apply.
Qed.

Lemma run_ops_other cb ops q :
  Forall (fun o => op_provider o <> q) ops ->
  look (foldl apply_op cb ops) q = look cb q /\ cfg (foldl apply_op cb ops) = cfg cb.
Proof.
  revert cb. induction ops as [|o ops IH]; intros cb H; [done|].
  inversion H; subst. simpl. destruct (IH (apply_op cb o)) as [-> ->]; [done|].
  rewrite look_apply, cfg_apply. by case_decide.
Qed.

(** *** Outcomes of a provider's requests *)

(** An outcome of a request: success, or failure at a time. *)
Abbreviation outcome := (option Time).

Definition outcome_op (p : string) (o : outcome) : op :=
  match o with None => OpSuccess p | Some now => OpFailure p now end.

Definition record_all (cb : CircuitBreaker) (p : string) (h : list outcome)
  : CircuitBreaker :=
  foldl apply_op cb (outcome_op p <$> h).

(** The number of failures a history ends with. *)
Definition streak (h : list outcome) : nat :=
  foldl (fun n o => match o with None => O | Some _ => S n end) O h.

(** The history has [n] consecutive failures somewhere. *)
Definition has_run (n : nat) (h : list outcome) : Prop :=
  exists a f c, h = a ++ f ++ c /\ length f = n /\ Forall is_Some f.

Lemma streak_snoc h o :
  streak (h ++ [o]) = match o with None => O | Some _ => S (streak h) end.
Proof. unfold streak. by rewrite foldl_app. Qed.

Lemma streak_suffix h n :
  (n <= streak h)%nat -> exists a f, h = a ++ f /\ length f = n /\ Forall is_Some f.
Proof.
  revert n. induction h as [|o h IH] using rev_ind; intros n H.
  - exists [], []. unfold streak in H; simpl in H. repeat split; [simpl; lia|constructor].
  - rewrite streak_snoc in H. destruct n as [|n].
    { exists (h ++ [o]), []. rewrite app_nil_r. by repeat split. }
    destruct o as [t|]; [|lia]. destruct (IH n ltac:(lia)) as (a & f & -> & L & F).
    exists a, (f ++ [Some t]). rewrite length_app. simpl. repeat split; [|lia|].
    { by rewrite <- (assoc_L app). }
    apply Forall_app. split; [done|]. by repeat constructor.
Qed.

Lemma suffix_streak a f : Forall is_Some f -> (length f <= streak (a ++ f))%nat.
Proof.
  induction f as [|o f IH] using rev_ind; intros F; [simpl; lia|].
  apply Forall_app in F as [F1 F2]. inversion F2 as [|? ? [t ->] _]; subst.
  rewrite (assoc_L app), streak_snoc, length_app. simpl. specialize (IH F1). lia.
Qed.

Lemma has_run_snoc n h o :
  (1 <= n)%nat -> has_run n (h ++ [o]) <-> has_run n h \/ (n <= streak (h ++ [o]))%nat.
Proof.
  intros Hn. split.
  - intros (a & f & c & E & L & F). destruct c as [|x c _] using rev_ind.
    + right. rewrite app_nil_r in E. rewrite E, <- L. by apply suffix_streak.
    + left. rewrite !(assoc_L app) in E. apply app_inj_tail in E as [-> _].
      exists a, f, c. by rewrite <- (assoc_L app).
  - intros [(a & f & c & -> & L & F)|H].
    + exists a, f, (c ++ [o]). by rewrite <- !(assoc_L app).
    + destruct (streak_suffix _ _ H) as (a & f & -> & L & F).
      exists a, f, []. by rewrite app_nil_r.
Qed.

Lemma record_all_state c p h :
  wf_config c ->
  let e := look (record_all (New c) p h) p in
  let n := Z.to_nat (FailureThreshold c) in
  (state e = StateClosed /\ failures e = Z.of_nat (streak h) /\ ~ has_run n h) \/
  (state e = StateOpen /\ has_run n h).
Proof.
  intros (HF & _). simpl. induction h as [|o h IH] using rev_ind.
  - left. repeat split. intros (a & f & c0 & E & L & _).
    symmetry in E. apply app_nil in E as [-> E]. apply app_nil in E as [-> ->]. simpl in L. lia.
  - assert (C : cfg (record_all (New c) p h) = c).
    { apply cfg_run. }
    unfold record_all in *. rewrite fmap_app, foldl_app. simpl. rewrite look_apply, C.
    replace (op_provider (outcome_op p o)) with p by (by destruct o).
    case_decide; [|done]. rewrite has_run_snoc by lia.
    destruct IH as [(St & F & R)|(St & R)].
    + destruct o as [t|]; simpl; rewrite St; simpl; rewrite streak_snoc.
      * assert (W : failures (look (foldl apply_op (New c) (outcome_op p <$> h)) p) +i 1
                    = Z.of_nat (S (streak h))).
        { rewrite F, wrap64_id; [lia|]. unfold in_int64, int64_min, int64_max in *.
          assert (streak h < Z.to_nat (FailureThreshold c))%nat; [|lia].
          apply Nat.nle_gt. intros G. apply R.
          destruct (streak_suffix _ _ G) as (a & f & -> & L & FF).
          exists a, f, []. by rewrite app_nil_r. }
        rewrite W. destruct (FailureThreshold c <=? Z.of_nat (S (streak h))) eqn:E; breflect.
        -- right. split; [done|]. right. lia.
        -- left. split; [done|]. split; [done|]. intros [?|?]; [done|]. lia.
      * left. split; [done|]. split; [done|]. intros [?|?]; [done|]. lia.
    + right. destruct o; simpl; rewrite St; simpl; auto.
Qed.

Lemma entry_op_successes c p n e :
  wf_config c -> state e = StateHalfOpen -> successes e = 0 ->
  (Z.of_nat n < SuccessThreshold c) ->
  let e' := foldl (fun e o => entry_op c o e) e (replicate n (OpSuccess p)) in
  state e' = StateHalfOpen /\ successes e' = Z.of_nat n /\ lastFailureAt e' = lastFailureAt e.
Proof.
  intros (_ & HS & _) H1 H2. induction n as [|n IH]; intros Hn; [done|].
  rewrite replicate_S_end, foldl_app. destruct (IH ltac:(lia)) as (S & U & T).
  simpl in *. rewrite S, U, wrap64_id; [|unfold in_int64, int64_min, int64_max in *; lia].
  destruct (SuccessThreshold c <=? Z.of_nat n + 1) eqn:E; breflect; [lia|].
  simpl. repeat split; [lia|done].
Qed.

Lemma look_run_same cb p ops :
  Forall (fun o => op_provider o = p) ops ->
  look (foldl apply_op cb ops) p = foldl (fun e o => entry_op (cfg cb) o e) (look cb p) ops.
Proof.
  revert cb. induction ops as [|o ops IH]; intros cb H; [done|].
  inversion H; subst. simpl. rewrite IH, look_apply, cfg_apply by done.
  by case_decide.
Qed.

(** *** Properties *)

(** C15. Whatever sequence of operations runs, from any interleaving of requests and admin
    calls, every provider's entry satisfies the breaker's invariant: a closed circuit has
    fewer consecutive failures than the threshold, a half-open one fewer successes than
    its threshold, and all counters are representable. *)
Theorem reachable_invariant (c : Config) (cb : CircuitBreaker) :
  wf_config c -> reachable c cb -> cfg cb = c /\ wf cb.
Proof.
  intros HC. apply (rtc_ind_r (fun cb => cfg cb = c /\ wf cb)).
  - split; [done|]. intros p. by apply wf_closed.
  - intros cb1 cb2 _ [o] [E W]. rewrite cfg_apply. split; [done|].
    intros p. rewrite cfg_apply, look_apply. case_decide; [|apply W].
    apply wf_entry_op; [by rewrite E|apply W].
Qed.

Lemma reachable_invariant_witness :
  let cb := RecordFailure (New DefaultConfig) "openai" 7 in
  cfg cb = DefaultConfig /\ wf cb.
Proof.
  apply (reachable_invariant DefaultConfig).
  - unfold wf_config, DefaultConfig, int64_max, Second. simpl. lia.
  - eapply rtc_l; [|apply rtc_refl]. exact (step_op _ (OpFailure "openai" 7)).
Defined.



(** While a circuit is open and its timeout has not elapsed since the last failure, the
    provider is blocked, whatever happens on other providers in between; once the timeout
    has elapsed the next check lets the request through and half-opens the circuit. *)
Theorem open_blocks_until_timeout
    (cb : CircuitBreaker) (p : string) (others : list op) (now : Time) :
  status cb p = StateOpen ->
  Forall (fun o => op_provider o <> p) others ->
  let cb' := foldl apply_op cb others in
  let elapsed := time_Sub now (lastFailureAt (look cb p)) in
  (elapsed < OpenTimeout (cfg cb) -> IsOpen cb' p now = (true, cb')) /\
  (OpenTimeout (cfg cb) <= elapsed ->
   (IsOpen cb' p now).1 = false /\ status (IsOpen cb' p now).2 p = StateHalfOpen).
Proof.
  unfold status. intros S F. simpl. destruct (run_ops_other cb others p F) as [L C].
  split; intros T.
  - assert (B : (IsOpen (foldl apply_op cb others) p now).1 = true).
    { rewrite IsOpen_result, L, C, S. by rewrite (proj2 (Z.leb_gt _ _) T). }
    apply injective_projections; [done|]. by apply IsOpen_blocked.
  - rewrite IsOpen_result, L, C, S. rewrite (proj2 (Z.leb_le _ _) T). split; [done|].
    change (IsOpen ?cb p now).2 with (apply_op cb (OpIsOpen p now)).
    rewrite look_apply, L, C. simpl. case_decide; [|done].
    by rewrite S, (proj2 (Z.leb_le _ _) T).
Qed.

Lemma open_blocks_until_timeout_witness :
  let cb := foldl apply_op (New DefaultConfig) (replicate 5 (OpFailure "p" 10)) in
  IsOpen (foldl apply_op cb [OpFailure "q" 11]) "p" 12 =
  (true, foldl apply_op cb [OpFailure "q" 11]).
Proof.
  apply (open_blocks_until_timeout
    (foldl apply_op (New DefaultConfig) (replicate 5 (OpFailure "p" 10))) "p"
    [OpFailure "q" 11] 12).
  - reflexivity.
  - by repeat constructor.
  - reflexivity.
Defined.

(** Recovery: a half-open circuit closes after exactly [SuccessThreshold] successes with
    its failure count cleared, stays half-open before, and reopens on any failure. *)
Theorem half_open_recovery (cb : CircuitBreaker) (p : string) (n : nat) (now : Time) :
  wf_config (cfg cb) ->
  status cb p = StateHalfOpen -> successes (look cb p) = 0 ->
  let cb' := foldl apply_op cb (replicate n (OpSuccess p)) in
  (Z.of_nat n < SuccessThreshold (cfg cb) ->
     status cb' p = StateHalfOpen /\
     status (RecordFailure cb' p now) p = StateOpen /\
     (IsOpen (RecordFailure cb' p now) p now).1 = (0 <? OpenTimeout (cfg cb))) /\
  (Z.of_nat n = SuccessThreshold (cfg cb) -> look cb' p =
     mkEntry StateClosed 0 0 (lastFailureAt (look cb p))).
Proof.
  unfold status. intros HC S U. simpl. split; intros Hn.
  - assert (L := look_run_same cb p (replicate n (OpSuccess p))
                   (Forall_replicate _ _ _ (eq_refl : op_provider (OpSuccess p) = p))).
    destruct (entry_op_successes (cfg cb) p n (look cb p) HC S U Hn) as (S' & U' & _).
    rewrite <- L in S', U'. split; [done|].
    set (cb' := foldl apply_op cb _) in *.
    change (RecordFailure cb' p now) with (apply_op cb' (OpFailure p now)).
    assert (C : cfg cb' = cfg cb) by apply cfg_run.
    assert (E : look (apply_op cb' (OpFailure p now)) p =
                mkEntry StateOpen 0 (successes (look cb' p)) now).
    { rewrite look_apply. simpl. case_decide; [|done]. by rewrite S'. }
    rewrite E. split; [done|]. rewrite IsOpen_result, E, cfg_apply, C. simpl.
    replace (time_Sub now now) with 0 by (unfold time_Sub, int64_min, int64_max; lia).
    by rewrite <- Z.ltb_antisym.
  - destruct n as [|n]; [unfold wf_config in HC; lia|].
    rewrite replicate_S_end, foldl_app. simpl.
    change (RecordSuccess ?x p) with (apply_op x (OpSuccess p)).
    assert (L := look_run_same cb p (replicate n (OpSuccess p))
                   (Forall_replicate _ _ _ (eq_refl : op_provider (OpSuccess p) = p))).
    destruct (entry_op_successes (cfg cb) p n (look cb p) HC S U ltac:(lia)) as (S' & U' & T').
    rewrite <- L in S', U', T'.
    rewrite look_apply. simpl. case_decide; [|done]. rewrite S', U'.
    rewrite cfg_run, wrap64_id by (unfold wf_config, in_int64, int64_min, int64_max in *; lia).
    rewrite (proj2 (Z.leb_le _ _)) by lia. by rewrite T'.
Qed.

Lemma half_open_recovery_witness :
  let cb := (IsOpen (foldl apply_op (New DefaultConfig) (replicate 5 (OpFailure "p" 10)))
              "p" (10 + 60 * Second)).2 in
  look (foldl apply_op cb (replicate 2 (OpSuccess "p"))) "p" = mkEntry StateClosed 0 0 10.
Proof.
  refine (proj2 (half_open_recovery _ "p" 2 11 _ _ _) _); try reflexivity.
  vm_compute. intuition discriminate.
Defined.

(** The results of a series of checks for one provider, in order. *)
Fixpoint checks (cb : CircuitBreaker) (p : string) (times : list Time) : list bool :=
  match times with
  | [] => []
  | t :: times' => let '(b, cb') := IsOpen cb p t in b :: checks cb' p times'
  end.

Lemma checks_half_open cb p times :
  status cb p = StateHalfOpen -> checks cb p times = replicate (length times) false.
Proof.
  revert cb. induction times as [|t times IH]; intros cb H; [done|]. simpl.
  destruct (IsOpen cb p t) as [b cb'] eqn:E.
  pose proof (IsOpen_result cb p t) as R. rewrite E in R. simpl in R. unfold status in H.
  rewrite H in R. simpl in R. subst b. f_equal. apply IH.
  pose proof (look_apply cb (OpIsOpen p t) p) as L. simpl in L. rewrite E in L. simpl in L.
  unfold status. rewrite L. case_decide; [|done]. by rewrite H.
Qed.

(** A half-open circuit does not ration its probes: once the open timeout has elapsed,
    every check before the next recorded outcome lets its request through, however many
    there are. (The state's comment says one probe request is allowed.) *)
Theorem half_open_admits_every_request (cb : CircuitBreaker) (p : string) (times : list Time) :
  status cb p = StateOpen ->
  Forall (fun t => OpenTimeout (cfg cb) <= time_Sub t (lastFailureAt (look cb p))) times ->
  checks cb p times = replicate (length times) false.
Proof.
  intros H F. destruct times as [|t times]; [done|]. inversion F as [|? ? T _]; subst.
  pose proof (look_apply cb (OpIsOpen p t) p) as L. pose proof (IsOpen_result cb p t) as R.
  unfold status in H. simpl in *. destruct (IsOpen cb p t) as [b cb']. simpl in *.
  rewrite H in L, R. rewrite (proj2 (Z.leb_le _ _) T) in L, R. simpl in R. subst b. f_equal.
  apply checks_half_open. unfold status. rewrite L. by case_decide.
Qed.

Lemma half_open_admits_every_request_witness :
  checks (foldl apply_op (New DefaultConfig) (replicate 5 (OpFailure "p" 10))) "p"
    [10 + 60 * Second; 10 + 61 * Second; 10 + 61 * Second] = [false; false; false].
Proof.
  apply (half_open_admits_every_request
    (foldl apply_op (New DefaultConfig) (replicate 5 (OpFailure "p" 10))) "p"
    [10 + 60 * Second; 10 + 61 * Second; 10 + 61 * Second]).
  - reflexivity.
  - repeat constructor; vm_compute; discriminate.
Defined.

(** A reset by an administrator lets the next request pass, whatever came before. *)
Lemma admin_Reset_admits cb p now :
  p <> "" -> (admin_Reset cb p).1 = 200 /\ (IsOpen (admin_Reset cb p).2 p now).1 = false.
Proof.
  intros N. unfold admin_Reset. destruct (String.eqb_spec p ""); [done|]. split; [done|].
  rewrite IsOpen_result. unfold look, Reset. cbn. by rewrite lookup_insert_eq.
Qed.

End CB.
