(* ===== verification/Retry.v ===== *)
(** * Retry policy and executor (internal/gateway/retry)

    [Execute] runs a call that can fail in a world [W] that also holds the clock, the
    random source and the request context; the world's operations are a typeclass, so the
    theorems hold for every behaviour of the environment. *)

From S2P Require Import Prelude Float64 ProviderErrors.
Import PErr.
Local Open Scope Z_scope.
Local Open Scope go_scope.

Module Retry.

Record RetryPolicy := mkPolicy {
  MaxAttempts : Z;
  InitialDelay : Duration;
  MaxDelay : Duration;
  Multiplier : float64;
  JitterFactor : float64
}.

Definition Default : RetryPolicy :=
  mkPolicy 3 (500 * Millisecond) (30 * Second) (f64_of_Z 2) (f64_const 1 4).

Definition ShouldRetry (p : RetryPolicy) (err : option goerror) : bool :=
  match err with
  | None => false
  | Some e =>
      match errors_As_gateway e with
      | Some g => IsRetryable g
      | None => false
      end
  end.

(** [delay *= p.Multiplier], [attempt] times. *)
Fixpoint scale (delay m : float64) (attempt : nat) : float64 :=
  match attempt with O => delay | S n => scale (f64_mul delay m) m n end.

(** [r] is the [rand.Float64] draw. *)
Definition calcBackoff (p : RetryPolicy) (attempt : Z) (r : float64) : Duration :=
  let delay := scale (f64_of_Z (InitialDelay p)) (Multiplier p) (Z.to_nat attempt) in
  let max := f64_of_Z (MaxDelay p) in
  let delay := if f64_lt max delay then max else delay in
  let jitter := f64_mul (f64_mul delay (JitterFactor p))
                  (f64_sub (f64_mul (f64_of_Z 2) r) (f64_of_Z 1)) in
  let result := f64_to_int64 (f64_add delay jitter) in
  if result <? 0 then 0 else result.

(** The environment of a retried call: the random source, and [select] between the
    request context's [Done] channel and a timer, which yields the context's error when
    the context ends first. *)
Class RetryEnv (W : Type) := {
  rand_Float64 : W -> float64 * W;
  wait : Duration -> W -> option goerror * W
}.

(** The Retry-After hint is used as it is, capped; only a computed backoff draws from the
    random source. *)
Definition Delay `{RetryEnv W} (p : RetryPolicy) (attempt : Z) (err : option goerror) (w : W)
  : Duration * W :=
  let backoff := let '(r, w) := rand_Float64 w in (calcBackoff p attempt r, w) in
  match err with
  | None => backoff
  | Some e =>
      match errors_As_gateway e with
      | Some g =>
          if 0 <? RetryAfter g
          then (if MaxDelay p <? RetryAfter g then MaxDelay p else RetryAfter g, w)
          else backoff
      | None => backoff
      end
  end.

(** The loop of [Execute] from a given attempt, [left] attempts remaining. *)
Fixpoint execute_from `{RetryEnv W} (p : RetryPolicy) (fn : W -> option goerror * W)
    (left : nat) (attempt : Z) (lastErr : option goerror) (w : W) : option goerror * W :=
  match left with
  | O => (lastErr, w)
  | S left' =>
      let attempt_now (w : W) :=
        let '(err, w) := fn w in
        match err with
        | None => (None, w)
        | Some _ =>
            if ShouldRetry p err then execute_from p fn left' (attempt + 1) err w
            else (err, w)
        end in
      if 0 <? attempt then
        let '(d, w) := Delay p (attempt - 1) lastErr w in
        let '(c, w) := wait d w in
        match c with
        | Some cerr => (Some cerr, w)
        | None => attempt_now w
        end
      else attempt_now w
  end.

Definition Execute `{RetryEnv W} (p : RetryPolicy) (fn : W -> option goerror * W) (w : W)
  : option goerror * W :=
  execute_from p fn (Z.to_nat (MaxAttempts p)) 0 None w.

(** What [Execute] promises for a list of attempt results: the first result that is a
    success or a non-retryable error, or the last one when the attempts run out. *)
Fixpoint first_final (p : RetryPolicy) (last : option goerror) (results : list (option goerror))
  : option goerror :=
  match results with
  | [] => last
  | r :: rs => if ShouldRetry p r then first_final p r rs else r
  end.

#[global] Arguments ShouldRetry : simpl never.

(** ** Lemmas *)

Lemma Delay_hint `{RetryEnv W} p n g w :
  0 < RetryAfter g ->
  Delay p n (Some (EGateway g)) w = (Z.min (MaxDelay p) (RetryAfter g), w).
Proof.
  intros H0. unfold Delay. simpl. rewrite (proj2 (Z.ltb_lt _ _) H0).
  case_match; breflect; f_equal; lia.
Qed.

Lemma calcBackoff_nonneg p n r : 0 <= calcBackoff p n r.
Proof. unfold calcBackoff. case_match; breflect; lia. Qed.

(** A relation on worlds that the function, the random source and the waits preserve is
    preserved by the executor. *)
Section Preserve.
Context `{RetryEnv W} (R : relation W) `{!PreOrder R} (fn : W -> option goerror * W).
Context (R_fn : forall w, R w (fn w).2) (R_rand : forall w, R w (rand_Float64 w).2).
Context (R_wait : forall d w, R w (wait d w).2).

Lemma Delay_preserves p n e w : R w (Delay p n e w).2.
Proof.
  unfold Delay. pose proof (R_rand w). destruct (rand_Float64 w) as [r w'].
  repeat case_match; done.
Qed.

Lemma execute_from_preserves p left attempt last w :
  R w (execute_from p fn left attempt last w).2.
Proof.
  revert attempt last w. induction left as [|left IH]; intros attempt last w; [done|].
  assert (A : forall w, R w (let '(err, w0) := fn w in
            match err with
            | None => (None, w0)
            | Some _ => if ShouldRetry p err then execute_from p fn left (attempt + 1) err w0
                        else (err, w0)
            end).2).
  { intros w0. pose proof (R_fn w0). destruct (fn w0) as [[err|] w1]; simpl in *; [|done].
    destruct (ShouldRetry p (Some err)); simpl; [|done]. by etrans. }
  simpl. destruct (0 <? attempt); [|apply A].
  pose proof (Delay_preserves p (attempt - 1) last w). destruct (Delay _ _ _ _) as [d w1].
  pose proof (R_wait d w1). destruct (wait d w1) as [[c|] w2]; simpl in *; [by etrans|].
  etrans; [eassumption|]. etrans; [eassumption|]. apply A.
Qed.

End Preserve.

(** The executor succeeds only right after a call that succeeded. *)
Lemma execute_from_success `{RetryEnv W} p (fn : W -> option goerror * W) left attempt last w w' :
  last <> None \/ (0 < left)%nat -> execute_from p fn left attempt last w = (None, w') ->
  exists w0, fn w0 = (None, w').
Proof.
  revert attempt last w. induction left as [|left IH]; intros attempt last w Hl E; simpl in E;
    [destruct Hl; [congruence|lia]|].
  assert (A : forall w, (let '(err, w0) := fn w in
            match err with
            | None => (None, w0)
            | Some _ => if ShouldRetry p err then execute_from p fn left (attempt + 1) err w0
                        else (err, w0)
            end) = (None, w') -> exists w0, fn w0 = (None, w')).
  { intros w0 F. destruct (fn w0) as [[err|] w1] eqn:G; simpl in F; [|simplify_eq; eauto].
    destruct (ShouldRetry p (Some err)); [|done]. apply IH in F; [done|by left]. }
  destruct (0 <? attempt); [|eauto]. destruct (Delay _ _ _ _) as [d w1].
  destruct (wait d w1) as [[c|] w2]; [done|eauto].
Qed.

(** ** Properties *)

(** The delay before a retry is never negative, and a provider's Retry-After hint is
    obeyed exactly up to the policy's maximum. *)
Theorem Delay_spec `{RetryEnv W} (p : RetryPolicy) (n : Z) (e : goerror) (w : W) :
  0 <= MaxDelay p ->
  0 <= (Delay p n (Some e) w).1 /\
  (forall g, errors_As_gateway e = Some g -> 0 < RetryAfter g ->
     Delay p n (Some e) w = (Z.min (MaxDelay p) (RetryAfter g), w)).
Proof.
  intros HM. unfold Delay. destruct (rand_Float64 w) as [r w'] eqn:R. simpl. split.
  - destruct (errors_As_gateway e) as [g|]; simpl; [|apply calcBackoff_nonneg].
    destruct (0 <? RetryAfter g) eqn:E; simpl; [|apply calcBackoff_nonneg].
    breflect. case_match; lia.
  - intros g -> Hg. rewrite (proj2 (Z.ltb_lt _ _) Hg).
    case_match; breflect; f_equal; lia.
Qed.

(** A world for examples: scripted results, a log of the waits, and a context that ends
    when fewer than the given number of waits remain. *)
Record script := mkScript { results : list (option goerror); waits : list Duration; budget : nat }.

#[export] Instance script_env : RetryEnv script := {
  rand_Float64 w := (f64_const 1 2, w);
  wait d w :=
    match budget w with
    | O => (Some ECanceled, w)
    | S b => (None, mkScript (results w) (waits w ++ [d]) b)
    end
}.

Definition script_fn (w : script) : option goerror * script :=
  match results w with
  | [] => (Some (EOther "script exhausted"), w)
  | r :: rs => (r, mkScript rs (waits w) (budget w))
  end.

Lemma Delay_spec_witness :
  Delay Default 0 (Some (EWrap "x" (EGateway (mkGatewayError ErrRateLimited "slow" 429
    (90 * Second))))) (mkScript [] [] 3) = (30 * Second, mkScript [] [] 3).
Proof.
  pose (g := mkGatewayError ErrRateLimited "slow" 429 (90 * Second)).
  destruct (Delay_spec Default 0 (EWrap "x" (EGateway g)) (mkScript [] [] 3)) as [_ D].
  - vm_compute. discriminate.
  - exact (D g eq_refl eq_refl).
Defined.

Section Counting.
Context `{RetryEnv W} (calls : W -> nat) (fn : W -> option goerror * W).
Context (fn_counts : forall w, calls (fn w).2 = S (calls w)).
Context (rand_quiet : forall w, calls (rand_Float64 w).2 = calls w).
Context (wait_quiet : forall d w, calls (wait d w).2 = calls w).

Lemma Delay_quiet p n e w : calls (Delay p n e w).2 = calls w.
Proof.
  unfold Delay. pose proof (rand_quiet w). destruct (rand_Float64 w) as [r w'].
  repeat case_match; done.
Qed.

Lemma execute_from_calls p left attempt last w :
  (calls w <= calls (execute_from p fn left attempt last w).2 <= calls w + left)%nat.
Proof.
  revert attempt last w. induction left as [|left IH]; intros attempt last w; [simpl; lia|].
  assert (A : forall w, (calls w <= calls (let '(err, w0) := fn w in
            match err with
            | None => (None, w0)
            | Some _ => if ShouldRetry p err then execute_from p fn left (attempt + 1) err w0
                        else (err, w0)
            end).2 <= calls w + S left)%nat).
  { intros w0. pose proof (fn_counts w0). destruct (fn w0) as [[err|] w1]; simpl in *; [|lia].
    destruct (ShouldRetry p (Some err)); simpl; [|lia].
    pose proof (IH (attempt + 1) (Some err) w1). lia. }
  simpl. destruct (0 <? attempt); [|apply A].
  pose proof (Delay_quiet p (attempt - 1) last w). destruct (Delay _ _ _ _) as [d w1].
  pose proof (wait_quiet d w1). destruct (wait d w1) as [[c|] w2]; simpl in *; [lia|].
  pose proof (A w2). lia.
Qed.

(** C40. The executor terminates having called the function at least once and at most
    [MaxAttempts] times, whatever the function, the context and the random source do. *)
Theorem Execute_attempts_bounded (p : RetryPolicy) (w : W) :
  1 <= MaxAttempts p ->
  (S (calls w) <= calls (Execute p fn w).2 <= calls w + Z.to_nat (MaxAttempts p))%nat.
Proof.
  intros HM. unfold Execute. destruct (Z.to_nat (MaxAttempts p)) as [|n] eqn:E; [lia|].
  simpl. pose proof (fn_counts w). destruct (fn w) as [[err|] w1]; simpl in *; [|lia].
  destruct (ShouldRetry p (Some err)); simpl; [|lia].
  pose proof (execute_from_calls p n (0 + 1) (Some err) w1). simpl in *. lia.
Qed.

End Counting.

Lemma Execute_attempts_bounded_witness :
  let w := mkScript (replicate 9 (Some (EGateway (NewNetworkError "down")))) [] 9 in
  let fn (v : script * nat) := let '(r, w') := script_fn v.1 in (r, (w', S v.2)) in
  let H : RetryEnv (script * nat) := {|
    rand_Float64 v := (f64_const 1 2, v);
    wait d v := let '(c, w') := wait d v.1 in (c, (w', v.2)) |} in
  (1 <= (Execute Default fn (w, O)).2.2 <= 3)%nat.
Proof.
  intros w fn H.
  refine (Execute_attempts_bounded (H := H) snd fn _ _ _ Default (w, O) _).
  - intros [v n]. unfold fn. simpl. by destruct (script_fn v).
  - done.
  - intros d [v n]. simpl. by destruct (budget v).
  - vm_compute. discriminate.
Defined.

Lemma execute_from_script p left attempt last rs ws b :
  (length rs >= left)%nat -> (b >= left)%nat ->
  exists w', execute_from p script_fn left attempt last (mkScript rs ws b) =
             (first_final p last (take left rs), w').
Proof.
  revert attempt last rs ws b.
  induction left as [|left IH]; intros attempt last rs ws b Hr Hb; [by eexists|].
  destruct rs as [|r rs]; simpl in Hr; [lia|]. destruct b as [|b]; [lia|]. simpl.
  destruct (0 <? attempt); [destruct (Delay _ _ _ _) as [d w1] eqn:D;
    assert (w1 = mkScript (r :: rs) ws (S b)) as ->
      by (revert D; unfold Delay; simpl; repeat case_match; congruence)|];
    simpl; unfold script_fn; simpl.
  all: destruct r as [e|]; simpl; [|by eexists].
  all: destruct (ShouldRetry p (Some e)) eqn:SR; simpl in *; rewrite ?SR; [|by eexists].
  all: apply IH; lia.
Qed.

(** With a context that does not end, the executor's result is the first success or
    non-retryable error among the attempts, or the last error when all attempts failed
    retryably. *)
Theorem Execute_first_final (p : RetryPolicy) (rs : list (option goerror)) (b : nat) :
  (Z.to_nat (MaxAttempts p) <= length rs)%nat -> (Z.to_nat (MaxAttempts p) <= b)%nat ->
  (Execute p script_fn (mkScript rs [] b)).1 =
  first_final p None (take (Z.to_nat (MaxAttempts p)) rs).
Proof.
  intros Hr Hb. unfold Execute.
  destruct (execute_from_script p (Z.to_nat (MaxAttempts p)) 0 None rs [] b) as [w' ->];
    [lia|lia|done].
Qed.

Lemma Execute_first_final_witness :
  (Execute Default script_fn (mkScript [Some (EGateway (NewNetworkError "a")); None; None] [] 3)).1
  = None.
Proof.
  rewrite Execute_first_final; [reflexivity|vm_compute; lia|vm_compute; lia].
Defined.

End Retry.
