(* ===== verification/LoadBalancer.v ===== *)
(** * Load balancers (internal/gateway/fallback/load_balancer.go) and the latency tracker
    (internal/telemetry/latency_tracker.go)

    The four strategies that reorder a chain's targets. Random draws are arguments:
    [Intn n] is [rand.Intn(n)], which panics (here [None]) when [n <= 0]. *)

From S2P Require Import Prelude Float64.
Local Open Scope Z_scope.
Local Open Scope go_scope.

(** [Target] and [Chain] of fallback/router.go. *)
Record Target := mkTarget {
  Provider : string;
  TModel : string;
  Weight : Z
}.

#[export] Instance Target_eq_dec : EqDecision Target.
Proof. solve_decision. Defined.

Record Chain := mkChain {
  ChainName : string;
  Targets : list Target
}.

Definition SingleTarget (providerName model : string) : Chain :=
  mkChain providerName [mkTarget providerName model 0].

Module Latency.

Record LatencyTracker := mkTracker {
  ewma : gmap string float64;
  alpha : float64
}.

Definition NewLatencyTracker (alpha : float64) : LatencyTracker :=
  mkTracker ∅
    (if f64_le alpha f64_0 || f64_lt (f64_of_Z 1) alpha then f64_const 1 10 else alpha).

Definition Record_ (t : LatencyTracker) (provider : string) (latencyMs : float64)
  : LatencyTracker :=
  match ewma t !! provider with
  | None => mkTracker (<[provider := latencyMs]> (ewma t)) (alpha t)
  | Some prev =>
      mkTracker (<[provider := f64_add (f64_mul (alpha t) latencyMs)
                    (f64_mul (f64_sub (f64_of_Z 1) (alpha t)) prev)]> (ewma t)) (alpha t)
  end.

Definition Get (t : LatencyTracker) (provider : string) : float64 :=
  default f64_0 (ewma t !! provider).

Definition All (t : LatencyTracker) : gmap string float64 := ewma t.

End Latency.

Module LB.

(** The effective weight of a target: weights that are not positive count as one. *)
Definition effective (t : Target) : Z := if Weight t <=? 0 then 1 else Weight t.

Definition total_weight (targets : list Target) : Z :=
  foldl (fun total t => total +i effective t) 0 targets.

(** The loop that finds the index of the chosen target: the first whose cumulative weight
    exceeds the draw, index 0 when there is none. *)
Fixpoint choose (pick cumulative : Z) (i : nat) (targets : list Target) : nat :=
  match targets with
  | [] => O
  | t :: ts =>
      let cumulative := cumulative +i effective t in
      if pick <? cumulative then i else choose pick cumulative (S i) ts
  end.

(** The loop that copies every target but the chosen one, from position [i]. *)
Fixpoint others (chosen i : nat) (targets : list Target) : list Target :=
  match targets with
  | [] => []
  | t :: ts => if Nat.eqb i chosen then others chosen (S i) ts else t :: others chosen (S i) ts
  end.

Definition WeightedRandom_Sort (Intn : Z -> option Z) (targets : list Target)
  : option (list Target) :=
  match targets with
  | [] | [_] => Some targets
  | _ =>
      match Intn (total_weight targets) with
      | None => None
      | Some pick =>
          let chosen := choose pick 0 O targets in
          match targets !! chosen with
          | None => None
          | Some t => Some (t :: others chosen O targets)
          end
      end
  end.

(** [RoundRobin.Sort]: the atomic counter is a uint64. *)
Definition RoundRobin_Sort (counter : Z) (targets : list Target) : list Target * Z :=
  match targets with
  | [] | [_] => (targets, counter)
  | _ =>
      let n := Z.of_nat (length targets) in
      let counter := wrapu64 (counter + 1) in
      let idx := counter mod n in
      (omap (fun i => targets !! Z.to_nat (wrapu64 (idx + Z.of_nat i) mod n))
         (seq 0 (length targets)), counter)
  end.

(** The comparison of [LeastLatency.Sort]; 0 stands for "not recorded". *)
Definition latency_less (t : Latency.LatencyTracker) (a b : Target) : bool :=
  let li := Latency.Get t (Provider a) in
  let lj := Latency.Get t (Provider b) in
  if f64_eq li f64_0 && f64_eq lj f64_0 then false
  else if f64_eq li f64_0 then false
  else if f64_eq lj f64_0 then true
  else f64_lt li lj.

Definition LeastLatency_Sort (tracker : option Latency.LatencyTracker) (targets : list Target)
  : list Target :=
  match targets, tracker with
  | [], _ | [_], _ | _, None => targets
  | _, Some t => insertionSort (latency_less t) targets
  end.

Definition cost_less (costs : gmap string float64) (a b : Target) : bool :=
  f64_lt (default f64_0 (costs !! Provider a)) (default f64_0 (costs !! Provider b)).

Definition LeastCost_Sort (costs : gmap string float64) (targets : list Target) : list Target :=
  match targets with
  | [] | [_] => targets
  | _ => insertionSort (cost_less costs) targets
  end.

(** ** Lemmas *)

Lemma effective_pos t : 1 <= effective t.
Proof. unfold effective. case_match; breflect; lia. Qed.

(** The sum of the weights without wrap-around. *)
Definition weight_sum (targets : list Target) : Z :=
  foldr (fun t s => effective t + s) 0 targets.

Lemma weight_sum_nonneg ts : 0 <= weight_sum ts.
Proof. induction ts as [|t ts IH]; simpl; [lia|]. pose proof (effective_pos t). lia. Qed.

Lemma total_weight_from ts acc :
  0 <= acc -> acc + weight_sum ts <= int64_max ->
  foldl (fun total t => total +i effective t) acc ts = acc + weight_sum ts.
Proof.
  revert acc. induction ts as [|t ts IH]; intros acc H0 H; simpl in *; [lia|].
  pose proof (effective_pos t). pose proof (weight_sum_nonneg ts).
  rewrite wrap64_id by (unfold in_int64, int64_min, int64_max in *; lia).
  rewrite IH; lia.
Qed.

Lemma total_weight_sum ts : weight_sum ts <= int64_max -> total_weight ts = weight_sum ts.
Proof. intros H. unfold total_weight. rewrite total_weight_from; lia. Qed.

(** The choice loop finds the target whose cumulative interval holds the draw. *)
Lemma choose_spec ts pick cum i :
  0 <= cum -> cum + weight_sum ts <= int64_max -> cum <= pick < cum + weight_sum ts ->
  exists j t, choose pick cum i ts = (i + j)%nat /\ ts !! j = Some t /\
    cum + weight_sum (take j ts) <= pick < cum + weight_sum (take (S j) ts).
Proof.
  revert cum i. induction ts as [|t ts IH]; intros cum i H0 Hmax Hp; simpl in *; [lia|].
  pose proof (effective_pos t). pose proof (weight_sum_nonneg ts).
  rewrite wrap64_id by (unfold in_int64, int64_min, int64_max in *; lia).
  destruct (pick <? cum + effective t) eqn:E; breflect.
  - exists O, t. simpl. split; [lia|]. split; [done|]. lia.
  - destruct (IH (cum + effective t) (S i)) as (j & t' & -> & L & B); [lia..|].
    exists (S j), t'. split; [lia|]. split; [done|]. simpl in *. lia.
Qed.

Lemma others_ge chosen i ts : (chosen < i)%nat -> others chosen i ts = ts.
Proof.
  revert i. induction ts as [|t ts IH]; intros i H; simpl; [done|].
  destruct (Nat.eqb_spec i chosen); [lia|]. by rewrite IH by lia.
Qed.

Lemma others_split ts j t i :
  ts !! j = Some t -> others (i + j) i ts = take j ts ++ drop (S j) ts.
Proof.
  revert j i. induction ts as [|x ts IH]; intros j i H; [done|]. simpl.
  destruct (Nat.eqb_spec i (i + j)) as [E|E].
  - assert (j = O) as -> by lia. simpl. rewrite others_ge by lia. by rewrite drop_0.
  - destruct j as [|j]; [lia|]. simpl. f_equal. rewrite <- (IH j (S i)) by done.
    f_equal. lia.
Qed.

Lemma others_perm ts j t : ts !! j = Some t -> t :: others j 0 ts ≡ₚ ts.
Proof.
  intros H. rewrite (others_split ts j t 0 H : others j 0 ts = _).
  rewrite Permutation_middle. by rewrite take_drop_middle.
Qed.

Lemma latency_less_cases t a b :
  latency_less t a b = true <->
  f64_eq (Latency.Get t (Provider a)) f64_0 = false /\
  (f64_eq (Latency.Get t (Provider b)) f64_0 = true \/
   f64_lt (Latency.Get t (Provider a)) (Latency.Get t (Provider b)) = true).
Proof.
  unfold latency_less.
  destruct (f64_eq (Latency.Get t (Provider a)) f64_0),
    (f64_eq (Latency.Get t (Provider b)) f64_0); simpl; naive_solver.
Qed.

Lemma f64_eq_lt_l x y z : f64_eq x y = true -> f64_lt x z = f64_lt y z.
Proof.
  intros H. assert (K : f64_key x = f64_key y /\ f64_is_nan x = f64_is_nan y).
  { revert H. unfold f64_eq, SFeqb.
    destruct x as [| [] | | [] m e], y as [| [] | | [] m' e']; simpl; try done;
      destruct (Z.compare_spec e e') as [->|?|?]; try done;
      change (Pcompare m m' Eq) with (m ?= m')%positive;
      by destruct (Pos.compare_spec m m') as [->|?|?]. }
  destruct K as [K N]. apply eq_true_iff_eq. rewrite !f64_lt_spec. by rewrite K, N.
Qed.

Lemma latency_less_strict_weak t :
  (forall p, f64_is_nan (Latency.Get t p) = false) -> StrictWeak (latency_less t).
Proof.
  intros HN. split.
  - intros a. destruct (latency_less t a a) eqn:E; [|done].
    apply latency_less_cases in E as [? [?|E]]; [congruence|]. by rewrite f64_lt_irrefl in E.
  - intros a b c. rewrite !latency_less_cases. intros [Ha [Eb|L1]] [Hb [Ec|L2]];
      try congruence; split; auto. eauto using f64_lt_trans.
  - intros a b c. rewrite !latency_less_cases. intros [Ha [Ec|L]].
    + destruct (f64_eq (Latency.Get t (Provider b)) f64_0) eqn:Eb; auto.
    + destruct (f64_eq (Latency.Get t (Provider b)) f64_0) eqn:Eb; [auto|].
      destruct (f64_lt_cotrans _ _ _ (HN (Provider b)) L); auto.
Qed.

(** Rotation of a list by [k]. *)
Definition rot {A} (k : nat) (l : list A) : list A := drop k l ++ take k l.

Lemma rot_perm {A} k (l : list A) : rot k l ≡ₚ l.
Proof. unfold rot. rewrite Permutation_app_comm. by rewrite take_drop. Qed.

Lemma lookup_rot {A} k i (l : list A) :
  (k < length l)%nat -> (i < length l)%nat -> rot k l !! i = l !! ((k + i) mod length l)%nat.
Proof.
  intros Hk Hi. unfold rot. destruct (decide (i < length l - k)%nat).
  - rewrite lookup_app_l by (rewrite length_drop; lia). rewrite lookup_drop.
    f_equal. symmetry. apply Nat.mod_small. lia.
  - rewrite lookup_app_r by (rewrite length_drop; lia). rewrite length_drop.
    rewrite lookup_take_lt by lia. f_equal.
    replace (k + i)%nat with ((i - (length l - k)) + 1 * length l)%nat by lia.
    rewrite Nat.Div0.mod_add. symmetry. apply Nat.mod_small. lia.
Qed.

Lemma omap_total {A B} (f : A -> option B) (g : nat -> option B) l :
  (forall i x, l !! i = Some x -> f x = g i) -> (forall i, (i < length l)%nat -> is_Some (g i)) ->
  forall i, (i < length l)%nat -> omap f l !! i = g i.
Proof.
  revert g. induction l as [|x l IH]; intros g Hf Hg i Hi; simpl in Hi; [lia|].
  simpl. rewrite (Hf O x eq_refl). destruct (Hg O ltac:(simpl; lia)) as [y Hy]. rewrite Hy.
  destruct i as [|i]; [done|]. simpl. apply (IH (fun i => g (S i))); [| |lia].
  - intros j z Hz. by apply Hf.
  - intros j Hj. apply Hg. simpl. lia.
Qed.

Lemma length_omap_total {A B} (f : A -> option B) l :
  (forall x, x ∈ l -> is_Some (f x)) -> length (omap f l) = length l.
Proof.
  induction l as [|x l IH]; intros H; [done|]. simpl.
  destruct (H x) as [y ->]; [left|]. simpl. f_equal. apply IH. intros z Hz. apply H. by right.
Qed.

(** Indexing every position of a list modulo its length rotates it. *)
Lemma omap_mod_rot (targets : list Target) (idx : Z) :
  0 <= idx < Z.of_nat (length targets) -> Z.of_nat (length targets) <= 2 ^ 62 ->
  omap (fun i => targets !! Z.to_nat (wrapu64 (idx + Z.of_nat i) mod Z.of_nat (length targets)))
    (seq 0 (length targets)) = rot (Z.to_nat idx) targets.
Proof.
  intros Hi Hn. set (n := length targets) in *.
  assert (E : forall i, (i < n)%nat ->
    Z.to_nat (wrapu64 (idx + Z.of_nat i) mod Z.of_nat n) = ((Z.to_nat idx + i) mod n)%nat).
  { intros i H. unfold wrapu64. rewrite (Z.mod_small _ (2 ^ 64)) by lia.
    rewrite <- (Z2Nat.id idx) at 1 by lia. rewrite <- Nat2Z.inj_add, <- Nat2Z.inj_mod.
    by rewrite Nat2Z.id. }
  assert (S0 : forall i, (i < n)%nat -> is_Some (targets !! ((Z.to_nat idx + i) mod n)%nat)).
  { intros i H. apply lookup_lt_is_Some. apply Nat.mod_upper_bound. lia. }
  apply list_eq_same_length with (n := n).
  - unfold rot. rewrite length_app, length_drop, length_take. lia.
  - rewrite length_omap_total; [apply length_seq|]. intros x Hx.
    apply elem_of_seq in Hx. rewrite E by lia. apply S0. lia.
  - intros i x y Hlt. rewrite lookup_rot by (fold n; lia).
    rewrite (omap_total _ (fun i => targets !! ((Z.to_nat idx + i) mod n)%nat)).
    + fold n. congruence.
    + intros j z Hz. apply lookup_seq in Hz as [-> Hz]. simpl. by rewrite E by lia.
    + intros j Hj. rewrite length_seq in Hj. by apply S0.
    + by rewrite length_seq.
Qed.

Lemma RoundRobin_rot c targets :
  (2 <= length targets)%nat -> Z.of_nat (length targets) <= 2 ^ 62 ->
  RoundRobin_Sort c targets =
  (rot (Z.to_nat (wrapu64 (c + 1) mod Z.of_nat (length targets))) targets, wrapu64 (c + 1)).
Proof.
  intros Hl Hn. destruct targets as [|a [|b ts]]; simpl in Hl; [lia..|].
  unfold RoundRobin_Sort. rewrite omap_mod_rot; [done| |done].
  apply Z.mod_pos_bound. simpl. lia.
Qed.

(** The first targets of [k] successive round-robin calls, and the final counter. *)
Fixpoint rr_heads (k : nat) (c : Z) (targets : list Target) : list Target :=
  match k with
  | O => []
  | S k' =>
      let '(l, c') := RoundRobin_Sort c targets in
      option_list (head l) ++ rr_heads k' c' targets
  end.

Lemma rr_heads_lookup k c targets i :
  (2 <= length targets)%nat -> Z.of_nat (length targets) <= 2 ^ 62 ->
  0 <= c -> c + Z.of_nat k < 2 ^ 64 -> (i < k)%nat ->
  rr_heads k c targets !! i =
  targets !! (Z.to_nat ((c + 1 + Z.of_nat i) mod Z.of_nat (length targets))).
Proof.
  intros Hl Hn. revert c i. induction k as [|k IH]; intros c i Hc Hb Hi; [lia|]. simpl.
  rewrite RoundRobin_rot by done. unfold wrapu64. rewrite (Z.mod_small _ (2 ^ 64)) by lia.
  assert (L : (Z.to_nat ((c + 1) mod Z.of_nat (length targets)) < length targets)%nat).
  { pose proof (Z.mod_pos_bound (c + 1) (Z.of_nat (length targets)) ltac:(lia)). lia. }
  pose proof (lookup_rot _ 0 targets L ltac:(lia)) as R. rewrite Nat.add_0_r in R.
  rewrite Nat.mod_small in R by done. rewrite <- head_lookup in R. rewrite R.
  destruct (lookup_lt_is_Some_2 _ _ L) as [t T]. rewrite T. simpl.
  destruct i as [|i]; simpl.
  - by rewrite Z.add_0_r, T.
  - rewrite IH by lia. do 3 f_equal. lia.
Qed.

Lemma length_rr_heads k c targets :
  (2 <= length targets)%nat -> Z.of_nat (length targets) <= 2 ^ 62 ->
  length (rr_heads k c targets) = k.
Proof.
  intros Hl Hn. revert c. induction k as [|k IH]; intros c; [done|]. simpl.
  rewrite RoundRobin_rot by done.
  assert (L : length (rot (Z.to_nat (wrapu64 (c + 1) mod Z.of_nat (length targets))) targets)
              = length targets) by apply Permutation_length, rot_perm.
  destruct (rot _ targets) as [|x l] eqn:E; simpl in L; [lia|]. simpl. by rewrite IH.
Qed.

(** ** Properties *)

(** Weighted random selection never panics for weights that sum within the integer
    range, permutes the targets keeping the order of the others, and picks target [j]
    exactly for the draws in its own slice of [0, total): its chance is its weight. *)
Theorem WeightedRandom_proportional (targets : list Target) (pick : Z) :
  (2 <= length targets)%nat -> weight_sum targets <= int64_max ->
  0 <= pick < weight_sum targets ->
  exists j t,
    targets !! j = Some t /\
    WeightedRandom_Sort (fun n => if 0 <? n then Some pick else None) targets =
      Some (t :: take j targets ++ drop (S j) targets) /\
    weight_sum (take j targets) <= pick < weight_sum (take j targets) + effective t.
Proof.
  intros Hl Hs Hp. destruct (choose_spec targets pick 0 0) as (j & t & C & L & B); [lia..|].
  exists j, t. split; [done|]. split.
  - destruct targets as [|t1 [|t2 ts]]; simpl in Hl; [lia..|].
    unfold WeightedRandom_Sort. rewrite total_weight_sum by done.
    destruct (0 <? weight_sum _) eqn:E; breflect; [|lia].
    rewrite C. simpl (0 + j)%nat. rewrite L. by rewrite (others_split _ j t 0 L : others j 0 _ = _).
  - rewrite (take_S_r _ _ _ L) in B. assert (A : forall l, weight_sum (l ++ [t]) = weight_sum l + effective t).
    { clear. induction l as [|x l IH]; simpl; [lia|]. rewrite IH. lia. }
    rewrite A in B. lia.
Qed.

Lemma WeightedRandom_proportional_witness :
  exists j t,
    [mkTarget "a" "m" 3; mkTarget "b" "m" 0; mkTarget "c" "m" 5] !! j = Some t /\
    WeightedRandom_Sort (fun n => if 0 <? n then Some 4 else None)
      [mkTarget "a" "m" 3; mkTarget "b" "m" 0; mkTarget "c" "m" 5] =
      Some (t :: take j [mkTarget "a" "m" 3; mkTarget "b" "m" 0; mkTarget "c" "m" 5] ++
                 drop (S j) [mkTarget "a" "m" 3; mkTarget "b" "m" 0; mkTarget "c" "m" 5]) /\
    weight_sum (take j [mkTarget "a" "m" 3; mkTarget "b" "m" 0; mkTarget "c" "m" 5]) <= 4 <
      weight_sum (take j [mkTarget "a" "m" 3; mkTarget "b" "m" 0; mkTarget "c" "m" 5])
      + effective t.
Proof.
  apply WeightedRandom_proportional; vm_compute; intuition (try discriminate; lia).
Defined.

(** Round robin is fair: every call returns a rotation of the targets, and over any
    [n] consecutive calls on [n] targets each target is tried first exactly once (as long
    as the 64-bit call counter does not wrap). *)
Theorem RoundRobin_fair (targets : list Target) (c : Z) :
  (2 <= length targets)%nat -> Z.of_nat (length targets) <= 2 ^ 62 ->
  0 <= c -> c + Z.of_nat (length targets) < 2 ^ 64 ->
  (exists k, (RoundRobin_Sort c targets).1 = rot k targets) /\
  rr_heads (length targets) c targets ≡ₚ targets.
Proof.
  intros Hl Hn Hc Hb. split; [rewrite RoundRobin_rot by done; by eexists|].
  set (n := length targets) in *.
  assert (L : (Z.to_nat ((c + 1) mod Z.of_nat n) < n)%nat).
  { pose proof (Z.mod_pos_bound (c + 1) (Z.of_nat n) ltac:(lia)). lia. }
  rewrite <- (rot_perm (Z.to_nat ((c + 1) mod Z.of_nat n)) targets) at 2.
  apply (eq_subrelation (R := Permutation) _). apply list_eq_same_length with (n := n).
  - unfold rot. rewrite length_app, length_drop, length_take. lia.
  - by apply length_rr_heads.
  - intros i x y Hi. rewrite rr_heads_lookup by (try done; fold n; lia).
    rewrite lookup_rot by (fold n; lia). fold n.
    replace (Z.to_nat ((c + 1 + Z.of_nat i) mod Z.of_nat n))
      with ((Z.to_nat ((c + 1) mod Z.of_nat n) + i) mod n)%nat; [congruence|].
    rewrite <- (Nat2Z.id ((_ + _) mod n)). f_equal.
    rewrite Nat2Z.inj_mod, Nat2Z.inj_add, Z2Nat.id by (apply Z.mod_pos_bound; lia).
    by rewrite Zplus_mod_idemp_l.
Qed.

Lemma RoundRobin_fair_witness :
  (exists k, (RoundRobin_Sort 7 [mkTarget "a" "m" 1; mkTarget "b" "m" 1; mkTarget "c" "m" 1]).1
     = rot k [mkTarget "a" "m" 1; mkTarget "b" "m" 1; mkTarget "c" "m" 1]) /\
  rr_heads 3 7 [mkTarget "a" "m" 1; mkTarget "b" "m" 1; mkTarget "c" "m" 1] ≡ₚ
  [mkTarget "a" "m" 1; mkTarget "b" "m" 1; mkTarget "c" "m" 1].
Proof.
  apply (RoundRobin_fair [mkTarget "a" "m" 1; mkTarget "b" "m" 1; mkTarget "c" "m" 1] 7);
    vm_compute; intuition (try discriminate; lia).
Defined.

(** Least-latency ordering is a rearrangement of the targets, sorted by recorded
    latency with every provider without a measurement after all measured ones, and it keeps
    the configured order among the targets of one provider. *)
Theorem LeastLatency_sorted (t : Latency.LatencyTracker) (targets : list Target) :
  (2 <= length targets)%nat ->
  (forall p, f64_is_nan (Latency.Get t p) = false) ->
  LeastLatency_Sort (Some t) targets ≡ₚ targets /\
  StronglySorted (fun a b =>
    f64_eq (Latency.Get t (Provider b)) f64_0 = true \/
    (f64_eq (Latency.Get t (Provider a)) f64_0 = false /\
     f64_lt (Latency.Get t (Provider b)) (Latency.Get t (Provider a)) = false))
    (LeastLatency_Sort (Some t) targets) /\
  (forall p, List.filter (fun x => String.eqb (Provider x) p) (LeastLatency_Sort (Some t) targets)
           = List.filter (fun x => String.eqb (Provider x) p) targets).
Proof.
  intros Hl HN. pose proof (latency_less_strict_weak t HN) as SW.
  destruct targets as [|a [|b ts]]; simpl in Hl; [lia..|].
  unfold LeastLatency_Sort. split; [apply insertionSort_perm|]. split.
  - eapply StronglySorted_impl; [|exact (insertionSort_sorted _ SW _)].
    intros x y. simpl. unfold latency_less.
    destruct (f64_eq (Latency.Get t (Provider x)) f64_0),
      (f64_eq (Latency.Get t (Provider y)) f64_0); simpl; auto.
  - intros p. apply insertionSort_stable. intros x y Hx Hy.
    apply String.eqb_eq in Hx, Hy. destruct (latency_less t x y) eqn:E; [|done].
    apply latency_less_cases in E as [E1 [E2|E2]]; rewrite Hx, ?Hy in *; [congruence|].
    by rewrite f64_lt_irrefl in E2.
Qed.

Lemma LeastLatency_sorted_witness :
  LeastLatency_Sort
    (Some (Latency.mkTracker (<["c" := f64_of_Z 10]> (<["b" := f64_of_Z 20]> ∅)) f64_0))
    [mkTarget "a" "m" 0; mkTarget "b" "m" 0; mkTarget "c" "m" 0] ≡ₚ
  [mkTarget "a" "m" 0; mkTarget "b" "m" 0; mkTarget "c" "m" 0].
Proof.
  apply (LeastLatency_sorted _ [mkTarget "a" "m" 0; mkTarget "b" "m" 0; mkTarget "c" "m" 0]).
  - simpl. lia.
  - intros p. unfold Latency.Get. cbn [Latency.ewma]. rewrite !lookup_insert, lookup_empty.
    by repeat case_decide.
Defined.

End LB.
