(* ===== verification/Fallback.v ===== *)
(** * Provider registry and the fallback router
    (internal/provider/interface.go, internal/gateway/fallback/router.go)

    A request runs in a world [W] that holds the shared circuit breaker, the clock, the
    random source and everything a provider call can touch. A provider call may change the
    breaker arbitrarily: other requests run while it waits. *)

From S2P Require Import Prelude Float64 Types ProviderErrors CircuitBreaker Retry LoadBalancer.
Import PErr.
Local Open Scope Z_scope.

(** The environment the router runs in. *)
Class World (W : Type) := {
  world_retry :: Retry.RetryEnv W;
  time_Now : W -> Time * W;
  breaker : W -> CB.CircuitBreaker;
  set_breaker : CB.CircuitBreaker -> W -> W
}.

(** [provider.StreamChunk]; a stream is the list of chunks its channel delivers. *)
Record StreamChunk := mkChunk {
  SDelta : string;
  SFinishReason : option string;
  SUsage : option Usage;
  SError : option goerror
}.

Module Registry.

Section Registry.
Context {W : Type}.

(** The [Provider] interface, with the model list an adapter holds and whether it also
    implements [ModelOverridable]. *)
Record Provider_ := mkProvider {
  Name : string;
  Models : list ModelInfo;
  overridable : bool;
  ChatCompletion :
    string -> ChatCompletionRequest -> string -> W -> res goerror ChatCompletionResponse * W;
  ChatCompletionStream :
    string -> ChatCompletionRequest -> string -> W -> res goerror (list StreamChunk) * W
}.

Record Registry_ := mkRegistry { providers : gmap string Provider_ }.

Definition NewRegistry : Registry_ := mkRegistry ∅.

Definition Register (r : Registry_) (p : Provider_) : Registry_ :=
  mkRegistry (<[Name p := p]> (providers r)).

Definition Get (r : Registry_) (name : string) : option Provider_ := providers r !! name.

Definition AllModels (r : Registry_) : list ModelInfo :=
  map_to_list (providers r) ≫= (fun kv => Models kv.2).

Definition SetModels (p : Provider_) (models : list ModelInfo) : Provider_ :=
  mkProvider (Name p) models (overridable p) (ChatCompletion p) (ChatCompletionStream p).

Definition SetProviderModels (r : Registry_) (name : string) (models : list ModelInfo)
  : bool * Registry_ :=
  match providers r !! name with
  | None => (false, r)
  | Some p =>
      if overridable p
      then (true, mkRegistry (<[name := SetModels p models]> (providers r)))
      else (false, r)
  end.

Definition AllProviders (r : Registry_) : list string := (map_to_list (providers r)).*1.

End Registry.

Arguments Provider_ : clear implicits.
Arguments Registry_ : clear implicits.

End Registry.

(** What the router relies on in a load balancer: it rearranges the targets. *)
Class LoadBalancer {W} (sort : list Target -> W -> list Target * W) : Prop :=
  lb_perm : forall ts w, (sort ts w).1 ≡ₚ ts.

(** The balancers keep that promise; their shared state is read from the world. A slice of
    more than 2^62 targets does not exist, so what round robin would do to one is immaterial. *)
Section Balancers.
Context {W : Type}.

Definition least_latency (tracker : W -> option Latency.LatencyTracker)
    (ts : list Target) (w : W) : list Target * W := (LB.LeastLatency_Sort (tracker w) ts, w).

Definition least_cost (costs : gmap string float64) (ts : list Target) (w : W)
  : list Target * W := (LB.LeastCost_Sort costs ts, w).

Definition round_robin (counter : W -> Z) (set_counter : Z -> W -> W) (ts : list Target) (w : W)
  : list Target * W :=
  if Z.of_nat (length ts) <=? 2 ^ 62
  then let '(ts', c) := LB.RoundRobin_Sort (counter w) ts in (ts', set_counter c w)
  else (ts, w).

#[global] Instance least_latency_lb tracker : LoadBalancer (least_latency tracker).
Proof.
  intros ts w. simpl. unfold LB.LeastLatency_Sort.
  destruct ts as [|a [|b ts]]; [done..|]. destruct (tracker w); [|done].
  apply insertionSort_perm.
Qed.

#[global] Instance least_cost_lb costs : LoadBalancer (least_cost costs).
Proof.
  intros ts w. simpl. unfold LB.LeastCost_Sort.
  destruct ts as [|a [|b ts]]; [done..|]. apply insertionSort_perm.
Qed.

#[global] Instance round_robin_lb counter set_counter : LoadBalancer (round_robin counter set_counter).
Proof.
  intros ts w. unfold round_robin. destruct (Z.leb_spec (Z.of_nat (length ts)) (2 ^ 62)); [|done].
  destruct ts as [|a [|b ts]]; [done..|]. rewrite LB.RoundRobin_rot by (done || simpl; lia).
  apply LB.rot_perm.
Qed.

End Balancers.

Module Fallback.

Section Router.
Context {W : Type} `{HW : World W}.
(** [strconv.Quote], as [%q] prints a chain's name. *)
Context (Quote : string -> string).

Record Router := mkRouter {
  registry : Registry.Registry_ W;
  lb : option (list Target -> W -> list Target * W)
}.

(** The three calls on the shared breaker; each is atomic and reads the clock. *)
Definition cb_IsOpen (p : string) (w : W) : bool * W :=
  let '(t, w) := time_Now w in
  let '(b, cb) := CB.IsOpen (breaker w) p t in (b, set_breaker cb w).

Definition cb_RecordSuccess (p : string) (w : W) : W :=
  set_breaker (CB.RecordSuccess (breaker w) p) w.

Definition cb_RecordFailure (p : string) (w : W) : W :=
  let '(t, w) := time_Now w in set_breaker (CB.RecordFailure (breaker w) p t) w.

(** [isFallbackError]. *)
Definition isFallbackError (err : option goerror) : bool :=
  match err with
  | None => false
  | Some e =>
      if errors_Is_context e then false
      else match errors_As_gateway e with
           | Some g => IsRetryable g
           | None => true
           end
  end.

(** The outcome of one loop iteration: the target is skipped (open circuit or not
    registered), it answered, it failed and the next one is tried, or it failed with an
    error that is returned at once. *)
Inductive attempt (A : Type) :=
| ASkip
| ADone (a : A)
| AFailover (e : goerror)
| AFatal (e : goerror).
#[global] Arguments ASkip {A}.
#[global] Arguments ADone {A} a.
#[global] Arguments AFailover {A} e.
#[global] Arguments AFatal {A} e.

(** One iteration of the loops of [Execute] and [ExecuteStream], whose bodies differ only
    in the call they make. *)
Definition try_target {A} (r : Router)
    (call : Registry.Provider_ W -> Target -> W -> res goerror A * W) (t : Target) (w : W)
  : attempt A * W :=
  let '(open, w) := cb_IsOpen (Provider t) w in
  if open then (ASkip, w)
  else match Registry.Get (registry r) (Provider t) with
       | None => (ASkip, w)
       | Some p =>
           let '(result, w) := call p t w in
           match result with
           | Ok a => (ADone a, cb_RecordSuccess (Provider t) w)
           | Err e =>
               if isFallbackError (Some e)
               then (AFailover e, cb_RecordFailure (Provider t) w)
               else (AFatal e, w)
           end
       end.

Definition zero_target : Target := mkTarget "" "" 0.

(** The loop over the targets and the error returned after it. *)
Fixpoint run_targets {A} (r : Router)
    (call : Registry.Provider_ W -> Target -> W -> res goerror A * W) (label name : string)
    (targets : list Target) (tried : Z) (lastErr : option goerror) (w : W)
  : res (goerror * Target) (A * Target) * W :=
  match targets with
  | [] =>
      (Err (if tried =? 0
            then EOther ("no available providers in chain " +:+ Quote name +:+
                         " (all circuits open)")
            else match lastErr with
                 | Some e => EWrap (label +:+ " exhausted for chain " +:+ Quote name) e
                 | None => EOther ("no providers in fallback chain " +:+ Quote name)
                 end, zero_target), w)
  | t :: ts =>
      let '(a, w) := try_target r call t w in
      match a with
      | ASkip => run_targets r call label name ts tried lastErr w
      | ADone x => (Ok (x, t), w)
      | AFailover e => run_targets r call label name ts (tried + 1) (Some e) w
      | AFatal e => (Err (e, t), w)
      end
  end.

(** The world of the retried closure: the request's world and the captured [resp]. *)
#[local] Instance capture_env : Retry.RetryEnv (W * option ChatCompletionResponse) := {
  Retry.rand_Float64 v := let '(x, w) := Retry.rand_Float64 v.1 in (x, (w, v.2));
  Retry.wait d v := let '(c, w) := Retry.wait d v.1 in (c, (w, v.2))
}.

(** The provider call of [Execute]: the adapter's call under the default retry policy; the
    response is the captured pointer. *)
Definition retried_call (req : ChatCompletionRequest) (rawBody : string)
    (p : Registry.Provider_ W) (t : Target) (w : W)
  : res goerror (option ChatCompletionResponse) * W :=
  let fn (v : W * option ChatCompletionResponse) :=
    let '(r, w) := Registry.ChatCompletion p (TModel t) req rawBody v.1 in
    match r with
    | Ok resp => (None, (w, Some resp))
    | Err e => (Some e, (w, None))
    end in
  let '(err, (w, resp)) := Retry.Execute Retry.Default fn (w, None) in
  match err with
  | None => (Ok resp, w)
  | Some e => (Err e, w)
  end.

Definition sorted_targets (r : Router) (chain : Chain) (w : W) : list Target * W :=
  match lb r with
  | None => (Targets chain, w)
  | Some sort => sort (Targets chain) w
  end.

Definition Execute (r : Router) (chain : Chain) (req : ChatCompletionRequest)
    (rawBody : string) (w : W)
  : res (goerror * Target) (option ChatCompletionResponse * Target) * W :=
  let '(targets, w) := sorted_targets r chain w in
  run_targets r (retried_call req rawBody) "all fallbacks" (ChainName chain) targets 0 None w.

Definition ExecuteStream (r : Router) (chain : Chain) (req : ChatCompletionRequest)
    (rawBody : string) (w : W)
  : res (goerror * Target) (list StreamChunk * Target) * W :=
  let '(targets, w) := sorted_targets r chain w in
  run_targets r (fun p t => Registry.ChatCompletionStream p (TModel t) req rawBody)
    "all stream fallbacks" (ChainName chain) targets 0 None w.

(** ** The specification: targets are passed over in order until one decides *)

(** The errors after which the next target is tried: not the end of the request's context,
    and not a gateway error that another provider would answer the same way. *)
Definition allows_failover (e : goerror) : Prop :=
  errors_Is_context e = false /\ forall g, errors_As_gateway e = Some g -> IsRetryable g = true.

(** What may happen to one target, and what it does to the world: the breaker is always
    asked first, a provider is called only behind a circuit that is not open, and the
    breaker learns of an answer and of a failure that allows failover, but of no other. *)
Inductive tries {A} (r : Router) (call : Registry.Provider_ W -> Target -> W -> res goerror A * W)
    (t : Target) (w : W) : attempt A -> W -> Prop :=
| tries_open w1 : cb_IsOpen (Provider t) w = (true, w1) -> tries r call t w ASkip w1
| tries_unknown w1 :
    cb_IsOpen (Provider t) w = (false, w1) -> Registry.Get (registry r) (Provider t) = None ->
    tries r call t w ASkip w1
| tries_done w1 p a w2 :
    cb_IsOpen (Provider t) w = (false, w1) -> Registry.Get (registry r) (Provider t) = Some p ->
    call p t w1 = (Ok a, w2) -> tries r call t w (ADone a) (cb_RecordSuccess (Provider t) w2)
| tries_failover w1 p e w2 :
    cb_IsOpen (Provider t) w = (false, w1) -> Registry.Get (registry r) (Provider t) = Some p ->
    call p t w1 = (Err e, w2) -> allows_failover e ->
    tries r call t w (AFailover e) (cb_RecordFailure (Provider t) w2)
| tries_fatal w1 p e w2 :
    cb_IsOpen (Provider t) w = (false, w1) -> Registry.Get (registry r) (Provider t) = Some p ->
    call p t w1 = (Err e, w2) -> ~ allows_failover e -> tries r call t w (AFatal e) w2.

Lemma isFallbackError_spec e : isFallbackError (Some e) = true <-> allows_failover e.
Proof.
  unfold isFallbackError, allows_failover. destruct (errors_Is_context e); [by split; [|intros [? _]]|].
  destruct (errors_As_gateway e) as [g|]; [|by split].
  split; [intros E; split; [done|]; by intros ? [= <-]|intros [_ E]; by apply E].
Qed.

Lemma try_target_spec {A} r (call : _ -> _ -> W -> res goerror A * W) t w a w' :
  try_target r call t w = (a, w') <-> tries r call t w a w'.
Proof.
  unfold try_target. split.
  - destruct (cb_IsOpen (Provider t) w) as [[] w1] eqn:O; [intros [= <- <-]; by constructor|].
    destruct (Registry.Get (registry r) (Provider t)) as [p|] eqn:G;
      [|intros [= <- <-]; by apply tries_unknown].
    destruct (call p t w1) as [[x|e] w2] eqn:C; [intros [= <- <-]; by eapply tries_done|].
    pose proof (isFallbackError_spec e) as F. destruct (isFallbackError (Some e));
      intros [= <- <-]; [eapply tries_failover|eapply tries_fatal]; try done; [by apply F|].
    intros N. by apply F in N.
  - pose proof isFallbackError_spec as F.
    destruct 1 as [w1 O|w1 O G|w1 p x w2 O G C|w1 p e w2 O G C E|w1 p e w2 O G C E];
      rewrite O; cbv beta iota; rewrite ?G, ?C; cbv beta iota; try done.
    + by rewrite (proj2 (F e) E).
    + destruct (isFallbackError (Some e)) eqn:X; [|done]. by apply F in X.
Qed.

(** [passes ts n last w w' n' last']: every target of [ts] was skipped or failed over,
    leaving the world at [w'], the count of tried targets and the last error updated. *)
Inductive passes {A} (r : Router) (call : Registry.Provider_ W -> Target -> W -> res goerror A * W)
  : list Target -> Z -> option goerror -> W -> Z -> option goerror -> W -> Prop :=
| passes_nil n l w : passes r call [] n l w n l w
| passes_skip t ts n l w w1 n' l' w' :
    tries r call t w ASkip w1 -> passes r call ts n l w1 n' l' w' ->
    passes r call (t :: ts) n l w n' l' w'
| passes_failover t ts n l w w1 e n' l' w' :
    tries r call t w (AFailover e) w1 ->
    passes r call ts (n + 1) (Some e) w1 n' l' w' ->
    passes r call (t :: ts) n l w n' l' w'.

Lemma run_targets_ok {A} r (call : _ -> _ -> W -> res goerror A * W) label name ts n l w a t w' :
  run_targets r call label name ts n l w = (Ok (a, t), w') <->
  exists pre post n1 l1 w1, ts = pre ++ t :: post /\ passes r call pre n l w n1 l1 w1 /\
    tries r call t w1 (ADone a) w'.
Proof.
  split.
  - revert n l w. induction ts as [|x ts IH]; intros n l w H; simpl in H; [done|].
    destruct (try_target r call x w) as [[|y|e|e] w1] eqn:E; rewrite try_target_spec in E; simplify_eq.
    + destruct (IH _ _ _ H) as (pre & post & n1 & l1 & w2 & -> & P & T).
      exists (x :: pre), post, n1, l1, w2. eauto using passes_skip.
    + exists [], ts, n, l, w. eauto using passes_nil.
    + destruct (IH _ _ _ H) as (pre & post & n1 & l1 & w2 & -> & P & T).
      exists (x :: pre), post, n1, l1, w2. eauto using passes_failover.
  - intros (pre & post & n1 & l1 & w1 & -> & P & T). revert T.
    induction P as [|x xs n l w w2 n' l' w3 E P IH|x xs n l w w2 e n' l' w3 E P IH];
      intros T; simpl; [apply try_target_spec in T; by rewrite T|apply try_target_spec in E; by rewrite E; auto..].
Qed.

(** Between a tried target and the end of the loop there is always an error to report. *)
Lemma passes_tried {A} r (call : _ -> _ -> W -> res goerror A * W) ts n l w n' l' w' :
  passes r call ts n l w n' l' w' -> n <= n' /\ (n < n' -> is_Some l') /\ (n = n' -> l' = l).
Proof.
  induction 1 as [|x xs n l w w2 n' l' w3 E P IH|x xs n l w w2 e n' l' w3 E P IH].
  - split; [lia|]. split; [lia|done].
  - done.
  - destruct IH as (H1 & H2 & H3). split; [lia|]. split; [|lia].
    intros _. destruct (decide (n + 1 = n')) as [E'|]; [rewrite H3 by done; eauto|apply H2; lia].
Qed.

Lemma run_targets_err {A} r (call : _ -> _ -> W -> res goerror A * W) label name ts n l w e t w' :
  run_targets r call label name ts n l w = (Err (e, t), w') ->
  (exists pre post n1 l1 w1, ts = pre ++ t :: post /\ passes r call pre n l w n1 l1 w1 /\
     tries r call t w1 (AFatal e) w') \/
  (t = zero_target /\ exists n1 l1, passes r call ts n l w n1 l1 w' /\
     e = if n1 =? 0 then EOther ("no available providers in chain " +:+ Quote name +:+
                                 " (all circuits open)")
         else match l1 with
              | Some e1 => EWrap (label +:+ " exhausted for chain " +:+ Quote name) e1
              | None => EOther ("no providers in fallback chain " +:+ Quote name)
              end).
Proof.
  revert n l w. induction ts as [|x ts IH]; intros n l w H; simpl in H.
  { injection H as <- <- <-. right. split; [done|]. exists n, l. split; [constructor|done]. }
  destruct (try_target r call x w) as [[|y|e1|e1] w1] eqn:E; rewrite try_target_spec in E; simplify_eq.
  - destruct (IH _ _ _ H) as [(pre & post & n1 & l1 & w2 & -> & P & T)|(-> & n1 & l1 & P & X)].
    + left. exists (x :: pre), post, n1, l1, w2. eauto using passes_skip.
    + right. split; [done|]. exists n1, l1. eauto using passes_skip.
  - destruct (IH _ _ _ H) as [(pre & post & n1 & l1 & w2 & -> & P & T)|(-> & n1 & l1 & P & X)].
    + left. exists (x :: pre), post, n1, l1, w2. eauto using passes_failover.
    + right. split; [done|]. exists n1, l1. eauto using passes_failover.
  - left. exists [], ts, n, l, w. eauto using passes_nil.
Qed.

Lemma sorted_targets_perm r chain w :
  (forall sort, lb r = Some sort -> LoadBalancer sort) ->
  (sorted_targets r chain w).1 ≡ₚ Targets chain.
Proof.
  intros H. unfold sorted_targets. destruct (lb r) as [sort|]; [|done].
  apply (H sort eq_refl).
Qed.

(** *** The retried call *)

(** A retried call that succeeds returns a response: the pointer is never nil. *)
Lemma retried_call_some req raw p t w w' :
  retried_call req raw p t w <> (Ok None, w').
Proof.
  unfold retried_call. intros H.
  destruct (Retry.Execute _ _ _) as [[e|] [w1 resp]] eqn:E; simplify_eq.
  apply Retry.execute_from_success in E as [v0 F]; [|right; vm_compute; lia].
  simpl in F. destruct (Registry.ChatCompletion _ _ _ _ _) as [[x|e] w2]; done.
Qed.

Lemma retried_call_preserves (R : relation W) `{!PreOrder R} req raw p t w :
  (forall w, R w (Registry.ChatCompletion p (TModel t) req raw w).2) ->
  (forall w, R w (Retry.rand_Float64 w).2) -> (forall d w, R w (Retry.wait d w).2) ->
  R w (retried_call req raw p t w).2.
Proof.
  intros Hc Hr Hw. unfold retried_call.
  set (fn := fun v : W * option ChatCompletionResponse => _).
  assert (PO : PreOrder (fun v v' : W * option ChatCompletionResponse => R v.1 v'.1)).
  { split; [by intros v|]. intros ???. by apply transitivity. }
  assert (P : R w (Retry.Execute Retry.Default fn (w, None)).2.1).
  { apply (Retry.execute_from_preserves
      (fun v v' : W * option ChatCompletionResponse => R v.1 v'.1) fn) with (w := (w, None)).
    - intros [v o]. unfold fn. simpl. specialize (Hc v).
      by destruct (Registry.ChatCompletion _ _ _ _ _) as [[x|e] w2].
    - intros [v o]. simpl. specialize (Hr v). by destruct (Retry.rand_Float64 v).
    - intros d [v o]. simpl. specialize (Hw d v). by destruct (Retry.wait d v). }
  by destruct (Retry.Execute _ _ _) as [[e|] [w1 resp]].
Qed.

(** *** A provider behind an open circuit *)

Section Blocked.
Context (p : string) (calls : W -> nat) (deadline : Time).

(** Nothing about provider [p] changed: no call, its breaker entry is the same, and the
    clock did not pass the deadline. *)
Definition untouched (w w' : W) : Prop :=
  calls w' = calls w /\ CB.look (breaker w') p = CB.look (breaker w) p /\
  CB.cfg (breaker w') = CB.cfg (breaker w) /\
  ((time_Now w).1 < deadline -> (time_Now w').1 < deadline).

#[export] Instance untouched_preorder : PreOrder untouched.
Proof. split; [done|]. intros w1 w2 w3 (?&?&?&?) (?&?&?&?). repeat split; [congruence..|auto]. Qed.

Context (breaker_set : forall cb w, breaker (set_breaker cb w) = cb).
Context (calls_set : forall cb w, calls (set_breaker cb w) = calls w).
Context (clock_set : forall cb w, (time_Now (set_breaker cb w)).1 = (time_Now w).1).
Context (now_quiet : forall w, untouched w (time_Now w).2).

(** The circuit of [p] is open and its timeout does not elapse before the deadline. *)
Definition blocked (w : W) : Prop :=
  CB.status (breaker w) p = CB.StateOpen /\ (time_Now w).1 < deadline /\
  forall t, t < deadline -> time_Sub t (CB.lastFailureAt (CB.look (breaker w) p))
                            < CB.OpenTimeout (CB.cfg (breaker w)).

Lemma blocked_untouched w w' : untouched w w' -> blocked w -> blocked w'.
Proof. unfold blocked, CB.status. intros (_ & -> & -> & ?) (? & ? & ?). auto. Qed.

Lemma set_breaker_untouched w o :
  CB.op_provider o <> p -> untouched w (set_breaker (CB.apply_op (breaker w) o) w).
Proof.
  intros H. repeat split; [by rewrite calls_set| | |by rewrite clock_set].
  - rewrite breaker_set, CB.look_apply. by case_decide.
  - by rewrite breaker_set, CB.cfg_apply.
Qed.

Lemma cb_IsOpen_blocked w :
  blocked w -> (cb_IsOpen p w).1 = true /\ untouched w (cb_IsOpen p w).2.
Proof.
  intros (S & D & T). unfold cb_IsOpen. pose proof (now_quiet w) as (Q1 & Q2 & Q3 & Q4).
  specialize (T _ D). destruct (time_Now w) as [t w1] eqn:N. simpl in *.
  assert (B : (CB.IsOpen (breaker w1) p t).1 = true).
  { rewrite CB.IsOpen_result, Q2, Q3. unfold CB.status in S. rewrite S. simpl.
    rewrite negb_true_iff, Z.leb_gt. done. }
  pose proof (CB.IsOpen_blocked _ _ _ B) as E.
  destruct (CB.IsOpen (breaker w1) p t) as [b cb]. simpl in *. subst. split; [done|].
  repeat split; simpl; rewrite ?calls_set, ?breaker_set, ?clock_set; try done.
  rewrite N. simpl. auto.
Qed.

Lemma cb_IsOpen_other q w : q <> p -> untouched w (cb_IsOpen q w).2.
Proof.
  intros H. unfold cb_IsOpen. pose proof (now_quiet w) as N.
  destruct (time_Now w) as [t w1]. simpl in N.
  pose proof (set_breaker_untouched w1 (CB.OpIsOpen q t) H) as U. simpl in U.
  destruct (CB.IsOpen (breaker w1) q t) as [b cb]. simpl in *. by etrans.
Qed.

Lemma try_target_blocked {A} r (call : _ -> _ -> W -> res goerror A * W) t w :
  blocked w ->
  (forall q w, Provider t <> p -> Registry.Get (registry r) (Provider t) = Some q ->
     untouched w (call q t w).2) ->
  untouched w (try_target r call t w).2.
Proof.
  intros B Hc. unfold try_target. destruct (decide (Provider t = p)) as [E|E].
  - destruct (cb_IsOpen_blocked w B) as [O U]. rewrite E. destruct (cb_IsOpen p w) as [b w1].
    simpl in *. by subst b.
  - pose proof (cb_IsOpen_other (Provider t) w E) as U.
    destruct (cb_IsOpen (Provider t) w) as [[] w1]; simpl in U; [done|].
    destruct (Registry.Get (registry r) (Provider t)) as [q|] eqn:G; [|done].
    pose proof (Hc q w1 E eq_refl) as C. destruct (call q t w1) as [[a|e] w2]; simpl in C.
    + etrans; [exact U|]. etrans; [exact C|].
      apply (set_breaker_untouched w2 (CB.OpSuccess (Provider t)) E).
    + destruct (isFallbackError (Some e)); simpl; [|by etrans].
      etrans; [exact U|]. etrans; [exact C|]. unfold cb_RecordFailure.
      pose proof (now_quiet w2) as N. destruct (time_Now w2) as [t3 w3]. simpl in N.
      etrans; [exact N|].
      apply (set_breaker_untouched w3 (CB.OpFailure (Provider t) t3) E).
Qed.

Lemma run_targets_blocked {A} r (call : _ -> _ -> W -> res goerror A * W) label name ts n l w :
  blocked w ->
  (forall t q w, Provider t <> p -> Registry.Get (registry r) (Provider t) = Some q ->
     untouched w (call q t w).2) ->
  untouched w (run_targets r call label name ts n l w).2.
Proof.
  intros B Hc. revert n l w B. induction ts as [|t ts IH]; intros n l w B; simpl; [done|].
  pose proof (try_target_blocked r call t w B (Hc t)) as U.
  destruct (try_target r call t w) as [[|a|e|e] w1]; simpl in *; try done;
    (etrans; [exact U|]; apply IH; by eapply blocked_untouched).
Qed.

End Blocked.

End Router.

Arguments Router : clear implicits.

(** A target that answered under retry answered with a response. *)
Lemma tries_resp_some {W} `{World W} (r : Router W) req raw t w resp w' :
  tries r (retried_call req raw) t w (ADone resp) w' -> is_Some resp.
Proof.
  inversion 1 as [| |w1 q x w2 O G C| |]; subst. destruct resp as [x|]; [by eexists|].
  by apply retried_call_some in C.
Qed.

(** A successful [Execute] returns a response. *)
Lemma Execute_resp_some {W} `{World W} Quote (r : Router W) chain req raw w resp t w' :
  Execute Quote r chain req raw w = (Ok (resp, t), w') -> is_Some resp.
Proof.
  unfold Execute. destruct (sorted_targets r chain w) as [ts w0]. rewrite run_targets_ok.
  intros (pre & post & n & l & w1 & -> & _ & T). by eapply tries_resp_some.
Qed.

(** ** Properties *)

(** C1. [Execute] and [ExecuteStream] return the answer of the first target, in the load
    balancer's order, that answers: every target before it was skipped (open circuit or
    unknown provider) or failed with an error that allows failover, and conversely. The
    answering target is one of the chain's, and a chat response is never nil. *)
Theorem Execute_first_success {W} `{World W} Quote (r : Router W) chain req raw w :
  (forall sort, lb r = Some sort -> LoadBalancer sort) ->
  (forall resp t w',
    Execute Quote r chain req raw w = (Ok (resp, t), w') <->
    exists pre post n l w1,
      (sorted_targets r chain w).1 = pre ++ t :: post /\ t ∈ Targets chain /\
      is_Some resp /\
      passes r (retried_call req raw) pre 0 None (sorted_targets r chain w).2 n l w1 /\
      tries r (retried_call req raw) t w1 (ADone resp) w') /\
  (forall chunks t w',
    ExecuteStream Quote r chain req raw w = (Ok (chunks, t), w') <->
    exists pre post n l w1,
      (sorted_targets r chain w).1 = pre ++ t :: post /\ t ∈ Targets chain /\
      passes r (fun p t => Registry.ChatCompletionStream p (TModel t) req raw)
        pre 0 None (sorted_targets r chain w).2 n l w1 /\
      tries r (fun p t => Registry.ChatCompletionStream p (TModel t) req raw) t w1
        (ADone chunks) w').
Proof.
  intros HL. pose proof (sorted_targets_perm r chain w HL) as P.
  assert (M : forall pre t post, (sorted_targets r chain w).1 = pre ++ t :: post ->
              t ∈ Targets chain).
  { intros pre t post E. rewrite <- P, E. set_solver. }
  unfold Execute, ExecuteStream. destruct (sorted_targets r chain w) as [ts w0]. simpl in *.
  split; intros a t w'; rewrite run_targets_ok; split.
  - intros (pre & post & n & l & w1 & -> & Hp & T).
    exists pre, post, n, l, w1. split; [done|]. split; [by eapply M|]. split; [|done].
    by eapply tries_resp_some.
  - intros (pre & post & n & l & w1 & ? & _ & _ & ?). by exists pre, post, n, l, w1.
  - intros (pre & post & n & l & w1 & -> & Hp & T).
    exists pre, post, n, l, w1. split; [done|]. split; [by eapply M|done].
  - intros (pre & post & n & l & w1 & ? & _ & ?). by exists pre, post, n, l, w1.
Qed.

(** C31. When [Execute] fails, either one target failed with an error that does not allow
    failover (a context error or a non-retryable gateway error) and that error is returned
    as it is; or every target was passed over, and the error says so: no provider was
    tried, or it wraps the last failure, so the handler still finds a gateway error in it.
    The third message of the source, for a chain that tried a provider without an error,
    is never produced. *)
Theorem Execute_errors {W} `{World W} Quote (r : Router W) chain req raw w e t w' :
  Execute Quote r chain req raw w = (Err (e, t), w') ->
  (~ allows_failover e /\ exists pre post n l w1,
     (sorted_targets r chain w).1 = pre ++ t :: post /\
     passes r (retried_call req raw) pre 0 None (sorted_targets r chain w).2 n l w1 /\
     tries r (retried_call req raw) t w1 (AFatal e) w') \/
  (t = zero_target /\ exists n l,
     passes r (retried_call req raw) (sorted_targets r chain w).1 0 None
       (sorted_targets r chain w).2 n l w' /\
     (n = 0 /\ e = EOther ("no available providers in chain " +:+ Quote (ChainName chain) +:+
                           " (all circuits open)") \/
      exists last, 0 < n /\ l = Some last /\
        e = EWrap ("all fallbacks exhausted for chain " +:+ Quote (ChainName chain)) last)).
Proof.
  unfold Execute. destruct (sorted_targets r chain w) as [ts w0]. simpl. intros E.
  apply run_targets_err in E as [(pre & post & n & l & w1 & -> & P & T)|(-> & n & l & P & ->)].
  - left. split; [by inversion T|by exists pre, post, n, l, w1].
  - right. split; [done|]. exists n, l. split; [done|].
    destruct (passes_tried _ _ _ _ _ _ _ _ _ P) as (H1 & H2 & H3).
    destruct (Z.eqb_spec n 0) as [->|Hn]; [by left|right].
    destruct (H2 ltac:(lia)) as [last ->]. exists last. split; [lia|]. done.
Qed.

(** A provider whose circuit is open is never called: as long as the requests of the
    chain finish before its timeout elapses ([D]), executing the chain makes no call to it
    (counted by [calls]) and leaves its breaker entry alone, whatever the other targets
    do. *)
Theorem open_circuit_never_called {W} `{World W} Quote (r : Router W) (p : string)
    (calls : W -> nat) (D : Time) chain req raw w :
  (forall cb w, breaker (set_breaker cb w) = cb) ->
  (forall cb w, calls (set_breaker cb w) = calls w) ->
  (forall cb w, (time_Now (set_breaker cb w)).1 = (time_Now w).1) ->
  (forall w, untouched p calls D w (time_Now w).2) ->
  (forall w, untouched p calls D w (Retry.rand_Float64 w).2) ->
  (forall d w, untouched p calls D w (Retry.wait d w).2) ->
  (forall sort ts w, lb r = Some sort -> untouched p calls D w (sort ts w).2) ->
  (forall name q model w, name <> p -> Registry.Get (registry r) name = Some q ->
     untouched p calls D w (Registry.ChatCompletion q model req raw w).2 /\
     untouched p calls D w (Registry.ChatCompletionStream q model req raw w).2) ->
  blocked p D w ->
  untouched p calls D w (Execute Quote r chain req raw w).2 /\
  untouched p calls D w (ExecuteStream Quote r chain req raw w).2.
Proof.
  intros Hset Hcs Hcl Hnow Hrand Hwait Hlb Hcalls B.
  assert (U : untouched p calls D w (sorted_targets r chain w).2).
  { unfold sorted_targets. destruct (lb r) as [sort|] eqn:E; [by apply Hlb|done]. }
  unfold Execute, ExecuteStream. destruct (sorted_targets r chain w) as [ts w0]. simpl in U.
  pose proof (blocked_untouched p calls D _ _ U B) as B0.
  split; (etrans; [exact U|]); apply run_targets_blocked; auto; intros t q w1 E G.
  - apply (retried_call_preserves (untouched p calls D)); auto. intros w2. by eapply Hcalls.
  - by eapply Hcalls.
Qed.

(** *** A concrete world, for examples: a fixed clock, the breaker, scripted answers per
    provider and a log of the providers called. *)
Record sim := mkSim {
  sim_breaker : CB.CircuitBreaker;
  sim_time : Time;
  sim_log : list string
}.

#[export] Instance sim_world : World sim := {
  world_retry := {| Retry.rand_Float64 w := (f64_const 1 2, w); Retry.wait _ w := (None, w) |};
  time_Now w := (sim_time w, w);
  breaker := sim_breaker;
  set_breaker cb w := mkSim cb (sim_time w) (sim_log w)
}.

Definition sim_provider (name : string) (answer : res goerror ChatCompletionResponse)
  : Registry.Provider_ sim :=
  Registry.mkProvider name [] false
    (fun _ _ _ w => (answer, mkSim (sim_breaker w) (sim_time w) (sim_log w ++ [name])))
    (fun _ _ _ w => (match answer with Ok _ => Ok [] | Err e => Err e end,
                     mkSim (sim_breaker w) (sim_time w) (sim_log w ++ [name]))).

Definition sim_response : ChatCompletionResponse := mkResponse "id" "chat.completion" 0 "m" [] None.

Definition sim_router : Router sim :=
  mkRouter (Registry.Register (Registry.Register Registry.NewRegistry
    (sim_provider "a" (Err (EGateway (NewNetworkError "down")))))
    (sim_provider "b" (Ok sim_response))) None.

Definition sim_chain : Chain := mkChain "c" [mkTarget "a" "m" 0; mkTarget "b" "m" 0].

Definition sim_start (t : Time) : sim := mkSim (CB.New CB.DefaultConfig) t [].

Lemma Execute_first_success_witness :
  exists w', Execute id sim_router sim_chain (simple_request "m" []) "" (sim_start 5) =
             (Ok (Some sim_response, mkTarget "b" "m" 0), w') /\
  mkTarget "b" "m" 0 ∈ Targets sim_chain.
Proof.
  eexists. split; [vm_compute; reflexivity|].
  pose proof (Execute_first_success id sim_router sim_chain (simple_request "m" []) ""
    (sim_start 5) ltac:(intros ? [=])) as [H _].
  edestruct (H (Some sim_response) (mkTarget "b" "m" 0)) as [H1 _].
  edestruct H1 as (? & ? & ? & ? & ? & _ & M & _); [vm_compute; reflexivity|exact M].
Defined.

Lemma Execute_errors_witness :
  let chain := mkChain "c" [mkTarget "a" "m" 0] in
  let run := Execute id sim_router chain (simple_request "m" []) "" (sim_start 5) in
  exists n l, 0 < n /\
    passes sim_router (retried_call (simple_request "m" []) "") (Targets chain) 0 None
      (sim_start 5) n l run.2.
Proof.
  intros chain run.
  assert (E : run = (Err (EWrap "all fallbacks exhausted for chain c"
                            (EGateway (NewNetworkError "down")), zero_target), run.2))
    by (vm_compute; reflexivity).
  destruct (Execute_errors id sim_router chain (simple_request "m" []) "" (sim_start 5)
    _ _ _ E) as [[F _]|(_ & n & l & P & [[_ X]|(last & Hn & _)])].
  - exfalso. apply F. split; [reflexivity|]. intros g [= <-]. reflexivity.
  - discriminate X.
  - exists n, l. split; [exact Hn|exact P].
Defined.

Definition sim_calls (p : string) (w : sim) : nat := length (List.filter (String.eqb p) (sim_log w)).

Lemma open_circuit_never_called_witness :
  let w := mkSim (foldl CB.apply_op (CB.New CB.DefaultConfig)
                    (replicate 5 (CB.OpFailure "a" 4))) 5 [] in
  sim_calls "a" (Execute id sim_router sim_chain (simple_request "m" []) "" w).2 = O.
Proof.
  intros w.
  pose proof (open_circuit_never_called id sim_router "a" (sim_calls "a") 100 sim_chain
    (simple_request "m" []) "" w) as T.
  destruct T as [[E _] _]; [..|rewrite E; reflexivity].
  - reflexivity.
  - reflexivity.
  - reflexivity.
  - intros v. repeat split; auto.
  - intros v. repeat split; auto.
  - intros d v. repeat split; auto.
  - intros sort ts v [=].
  - intros name q model w1 Hn Hq. unfold sim_router, Registry.Get, Registry.Register in Hq.
    simpl in Hq. rewrite !lookup_insert, lookup_empty in Hq.
    repeat case_decide; subst; simplify_eq.
    split; repeat split; unfold sim_calls; simpl; auto; rewrite List.filter_app; simpl;
      by rewrite app_nil_r.
  - split; [reflexivity|]. split; [reflexivity|]. intros t Ht. unfold time_Sub.
    change (CB.lastFailureAt (CB.look (breaker w) "a")) with 4.
    change (CB.OpenTimeout (CB.cfg (breaker w))) with (60 * Second).
    unfold int64_min, int64_max, Second. lia.
Defined.

End Fallback.
