(* ===== verification/Cost.v ===== *)
(** * Cost calculation (internal/cost)

    The pricing table, model lookup with case folding and provider-prefix stripping, the
    cost of a request, and the token estimate. Prices and costs are [float64]. *)

From S2P Require Import Prelude Float64.
Local Open Scope Z_scope.

Module Cost.

Record ModelPricing := mkPricing {
  PricingProvider : string;
  InputPerMillionTokens : float64;
  OutputPerMillionTokens : float64
}.

Record Calculator := mkCalculator { models : gmap string ModelPricing }.

Definition NewCalculator (m : gmap string ModelPricing) : Calculator := mkCalculator m.

(** [LoadFromYAML]: the file's text if it can be read; [Unmarshal] gives the price list, which
    may be missing in the file. *)
Definition LoadFromYAML (Unmarshal : string -> option (option (gmap string ModelPricing))) (file : option string)
  : res string Calculator :=
  match file with
  | None => Err "read models config"
  | Some data =>
      match Unmarshal data with
      | None => Err "parse models config"
      | Some m => Ok (NewCalculator (default ∅ m))
      end
  end.

Section Lookup.
(** [strings.ToLower]. *)
Context (ToLower : string -> string).

Definition lookup (c : Calculator) (model : string) : option ModelPricing :=
  let model := ToLower model in
  match models c !! model with
  | Some p => Some p
  | None =>
      match Index model "/" with
      | Some idx => models c !! drop_str (S idx) model
      | None => None
      end
  end.

Definition HasPricing (c : Calculator) (model : string) : bool :=
  match lookup c model with Some _ => true | None => false end.

Definition Calculate (c : Calculator) (model : string) (promptTokens completionTokens : Z)
  : float64 :=
  match lookup c model with
  | None => f64_0
  | Some p =>
      let million := f64_of_Z 1000000 in
      let inp := f64_mul (f64_div (f64_of_Z promptTokens) million) (InputPerMillionTokens p) in
      let out := f64_mul (f64_div (f64_of_Z completionTokens) million)
                   (OutputPerMillionTokens p) in
      f64_add inp out
  end.

(** [UpdatePricing]: the entries of the given map, in the order [range] yields them. *)
Definition UpdatePricing (c : Calculator) (pricing : list (string * ModelPricing)) : Calculator :=
  mkCalculator (foldl (fun m kv => <[ToLower kv.1 := kv.2]> m) (models c) pricing).

End Lookup.

(** ** tokenizer.go *)

(** The length of the UTF-8 sequence that starts a byte string as Go decodes it: an
    invalid or truncated sequence is one replacement rune of one byte. *)
Definition byte_at (s : string) (i : nat) : Z :=
  match String.get i s with Some c => Z.of_nat (Ascii.nat_of_ascii c) | None => -1 end.

Definition is_cont (b lo hi : Z) : bool := (lo <=? b) && (b <=? hi).

Definition rune_len (s : string) : nat :=
  let b0 := byte_at s 0 in
  let b1 := byte_at s 1 in
  let b2 := byte_at s 2 in
  let b3 := byte_at s 3 in
  let cont b := is_cont b 128 191 in
  if (194 <=? b0) && (b0 <=? 223) then if cont b1 then 2%nat else 1%nat
  else if b0 =? 224 then if is_cont b1 160 191 && cont b2 then 3%nat else 1%nat
  else if b0 =? 237 then if is_cont b1 128 159 && cont b2 then 3%nat else 1%nat
  else if (225 <=? b0) && (b0 <=? 239) then if cont b1 && cont b2 then 3%nat else 1%nat
  else if b0 =? 240 then if is_cont b1 144 191 && cont b2 && cont b3 then 4%nat else 1%nat
  else if b0 =? 244 then if is_cont b1 128 143 && cont b2 && cont b3 then 4%nat else 1%nat
  else if (241 <=? b0) && (b0 <=? 243) then if cont b1 && cont b2 && cont b3 then 4%nat else 1%nat
  else 1%nat.

Fixpoint rune_count_fuel (fuel : nat) (s : string) : nat :=
  match fuel, s with
  | S n, String _ _ => S (rune_count_fuel n (drop_str (rune_len s) s))
  | _, _ => O
  end.

(** [len([]rune(text))]; every rune takes at least one byte, so the length is enough fuel. *)
Definition rune_count (s : string) : nat := rune_count_fuel (String.length s) s.

Definition EstimateTokens (text : string) : Z :=
  let n := Z.of_nat (rune_count text) / 4 in
  if n <? 1 then 1 else n.

(** ** Lemmas *)

Lemma rune_len_pos s : (1 <= rune_len s)%nat.
Proof. unfold rune_len. repeat case_match; lia. Qed.

Lemma length_drop_str n s : String.length (drop_str n s) = (String.length s - n)%nat.
Proof. revert s. induction n as [|n IH]; intros [|c s]; simpl; auto; lia. Qed.

Lemma rune_count_fuel_enough n m s :
  (String.length s <= n)%nat -> (String.length s <= m)%nat ->
  rune_count_fuel n s = rune_count_fuel m s.
Proof.
  revert m s. induction n as [|n IH]; intros [|m] [|c s]; simpl; try done; [lia..|].
  intros H1 H2. f_equal. pose proof (rune_len_pos (String c s)).
  pose proof (length_drop_str (rune_len (String c s)) (String c s)) as L. simpl in L.
  apply IH; lia.
Qed.

Lemma rune_count_fuel_le n s : (rune_count_fuel n s <= String.length s)%nat.
Proof.
  revert s. induction n as [|n IH]; intros [|c s]; simpl; try lia.
  specialize (IH (drop_str (rune_len (String c s)) (String c s))).
  pose proof (rune_len_pos (String c s)).
  pose proof (length_drop_str (rune_len (String c s)) (String c s)) as L. simpl in L. lia.
Qed.

Lemma HasPrefix_slash s :
  HasPrefix s "/" = match s with EmptyString => false | String c _ => Ascii.eqb "/"%char c end.
Proof. destruct s as [|c s]; [done|]. cbn [HasPrefix]. by destruct (Ascii.eqb _ c), s. Qed.

(** The first slash of a string splits it. *)
Lemma Index_slash a b : Contains a "/" = false -> Index (a +:+ "/" +:+ b) "/" = Some (String.length a).
Proof.
  induction a as [|c a IH].
  - intros _. simpl. by destruct b.
  - rewrite Contains_unfold, orb_false_iff, HasPrefix_slash. intros [H1 H2].
    cbn [Index String.append]. rewrite HasPrefix_slash. simpl in *. rewrite H1. by rewrite IH.
Qed.

Lemma Index_none s : Contains s "/" = false -> Index s "/" = None.
Proof.
  induction s as [|c s IH]; [done|].
  rewrite Contains_unfold, orb_false_iff, HasPrefix_slash. intros [H1 H2].
  cbn [Index]. rewrite HasPrefix_slash. rewrite H1. by rewrite IH.
Qed.

(** ** Properties *)

(** Model lookup, whatever the case mapping: the price of a model is the entry for its
    lower-cased name; failing that, the entry for what follows the first slash of the
    lower-cased name; a model with neither costs nothing. *)
Lemma lookup_spec (ToLower : string -> string) (c : Calculator) (model : string) :
  (forall p, models c !! ToLower model = Some p -> lookup ToLower c model = Some p) /\
  (models c !! ToLower model = None ->
   (forall a b, ToLower model = a +:+ "/" +:+ b -> Contains a "/" = false ->
      lookup ToLower c model = models c !! b) /\
   (Contains (ToLower model) "/" = false -> lookup ToLower c model = None)) /\
  (lookup ToLower c model = None <-> HasPricing ToLower c model = false) /\
  (forall pt ct, HasPricing ToLower c model = false -> Calculate ToLower c model pt ct = f64_0).
Proof.
  split; [|split; [|split]].
  - intros p. unfold lookup. by intros ->.
  - unfold lookup. intros ->. split; intros.
    + rewrite H, Index_slash by done. f_equal. clear.
      induction a as [|x a IH]; [by destruct b|done].
    + by rewrite Index_none.
  - unfold HasPricing. destruct (lookup ToLower c model); naive_solver.
  - intros pt ct. unfold HasPricing, Calculate. by destruct (lookup ToLower c model).
Qed.

(** A later update wins, and other entries stay. *)
Lemma UpdatePricing_last ToLower c l k p :
  models (UpdatePricing ToLower c (l ++ [(k, p)])) !! ToLower k = Some p.
Proof. unfold UpdatePricing. simpl. rewrite foldl_app. simpl. apply lookup_insert_eq. Qed.

(** After an update, looking a model up under any spelling that lower-cases to the same
    name finds the updated price (case mapping idempotent on the keys). *)
Theorem UpdatePricing_lookup (ToLower : string -> string) (c : Calculator)
    (pricing : list (string * ModelPricing)) (k model : string) (p : ModelPricing) :
  NoDup ((fun kv => ToLower kv.1) <$> pricing) ->
  (k, p) ∈ pricing -> ToLower model = ToLower k ->
  lookup ToLower (UpdatePricing ToLower c pricing) model = Some p.
Proof.
  intros ND Hin E. unfold lookup. rewrite E.
  assert (H : models (UpdatePricing ToLower c pricing) !! ToLower k = Some p); [|by rewrite H].
  unfold UpdatePricing. simpl. generalize (models c). clear E.
  induction pricing as [|[k' p'] l IH]; intros m; [by inversion Hin|].
  inversion ND as [|? ? N1 N2]; subst. simpl. apply elem_of_cons in Hin as [Heq|Hin]; [|by apply IH].
  injection Heq as -> ->. simpl in N1. clear IH ND N2.
  assert (G : <[ToLower k' := p']> m !! ToLower k' = Some p') by apply lookup_insert_eq.
  revert G. generalize (<[ToLower k' := p']> m). induction l as [|[k2 p2] l IH]; intros m2 G; [done|].
  simpl in *. apply IH; [set_solver|]. rewrite lookup_insert_ne; set_solver.
Qed.

Lemma UpdatePricing_lookup_witness :
  lookup ascii_ToLower (UpdatePricing ascii_ToLower (NewCalculator ∅)
    [("GPT-4o", mkPricing "openai" (f64_of_Z 3) (f64_of_Z 10))]) "gpt-4O" =
  Some (mkPricing "openai" (f64_of_Z 3) (f64_of_Z 10)).
Proof.
  apply (UpdatePricing_lookup ascii_ToLower (NewCalculator ∅)
    [("GPT-4o", mkPricing "openai" (f64_of_Z 3) (f64_of_Z 10))] "GPT-4o").
  - simpl. apply NoDup_singleton.
  - left.
  - reflexivity.
Defined.

(** Token estimates: at least one, and at most one per four bytes otherwise. *)
Lemma EstimateTokens_bounds s :
  1 <= EstimateTokens s <= Z.max 1 (Z.of_nat (String.length s) / 4).
Proof.
  unfold EstimateTokens, rune_count.
  pose proof (rune_count_fuel_le (String.length s) s) as L.
  pose proof (Z.div_le_mono _ (Z.of_nat (String.length s)) 4 ltac:(lia)
    (proj1 (Nat2Z.inj_le _ _) L)).
  case_match; breflect; lia.
Qed.

End Cost.
