(* ===== verification/VirtualKey.v ===== *)
(** * Virtual keys (internal/auth, internal/store/postgres/virtual_key_store.go,
    internal/gateway/handler/admin_keys.go)

    The key record and its checks, key generation, the keys table, the Redis validation
    cache, the authentication middleware and the admin handlers that create, update,
    deactivate and rotate keys. The database and the cache are explicit state; a flag per
    call says whether the call succeeds. SHA-256 is an argument. The table keeps the values
    it is given ([Rows] has what its columns keep of them); a nil [json.RawMessage] is
    the empty text. *)

From S2P Require Import Prelude Float64 Types.
Local Open Scope Z_scope.

Module VK.

Inductive AuthErr := ErrKeyNotFound | ErrKeyInactive | ErrKeyExpired | ErrModelBlocked
  | ErrModelNotAllowed | ErrStore (msg : string).

Record VirtualKey := mkVK {
  ID : UUID;
  KeyHash : string;
  KeyPrefix : string;
  Name : string;
  UserID : option UUID;
  TeamID : option UUID;
  OrgID : option UUID;
  ExpiresAt : option Time;
  BudgetUSD : option float64;
  RPMLimit : option Z;
  TPMLimit : option Z;
  AllowedModels : list string;
  BlockedModels : list string;
  VMetadata : RawMessage;
  IsActive : bool;
  CreatedAt : Time;
  UpdatedAt : Time;
  LastUsedAt : option Time
}.

(** ** virtual_key.go *)

Definition base62Alphabet : string :=
  "0123456789ABCDEFGHIJKLMNOPQRSTUVWXYZabcdefghijklmnopqrstuvwxyz".

Definition keyRandomLen : nat := 43.

Definition base62_char (v : Z) : ascii :=
  default zero (String.get (Z.to_nat (v mod 62)) base62Alphabet).

Section Hash.
(** The hex SHA-256 of a string. *)
Context (HashKey : string -> string).

(** [GenerateKey] from the bytes [rand.Read] produced: the raw key, its hash, its prefix. *)
Definition GenerateKey (b : list Z) : string * string * string :=
  let chars := foldr (fun v s => String (base62_char v) s) "" b in
  let rawKey := "sk-" +:+ chars in
  (rawKey, HashKey rawKey, take_str 7 rawKey).

Definition VerifyHash (rawKey storedHash : string) : bool :=
  String.eqb (HashKey rawKey) storedHash.

Definition IsValid (k : VirtualKey) (now : Time) : res AuthErr unit :=
  if negb (IsActive k) then Err ErrKeyInactive
  else match ExpiresAt k with
       | Some e => if time_After now e then Err ErrKeyExpired else Ok tt
       | None => Ok tt
       end.

Definition CanAccessModel (k : VirtualKey) (model : string) : res AuthErr unit :=
  if slices_Contains (BlockedModels k) model then Err ErrModelBlocked
  else if (0 <? Z.of_nat (length (AllowedModels k)))
          && negb (slices_Contains (AllowedModels k) model)
       then Err ErrModelNotAllowed
       else Ok tt.

(** ** virtual_key_store.go: the table, keyed by primary key, hash unique *)

Abbreviation Table := (gmap UUID VirtualKey).

Definition hash_taken (db : Table) (h : string) (except : option UUID) : bool :=
  existsb (fun kv => String.eqb (KeyHash kv.2) h && negb (bool_decide (Some kv.1 = except)))
    (map_to_list db).

Definition default_metadata (m : RawMessage) : RawMessage := if String.eqb m "" then "{}" else m.

(** [Create]: [id] and [now] are the database's. *)
Definition store_Create (db : Table) (k : VirtualKey) (id : UUID) (now : Time)
  : res AuthErr VirtualKey * Table :=
  if hash_taken db (KeyHash k) None || bool_decide (is_Some (db !! id))
  then (Err (ErrStore "unique violation"), db)
  else
    let row := mkVK id (KeyHash k) (KeyPrefix k) (Name k) (UserID k) (TeamID k) (OrgID k)
      (ExpiresAt k) (BudgetUSD k) (RPMLimit k) (TPMLimit k) (AllowedModels k)
      (BlockedModels k) (default_metadata (VMetadata k)) (IsActive k) now now None in
    (Ok row, <[id := row]> db).

Definition store_GetByHash (db : Table) (prefix hash : string) : res AuthErr VirtualKey :=
  match find (fun kv => String.eqb (KeyPrefix kv.2) prefix && String.eqb (KeyHash kv.2) hash)
          (map_to_list db) with
  | Some kv => Ok kv.2
  | None => Err ErrKeyNotFound
  end.

Definition store_GetByID (db : Table) (id : UUID) : res AuthErr VirtualKey :=
  match db !! id with Some k => Ok k | None => Err ErrKeyNotFound end.

Definition store_List (db : Table) : list VirtualKey :=
  insertionSort (fun a b => CreatedAt b <? CreatedAt a) (map_to_list db).*2.

(** SQL refuses a negative LIMIT or OFFSET. *)
Definition store_ListPage (db : Table) (limit offset : Z) : res AuthErr (list VirtualKey) :=
  if (limit <? 0) || (offset <? 0) then Err (ErrStore "negative limit or offset")
  else Ok (take (Z.to_nat limit) (drop (Z.to_nat offset) (store_List db))).

Definition store_CountKeys (db : Table) : Z := Z.of_nat (size db).

(** [Update] replaces the mutable fields; the result is the new [updated_at]. *)
Definition store_Update (db : Table) (k : VirtualKey) (now : Time)
  : res AuthErr Time * Table :=
  match db !! ID k with
  | None => (Err ErrKeyNotFound, db)
  | Some old =>
      let row := mkVK (ID k) (KeyHash old) (KeyPrefix old) (Name k) (UserID old) (TeamID old)
        (OrgID old) (ExpiresAt k) (BudgetUSD k) (RPMLimit k) (TPMLimit k) (AllowedModels k)
        (BlockedModels k) (default_metadata (VMetadata k)) (IsActive k) (CreatedAt old) now
        (LastUsedAt old) in
      (Ok now, <[ID k := row]> db)
  end.

Definition set_active (k : VirtualKey) (b : bool) (now : Time) : VirtualKey :=
  mkVK (ID k) (KeyHash k) (KeyPrefix k) (Name k) (UserID k) (TeamID k) (OrgID k) (ExpiresAt k)
    (BudgetUSD k) (RPMLimit k) (TPMLimit k) (AllowedModels k) (BlockedModels k) (VMetadata k)
    b (CreatedAt k) now (LastUsedAt k).

Definition set_updated (k : VirtualKey) (now : Time) : VirtualKey :=
  mkVK (ID k) (KeyHash k) (KeyPrefix k) (Name k) (UserID k) (TeamID k) (OrgID k) (ExpiresAt k)
    (BudgetUSD k) (RPMLimit k) (TPMLimit k) (AllowedModels k) (BlockedModels k) (VMetadata k)
    (IsActive k) (CreatedAt k) now (LastUsedAt k).

Definition set_hash (k : VirtualKey) (h p : string) (now : Time) : VirtualKey :=
  mkVK (ID k) h p (Name k) (UserID k) (TeamID k) (OrgID k) (ExpiresAt k)
    (BudgetUSD k) (RPMLimit k) (TPMLimit k) (AllowedModels k) (BlockedModels k) (VMetadata k)
    (IsActive k) (CreatedAt k) now (LastUsedAt k).

Definition set_last_used (now : Time) (k : VirtualKey) : VirtualKey :=
  mkVK (ID k) (KeyHash k) (KeyPrefix k) (Name k) (UserID k) (TeamID k) (OrgID k) (ExpiresAt k)
    (BudgetUSD k) (RPMLimit k) (TPMLimit k) (AllowedModels k) (BlockedModels k) (VMetadata k)
    (IsActive k) (CreatedAt k) (UpdatedAt k) (Some now).

Definition store_Deactivate (db : Table) (id : UUID) (now : Time) : res AuthErr unit * Table :=
  match db !! id with
  | None => (Err ErrKeyNotFound, db)
  | Some k => (Ok tt, <[id := set_active k false now]> db)
  end.

Definition store_UpdateLastUsed (db : Table) (id : UUID) (now : Time) : Table :=
  alter (set_last_used now) id db.

Definition store_UpdateHash (db : Table) (id : UUID) (h p : string) (now : Time)
  : res AuthErr unit * Table :=
  match db !! id with
  | None => (Err ErrKeyNotFound, db)
  | Some k =>
      if hash_taken db h (Some id) then (Err (ErrStore "unique violation"), db)
      else (Ok tt, <[id := set_hash k h p now]> db)
  end.

(** ** cache.go: the Redis cache, entries with their expiry *)

Definition cacheTTL : Duration := Minute.

Record AuthState := mkAuth {
  db : Table;
  cache : gmap string (VirtualKey * Time)
}.

(** A hit is an entry whose TTL has not run out. *)
Definition cache_Get (st : AuthState) (keyHash : string) (now : Time) : option VirtualKey :=
  match cache st !! keyHash with
  | Some (k, e) => if time_Before now e then Some k else None
  | None => None
  end.

Definition cache_Set (st : AuthState) (keyHash : string) (k : VirtualKey) (now : Time)
  : AuthState :=
  mkAuth (db st) (<[keyHash := (k, time_Add now cacheTTL)]> (cache st)).

Definition cache_Delete (st : AuthState) (keyHash : string) : AuthState :=
  mkAuth (db st) (delete keyHash (cache st)).

(** ** middleware.go *)

Definition bearerToken (header : string) : string :=
  if HasPrefix header "Bearer " then TrimPrefix header "Bearer " else "".

(** Which of the request's calls succeed. *)
Record faults := mkFaults { cache_get_ok : bool; db_ok : bool; cache_set_ok : bool }.

(** The middleware's decision: an authentication error, or the key put into the context. *)
Inductive decision := Reject (msg : string) | Pass (k : VirtualKey).

Definition Middleware (st : AuthState) (header : string) (f : faults) (now : Time)
  : decision * AuthState :=
  let rawKey := bearerToken header in
  if String.eqb rawKey "" then (Reject "missing or malformed Authorization header", st)
  else
    let keyHash := HashKey rawKey in
    let cached := if cache_get_ok f then cache_Get st keyHash now else None in
    let validate (k : VirtualKey) (st : AuthState) :=
      match IsValid k now with
      | Err ErrKeyExpired => (Reject "API key has expired", st)
      | Err _ => (Reject "API key is inactive", st)
      | Ok _ => (Pass k, st)
      end in
    match cached with
    | Some k => validate k st
    | None =>
        let prefix := if 7 <=? Z.of_nat (String.length rawKey) then take_str 7 rawKey
                      else rawKey in
        if negb (db_ok f) then (Reject "authentication error", st)
        else match store_GetByHash (db st) prefix keyHash with
             | Err ErrKeyNotFound => (Reject "invalid API key", st)
             | Err _ => (Reject "authentication error", st)
             | Ok k =>
                 let st := if cache_set_ok f then cache_Set st keyHash k now else st in
                 validate k st
             end
    end.

(** One update taken from the [lastUsedCh] channel: [seen] maps a key to the time of its
    last database write. [now], [after] and [later] are the readings of the clock by
    [time.Since], after the write, and for the cutoff. The result says whether
    [UpdateLastUsed] was called. *)
Definition lastUsed_step (seen : gmap UUID Time) (id : UUID) (now after later : Time)
  : bool * gmap UUID Time :=
  let skip := match seen !! id with
              | Some last => time_Sub now last <? Minute
              | None => false
              end in
  if skip then (false, seen)
  else
    let seen := <[id := after]> seen in
    (true,
     if 5000 <? Z.of_nat (size seen)
     then filter (fun kv => time_Before kv.2 (time_Add later (- (2 * Minute))) = false) seen
     else seen).

(** ** handler/admin_keys.go *)

Record createKeyRequest := mkCreate {
  CName : string;
  CExpiresAt : option Time;
  CBudgetUSD : option float64;
  CRPMLimit : option Z;
  CTPMLimit : option Z;
  CAllowedModels : list string;
  CBlockedModels : list string;
  CMetadata : RawMessage
}.

(** A PATCH body: [None] is an absent field. *)
Record updateKeyRequest := mkUpdate {
  UName : option string;
  UExpiresAt : option Time;
  UBudgetUSD : option float64;
  URPMLimit : option Z;
  UTPMLimit : option Z;
  UAllowedModels : option (list string);
  UBlockedModels : option (list string);
  UMetadata : option RawMessage;
  UIsActive : option bool
}.

(** [keyResponse]: the view of a key, without its hash. *)
Record keyResponse := mkKeyResponse {
  KRID : UUID;
  KRPrefix : string;
  KRName : string;
  KRExpiresAt : option Time;
  KRBudgetUSD : option float64;
  KRRPMLimit : option Z;
  KRTPMLimit : option Z;
  KRAllowedModels : list string;
  KRBlockedModels : list string;
  KRMetadata : RawMessage;
  KRIsActive : bool;
  KRCreatedAt : Time;
  KRUpdatedAt : Time;
  KRLastUsedAt : option Time
}.

Definition toKeyResponse (k : VirtualKey) : keyResponse :=
  mkKeyResponse (ID k) (KeyPrefix k) (Name k) (ExpiresAt k) (BudgetUSD k) (RPMLimit k)
    (TPMLimit k) (AllowedModels k) (BlockedModels k) (VMetadata k) (IsActive k)
    (CreatedAt k) (UpdatedAt k) (LastUsedAt k).

Inductive response :=
| RError (status : Z) (msg : string)
| RCreated (status : Z) (id : UUID) (raw prefix name : string) (created : Time)
| RKey (k : keyResponse)
| RKeys (ks : list keyResponse)
| RPage (ks : list keyResponse) (total page limit : Z)
| RNoContent.

(** Which calls of an admin request succeed: the database read, the random generator, the
    database write, the cache deletion. *)
Record adminFaults := mkAF { get_ok : bool; rand_ok : bool; write_ok : bool; del_ok : bool }.

Definition admin_Create (st : AuthState) (body : option createKeyRequest) (rnd : list Z)
    (f : adminFaults) (id : UUID) (now : Time) : response * AuthState :=
  match body with
  | None => (RError 400 "invalid request body", st)
  | Some req =>
      if negb (rand_ok f) then (RError 500 "failed to generate key", st)
      else
      let '(raw, hash, prefix) := GenerateKey rnd in
      let k := mkVK zero_uuid hash prefix (CName req) None None None (CExpiresAt req)
        (CBudgetUSD req) (CRPMLimit req) (CTPMLimit req) (CAllowedModels req)
        (CBlockedModels req) (default_metadata (CMetadata req)) true 0 0 None in
      if negb (write_ok f) then (RError 500 "failed to create key", st)
      else match store_Create (db st) k id now with
           | (Err _, _) => (RError 500 "failed to create key", st)
           | (Ok row, db') =>
               (RCreated 201 (ID row) raw (KeyPrefix row) (Name row) (CreatedAt row),
                mkAuth db' (cache st))
           end
  end.

(** The query parameters: [None] is an absent parameter, [Some None] one that does not parse.
    [count_ok] and [list_ok] say whether the two queries succeed. *)
Definition admin_List (st : AuthState) (page limit : option (option Z))
    (count_ok list_ok : bool) : response :=
  match page, limit with
  | None, None =>
      if list_ok then RKeys (toKeyResponse <$> store_List (db st))
      else RError 500 "failed to list keys"
  | _, _ =>
      let lim := match limit with
                 | None => Some 100
                 | Some (Some n) => if (n <? 1) || (1000 <? n) then None else Some n
                 | Some None => None
                 end in
      match lim with
      | None => RError 400 "limit must be between 1 and 1000"
      | Some lim =>
          let pg := match page with
                    | None => Some 1
                    | Some (Some n) => if n <? 1 then None else Some n
                    | Some None => None
                    end in
          match pg with
          | None => RError 400 "page must be >= 1"
          | Some pg =>
              let offset := wrap64 (wrap64 (pg - 1) * lim) in
              if negb count_ok then RError 500 "failed to count keys"
              else if negb list_ok then RError 500 "failed to list keys"
              else match store_ListPage (db st) lim offset with
                   | Err _ => RError 500 "failed to list keys"
                   | Ok ks => RPage (toKeyResponse <$> ks) (store_CountKeys (db st)) pg lim
                   end
          end
      end
  end.

(** The key an admin request names, or the error response. *)
Definition fetch (st : AuthState) (id : option UUID) (ok : bool)
  : res response (UUID * VirtualKey) :=
  match id with
  | None => Err (RError 400 "invalid key ID")
  | Some id =>
      if negb ok then Err (RError 500 "failed to get key")
      else match store_GetByID (db st) id with
           | Err ErrKeyNotFound => Err (RError 404 "key not found")
           | Err _ => Err (RError 500 "failed to get key")
           | Ok k => Ok (id, k)
           end
  end.

Definition admin_Get (st : AuthState) (id : option UUID) (f : adminFaults) : response :=
  match fetch st id (get_ok f) with
  | Err r => r
  | Ok (_, k) => RKey (toKeyResponse k)
  end.

(** The fields the PATCH provides replace the key's. *)
Definition apply_update (k : VirtualKey) (u : updateKeyRequest) : VirtualKey :=
  mkVK (ID k) (KeyHash k) (KeyPrefix k) (default (Name k) (UName u)) (UserID k) (TeamID k)
    (OrgID k)
    (match UExpiresAt u with Some t => Some t | None => ExpiresAt k end)
    (match UBudgetUSD u with Some t => Some t | None => BudgetUSD k end)
    (match URPMLimit u with Some t => Some t | None => RPMLimit k end)
    (match UTPMLimit u with Some t => Some t | None => TPMLimit k end)
    (default (AllowedModels k) (UAllowedModels u))
    (default (BlockedModels k) (UBlockedModels u))
    (default (VMetadata k) (UMetadata u))
    (default (IsActive k) (UIsActive u)) (CreatedAt k) (UpdatedAt k) (LastUsedAt k).

Definition admin_Update (st : AuthState) (id : option UUID) (body : option updateKeyRequest)
    (f : adminFaults) (now : Time) : response * AuthState :=
  match fetch st id (get_ok f) with
  | Err r => (r, st)
  | Ok (id, k) =>
      match body with
      | None => (RError 400 "invalid request body", st)
      | Some u =>
          let k := apply_update k u in
          if negb (write_ok f) then (RError 500 "failed to update key", st)
          else match store_Update (db st) k now with
               | (Err _, _) => (RError 500 "failed to update key", st)
               | (Ok updatedAt, db') =>
                   let st := mkAuth db' (cache st) in
                   (RKey (toKeyResponse (set_updated k updatedAt)),
                    if del_ok f then cache_Delete st (KeyHash k) else st)
               end
      end
  end.

Definition admin_Deactivate (st : AuthState) (id : option UUID) (f : adminFaults) (now : Time)
  : response * AuthState :=
  match fetch st id (get_ok f) with
  | Err r => (r, st)
  | Ok (id, k) =>
      if negb (write_ok f) then (RError 500 "failed to deactivate key", st)
      else match store_Deactivate (db st) id now with
           | (Err _, _) => (RError 500 "failed to deactivate key", st)
           | (Ok _, db') =>
               let st := mkAuth db' (cache st) in
               (RNoContent, if del_ok f then cache_Delete st (KeyHash k) else st)
           end
  end.

Definition admin_Regenerate (st : AuthState) (id : option UUID) (rnd : list Z)
    (f : adminFaults) (now : Time) : response * AuthState :=
  match fetch st id (get_ok f) with
  | Err r => (r, st)
  | Ok (id, k) =>
      let oldHash := KeyHash k in
      if negb (rand_ok f) then (RError 500 "failed to generate key", st)
      else
      let '(raw, hash, prefix) := GenerateKey rnd in
      if negb (write_ok f) then (RError 500 "failed to regenerate key", st)
      else match store_UpdateHash (db st) id hash prefix now with
           | (Err _, _) => (RError 500 "failed to regenerate key", st)
           | (Ok _, db') =>
               let st := mkAuth db' (cache st) in
               (RCreated 200 (ID k) raw prefix (Name k) (CreatedAt k),
                if del_ok f then cache_Delete st oldHash else st)
           end
  end.

(** ** The system: requests and admin operations in any order *)

Inductive op :=
| OpAuth (header : string) (f : faults) (now : Time)
| OpCreate (body : option createKeyRequest) (rnd : list Z) (f : adminFaults) (id : UUID)
    (now : Time)
| OpUpdate (id : option UUID) (body : option updateKeyRequest) (f : adminFaults) (now : Time)
| OpDeactivate (id : option UUID) (f : adminFaults) (now : Time)
| OpRegenerate (id : option UUID) (rnd : list Z) (f : adminFaults) (now : Time)
| OpLastUsed (id : UUID) (now : Time).

Definition step (st : AuthState) (o : op) : AuthState :=
  match o with
  | OpAuth header f now => (Middleware st header f now).2
  | OpCreate body rnd f id now => (admin_Create st body rnd f id now).2
  | OpUpdate id body f now => (admin_Update st id body f now).2
  | OpDeactivate id f now => (admin_Deactivate st id f now).2
  | OpRegenerate id rnd f now => (admin_Regenerate st id rnd f now).2
  | OpLastUsed id now => mkAuth (store_UpdateLastUsed (db st) id now) (cache st)
  end.

Definition run (st : AuthState) (ops : list op) : AuthState := foldl step st ops.

(** A PATCH that switches a key back on. *)
Definition reactivates (o : op) : bool :=
  match o with
  | OpUpdate _ (Some u) _ _ => default false (UIsActive u)
  | _ => false
  end.

(** The constraints of the table, and what the cache is filled with. *)
Record wf (st : AuthState) : Prop := {
  wf_id : forall id k, db st !! id = Some k -> ID k = id;
  wf_unique : forall i j k k',
    db st !! i = Some k -> db st !! j = Some k' -> KeyHash k = KeyHash k' -> i = j;
  wf_cache : forall h k e, cache st !! h = Some (k, e) -> KeyHash k = h
}.

Lemma alter_insert_lookup (g : VirtualKey -> VirtualKey) (tbl : Table) id k :
  tbl !! id = Some k -> alter g id tbl = <[id := g k]> tbl.
Proof.
  intros E. apply map_eq. intros i. destruct (decide (i = id)) as [->|].
  - by rewrite lookup_insert_eq, lookup_alter_eq, E.
  - by rewrite lookup_insert_ne, lookup_alter_ne by done.
Qed.

Lemma alter_None (g : VirtualKey -> VirtualKey) (tbl : Table) id :
  tbl !! id = None -> alter g id tbl = tbl.
Proof.
  intros E. apply map_eq. intros i. destruct (decide (i = id)) as [->|].
  - by rewrite lookup_alter_eq, E.
  - by rewrite lookup_alter_ne by done.
Qed.

Lemma hash_taken_false tbl h ex :
  hash_taken tbl h ex = false ->
  forall id k, tbl !! id = Some k -> KeyHash k = h -> ex = Some id.
Proof.
  unfold hash_taken. intros H id k Hk Hh.
  rewrite <- not_true_iff_false, existsb_exists in H.
  destruct (decide (Some id = ex)); [done|]. exfalso. apply H.
  exists (id, k). rewrite <- list_elem_of_In, elem_of_map_to_list. split; [done|]. simpl.
  rewrite Hh, String.eqb_refl. by rewrite bool_decide_false.
Qed.

Lemma GetByHash_Ok tbl p h k :
  store_GetByHash tbl p h = Ok k ->
  (exists id, tbl !! id = Some k) /\ KeyPrefix k = p /\ KeyHash k = h.
Proof.
  unfold store_GetByHash. destruct (find _ _) as [[id k']|] eqn:E; [|done].
  intros [= <-]. apply find_some in E as [E1 E2].
  rewrite <- list_elem_of_In, elem_of_map_to_list in E1. simpl in E2. breflect.
  split; [by exists id|]. auto.
Qed.

Lemma GetByHash_complete tbl id k :
  (forall i j k k', tbl !! i = Some k -> tbl !! j = Some k' -> KeyHash k = KeyHash k' -> i = j) ->
  tbl !! id = Some k -> store_GetByHash tbl (KeyPrefix k) (KeyHash k) = Ok k.
Proof.
  intros U Hk. destruct (store_GetByHash tbl (KeyPrefix k) (KeyHash k)) as [k'|e] eqn:E.
  - apply GetByHash_Ok in E as ([id' Hid] & _ & Hh).
    assert (id' = id) as -> by eauto. congruence.
  - unfold store_GetByHash in E. destruct (find _ _) as [kv|] eqn:F; [done|].
    eapply find_none in F; [|apply list_elem_of_In, elem_of_map_to_list; exact Hk].
    simpl in F. by rewrite !String.eqb_refl in F.
Qed.

Lemma fetch_Ok st id ok i k :
  fetch st id ok = Ok (i, k) -> id = Some i /\ ok = true /\ db st !! i = Some k.
Proof.
  unfold fetch, store_GetByID. destruct id as [j|]; [|done]. destruct ok; [|done]. simpl.
  destruct (db st !! j) eqn:E; [|done]. intros [= -> ->]. done.
Qed.

(** Replacing a row by one with the same ID and an unused hash keeps the table sound. *)
Lemma wf_insert st id k :
  wf st -> ID k = id ->
  (forall i k', db st !! i = Some k' -> KeyHash k' = KeyHash k -> i = id) ->
  wf (mkAuth (<[id := k]> (db st)) (cache st)).
Proof.
  intros [W1 W2 W3] Hid Hu. split; simpl; [| |done].
  - intros i k' H. apply lookup_insert_Some in H as [[<- <-]|[_ H]]; eauto.
  - intros i j k1 k2 H1 H2 Hh.
    apply lookup_insert_Some in H1 as [[<- <-]|[? H1]];
      apply lookup_insert_Some in H2 as [[<- <-]|[? H2]]; eauto.
    symmetry. eauto.
Qed.

Lemma wf_same_hash st id k k' :
  wf st -> db st !! id = Some k -> ID k' = ID k -> KeyHash k' = KeyHash k ->
  wf (mkAuth (<[id := k']> (db st)) (cache st)).
Proof.
  intros W Hk Hi Hh. apply wf_insert; [done| |].
  - rewrite Hi. by eapply wf_id.
  - intros i k2 H2 E. eapply wf_unique; eauto. congruence.
Qed.

Lemma wf_delete st h : wf st -> wf (cache_Delete st h).
Proof.
  intros [W1 W2 W3]. split; simpl; [done|done|].
  intros h' k e H. apply lookup_delete_Some in H as [_ H]. eauto.
Qed.

Lemma wf_set st h k now : wf st -> KeyHash k = h -> wf (cache_Set st h k now).
Proof.
  intros [W1 W2 W3] Hh. split; simpl; [done|done|].
  intros h' k' e H. apply lookup_insert_Some in H as [[<- [= <- <-]]|[_ H]]; eauto.
Qed.

Lemma Middleware_cases st header f now :
  (exists msg, Middleware st header f now = (Reject msg, st)) \/
  (exists k, bearerToken header <> "" /\
     cache_Get st (HashKey (bearerToken header)) now = Some k /\
     (Middleware st header f now).2 = st /\
     ((exists msg, (Middleware st header f now).1 = Reject msg) \/
      (Middleware st header f now).1 = Pass k /\ IsValid k now = Ok tt)) \/
  (exists k p, bearerToken header <> "" /\
     store_GetByHash (db st) p (HashKey (bearerToken header)) = Ok k /\
     (Middleware st header f now).2 =
       (if cache_set_ok f then cache_Set st (HashKey (bearerToken header)) k now else st) /\
     ((exists msg, (Middleware st header f now).1 = Reject msg) \/
      (Middleware st header f now).1 = Pass k /\ IsValid k now = Ok tt)).
Proof.
  unfold Middleware. destruct (String.eqb_spec (bearerToken header) "") as [E|E]; [eauto|].
  set (raw := bearerToken header) in *.
  destruct (if cache_get_ok f then _ else None) as [k|] eqn:C.
  - right. left. exists k. destruct (cache_get_ok f); [|done].
    repeat split; [done|done| |];
      destruct (IsValid k now) as [[]|[]] eqn:V; simpl; eauto.
  - destruct (negb (db_ok f)); [eauto|].
    destruct (store_GetByHash _ _ _) as [k|e] eqn:G; [|destruct e; eauto].
    right. right. exists k. eexists. repeat split; [done|exact G| |];
      destruct (IsValid k now) as [[]|[]] eqn:V; simpl; eauto.
Qed.

Lemma IsValid_Ok k now :
  IsValid k now = Ok tt <->
  IsActive k = true /\ (forall e, ExpiresAt k = Some e -> now <= e).
Proof.
  unfold IsValid, time_After. destruct (IsActive k); simpl; [|by split; [|intros []]].
  destruct (ExpiresAt k) as [e|]; [|split; [intros _; by split|done]].
  destruct (e <? now) eqn:E; breflect; split; intros H; try done.
  - destruct H as [_ H]. specialize (H e eq_refl). lia.
  - split; [done|]. intros e' [= ->]. lia.
Qed.

Lemma wf_delete_if st (b : bool) h : wf st -> wf (if b then cache_Delete st h else st).
Proof. intros W. destruct b; [by apply wf_delete|done]. Qed.

(** Every operation keeps the table's constraints and the cache keyed by the key's hash. *)
Lemma wf_step st o : wf st -> wf (step st o).
Proof.
  intros W. destruct o as [hd f t|body rnd f id t|id body f t|id f t|id rnd f t|id t]; simpl.
  - destruct (Middleware_cases st hd f t)
      as [[m ->]|[(k & _ & _ & -> & _)|(k & p & _ & G & -> & _)]]; [done|done|].
    destruct (cache_set_ok f); [|done]. apply wf_set; [done|].
    by apply GetByHash_Ok in G as (_ & _ & ?).
  - unfold admin_Create, store_Create. destruct body as [req|]; [|done].
    destruct (rand_ok f); [simpl|done]. destruct (write_ok f); [simpl|done].
    destruct (hash_taken _ _ _ || _) eqn:E; [done|].
    apply orb_false_iff in E as [E1 E2]. apply wf_insert; [done|done|]. simpl.
    intros i k' Hk Hh. by pose proof (hash_taken_false _ _ _ E1 i k' Hk Hh).
  - unfold admin_Update. destruct (fetch _ _ _) as [[i k]|r] eqn:E; [|done].
    apply fetch_Ok in E as (_ & _ & E). destruct body as [u|]; [|done].
    destruct (write_ok f); [simpl|done]. unfold store_Update. simpl.
    rewrite (wf_id _ W _ _ E), E. simpl. apply wf_delete_if.
    eapply wf_same_hash; eauto. simpl. symmetry. by eapply wf_id.
  - unfold admin_Deactivate. destruct (fetch _ _ _) as [[i k]|r] eqn:E; [|done].
    apply fetch_Ok in E as (_ & _ & E).
    destruct (write_ok f); [simpl|done]. unfold store_Deactivate. rewrite E. simpl.
    apply wf_delete_if. by eapply wf_same_hash.
  - unfold admin_Regenerate. destruct (fetch _ _ _) as [[i k]|r] eqn:E; [|done].
    apply fetch_Ok in E as (_ & _ & E). destruct (rand_ok f); [simpl|done].
    destruct (write_ok f); [simpl|done]. unfold store_UpdateHash. rewrite E.
    destruct (hash_taken _ _ _) eqn:T; [done|]. simpl.
    apply wf_delete_if. apply wf_insert; [done|exact (wf_id _ W _ _ E)|]. simpl.
    intros j k' Hk Hh. pose proof (hash_taken_false _ _ _ T j k' Hk Hh). congruence.
  - unfold store_UpdateLastUsed. destruct (db st !! id) as [k|] eqn:E.
    + rewrite (alter_insert_lookup _ _ _ _ E). by eapply wf_same_hash.
    + rewrite alter_None by done. by destruct st.
Qed.

Lemma wf_run st ops : wf st -> wf (run st ops).
Proof. revert st. induction ops; intros st W; simpl; [done|]. apply IHops, wf_step, W. Qed.

(** ** Revocation *)

(** The hash [GenerateKey] returns. *)
Definition key_hash (rnd : list Z) : string := (GenerateKey rnd).1.2.

(** An operation that may put a new key with hash [h] into the table. *)
Definition issues (h : string) (o : op) : bool :=
  match o with
  | OpCreate _ rnd _ _ _ | OpRegenerate _ rnd _ _ => String.eqb (key_hash rnd) h
  | _ => false
  end.

(** No active row has the hash, and no cache entry of an active key with it lives past [t]. *)
Definition blocked (h : string) (t : Time) (st : AuthState) : Prop :=
  (forall i k, db st !! i = Some k -> KeyHash k = h -> IsActive k = false) /\
  (forall k e, cache st !! h = Some (k, e) -> IsActive k = false \/ e <= t).

Lemma blocked_rejects h t st header f now :
  blocked h t st -> HashKey (bearerToken header) = h -> t <= now ->
  exists msg, (Middleware st header f now).1 = Reject msg.
Proof.
  intros [B1 B2] Hh Ht.
  destruct (Middleware_cases st header f now)
    as [[m ->]|[(k & _ & G & _ & [M|[M V]])|(k & p & _ & G & _ & [M|[M V]])]];
    [by exists m|done| |done|];
    rewrite Hh in G; apply IsValid_Ok in V as [V _].
  - unfold cache_Get in G. destruct (cache st !! h) as [[k' e]|] eqn:C; [|done].
    unfold time_Before in G. destruct (now <? e) eqn:E; [|done]. injection G as ->. breflect.
    destruct (B2 _ _ eq_refl) as [?|?]; [congruence|lia].
  - apply GetByHash_Ok in G as ([i Hi] & _ & E). rewrite (B1 _ _ Hi E) in V. done.
Qed.

Lemma blocked_insert h t st id k :
  blocked h t st -> (KeyHash k = h -> IsActive k = false) ->
  blocked h t (mkAuth (<[id := k]> (db st)) (cache st)).
Proof.
  intros [B1 B2] Hk. split; simpl; [|done].
  intros i k' H. apply lookup_insert_Some in H as [[<- <-]|[_ H]]; eauto.
Qed.

Lemma blocked_delete_if h t st (b : bool) h' :
  blocked h t st -> blocked h t (if b then cache_Delete st h' else st).
Proof.
  intros [B1 B2]. destruct b; [|done]. split; simpl; [done|].
  intros k e H. apply lookup_delete_Some in H as [_ H]. eauto.
Qed.

Lemma blocked_set h t st h' k now :
  blocked h t st -> (KeyHash k = h -> IsActive k = false) -> KeyHash k = h' ->
  blocked h t (cache_Set st h' k now).
Proof.
  intros [B1 B2] Hk Hh. split; simpl; [done|].
  intros k' e H. apply lookup_insert_Some in H as [[<- [= <- <-]]|[_ H]]; eauto.
Qed.

Lemma blocked_step h t st o :
  wf st -> blocked h t st -> reactivates o = false -> issues h o = false ->
  blocked h t (step st o).
Proof.
  intros W B Hr Hi. pose proof B as [B1 B2].
  destruct o as [hd f n|body rnd f id n|id body f n|id f n|id rnd f n|id n]; simpl.
  - destruct (Middleware_cases st hd f n)
      as [[m ->]|[(k & _ & _ & -> & _)|(k & p & _ & G & -> & _)]]; [done|done|].
    apply GetByHash_Ok in G as ([i Hk] & _ & E).
    destruct (cache_set_ok f); [|done]. eapply blocked_set; eauto.
  - unfold admin_Create, store_Create. destruct body as [req|]; [|done].
    destruct (rand_ok f); [simpl|done]. destruct (write_ok f); [simpl|done].
    destruct (hash_taken _ _ _ || _); [done|]. apply blocked_insert; [done|]. simpl.
    intros E. simpl in Hi. unfold key_hash in Hi. simpl in Hi. breflect. done.
  - unfold admin_Update. destruct (fetch _ _ _) as [[i k]|r] eqn:E; [|done].
    apply fetch_Ok in E as (_ & _ & E). destruct body as [u|]; [|done].
    destruct (write_ok f); [simpl|done]. unfold store_Update.
    destruct (db st !! ID (apply_update k u)) as [old|] eqn:O; [|done]. simpl.
    apply blocked_delete_if, blocked_insert; [done|]. simpl. intros Hh.
    simpl in Hr. destruct (UIsActive u) as [b|] eqn:Hb; simpl in Hr |- *; [done|].
    simpl in O. rewrite (wf_id _ W _ _ E), E in O. injection O as ->. eauto.
  - unfold admin_Deactivate. destruct (fetch _ _ _) as [[i k]|r] eqn:E; [|done].
    apply fetch_Ok in E as (_ & _ & E).
    destruct (write_ok f); [simpl|done]. unfold store_Deactivate. rewrite E. simpl.
    apply blocked_delete_if, blocked_insert; [done|done].
  - unfold admin_Regenerate. destruct (fetch _ _ _) as [[i k]|r] eqn:E; [|done].
    apply fetch_Ok in E as (_ & _ & E). destruct (rand_ok f); [simpl|done].
    destruct (write_ok f); [simpl|done]. unfold store_UpdateHash. rewrite E.
    destruct (hash_taken _ _ _); [done|]. simpl.
    apply blocked_delete_if, blocked_insert; [done|]. simpl. intros Hh.
    simpl in Hi. unfold key_hash in Hi. simpl in Hi. breflect. done.
  - unfold store_UpdateLastUsed. destruct (db st !! id) as [k|] eqn:E.
    + rewrite (alter_insert_lookup _ _ _ _ E). apply blocked_insert; [done|]. simpl. eauto.
    + rewrite alter_None by done. by destruct st.
Qed.

Lemma blocked_run h t st ops :
  wf st -> blocked h t st -> Forall (fun o => reactivates o = false /\ issues h o = false) ops ->
  blocked h t (run st ops).
Proof.
  intros W B H. revert st W B. induction H as [|o ops [H1 H2] _ IH]; intros st W B; [done|].
  simpl. apply IH; [by apply wf_step|by apply blocked_step].
Qed.

(** Every cache entry expires within the TTL of the given time. *)
Definition fresh (st : AuthState) (now : Time) : Prop :=
  forall h k e, cache st !! h = Some (k, e) -> e <= time_Add now cacheTTL.

Lemma Deactivate_blocked st id k f now :
  wf st -> fresh st now -> db st !! id = Some k ->
  (admin_Deactivate st (Some id) f now).1 = RNoContent ->
  blocked (KeyHash k) (if del_ok f then now else time_Add now cacheTTL)
    (admin_Deactivate st (Some id) f now).2.
Proof.
  intros W F Hk. unfold admin_Deactivate, fetch, store_GetByID. rewrite Hk.
  destruct (get_ok f); [|done]. simpl. destruct (write_ok f); [|done]. simpl.
  unfold store_Deactivate. rewrite Hk. simpl. intros _. split.
  - intros i k' H Hh.
    assert (<[id := set_active k false now]> (db st) !! i = Some k') as H'
      by (by destruct (del_ok f)).
    apply lookup_insert_Some in H' as [[_ <-]|[N H']]; [done|].
    destruct N. symmetry. by eapply wf_unique.
  - intros k' e H. right. destruct (del_ok f); simpl in H.
    + by rewrite lookup_delete_eq in H.
    + eauto.
Qed.


(** C6. Authentication soundness. In every state reached from a sound one, a request
    passes only with a key record whose hash is the hash of the presented bearer token,
    which is active and whose expiry, if any, has not passed. *)
Theorem authenticated_key_valid st ops header f now k :
  wf st -> (Middleware (run st ops) header f now).1 = Pass k ->
  bearerToken header <> "" /\ KeyHash k = HashKey (bearerToken header) /\
  IsActive k = true /\ (forall e, ExpiresAt k = Some e -> now <= e).
Proof.
  intros W H. pose proof (wf_run st ops W) as W'. set (st' := run st ops) in *.
  destruct (Middleware_cases st' header f now)
    as [[m E]|[(k' & N & G & _ & [[m M]|[M V]])|(k' & p & N & G & _ & [[m M]|[M V]])]];
    try (rewrite ?E, ?M in H; simpl in H; discriminate).
  - rewrite M in H. injection H as <-. rewrite <- IsValid_Ok. repeat split; try done.
    unfold cache_Get in G. destruct (cache st' !! _) as [[k1 e]|] eqn:C; [|done].
    destruct (time_Before now e); [|done]. injection G as <-. by eapply wf_cache.
  - rewrite M in H. injection H as <-. rewrite <- IsValid_Ok. repeat split; try done.
    by apply GetByHash_Ok in G as (_ & _ & ?).
Qed.

(** ** Issued keys authenticate *)

Lemma bearer_issued (rnd : list Z) :
  bearerToken ("Bearer " +:+ (GenerateKey rnd).1.1) = (GenerateKey rnd).1.1.
Proof. unfold bearerToken. by rewrite HasPrefix_app, TrimPrefix_app. Qed.

Lemma take_str_long n s : (String.length s <= n)%nat -> take_str n s = s.
Proof.
  revert n. induction s as [|c s IH]; intros [|n] H; simpl in *; try done; try lia.
  f_equal. apply IH. lia.
Qed.

(** A row that holds a generated key's hash and prefix is found by presenting that key. *)
Lemma presented_key_passes st id k rnd g t :
  wf st -> db st !! id = Some k -> KeyHash k = (GenerateKey rnd).1.2 ->
  KeyPrefix k = (GenerateKey rnd).2 ->
  cache st !! KeyHash k = None -> db_ok g = true -> IsValid k t = Ok tt ->
  (Middleware st ("Bearer " +:+ (GenerateKey rnd).1.1) g t).1 = Pass k.
Proof.
  intros W Hk Hh Hp Hc Hd V. unfold Middleware. rewrite bearer_issued. cbv zeta.
  set (raw := (GenerateKey rnd).1.1) in *.
  assert (KeyHash k = HashKey raw) as Hr by done.
  assert (KeyPrefix k = take_str 7 raw) as Hq by done.
  replace (String.eqb raw "") with false by done. rewrite <- Hr.
  assert (cache_Get st (KeyHash k) t = None) as -> by (unfold cache_Get; by rewrite Hc).
  assert ((if cache_get_ok g then None else None) = @None VirtualKey) as ->
    by (by destruct (cache_get_ok g)).
  assert ((if 7 <=? Z.of_nat (String.length raw) then take_str 7 raw else raw) = take_str 7 raw)
    as -> by (destruct (7 <=? _) eqn:E; breflect; [done|]; rewrite take_str_long; [done|lia]).
  rewrite Hd, <- Hq. simpl. rewrite (GetByHash_complete _ id k) by (done || apply W).
  by rewrite V.
Qed.

(** Issue and authenticate. The raw key in a 201 response of Create authenticates
    while it has not expired: the middleware passes the new row, active and with the
    requested name, model lists and limits. *)
Theorem created_key_authenticates st req rnd f id now cid raw pfx name created g t :
  wf st -> cache st !! key_hash rnd = None ->
  (admin_Create st (Some req) rnd f id now).1 = RCreated 201 cid raw pfx name created ->
  db_ok g = true -> (forall e, CExpiresAt req = Some e -> t <= e) ->
  exists k,
    (Middleware (admin_Create st (Some req) rnd f id now).2 ("Bearer " +:+ raw) g t).1 = Pass k /\
    ID k = cid /\ Name k = CName req /\ name = CName req /\
    AllowedModels k = CAllowedModels req /\ BlockedModels k = CBlockedModels req /\
    RPMLimit k = CRPMLimit req /\ TPMLimit k = CTPMLimit req.
Proof.
  intros W Hc R Hd He.
  pose proof (wf_step st (OpCreate (Some req) rnd f id now) W) as W'. simpl in W'.
  revert R W'. unfold admin_Create, store_Create. destruct (rand_ok f); [simpl|done].
  destruct (write_ok f); [simpl|done].
  destruct (hash_taken _ _ _ || _); [done|]. simpl. intros R W'.
  injection R as <- <- <- <- <-. eexists. split.
  - eapply (presented_key_passes _ id _ rnd);
      [exact W'|simpl; by rewrite lookup_insert_eq|done|done|exact Hc|done|].
    by apply IsValid_Ok.
  - done.
Qed.

(** Rotation. After Regenerate answered 200 and removed the cached entry, the new raw
    key authenticates as the same row while it is valid, and the old key is rejected. *)
Theorem regenerated_key_replaces_old st id k rnd f now cid raw pfx name created g t header :
  wf st -> db st !! id = Some k -> cache st !! key_hash rnd = None ->
  key_hash rnd <> KeyHash k ->
  (admin_Regenerate st (Some id) rnd f now).1 = RCreated 200 cid raw pfx name created ->
  del_ok f = true -> db_ok g = true -> IsValid k t = Ok tt ->
  HashKey (bearerToken header) = KeyHash k ->
  (exists k', ID k' = ID k /\ KeyHash k' = HashKey raw /\
     (Middleware (admin_Regenerate st (Some id) rnd f now).2 ("Bearer " +:+ raw) g t).1 = Pass k') /\
  (exists msg,
     (Middleware (admin_Regenerate st (Some id) rnd f now).2 header g t).1 = Reject msg).
Proof.
  intros W Hk Hc Hn R Hdel Hd V Hh.
  pose proof (wf_step st (OpRegenerate (Some id) rnd f now) W) as W'. simpl in W'.
  revert R W'. unfold admin_Regenerate, fetch, store_GetByID. rewrite Hk.
  destruct (get_ok f); [simpl|done]. destruct (rand_ok f); [simpl|done].
  destruct (write_ok f); [simpl|done]. unfold store_UpdateHash. rewrite Hk.
  destruct (hash_taken _ _ _); [done|]. rewrite Hdel. simpl. intros R W'.
  injection R as <- <- <- <- <-. split.
  - exists (set_hash k (key_hash rnd) (GenerateKey rnd).2 now). split; [done|]. split; [done|].
    eapply (presented_key_passes _ id _ rnd); try done.
    + simpl. by rewrite lookup_insert_eq.
    + simpl. by rewrite lookup_delete_ne by done.
  - eapply (blocked_rejects _ t); [|exact Hh|done]. split; simpl.
    + intros i k' H E. apply lookup_insert_Some in H as [[_ <-]|[N H]]; [done|].
      destruct N. symmetry. exact (wf_unique _ W _ _ _ _ H Hk E).
    + intros k' e H. by rewrite lookup_delete_eq in H.
Qed.

End Hash.

(** ** The last-used updater *)

(** An update taken from the channel: the key and the three clock readings. *)
Record tick := mkTick { tk_id : UUID; tk_now : Time; tk_after : Time; tk_later : Time }.

Fixpoint lastUsed_run (seen : gmap UUID Time) (evs : list tick) : list bool * gmap UUID Time :=
  match evs with
  | [] => ([], seen)
  | e :: evs =>
      let '(w, seen) := lastUsed_step seen (tk_id e) (tk_now e) (tk_after e) (tk_later e) in
      let '(ws, seen) := lastUsed_run seen evs in (w :: ws, seen)
  end.

(** The clock does not run backwards. *)
Fixpoint clocked (c : Time) (evs : list tick) : Prop :=
  match evs with
  | [] => True
  | e :: evs => c <= tk_now e <= tk_after e /\ tk_after e <= tk_later e /\ clocked (tk_later e) evs
  end.

(** [id] was last written at [v] or later, or is forgotten and that was two minutes ago. *)
Definition written (seen : gmap UUID Time) (id : UUID) (v c : Time) : Prop :=
  match seen !! id with
  | Some v' => v <= v'
  | None => v + 2 * Minute <= c
  end.

(** The eviction of stale entries forgets nothing recent. *)
Lemma written_evict seen id v c :
  written seen id v c ->
  written (filter (fun kv => time_Before kv.2 (time_Add c (- (2 * Minute))) = false) seen) id v c.
Proof.
  unfold written. intros H. destruct (filter _ seen !! id) as [v'|] eqn:F.
  - apply map_lookup_filter_Some in F as [F _]. by rewrite F in H.
  - apply map_lookup_filter_None in F as [F|F]; [by rewrite F in H|].
    destruct (seen !! id) as [v'|] eqn:L; [|done].
    specialize (F v' eq_refl). simpl in F. apply not_false_iff_true in F.
    unfold time_Before, time_Add in F. breflect. lia.
Qed.

Lemma written_step seen id v c e :
  written seen id v c -> c <= tk_now e <= tk_after e -> tk_after e <= tk_later e -> v <= tk_after e ->
  written (lastUsed_step seen (tk_id e) (tk_now e) (tk_after e) (tk_later e)).2 id v (tk_later e).
Proof.
  intros H Hc Hl Hv. unfold lastUsed_step.
  assert (written seen id v (tk_later e)) as H0
    by (unfold written in *; destruct (seen !! id); lia).
  destruct (match seen !! tk_id e with Some _ => _ | None => _ end); [done|]. simpl.
  assert (written (<[tk_id e := tk_after e]> seen) id v (tk_later e)) as H1.
  { unfold written in *. destruct (decide (id = tk_id e)) as [->|N].
    - by rewrite lookup_insert_eq.
    - by rewrite lookup_insert_ne by done. }
  destruct (5000 <? _); [by apply written_evict|done].
Qed.

Lemma lastUsed_run_length seen evs : length (lastUsed_run seen evs).1 = length evs.
Proof.
  revert seen. induction evs as [|e evs IH]; intros seen; [done|]. simpl.
  destruct (lastUsed_step _ _ _ _ _) as [w seen']. specialize (IH seen').
  destruct (lastUsed_run seen' evs). simpl in *. lia.
Qed.

Lemma written_run seen id v c evs e :
  written seen id v c -> v <= c -> clocked c (evs ++ [e]) -> tk_id e = id ->
  last (lastUsed_run seen (evs ++ [e])).1 = Some true -> v + Minute <= tk_now e.
Proof.
  revert seen c. induction evs as [|a evs IH]; intros seen c H Hv Hc Hid Hw.
  - simpl in Hc. destruct Hc as (Hn & _). simpl in Hw.
    unfold lastUsed_step, written in *. rewrite Hid in Hw.
    destruct (seen !! id) as [v'|]; [|unfold Minute, Second in *; lia].
    destruct (time_Sub (tk_now e) v' <? Minute) eqn:E; [done|]. breflect.
    unfold time_Sub, Minute, Second, int64_min, int64_max in *. lia.
  - simpl in Hc. destruct Hc as (Hn & Hl & Hc).
    pose proof (written_step seen id v c a H Hn Hl ltac:(lia)) as H'. simpl in Hw.
    destruct (lastUsed_step _ _ _ _ _) as [w seen'] eqn:S. simpl in H'.
    destruct (lastUsed_run seen' (evs ++ [e])) as [ws s2] eqn:R.
    eapply (IH seen'); [exact H'|lia|exact Hc|exact Hid|]. rewrite R. simpl in *.
    destruct ws; [|done].
    exfalso. pose proof (lastUsed_run_length seen' (evs ++ [e])) as L.
    rewrite R, length_app in L. simpl in L. lia.
Qed.

(** Deduplication of last-used updates. Whatever updates arrive and whatever entries
    the eviction of a large map removes, two database writes for the same key are at least
    a minute apart. *)
Theorem last_used_once_per_minute seen c evs e1 e2 w1 w2 :
  clocked c (e1 :: evs ++ [e2]) -> tk_id e1 = tk_id e2 ->
  (lastUsed_run seen (e1 :: evs ++ [e2])).1 = true :: w1 ->
  last w1 = Some w2 -> w2 = true ->
  tk_after e1 + Minute <= tk_now e2.
Proof.
  simpl. intros (Hn & Hl & Hc) Hid Hr Hw ->.
  destruct (lastUsed_step _ _ _ _ _) as [w seen'] eqn:S.
  destruct (lastUsed_run seen' _) as [ws s2] eqn:R. simpl in Hr. injection Hr as -> ->.
  eapply (written_run seen' (tk_id e2) (tk_after e1) (tk_later e1)); [|done|done|done|].
  - rewrite <- Hid. unfold lastUsed_step in S.
    destruct (match seen !! tk_id e1 with Some _ => _ | None => _ end); [done|].
    injection S as <-.
    assert (written (<[tk_id e1 := tk_after e1]> seen) (tk_id e1) (tk_after e1) (tk_later e1))
      as H1 by (unfold written; by rewrite lookup_insert_eq).
    destruct (5000 <? _); [by apply written_evict|done].
  - by rewrite R.
Qed.

(** ** Witnesses *)

(** A hash that tells keys apart. *)
Definition demo_hash (s : string) : string := "h:" +:+ s.
Definition demo_rnd : list Z := [10; 11; 12; 13; 14].
Definition demo_rnd2 : list Z := [20; 21; 22; 23; 24].
Definition all_ok : adminFaults := mkAF true true true true.
Definition demo_create : createKeyRequest :=
  mkCreate "ci" (Some 1000000000000) None (Some 60) None ["gpt-4o"] [] "".
Definition demo_state0 : AuthState := mkAuth ∅ ∅.
Definition demo_state : AuthState :=
  (admin_Create demo_hash demo_state0 (Some demo_create) demo_rnd all_ok "k1" 5).2.
Definition demo_key : VirtualKey :=
  default (mkVK "" "" "" "" None None None None None None None [] [] "" false 0 0 None)
    (db demo_state !! "k1").

Lemma demo_wf0 : wf demo_state0.
Proof. split; intros *; intros H; exfalso; exact (lookup_empty_Some _ _ H). Qed.

Lemma demo_wf : wf demo_state.
Proof.
  exact (wf_step demo_hash demo_state0
           (OpCreate (Some demo_create) demo_rnd all_ok "k1" 5) demo_wf0).
Qed.

Lemma demo_fresh : fresh demo_state 10.
Proof. intros h k e H. exfalso. exact (lookup_empty_Some _ _ H). Qed.


Lemma authenticated_key_valid_witness :
  KeyHash demo_key = demo_hash "sk-ABCDE" /\ IsActive demo_key = true.
Proof.
  destruct (authenticated_key_valid demo_hash demo_state [OpLastUsed "k2" 11]
    "Bearer sk-ABCDE" (mkFaults true true true) 20 demo_key) as (_ & H1 & H2 & _).
  - exact demo_wf.
  - vm_compute. reflexivity.
  - split; [exact H1|exact H2].
Defined.

Lemma created_key_authenticates_witness :
  exists k, (Middleware demo_hash demo_state "Bearer sk-ABCDE" (mkFaults true true true) 20).1
            = Pass k /\ ID k = "k1" /\ Name k = "ci".
Proof.
  destruct (created_key_authenticates demo_hash demo_state0 demo_create demo_rnd all_ok "k1" 5
    "k1" "sk-ABCDE" "sk-ABCD" "ci" 5 (mkFaults true true true) 20)
    as (k & H & H1 & H2 & _).
  - exact demo_wf0.
  - apply lookup_empty.
  - vm_compute. reflexivity.
  - reflexivity.
  - intros e [= <-]. lia.
  - exists k. split; [exact H|]. split; [exact H1|exact H2].
Defined.

Lemma regenerated_key_replaces_old_witness :
  exists msg, (Middleware demo_hash
    (admin_Regenerate demo_hash demo_state (Some "k1") demo_rnd2 all_ok 10).2
    "Bearer sk-ABCDE" (mkFaults true true true) 20).1 = Reject msg.
Proof.
  destruct (regenerated_key_replaces_old demo_hash demo_state "k1" demo_key demo_rnd2 all_ok 10
    "k1" "sk-KLMNO" "sk-KLMN" "ci" 5 (mkFaults true true true) 20 "Bearer sk-ABCDE")
    as [_ H].
  - exact demo_wf.
  - vm_compute. reflexivity.
  - apply lookup_empty.
  - vm_compute. discriminate.
  - vm_compute. reflexivity.
  - reflexivity.
  - reflexivity.
  - vm_compute. reflexivity.
  - vm_compute. reflexivity.
  - exact H.
Defined.

Lemma last_used_once_per_minute_witness : 1 + Minute <= 70000000000.
Proof.
  apply (last_used_once_per_minute ∅ 0 [mkTick "b" 2 2 2; mkTick "a" 3 3 3]
    (mkTick "a" 1 1 1) (mkTick "a" 70000000000 70000000000 70000000000)
    [true; false; true] true).
  - simpl. lia.
  - reflexivity.
  - vm_compute. reflexivity.
  - reflexivity.
  - reflexivity.
Defined.

End VK.
