(* ===== verification/Routing.v ===== *)
(** * Rule-based routing (internal/gateway/router/matcher.go, engine.go)

    The rule matcher with its cache of compiled regular expressions, and the engine that
    evaluates rules by priority and turns the first usable match into a fallback chain.
    [regexp] is a parameter; so are [sort.Slice] (through [SliceSorter]), the draw of
    [rand.Intn] and [strings.ToLower]. *)

From S2P Require Import Prelude Float64 Types LoadBalancer Cost VirtualKey.
Local Open Scope Z_scope.
Local Open Scope go_scope.

Module Routing.

Section Router.
(** [regexp.Compile] ([None] is an error) and [Regexp.MatchString]. *)
Context {Regexp : Type} (Compile : string -> option Regexp)
        (MatchString : Regexp -> string -> bool).
(** [sort.Slice] at the two types it is used at. *)
Context (sortSlice : forall A : Type, (A -> A -> bool) -> list A -> list A).
Context (ToLower : string -> string).

(** ** matcher.go *)

Record compiledRule := mkCompiled {
  rule : RouteRule;
  compiledRegex : option Regexp
}.

(** The global regex cache: a hit, or a compilation whose result is stored. *)
Definition regexCache := gmap string Regexp.

Definition compile (rc : regexCache) (pattern : string) : option Regexp * regexCache :=
  match rc !! pattern with
  | Some r => (Some r, rc)
  | None =>
      match Compile pattern with
      | None => (None, rc)
      | Some r => (Some r, <[pattern := r]> rc)
      end
  end.

Definition compileRule (rc : regexCache) (r : RouteRule) : option compiledRule * regexCache :=
  if String.eqb (ModelRegex (Match r)) "" then (Some (mkCompiled r None), rc)
  else match compile rc (ModelRegex (Match r)) with
       | (None, rc) => (None, rc)
       | (Some re, rc) => (Some (mkCompiled r (Some re)), rc)
       end.

(** A required ID against the key's optional one. *)
Definition id_ok (required have : option UUID) : bool :=
  match required with
  | None => true
  | Some i => match have with Some j => String.eqb j i | None => false end
  end.

Definition Matches (cr : compiledRule) (vk : option VK.VirtualKey) (req : ChatCompletionRequest)
    (estimatedTokens : Z) : bool :=
  let m := Match (rule cr) in
  if negb (String.eqb (MModel m) "") && negb (String.eqb (Model req) (MModel m)) then false
  else if negb (String.eqb (ModelPrefix m) "") && negb (HasPrefix (Model req) (ModelPrefix m))
  then false
  else if match compiledRegex cr with
          | Some re => negb (MatchString re (Model req))
          | None => false
          end then false
  else if negb (match vk with
                | Some k =>
                    id_ok (KeyID m) (Some (VK.ID k)) && id_ok (MUserID m) (VK.UserID k) &&
                    id_ok (MTeamID m) (VK.TeamID k) && id_ok (MOrgID m) (VK.OrgID k)
                | None =>
                    negb (bool_decide (is_Some (KeyID m)) || bool_decide (is_Some (MUserID m)) ||
                          bool_decide (is_Some (MTeamID m)) || bool_decide (is_Some (MOrgID m)))
                end) then false
  else if (0 <? Z.of_nat (size (MMetadata m))) &&
          ((Z.of_nat (size (Metadata req)) =? 0) ||
           existsb (fun kv => negb (String.eqb (default "" (Metadata req !! kv.1)) kv.2))
             (map_to_list (MMetadata m))) then false
  else if (0 <? MinContextTokens m) && (estimatedTokens <? MinContextTokens m) then false
  else if (0 <? MaxContextTokens m) && (MaxContextTokens m <? estimatedTokens) then false
  else if HasTools m && (Z.of_nat (length (Tools req)) =? 0) then false
  else true.

Definition estimateTokens (messages : list Message) : Z :=
  foldl (fun total msg => total +i (Z.of_nat (String.length (Content msg)) / 4)) 0 messages.

(** ** engine.go *)

Record AdvancedRouter := mkRouter {
  rules : list compiledRule;
  pricing : option Cost.Calculator
}.

(** The loop of [reload]: the compiled enabled rules, or the name of the first rule whose
    pattern does not compile. *)
Fixpoint compile_all (rc : regexCache) (rs : list RouteRule)
  : res string (list compiledRule) * regexCache :=
  match rs with
  | [] => (Ok [], rc)
  | r :: rs =>
      if negb (Enabled r) then compile_all rc rs
      else match compileRule rc r with
           | (None, rc) => (Err (RuleName r), rc)
           | (Some cr, rc) =>
               match compile_all rc rs with
               | (Ok crs, rc) => (Ok (cr :: crs), rc)
               | (Err e, rc) => (Err e, rc)
               end
           end
  end.

Definition by_priority (a b : compiledRule) : bool := Priority (rule b) <? Priority (rule a).

Definition reload (rc : regexCache) (ar : AdvancedRouter) (rs : list RouteRule)
  : res string unit * AdvancedRouter * regexCache :=
  match compile_all rc rs with
  | (Err e, rc) => (Err e, ar, rc)
  | (Ok compiled, rc) => (Ok tt, mkRouter (sortSlice _ by_priority compiled) (pricing ar), rc)
  end.

Definition NewAdvancedRouter (rc : regexCache) (rs : list RouteRule)
    (pricing : option Cost.Calculator) : res string unit * AdvancedRouter * regexCache :=
  reload rc (mkRouter [] pricing) rs.

Definition expandTargets (rts : list RuleTarget) (requestModel : string) : list Target :=
  (fun rt => mkTarget (RTProvider rt)
     (if String.eqb (RTModel rt) "{model}" then requestModel else RTModel rt) (RTWeight rt))
  <$> rts.

Fixpoint select_loop (r : Z) (ts : list Target) : option Target :=
  match ts with
  | [] => None
  | t :: ts => let r := r -i Weight t in if r <? 0 then Some t else select_loop r ts
  end.

(** [draw n] is the result of [rand.Intn(n)], which panics when [n <= 0]; an index out of
    range panics too. [None] is a panic. *)
Definition Intn (draw : Z -> Z) (n : Z) : option Z := if n <=? 0 then None else Some (draw n).

Definition weightedSelect (draw : Z -> Z) (targets : list Target) : option Target :=
  let total := foldl (fun total t => total +i Weight t) 0 targets in
  if total =? 0 then
    match Intn draw (Z.of_nat (length targets)) with
    | None => None
    | Some i => targets !! Z.to_nat i
    end
  else
    match Intn draw total with
    | None => None
    | Some r => match select_loop r targets with Some t => Some t | None => last targets end
    end.

Definition sortByCost (ar : AdvancedRouter) (targets : list Target) (req : ChatCompletionRequest)
  : list Target :=
  match pricing ar with
  | None => targets
  | Some calc =>
      let estimated := estimateTokens (Messages req) in
      let scored := (fun t => (t, Cost.Calculate ToLower calc (TModel t) estimated
                                    (Z.quot estimated 2))) <$> targets in
      (sortSlice _ (fun a b => f64_lt a.2 b.2) scored).*1
  end.

(** [buildChain]: [None] a panic, [Some (Err _)] a rule without targets. *)
Definition buildChain (ar : AdvancedRouter) (draw : Z -> Z) (req : ChatCompletionRequest)
    (cr : compiledRule) : option (res string Chain) :=
  match RuleTargets (rule cr) with
  | [] => Some (Err (RuleName (rule cr)))
  | _ =>
      let targets := expandTargets (RuleTargets (rule cr)) (Model req) in
      let name := RuleName (rule cr) in
      match RuleStrategy (rule cr) with
      | StrategyDirect => Some (Ok (mkChain name (take 1 targets)))
      | StrategyWeighted =>
          match weightedSelect draw targets with
          | None => None
          | Some selected =>
              let rest := List.filter (fun t => negb (String.eqb (Provider t) (Provider selected))
                              || negb (String.eqb (TModel t) (TModel selected))) targets in
              Some (Ok (mkChain name (selected :: rest)))
          end
      | StrategyLeastCost => Some (Ok (mkChain name (sortByCost ar targets req)))
      | StrategyQuality | StrategyFailover => Some (Ok (mkChain name targets))
      | StrategyOther _ => Some (Ok (mkChain name targets))
      end
  end.

Fixpoint resolve_loop (ar : AdvancedRouter) (draw : Z -> Z) (vk : option VK.VirtualKey)
    (req : ChatCompletionRequest) (estimated : Z) (rs : list compiledRule)
  : option (option Chain) :=
  match rs with
  | [] => Some None
  | cr :: rs =>
      if negb (Matches cr vk req estimated) then resolve_loop ar draw vk req estimated rs
      else match buildChain ar draw req cr with
           | None => None
           | Some (Err _) => resolve_loop ar draw vk req estimated rs
           | Some (Ok chain) =>
               if Z.of_nat (length (Targets chain)) =? 0
               then resolve_loop ar draw vk req estimated rs
               else Some (Some chain)
           end
  end.

Definition Resolve (ar : AdvancedRouter) (draw : Z -> Z) (vk : option VK.VirtualKey)
    (req : ChatCompletionRequest) : option (option Chain) :=
  resolve_loop ar draw vk req (estimateTokens (Messages req)) (rules ar).

Definition Rules (ar : AdvancedRouter) : list RouteRule := rule <$> rules ar.

(** ** What the components promise *)

(** [sort.Slice] rearranges its argument, and orders it when [less] is a strict weak order. *)
Class SortSlice : Prop := {
  sort_perm : forall A (less : A -> A -> bool) l, sortSlice A less l ≡ₚ l;
  sort_sorted : forall A (less : A -> A -> bool) l, StrictWeak less ->
    StronglySorted (fun a b => less b a = false) (sortSlice A less l)
}.

(** Every cached expression is the compilation of its pattern. *)
Definition rc_ok (rc : regexCache) : Prop := forall p r, rc !! p = Some r -> Compile p = Some r.

(** A rule whose pattern does not compile. *)
Definition bad_regex (r : RouteRule) : Prop :=
  ModelRegex (Match r) <> "" /\ Compile (ModelRegex (Match r)) = None.

(** The condition a rule states, field by field. *)
Record applies (r : RouteRule) (vk : option VK.VirtualKey) (req : ChatCompletionRequest) : Prop := {
  ap_model : MModel (Match r) <> "" -> Model req = MModel (Match r);
  ap_prefix : exists rest, Model req = ModelPrefix (Match r) +:+ rest;
  ap_regex : ModelRegex (Match r) <> "" ->
    exists re, Compile (ModelRegex (Match r)) = Some re /\ MatchString re (Model req) = true;
  ap_key : forall i, KeyID (Match r) = Some i -> exists k, vk = Some k /\ VK.ID k = i;
  ap_user : forall i, MUserID (Match r) = Some i -> exists k, vk = Some k /\ VK.UserID k = Some i;
  ap_team : forall i, MTeamID (Match r) = Some i -> exists k, vk = Some k /\ VK.TeamID k = Some i;
  ap_org : forall i, MOrgID (Match r) = Some i -> exists k, vk = Some k /\ VK.OrgID k = Some i;
  ap_metadata : forall k v, MMetadata (Match r) !! k = Some v ->
    Metadata req <> ∅ /\ default "" (Metadata req !! k) = v;
  ap_min : 0 < MinContextTokens (Match r) ->
    MinContextTokens (Match r) <= estimateTokens (Messages req);
  ap_max : 0 < MaxContextTokens (Match r) ->
    estimateTokens (Messages req) <= MaxContextTokens (Match r);
  ap_tools : HasTools (Match r) = true -> Tools req <> []
}.

(** The compiled form of a rule. *)
Definition compiled_of (r : RouteRule) : compiledRule :=
  mkCompiled r (if String.eqb (ModelRegex (Match r)) "" then None
                else Compile (ModelRegex (Match r))).

Lemma id_ok_spec req have :
  id_ok req have = true <-> (forall i, req = Some i -> have = Some i).
Proof.
  unfold id_ok. destruct req as [i|]; [|naive_solver]. destruct have as [j|]; [|naive_solver].
  rewrite String.eqb_eq. naive_solver.
Qed.

Lemma auth_ok_spec (m : RouteMatch) (vk : option VK.VirtualKey) :
  match vk with
  | Some k =>
      id_ok (KeyID m) (Some (VK.ID k)) && id_ok (MUserID m) (VK.UserID k) &&
      id_ok (MTeamID m) (VK.TeamID k) && id_ok (MOrgID m) (VK.OrgID k)
  | None =>
      negb (bool_decide (is_Some (KeyID m)) || bool_decide (is_Some (MUserID m)) ||
            bool_decide (is_Some (MTeamID m)) || bool_decide (is_Some (MOrgID m)))
  end = true <->
  (forall i, KeyID m = Some i -> exists k, vk = Some k /\ VK.ID k = i) /\
  (forall i, MUserID m = Some i -> exists k, vk = Some k /\ VK.UserID k = Some i) /\
  (forall i, MTeamID m = Some i -> exists k, vk = Some k /\ VK.TeamID k = Some i) /\
  (forall i, MOrgID m = Some i -> exists k, vk = Some k /\ VK.OrgID k = Some i).
Proof.
  destruct vk as [k|].
  - rewrite !andb_true_iff, !id_ok_spec. naive_solver.
  - rewrite negb_true_iff, !orb_false_iff, !bool_decide_eq_false.
    rewrite <- !eq_None_not_Some. split.
    + intros [[[-> ->] ->] ->]. naive_solver.
    + intros (H1 & H2 & H3 & H4). repeat split; apply eq_None_not_Some; intros [i E];
        naive_solver.
Qed.

Lemma metadata_ok_spec (mm rm : gmap string string) :
  (0 <? Z.of_nat (size mm)) &&
    ((Z.of_nat (size rm) =? 0) ||
     existsb (fun kv => negb (String.eqb (default "" (rm !! kv.1)) kv.2)) (map_to_list mm)) = false <->
  (forall k v, mm !! k = Some v -> rm <> ∅ /\ default "" (rm !! k) = v).
Proof.
  rewrite andb_false_iff, orb_false_iff, Z.ltb_ge, Z.eqb_neq, <- not_true_iff_false, existsb_exists.
  split.
  - intros [H|[H1 H2]] k v L.
    + assert (size mm = 0%nat) as E by lia. apply map_size_empty_inv in E as ->.
      by rewrite lookup_empty in L.
    + split; [intros ->; by rewrite map_size_empty in H1|].
      destruct (String.eqb_spec (default "" (rm !! k)) v) as [E|E]; [done|]. exfalso.
      apply H2. exists (k, v). rewrite <- list_elem_of_In, elem_of_map_to_list. split; [done|].
      simpl. apply negb_true_iff, String.eqb_neq, E.
  - intros H. destruct (decide (mm = ∅)) as [->|N]; [left; by rewrite map_size_empty|right].
    apply map_choose in N as (k & v & L). split.
    + intros E. apply (proj1 (H k v L)). apply map_size_empty_inv. lia.
    + intros ([k' v'] & I & E). rewrite <- list_elem_of_In, elem_of_map_to_list in I.
      destruct (H _ _ I) as [_ D]. simpl in E. by rewrite D, String.eqb_refl in E.
Qed.

Lemma HasPrefix_guard s p :
  negb (String.eqb p "") && negb (HasPrefix s p) = false <-> exists r, s = p +:+ r.
Proof.
  rewrite <- HasPrefix_spec. destruct (String.eqb_spec p "") as [->|N]; simpl.
  - split; [intros _; by destruct s|done].
  - by rewrite negb_false_iff.
Qed.

Lemma guard_false (b : bool) (x : bool) :
  (if b then false else x) = true <-> b = false /\ x = true.
Proof. destruct b; naive_solver. Qed.

(** The matcher decides the rule's condition. *)
Lemma Matches_spec r vk req :
  ~ bad_regex r ->
  Matches (compiled_of r) vk req (estimateTokens (Messages req)) = true <-> applies r vk req.
Proof.
  intros NB. unfold Matches. simpl. rewrite !guard_false, negb_false_iff, auth_ok_spec.
  rewrite metadata_ok_spec, HasPrefix_guard.
  assert (negb (String.eqb (MModel (Match r)) "") && negb (String.eqb (Model req) (MModel (Match r)))
          = false <-> (MModel (Match r) <> "" -> Model req = MModel (Match r))) as ->.
  { destruct (String.eqb_spec (MModel (Match r)) ""), (String.eqb_spec (Model req) (MModel (Match r)));
      naive_solver. }
  assert (match (if String.eqb (ModelRegex (Match r)) "" then None
                 else Compile (ModelRegex (Match r))) with
          | Some re => negb (MatchString re (Model req)) | None => false end = false <->
          (ModelRegex (Match r) <> "" -> exists re,
             Compile (ModelRegex (Match r)) = Some re /\ MatchString re (Model req) = true)) as ->.
  { destruct (String.eqb_spec (ModelRegex (Match r)) "") as [E|E]; [rewrite E; split; congruence|].
    destruct (Compile _) as [re|] eqn:C; [|by destruct NB].
    rewrite negb_false_iff. split; [by eauto|].
    intros H. by destruct (H E) as (? & [= ->] & ?). }
  rewrite !andb_false_iff, !Z.ltb_ge, Z.eqb_neq.
  split.
  - intros (H1 & H2 & H3 & (H4 & H5 & H6 & H7) & H8 & H9 & H10 & H11 & _).
    split; try done; try lia. intros HT E. rewrite E, HT in H11. simpl in H11.
    by destruct H11.
  - intros []. repeat (split; [try done; try lia|]); [|done].
    destruct (HasTools (Match r)); [right|by left].
    specialize (ap_tools0 eq_refl). destruct (Tools req); simpl; [done|lia].
Qed.

(** ** Reload *)

Lemma compile_ok rc p : rc_ok rc ->
  (compile rc p).1 = Compile p /\ rc_ok (compile rc p).2.
Proof.
  intros H. unfold compile. destruct (rc !! p) as [r|] eqn:E; simpl; [by rewrite (H _ _ E)|].
  destruct (Compile p) as [r|] eqn:C; simpl; [|done]. split; [done|].
  intros p' r' L. apply lookup_insert_Some in L as [[<- <-]|[_ L]]; eauto.
Qed.

Lemma compileRule_ok rc r : rc_ok rc ->
  rc_ok (compileRule rc r).2 /\
  match (compileRule rc r).1 with
  | Some cr => cr = compiled_of r /\ ~ bad_regex r
  | None => bad_regex r
  end.
Proof.
  intros H. unfold compileRule, compiled_of, bad_regex.
  destruct (String.eqb_spec (ModelRegex (Match r)) "") as [E|E]; simpl; [naive_solver|].
  destruct (compile_ok rc (ModelRegex (Match r)) H) as [H1 H2].
  destruct (compile rc _) as [[re|] rc']; simpl in *; rewrite <- H1; naive_solver.
Qed.

(** The loop of [reload] compiles the enabled rules, in order, and fails exactly when one
    of them has a pattern that does not compile. *)
Lemma compile_all_ok rc rs : rc_ok rc ->
  rc_ok (compile_all rc rs).2 /\
  match (compile_all rc rs).1 with
  | Ok crs => crs = compiled_of <$> List.filter Enabled rs /\
              Forall (fun r => ~ bad_regex r) (List.filter Enabled rs)
  | Err n => exists r, r ∈ List.filter Enabled rs /\ bad_regex r /\ RuleName r = n
  end.
Proof.
  revert rc. induction rs as [|r rs IH]; intros rc H; simpl; [done|].
  destruct (Enabled r); simpl; [|auto].
  destruct (compileRule_ok rc r H) as [H1 H2].
  destruct (compileRule rc r) as [[cr|] rc1]; simpl in *.
  - destruct H2 as [-> NB]. specialize (IH rc1 H1) as [IH1 IH2].
    destruct (compile_all rc1 rs) as [[crs|e] rc2]; simpl in *.
    + destruct IH2 as [-> F]. split; [done|]. split; [done|]. by constructor.
    + split; [done|]. destruct IH2 as (r' & I & B & N). exists r'.
      split; [by right|done].
  - split; [done|]. exists r. split; [left|done].
Qed.

(** The rule set after a successful reload. *)
Lemma loaded_rules `{HS : !SortSlice} rc rc' ar0 ar rs :
  rc_ok rc -> reload rc ar0 rs = (Ok tt, ar, rc') ->
  Rules ar ≡ₚ List.filter Enabled rs /\
  StronglySorted (fun a b => Priority b <= Priority a) (Rules ar) /\
  rules ar = compiled_of <$> Rules ar /\
  (forall r, r ∈ rs -> Enabled r = true -> ~ bad_regex r).
Proof.
  intros H. unfold reload. pose proof (compile_all_ok rc rs H) as [_ H2].
  destruct (compile_all rc rs) as [[crs|e] rc1]; simpl in *; [|done].
  intros [= <- <-]. destruct H2 as [-> F]. unfold Rules. simpl.
  set (l := sortSlice compiledRule by_priority (compiled_of <$> List.filter Enabled rs)).
  assert (l ≡ₚ compiled_of <$> List.filter Enabled rs) as P by apply sort_perm.
  assert (StronglySorted (fun a b => by_priority b a = false) l) as S
    by (apply sort_sorted, StrictWeak_key_desc).
  split; [|split; [|split]].
  - rewrite P. by rewrite <- list_fmap_compose, list_fmap_id.
  - clear P. induction S as [|x l' S IH F']; [constructor|]. simpl. constructor; [done|].
    apply Forall_fmap. eapply Forall_impl; [exact F'|]. unfold by_priority. simpl.
    intros y Hy. breflect. lia.
  - rewrite <- list_fmap_compose. rewrite <- (list_fmap_id l) at 1.
    apply list_fmap_ext. intros i x Hx. simpl. apply list_elem_of_lookup_2 in Hx.
    rewrite P in Hx. by apply list_elem_of_fmap in Hx as (r & -> & _).
  - rewrite List.Forall_forall in F. intros r I E. apply F, filter_In.
    split; [by apply list_elem_of_In|done].
Qed.

(** Reload is all or nothing. It fails exactly when an enabled rule has a pattern that
    does not compile, and then the rule set in force is the old one; otherwise the rule
    set is the enabled rules, each once, in descending priority, and the regex cache still
    maps patterns to their compilations. *)
Theorem reload_spec `{HS : !SortSlice} rc ar rs :
  rc_ok rc ->
  let '(result, ar', rc') := reload rc ar rs in
  rc_ok rc' /\ pricing ar' = pricing ar /\
  match result with
  | Err n => rules ar' = rules ar /\ exists r, r ∈ rs /\ Enabled r = true /\ bad_regex r /\ RuleName r = n
  | Ok _ => Forall (fun r => Enabled r = true -> ~ bad_regex r) rs /\
            Rules ar' ≡ₚ List.filter Enabled rs /\
            StronglySorted (fun a b => Priority b <= Priority a) (Rules ar')
  end.
Proof.
  intros H. pose proof (compile_all_ok rc rs H) as [H1 H2].
  destruct (reload rc ar rs) as [[[[]|n] ar'] rc'] eqn:R.
  - destruct (loaded_rules _ _ _ _ _ H R) as (P & S & _ & NB). unfold reload in R.
    destruct (compile_all rc rs) as [[crs|e] rc1]; simpl in *; [|done].
    injection R as <- <-. split_and!; try done.
    apply Forall_forall. intros r I E. eauto.
  - unfold reload in R. destruct (compile_all rc rs) as [[crs|e] rc1]; simpl in *; [done|].
    injection R as <- <- <-. split_and!; try done. destruct H2 as (r & I & B & N). exists r.
    apply list_elem_of_In, filter_In in I as [I E]. by rewrite <- list_elem_of_In in I.
Qed.

(** ** Resolve *)

(** The targets of a rule have weights [rand.Intn] accepts: none negative, the sum an int. *)
Definition weights_ok (r : RouteRule) : Prop :=
  Forall (fun t => 0 <= RTWeight t) (RuleTargets r) /\
  foldr (fun t acc => RTWeight t + acc) 0 (RuleTargets r) <= int64_max.

(** What the chain of a rule is, by strategy. *)
Definition chain_for (ar : AdvancedRouter) (r : RouteRule) (req : ChatCompletionRequest)
    (c : Chain) : Prop :=
  let ts := expandTargets (RuleTargets r) (Model req) in
  ChainName c = RuleName r /\
  match RuleStrategy r with
  | StrategyDirect => exists t, ts !! 0%nat = Some t /\ Targets c = [t]
  | StrategyWeighted => exists sel rest, Targets c = sel :: rest /\ sel ∈ ts /\
      forall t, t ∈ rest <-> t ∈ ts /\ (Provider t, TModel t) <> (Provider sel, TModel sel)
  | StrategyLeastCost => Targets c ≡ₚ ts
  | _ => Targets c = ts
  end.

Lemma select_loop_elem r ts t : select_loop r ts = Some t -> t ∈ ts.
Proof.
  revert r. induction ts as [|x ts IH]; intros r; simpl; [done|].
  case_match; intros E; [injection E as ->; left|right; eauto].
Qed.

Lemma sum_fold ts acc :
  Forall (fun t => 0 <= Weight t) ts -> 0 <= acc ->
  acc + foldr (fun t a => Weight t + a) 0 ts <= int64_max ->
  foldl (fun total t => total +i Weight t) acc ts = acc + foldr (fun t a => Weight t + a) 0 ts.
Proof.
  intros F. revert acc. induction F as [|t ts Ht F IH]; intros acc Ha Hb; simpl in *; [lia|].
  assert (0 <= foldr (fun t a => Weight t + a) 0 ts) as P.
  { clear -F. induction F; simpl; lia. }
  rewrite wrap64_id by (unfold in_int64, int64_min, int64_max in *; lia).
  rewrite IH; lia.
Qed.

Lemma expand_sum rts m :
  foldr (fun t a => Weight t + a) 0 (expandTargets rts m) =
  foldr (fun t a => RTWeight t + a) 0 rts.
Proof. induction rts as [|t rts IH]; [done|]. simpl in *. by rewrite IH. Qed.

(** With accepted weights the selection returns one of the targets. *)
Lemma weightedSelect_total draw r m :
  weights_ok r -> RuleTargets r <> [] -> (forall n, 0 < n -> 0 <= draw n < n) ->
  exists t, weightedSelect draw (expandTargets (RuleTargets r) m) = Some t /\
            t ∈ expandTargets (RuleTargets r) m.
Proof.
  intros [F S] N D. set (ts := expandTargets (RuleTargets r) m).
  assert (Forall (fun t => 0 <= Weight t) ts) as F' by (by apply Forall_fmap).
  assert (0 < Z.of_nat (length ts)) as L.
  { unfold ts, expandTargets. rewrite length_fmap. destruct (RuleTargets r); [done|]. simpl. lia. }
  unfold weightedSelect. rewrite sum_fold; [|done|done|unfold ts; rewrite expand_sum; lia].
  assert (0 <= foldr (fun t a => Weight t + a) 0 ts) as P by (clear -F'; induction F'; simpl; lia).
  destruct (_ =? 0) eqn:E; breflect; unfold Intn.
  - rewrite (proj2 (Z.leb_gt _ _)) by lia. specialize (D _ L).
    destruct (lookup_lt_is_Some_2 ts (Z.to_nat (draw (Z.of_nat (length ts))))) as [t Ht]; [lia|].
    exists t. split; [done|]. by eapply list_elem_of_lookup_2.
  - rewrite (proj2 (Z.leb_gt _ _)) by lia.
    destruct (select_loop _ ts) as [t|] eqn:SL.
    + exists t. split; [done|]. by eapply select_loop_elem.
    + destruct (last ts) as [t|] eqn:LT.
      * exists t. split; [done|]. by apply last_Some_elem_of.
      * apply last_None in LT. rewrite LT in L. done.
Qed.

Lemma buildChain_ok `{HS : !SortSlice} ar draw req r :
  weights_ok r -> RuleTargets r <> [] -> (forall n, 0 < n -> 0 <= draw n < n) ->
  exists c, buildChain ar draw req (compiled_of r) = Some (Ok c) /\
            chain_for ar r req c /\ Targets c <> [].
Proof.
  intros Wt N D. unfold buildChain. simpl.
  destruct (RuleTargets r) as [|t0 ts0] eqn:E; [done|]. rewrite <- E in *.
  assert (exists x xs, expandTargets (RuleTargets r) (Model req) = x :: xs) as (x & xs & X)
    by (rewrite E; simpl; eauto).
  destruct (RuleStrategy r) eqn:St.
  - eexists. split; [done|]. unfold chain_for. rewrite St, X. simpl. naive_solver.
  - destruct (weightedSelect_total draw r (Model req) Wt N D) as (t & -> & I).
    eexists. split; [done|]. unfold chain_for. rewrite St. simpl. split; [|done].
    split; [done|]. exists t. eexists. split; [done|]. split; [done|]. intros t'.
    rewrite list_elem_of_In, filter_In, <- list_elem_of_In.
    destruct (String.eqb_spec (Provider t') (Provider t)), (String.eqb_spec (TModel t') (TModel t));
      naive_solver congruence.
  - eexists. split; [done|]. unfold chain_for. rewrite St. simpl.
    assert (sortByCost ar (expandTargets (RuleTargets r) (Model req)) req ≡ₚ
            expandTargets (RuleTargets r) (Model req)) as P.
    { unfold sortByCost. destruct (pricing ar); [|done].
      rewrite sort_perm, <- list_fmap_compose. by rewrite list_fmap_id. }
    split; [done|]. rewrite X in *. intros Z0. rewrite Z0 in P.
    by apply Permutation_nil_cons in P.
  - eexists. split; [done|]. unfold chain_for. rewrite St, X. done.
  - eexists. split; [done|]. unfold chain_for. rewrite St, X. done.
  - eexists. split; [done|]. unfold chain_for. rewrite St, X. done.
Qed.

(** The scan over a sorted list of rules. *)
Lemma resolve_loop_ok `{HS : !SortSlice} ar draw vk req rs :
  Forall (fun r => ~ bad_regex r /\ weights_ok r) rs ->
  StronglySorted (fun a b => Priority b <= Priority a) rs ->
  (forall n, 0 < n -> 0 <= draw n < n) ->
  match resolve_loop ar draw vk req (estimateTokens (Messages req)) (compiled_of <$> rs) with
  | None => False
  | Some None => forall r, r ∈ rs -> applies r vk req -> RuleTargets r = []
  | Some (Some c) => exists r, r ∈ rs /\ applies r vk req /\ RuleTargets r <> [] /\
      chain_for ar r req c /\
      (forall r', r' ∈ rs -> applies r' vk req -> RuleTargets r' <> [] ->
         Priority r' <= Priority r)
  end.
Proof.
  intros F S D. induction rs as [|r rs IH]; simpl; [set_solver|].
  inversion F as [|? ? [NB Wt] F']; subst. inversion S as [|? ? S' SF]; subst.
  specialize (IH F' S').
  assert ((~ applies r vk req \/ RuleTargets r = []) ->
    match resolve_loop ar draw vk req (estimateTokens (Messages req)) (compiled_of <$> rs) with
    | None => False
    | Some None => forall r', r' ∈ r :: rs -> applies r' vk req -> RuleTargets r' = []
    | Some (Some c) => exists r', r' ∈ r :: rs /\ applies r' vk req /\ RuleTargets r' <> [] /\
        chain_for ar r' req c /\
        (forall r'', r'' ∈ r :: rs -> applies r'' vk req -> RuleTargets r'' <> [] ->
           Priority r'' <= Priority r')
    end) as Skip.
  { intros Hskip. destruct (resolve_loop _ _ _ _ _ _) as [[c|]|]; [| |done].
    - destruct IH as (r' & I & A & N & C & M). exists r'. split; [by right|].
      split_and!; try done. intros r'' [->|I']%elem_of_cons A' N'; [|by apply M].
      destruct Hskip; contradiction.
    - intros r' [->|I']%elem_of_cons A'; [|by apply IH]. by destruct Hskip. }
  destruct (Matches _ _ _ _) eqn:M; simpl.
  - apply Matches_spec in M; [|done].
    destruct (decide (RuleTargets r = [])) as [E|N].
    + unfold buildChain at 1. simpl. rewrite E. apply Skip. by right.
    + destruct (buildChain_ok ar draw req r Wt N D) as (c & -> & C & NE).
      destruct (_ =? 0) eqn:L; breflect; [destruct (Targets c); simpl in L; [done|lia]|].
      exists r. split; [by left|]. split_and!; try done.
      intros r' [->|I']%elem_of_cons A' N'; [done|].
      rewrite Forall_forall in SF. by apply SF.
  - apply Skip. left. intros A. apply Matches_spec in A; [|done]. congruence.
Qed.

(** C7. Routing by priority. After a successful reload with accepted weights, Resolve never
    panics. It returns the chain that its strategy makes of an enabled rule whose
    condition the request meets, such that no enabled rule with targets whose condition is
    met has a higher priority; it returns no chain exactly when no enabled rule with
    targets applies. *)
Theorem Resolve_highest_priority `{HS : !SortSlice} rc rc' ar0 ar rs draw vk req :
  rc_ok rc -> reload rc ar0 rs = (Ok tt, ar, rc') ->
  Forall weights_ok rs -> (forall n, 0 < n -> 0 <= draw n < n) ->
  match Resolve ar draw vk req with
  | None => False
  | Some None => forall r, r ∈ rs -> Enabled r = true -> applies r vk req -> RuleTargets r = []
  | Some (Some c) => exists r, r ∈ rs /\ Enabled r = true /\ applies r vk req /\
      RuleTargets r <> [] /\ chain_for ar r req c /\
      (forall r', r' ∈ rs -> Enabled r' = true -> applies r' vk req -> RuleTargets r' <> [] ->
         Priority r' <= Priority r)
  end.
Proof.
  intros Hrc HR Hw D. destruct (loaded_rules _ _ _ _ _ Hrc HR) as (P & S & E & NB).
  assert (forall r, r ∈ Rules ar <-> r ∈ rs /\ Enabled r = true) as I.
  { intros r. rewrite P, !list_elem_of_In. apply filter_In. }
  unfold Resolve. rewrite E.
  pose proof (resolve_loop_ok ar draw vk req (Rules ar)) as R.
  destruct (resolve_loop _ _ _ _ _ _) as [[c|]|].
  - destruct R as (r & I' & A & N & C & M); [|done|done|].
    + apply Forall_forall. intros r I'. apply I in I' as [I' En]. split; [by eapply NB|].
      rewrite Forall_forall in Hw. auto.
    + apply I in I' as [I' En]. exists r. split_and!; try done.
      intros r' J En' A' N'. apply M; try done. by apply I.
  - intros r J En A. apply R; try done; [|by apply I].
    apply Forall_forall. intros r' I'. apply I in I' as [I' En']. split; [by eapply NB|].
    rewrite Forall_forall in Hw. auto.
  - apply R; try done.
    apply Forall_forall. intros r' I'. apply I in I' as [I' En']. split; [by eapply NB|].
    rewrite Forall_forall in Hw. auto.
Qed.

End Router.

#[export] Instance insertion_SortSlice : SortSlice (fun A => @insertionSort A).
Proof. split; intros; [apply insertionSort_perm|by apply insertionSort_sorted]. Qed.

(** A pattern language with one pattern for the witnesses: an expression is the text it
    must contain, and an opening parenthesis does not compile. *)
Definition demo_Compile (p : string) : option string := if String.eqb p "(" then None else Some p.
Definition demo_match : RouteMatch :=
  mkRouteMatch "" "gpt-" "" None None None None ∅ 0 0 false.
Definition demo_rule (name : string) (prio : Z) (m : RouteMatch) (st : Strategy) : RouteRule :=
  mkRouteRule name name prio true m st
    [mkRuleTarget "openai" "{model}" 3; mkRuleTarget "azure" "gpt-4o" 1] 0 0.
Definition demo_rules : list RouteRule :=
  [demo_rule "low" 1 demo_match StrategyFailover; demo_rule "high" 9 demo_match StrategyWeighted].
Definition demo_sort : forall A : Type, (A -> A -> bool) -> list A -> list A :=
  fun A => @insertionSort A.
Definition demo_router :=
  reload demo_Compile demo_sort ∅ (mkRouter [] None) demo_rules.

Lemma rc_ok_empty {R} (C : string -> option R) : rc_ok C ∅.
Proof. intros p r H. exfalso. exact (lookup_empty_Some (M := gmap string) p r H). Qed.

Lemma reload_spec_witness :
  let '(result, ar', rc') := reload demo_Compile demo_sort ∅ (mkRouter [] None)
    (demo_rule "bad" 5 (mkRouteMatch "" "" "(" None None None None ∅ 0 0 false) StrategyDirect
     :: demo_rules) in
  result = Err "bad" /\ rules ar' = [].
Proof.
  pose proof (reload_spec demo_Compile Contains demo_sort (HS := insertion_SortSlice) ∅
    (mkRouter [] None)
    (demo_rule "bad" 5 (mkRouteMatch "" "" "(" None None None None ∅ 0 0 false) StrategyDirect
     :: demo_rules) (rc_ok_empty _)) as H.
  vm_compute in H |- *. destruct H as (_ & _ & H & _). split; [reflexivity|exact H].
Defined.

Lemma Resolve_highest_priority_witness :
  exists c, Resolve Contains demo_sort ascii_ToLower demo_router.1.2 (fun _ => 0) None
              (simple_request "gpt-4o-mini" []) = Some (Some c) /\ ChainName c = "high".
Proof.
  pose proof (Resolve_highest_priority demo_Compile Contains demo_sort ascii_ToLower
    (HS := insertion_SortSlice) ∅ demo_router.2
    (mkRouter [] None) demo_router.1.2 demo_rules (fun _ => 0) None
    (simple_request "gpt-4o-mini" []) (rc_ok_empty _)) as H.
  assert (reload demo_Compile demo_sort ∅ (mkRouter [] None) demo_rules =
          (Ok tt, demo_router.1.2, demo_router.2)) as E by reflexivity.
  assert (Forall weights_ok demo_rules) as F.
  { repeat constructor; simpl; unfold int64_max; lia. }
  specialize (H E F ltac:(intros; lia)).
  destruct (Resolve _ _ _ _ _ _ _) as [[c|]|] eqn:Q; [| |destruct H].
  - exists c. split; [reflexivity|]. vm_compute in Q. injection Q as <-. reflexivity.
  - vm_compute in Q. discriminate.
Defined.

End Routing.
