(* ===== verification/Calendar.v ===== *)
(** * The civil calendar and budget periods (package time, internal/budget/period.go)

    [time.Date] and the civil fields of a UTC [time.Time] in the proleptic Gregorian
    calendar, [Time.UnixMilli], the minute format the rate limiter uses, and the start and
    end of the budget periods. Periods tile time: see [period_tiling]. *)

From S2P Require Import Prelude.
Local Open Scope Z_scope.

Module Calendar.

Definition Day : Duration := 24 * Hour.

(** ** Days and civil dates; day 0 is 0001-01-01, a Monday *)

Definition isLeap (y : Z) : bool :=
  (y mod 4 =? 0) && (negb (y mod 100 =? 0) || (y mod 400 =? 0)).

Definition daysBeforeYear (y : Z) : Z :=
  let p := y - 1 in 365 * p + p / 4 - p / 100 + p / 400.

(** Days of a year before month [m], in a leap year or not. *)
Definition daysBeforeMonth (leap : bool) (m : Z) : Z :=
  (match m with
   | 1 => 0 | 2 => 31 | 3 => 59 | 4 => 90 | 5 => 120 | 6 => 151 | 7 => 181 | 8 => 212
   | 9 => 243 | 10 => 273 | 11 => 304 | 12 => 334 | _ => 365
   end) + (if leap && (3 <=? m) then 1 else 0).

(** Year and day of the year of a day number: whole cycles of 400, 100, 4 and 1 years. *)
Definition yearDay (n : Z) : Z * Z :=
  let n400 := n / 146097 in
  let r := n mod 146097 in
  let n100 := Z.min 3 (r / 36524) in
  let r := r - 36524 * n100 in
  let n4 := r / 1461 in
  let r := r mod 1461 in
  let n1 := Z.min 3 (r / 365) in
  (400 * n400 + 100 * n100 + 4 * n4 + n1 + 1, r - 365 * n1).

Definition monthOf (leap : bool) (yday : Z) : Z :=
  if yday <? daysBeforeMonth leap 2 then 1
  else if yday <? daysBeforeMonth leap 3 then 2
  else if yday <? daysBeforeMonth leap 4 then 3
  else if yday <? daysBeforeMonth leap 5 then 4
  else if yday <? daysBeforeMonth leap 6 then 5
  else if yday <? daysBeforeMonth leap 7 then 6
  else if yday <? daysBeforeMonth leap 8 then 7
  else if yday <? daysBeforeMonth leap 9 then 8
  else if yday <? daysBeforeMonth leap 10 then 9
  else if yday <? daysBeforeMonth leap 11 then 10
  else if yday <? daysBeforeMonth leap 12 then 11
  else 12.

Definition dayOf (t : Time) : Z := t / Day.

Definition Year (t : Time) : Z := (yearDay (dayOf t)).1.
Definition Month (t : Time) : Z :=
  monthOf (isLeap (Year t)) (yearDay (dayOf t)).2.
Definition DayOfMonth (t : Time) : Z :=
  (yearDay (dayOf t)).2 - daysBeforeMonth (isLeap (Year t)) (Month t) + 1.
Definition HourOf (t : Time) : Z := (t mod Day) / Hour.
Definition MinuteOf (t : Time) : Z := (t mod Hour) / Minute.

(** [Time.Weekday]: 0 is Sunday. *)
Definition Weekday (t : Time) : Z := (dayOf t + 1) mod 7.

(** [time.Date] in UTC, normalising a month past December; the other fields add up. *)
Definition Date (y m d h mi s : Z) : Time :=
  let y := y + (m - 1) / 12 in
  let m := (m - 1) mod 12 + 1 in
  (daysBeforeYear y + daysBeforeMonth (isLeap y) m + d - 1) * Day + h * Hour + mi * Minute
    + s * Second.

(** [Time.AddDate(0, 0, days)]. *)
Definition AddDays (t : Time) (days : Z) : Time := t + days * Day.

(** [Time.AddDate(0, months, 0)]. *)
Definition AddMonths (t : Time) (months : Z) : Time :=
  Date (Year t) (Month t + months) (DayOfMonth t) 0 0 0 + t mod Day.

(** [Time.UnixMilli] and [time.UnixMilli]. *)
Definition unixOffsetMs : Z := 62135596800000.
Definition UnixMilli (t : Time) : Z := t / Millisecond - unixOffsetMs.
Definition ofUnixMilli (ms : Z) : Time := (ms + unixOffsetMs) * Millisecond.

(** [Time.Unix]. *)
Definition Unix (t : Time) : Z := t / Second - 62135596800.

(** [Time.Format] with layout 200601021504: year, month, day, hour and minute in digits. *)
Definition digit (d : Z) : ascii := Ascii.ascii_of_nat (48 + Z.to_nat (d mod 10)).
Definition pad2 (n : Z) : string := String (digit (n / 10)) (String (digit n) "").
Definition pad4 (n : Z) : string := pad2 (n / 100) +:+ pad2 (n mod 100).
Definition FormatMinute (t : Time) : string :=
  pad4 (Year t) +:+ pad2 (Month t) +:+ pad2 (DayOfMonth t) +:+ pad2 (HourOf t) +:+ pad2 (MinuteOf t).

(** [Time.Format] with the layouts 2006-01 and 2006-01-02. *)
Definition FormatMonth (t : Time) : string := pad4 (Year t) +:+ "-" +:+ pad2 (Month t).
Definition FormatDay (t : Time) : string := FormatMonth t +:+ "-" +:+ pad2 (DayOfMonth t).

(** ** period.go *)

Definition ValidPeriods : list string := ["hourly"; "daily"; "weekly"; "monthly"; "lifetime"].

Definition unknown_period (period : string) : string := "unknown period: " +:+ period.

(** The Monday at or before [now], at the time of day of [now]. *)
Definition mondayOf (now : Time) : Time :=
  let weekday := Weekday now in
  let weekday := if weekday =? 0 then 7 else weekday in
  AddDays now (- (weekday - 1)).

Definition PeriodStart (period : string) (now : Time) : res string Time :=
  if String.eqb period "hourly" then
    Ok (Date (Year now) (Month now) (DayOfMonth now) (HourOf now) 0 0)
  else if String.eqb period "daily" then
    Ok (Date (Year now) (Month now) (DayOfMonth now) 0 0 0)
  else if String.eqb period "weekly" then
    let monday := mondayOf now in
    Ok (Date (Year monday) (Month monday) (DayOfMonth monday) 0 0 0)
  else if String.eqb period "monthly" then Ok (Date (Year now) (Month now) 1 0 0 0)
  else if String.eqb period "lifetime" then Ok 0
  else Err (unknown_period period).

Definition PeriodEnd (period : string) (now : Time) : res string Time :=
  if String.eqb period "hourly" then
    Ok (Date (Year now) (Month now) (DayOfMonth now) (HourOf now + 1) 0 0)
  else if String.eqb period "daily" then
    Ok (Date (Year now) (Month now) (DayOfMonth now + 1) 0 0 0)
  else if String.eqb period "weekly" then
    let nextMonday := AddDays (mondayOf now) 7 in
    Ok (Date (Year nextMonday) (Month nextMonday) (DayOfMonth nextMonday) 0 0 0)
  else if String.eqb period "monthly" then Ok (Date (Year now) (Month now + 1) 1 0 0 0)
  else if String.eqb period "lifetime" then Ok (Date 9999 12 31 23 59 59)
  else Err (unknown_period period).

Definition IsExpired (periodEnd now : Time) : bool :=
  if IsZero periodEnd then false else time_After now periodEnd.

(** ** Lemmas on the calendar *)

Lemma daysBeforeYear_cycle a b c d :
  0 <= b <= 3 -> 0 <= c <= 24 -> 0 <= d <= 3 ->
  daysBeforeYear (400 * a + 100 * b + 4 * c + d + 1) = 146097 * a + 36524 * b + 1461 * c + 365 * d.
Proof.
  intros Hb Hc Hd. unfold daysBeforeYear.
  replace (400 * a + 100 * b + 4 * c + d + 1 - 1) with (400 * a + 100 * b + 4 * c + d) by lia.
  assert ((400 * a + 100 * b + 4 * c + d) / 4 = 100 * a + 25 * b + c) as ->
    by (symmetry; apply (Z.div_unique _ _ _ d); lia).
  assert ((400 * a + 100 * b + 4 * c + d) / 100 = 4 * a + b) as ->
    by (symmetry; apply (Z.div_unique _ _ _ (4 * c + d)); lia).
  assert ((400 * a + 100 * b + 4 * c + d) / 400 = a) as ->
    by (symmetry; apply (Z.div_unique _ _ _ (100 * b + 4 * c + d)); lia).
  lia.
Qed.

Lemma isLeap_cycle a b c d :
  0 <= b <= 3 -> 0 <= c <= 24 -> 0 <= d <= 3 ->
  isLeap (400 * a + 100 * b + 4 * c + d + 1) =
  (d =? 3) && (negb (c =? 24) || (b =? 3)).
Proof.
  intros Hb Hc Hd. unfold isLeap.
  assert ((400 * a + 100 * b + 4 * c + d + 1) mod 4 = (d + 1) mod 4) as ->
    by (replace (400 * a + 100 * b + 4 * c + d + 1) with (d + 1 + (100 * a + 25 * b + c) * 4) by lia;
        apply Z.mod_add; lia).
  assert ((400 * a + 100 * b + 4 * c + d + 1) mod 100 = (4 * c + d + 1) mod 100) as ->
    by (replace (400 * a + 100 * b + 4 * c + d + 1) with (4 * c + d + 1 + (4 * a + b) * 100) by lia;
        apply Z.mod_add; lia).
  assert ((400 * a + 100 * b + 4 * c + d + 1) mod 400 = (100 * b + 4 * c + d + 1) mod 400) as ->
    by (replace (400 * a + 100 * b + 4 * c + d + 1) with (100 * b + 4 * c + d + 1 + a * 400) by lia;
        apply Z.mod_add; lia).
  destruct (decide (d = 3)) as [->|Nd].
  - simpl. destruct (decide (c = 24)) as [->|Nc].
    + simpl. destruct (decide (b = 3)) as [->|Nb]; [done|].
      rewrite (proj2 (Z.eqb_neq b 3)) by lia. apply Z.eqb_neq. rewrite Z.mod_small; lia.
    + rewrite (proj2 (Z.eqb_neq c 24)) by lia. simpl.
      rewrite (proj2 (Z.eqb_neq _ 0)); [done|]. rewrite Z.mod_small; lia.
  - rewrite (proj2 (Z.eqb_neq d 3)) by lia. rewrite (proj2 (Z.eqb_neq _ 0)); [done|].
    rewrite Z.mod_small; lia.
Qed.

(** The year of a day contains it. *)
Lemma yearDay_spec n :
  let '(y, yd) := yearDay n in
  n = daysBeforeYear y + yd /\ 0 <= yd < (if isLeap y then 366 else 365).
Proof.
  unfold yearDay.
  pose proof (Z.div_mod n 146097 ltac:(lia)) as E0.
  pose proof (Z.mod_pos_bound n 146097 ltac:(lia)) as B0.
  set (a := n / 146097) in *. set (r0 := n mod 146097) in *.
  set (b := Z.min 3 (r0 / 36524)).
  assert (0 <= b <= 3 /\ 0 <= r0 - 36524 * b < 36525 /\ (b < 3 -> r0 - 36524 * b < 36524)) as (Hb & B1 & B1').
  { unfold b. pose proof (Z.div_mod r0 36524 ltac:(lia)).
    pose proof (Z.mod_pos_bound r0 36524 ltac:(lia)). lia. }
  set (r1 := r0 - 36524 * b) in *.
  pose proof (Z.div_mod r1 1461 ltac:(lia)) as E2.
  pose proof (Z.mod_pos_bound r1 1461 ltac:(lia)) as B2.
  set (c := r1 / 1461) in *. set (r2 := r1 mod 1461) in *.
  set (d := Z.min 3 (r2 / 365)).
  assert (0 <= d <= 3 /\ 0 <= r2 - 365 * d < 366 /\ (d < 3 -> r2 - 365 * d < 365)) as (Hd & B3 & B3').
  { unfold d. pose proof (Z.div_mod r2 365 ltac:(lia)).
    pose proof (Z.mod_pos_bound r2 365 ltac:(lia)). lia. }
  assert (0 <= c <= 24) as Hc by lia.
  rewrite daysBeforeYear_cycle, isLeap_cycle by done. split; [unfold r1 in *; lia|].
  destruct (Z.eqb_spec d 3), (Z.eqb_spec c 24), (Z.eqb_spec b 3); simpl; unfold r1 in *; lia.
Qed.

Lemma monthOf_spec (leap : bool) yd :
  0 <= yd < (if leap then 366 else 365) ->
  1 <= monthOf leap yd <= 12 /\
  daysBeforeMonth leap (monthOf leap yd) <= yd < daysBeforeMonth leap (monthOf leap yd + 1).
Proof.
  intros H. unfold monthOf.
  destruct leap; repeat case_match; breflect; unfold daysBeforeMonth in *; simpl in *; lia.
Qed.

Lemma daysBeforeYear_succ y :
  daysBeforeYear (y + 1) = daysBeforeYear y + (if isLeap y then 366 else 365).
Proof.
  pose proof (Z.div_mod (y - 1) 400 ltac:(lia)) as E0.
  pose proof (Z.mod_pos_bound (y - 1) 400 ltac:(lia)) as B0.
  set (a := (y - 1) / 400) in *. set (r0 := (y - 1) mod 400) in *.
  pose proof (Z.div_mod r0 100 ltac:(lia)) as E1.
  pose proof (Z.mod_pos_bound r0 100 ltac:(lia)) as B1.
  set (b := r0 / 100) in *. set (r1 := r0 mod 100) in *.
  pose proof (Z.div_mod r1 4 ltac:(lia)) as E2.
  pose proof (Z.mod_pos_bound r1 4 ltac:(lia)) as B2.
  set (c := r1 / 4) in *. set (d := r1 mod 4) in *.
  clearbody d c. clearbody r1 b. clearbody r0 a.
  assert (y = 400 * a + 100 * b + 4 * c + d + 1) as -> by lia.
  rewrite isLeap_cycle, daysBeforeYear_cycle by lia.
  destruct (Z.eqb_spec d 3) as [Ed|Nd].
  - destruct (Z.eqb_spec c 24) as [Ec|Nc].
    + destruct (Z.eqb_spec b 3) as [Eb|Nb]; simpl.
      * replace (400 * a + 100 * b + 4 * c + d + 1 + 1)
          with (400 * (a + 1) + 100 * 0 + 4 * 0 + 0 + 1) by lia.
        rewrite daysBeforeYear_cycle; lia.
      * replace (400 * a + 100 * b + 4 * c + d + 1 + 1)
          with (400 * a + 100 * (b + 1) + 4 * 0 + 0 + 1) by lia.
        rewrite daysBeforeYear_cycle; lia.
    + simpl. replace (400 * a + 100 * b + 4 * c + d + 1 + 1)
        with (400 * a + 100 * b + 4 * (c + 1) + 0 + 1) by lia.
      rewrite daysBeforeYear_cycle; lia.
  - simpl. replace (400 * a + 100 * b + 4 * c + d + 1 + 1)
      with (400 * a + 100 * b + 4 * c + (d + 1) + 1) by lia.
    rewrite daysBeforeYear_cycle; lia.
Qed.

(** The day number of the civil date of a time is its day. *)
Lemma civil_day t :
  daysBeforeYear (Year t) + daysBeforeMonth (isLeap (Year t)) (Month t) + DayOfMonth t - 1 = dayOf t.
Proof.
  unfold DayOfMonth, Month, Year. pose proof (yearDay_spec (dayOf t)) as H.
  destruct (yearDay (dayOf t)) as [y yd]. simpl. lia.
Qed.

Lemma Month_range t : 1 <= Month t <= 12.
Proof.
  unfold Month, Year. pose proof (yearDay_spec (dayOf t)) as H.
  destruct (yearDay (dayOf t)) as [y yd]. simpl. apply monthOf_spec, H.
Qed.

(** [time.Date] of a time's own date, with other clock fields or a shifted day. *)
Lemma Date_civil t k h mi s :
  Date (Year t) (Month t) (DayOfMonth t + k) h mi s =
  (dayOf t + k) * Day + h * Hour + mi * Minute + s * Second.
Proof.
  unfold Date. pose proof (Month_range t) as M.
  rewrite (Z.div_small (Month t - 1) 12), (Z.mod_small (Month t - 1) 12) by lia.
  rewrite Z.add_0_r, Z.sub_add, <- civil_day. lia.
Qed.

Lemma Date_civil0 t h mi s :
  Date (Year t) (Month t) (DayOfMonth t) h mi s =
  dayOf t * Day + h * Hour + mi * Minute + s * Second.
Proof. rewrite <- (Z.add_0_r (DayOfMonth t)), Date_civil. lia. Qed.

(** The day number a month starts with, months counted from January of year 1. *)
Definition monthStart (k : Z) : Z :=
  daysBeforeYear (k / 12 + 1) + daysBeforeMonth (isLeap (k / 12 + 1)) (k mod 12 + 1).

Definition monthIndex (t : Time) : Z := 12 * (Year t - 1) + (Month t - 1).

Lemma monthIndex_div t : monthIndex t / 12 = Year t - 1 /\ monthIndex t mod 12 = Month t - 1.
Proof.
  unfold monthIndex. pose proof (Month_range t). split.
  - symmetry. apply (Z.div_unique _ _ _ (Month t - 1)); lia.
  - symmetry. apply (Z.mod_unique _ _ (Year t - 1)); lia.
Qed.

Lemma Date_month t k :
  Date (Year t) (Month t + k) 1 0 0 0 = monthStart (monthIndex t + k) * Day.
Proof.
  unfold Date, monthStart.
  assert ((monthIndex t + k) / 12 + 1 = Year t + (Month t + k - 1) / 12) as ->.
  { unfold monthIndex. replace (12 * (Year t - 1) + (Month t - 1) + k)
      with (Month t + k - 1 + (Year t - 1) * 12) by lia. rewrite Z.div_add by lia. lia. }
  assert ((monthIndex t + k) mod 12 = (Month t + k - 1) mod 12) as ->.
  { unfold monthIndex. replace (12 * (Year t - 1) + (Month t - 1) + k)
      with (Month t + k - 1 + (Year t - 1) * 12) by lia. apply Z.mod_add. lia. }
  lia.
Qed.

Lemma monthStart_spec t :
  monthStart (monthIndex t) <= dayOf t < monthStart (monthIndex t + 1).
Proof.
  destruct (monthIndex_div t) as [D M]. unfold monthStart at 1. rewrite D, M.
  rewrite !Z.sub_add. pose proof (civil_day t) as C.
  pose proof (Month_range t) as MR.
  assert (daysBeforeMonth (isLeap (Year t)) (Month t) <= (yearDay (dayOf t)).2
          < daysBeforeMonth (isLeap (Year t)) (Month t + 1)) as B.
  { unfold Month, Year in *. pose proof (yearDay_spec (dayOf t)) as H.
    destruct (yearDay (dayOf t)) as [y yd]. simpl in *. apply monthOf_spec, H. }
  unfold DayOfMonth in C. split; [lia|]. unfold monthStart.
  destruct (decide (Month t = 12)) as [E|N].
  - assert (monthIndex t + 1 = 12 * Year t) as -> by (unfold monthIndex; lia).
    rewrite Z.mul_comm, Z.div_mul, Z.mod_mul by lia. rewrite daysBeforeYear_succ.
    rewrite E in *. simpl in B. unfold daysBeforeMonth in *.
    destruct (isLeap (Year t)); simpl in *; destruct (isLeap (Year t + 1)); simpl; lia.
  - assert ((monthIndex t + 1) / 12 = Year t - 1) as ->.
    { unfold monthIndex. symmetry. apply (Z.div_unique _ _ _ (Month t)); lia. }
    assert ((monthIndex t + 1) mod 12 = Month t) as ->.
    { unfold monthIndex. symmetry. apply (Z.mod_unique _ _ (Year t - 1)); lia. }
    rewrite Z.sub_add. lia.
Qed.

Lemma monthStart_lt k : monthStart k < monthStart (k + 1).
Proof.
  unfold monthStart. pose proof (Z.div_mod k 12 ltac:(lia)) as E.
  pose proof (Z.mod_pos_bound k 12 ltac:(lia)) as B.
  set (q := k / 12) in *. set (r := k mod 12) in *. clearbody q r.
  destruct (decide (r = 11)) as [->|N].
  - assert (k + 1 = (q + 1) * 12) as -> by lia. rewrite Z.div_mul, Z.mod_mul by lia.
    rewrite (daysBeforeYear_succ (q + 1)). unfold daysBeforeMonth.
    destruct (isLeap (q + 1)), (isLeap (q + 1 + 1)); simpl; lia.
  - assert ((k + 1) / 12 = q) as -> by (symmetry; apply (Z.div_unique _ _ _ (r + 1)); lia).
    assert ((k + 1) mod 12 = r + 1) as -> by (symmetry; apply (Z.mod_unique _ _ q); lia).
    apply Z.add_lt_mono_l.
    assert (r = 0 \/ r = 1 \/ r = 2 \/ r = 3 \/ r = 4 \/ r = 5 \/ r = 6 \/ r = 7 \/ r = 8 \/
            r = 9 \/ r = 10) as C by lia.
    destruct (isLeap _); repeat destruct C as [->|C]; try subst r; vm_compute; reflexivity.
Qed.

(** The minute format depends on the minute only. *)
Lemma FormatMinute_same t t' : t / Minute = t' / Minute -> FormatMinute t = FormatMinute t'.
Proof.
  assert (forall t, dayOf t = t / Minute / 1440) as D.
  { intros u. unfold dayOf. rewrite Z.div_div by done. done. }
  assert (forall t, HourOf t = (t / Minute / 60) mod 24) as H.
  { intros u. unfold HourOf. rewrite Z.div_div by done.
    change (Minute * 60) with Hour. change Day with (Hour * 24).
    rewrite Z.rem_mul_r by done. rewrite Z.add_comm, Z.mul_comm, Z.div_add_l by done.
    rewrite (Z.div_small (u mod Hour)) by (apply Z.mod_pos_bound; done). lia. }
  assert (forall t, MinuteOf t = (t / Minute) mod 60) as M.
  { intros u. unfold MinuteOf. change Hour with (Minute * 60).
    rewrite Z.rem_mul_r by done. rewrite Z.add_comm, Z.mul_comm, Z.div_add_l by done.
    rewrite (Z.div_small (u mod Minute)) by (apply Z.mod_pos_bound; done). lia. }
  intros E. unfold FormatMinute, DayOfMonth, Month, Year. rewrite !D, !H, !M, !E. done.
Qed.

(** ** Periods tile time *)

Section Tiling.
(** The boundaries of a period kind, and the number of the period a time lies in. *)
Context (bound : Z -> Time) (idx : Time -> Z).
Context (bound_lt : forall i, bound i < bound (i + 1))
        (idx_spec : forall t, bound (idx t) <= t < bound (idx t + 1)).

Lemma bound_mono i j : i <= j -> bound i <= bound j.
Proof.
  intros H. replace j with (i + Z.of_nat (Z.to_nat (j - i))) by lia.
  induction (Z.to_nat (j - i)) as [|n IH]; [rewrite Z.add_0_r; lia|].
  replace (i + Z.of_nat (S n)) with (i + Z.of_nat n + 1) by lia.
  pose proof (bound_lt (i + Z.of_nat n)). lia.
Qed.

Lemma idx_unique i t : bound i <= t < bound (i + 1) -> idx t = i.
Proof.
  intros H. pose proof (idx_spec t) as S.
  destruct (Z.lt_trichotomy (idx t) i) as [L|[E|L]]; [|done|].
  - pose proof (bound_mono (idx t + 1) i ltac:(lia)). lia.
  - pose proof (bound_mono (i + 1) (idx t) ltac:(lia)). lia.
Qed.

End Tiling.

(** [period]'s start and end are consecutive boundaries. *)
Record tiles (period : string) (bound : Z -> Time) (idx : Time -> Z) : Prop := {
  tl_lt : forall i, bound i < bound (i + 1);
  tl_idx : forall t, bound (idx t) <= t < bound (idx t + 1);
  tl_start : forall t, PeriodStart period t = Ok (bound (idx t));
  tl_end : forall t, PeriodEnd period t = Ok (bound (idx t + 1))
}.

Lemma dayOf_bounds t : dayOf t * Day <= t < (dayOf t + 1) * Day.
Proof.
  unfold dayOf. pose proof (Z.div_mod t Day ltac:(done)).
  pose proof (Z.mod_pos_bound t Day ltac:(done)). lia.
Qed.

Lemma hourly_tiles : tiles "hourly" (fun i => i * Hour) (fun t => t / Hour).
Proof.
  assert (forall t, dayOf t * Day + HourOf t * Hour = t / Hour * Hour) as E.
  { intros t. unfold dayOf, HourOf.
    assert (t / Hour = t / Day * 24 + t mod Day / Hour) as ->.
    { rewrite (Z.div_mod t Day) at 1 by done.
      replace (Day * (t / Day)) with (t / Day * 24 * Hour) by (unfold Day; lia).
      rewrite Z.div_add_l by done. done. }
    unfold Day. lia. }
  split; intros; simpl.
  - unfold Hour, Minute, Second. lia.
  - pose proof (Z.div_mod t Hour ltac:(done)). pose proof (Z.mod_pos_bound t Hour ltac:(done)). lia.
  - unfold PeriodStart. simpl. rewrite Date_civil0, <- E. f_equal. lia.
  - unfold PeriodEnd. simpl. rewrite Date_civil0.
    replace ((t / Hour + 1) * Hour) with (t / Hour * Hour + Hour) by ring.
    rewrite <- E. f_equal. ring.
Qed.

Lemma daily_tiles : tiles "daily" (fun i => i * Day) dayOf.
Proof.
  split; intros; simpl.
  - unfold Day, Hour, Minute, Second. lia.
  - apply dayOf_bounds.
  - unfold PeriodStart. simpl. rewrite Date_civil0. f_equal. lia.
  - unfold PeriodEnd. simpl. rewrite Date_civil. f_equal. lia.
Qed.

Lemma dayOf_AddDays t k : dayOf (AddDays t k) = dayOf t + k.
Proof. unfold dayOf, AddDays. rewrite Z.div_add by done. done. Qed.

Lemma dayOf_monday t : dayOf (mondayOf t) = 7 * (dayOf t / 7).
Proof.
  unfold mondayOf. rewrite dayOf_AddDays. unfold Weekday. set (n := dayOf t). clearbody n.
  pose proof (Z.div_mod n 7 ltac:(lia)). pose proof (Z.mod_pos_bound n 7 ltac:(lia)).
  destruct (decide (n mod 7 = 6)) as [E|N].
  - assert ((n + 1) mod 7 = 0) as -> by (symmetry; apply (Z.mod_unique _ _ (n / 7 + 1)); lia).
    simpl. lia.
  - assert ((n + 1) mod 7 = n mod 7 + 1) as -> by (symmetry; apply (Z.mod_unique _ _ (n / 7)); lia).
    rewrite (proj2 (Z.eqb_neq _ 0)) by lia. lia.
Qed.

Lemma weekly_tiles : tiles "weekly" (fun i => 7 * i * Day) (fun t => dayOf t / 7).
Proof.
  split; intros; simpl.
  - unfold Day, Hour, Minute, Second. lia.
  - pose proof (dayOf_bounds t). pose proof (Z.div_mod (dayOf t) 7 ltac:(lia)).
    pose proof (Z.mod_pos_bound (dayOf t) 7 ltac:(lia)).
    assert (0 < Day) by (unfold Day, Hour, Minute, Second; lia). nia.
  - unfold PeriodStart. simpl. rewrite Date_civil0, dayOf_monday. f_equal. lia.
  - unfold PeriodEnd. simpl. rewrite Date_civil0, dayOf_AddDays, dayOf_monday. f_equal. lia.
Qed.

Lemma monthly_tiles : tiles "monthly" (fun i => monthStart i * Day) monthIndex.
Proof.
  assert (0 < Day) by (unfold Day, Hour, Minute, Second; lia).
  split; intros; simpl.
  - pose proof (monthStart_lt i). nia.
  - pose proof (dayOf_bounds t). pose proof (monthStart_spec t). nia.
  - unfold PeriodStart. simpl. rewrite <- (Z.add_0_r (Month t)), Date_month. by rewrite Z.add_0_r.
  - unfold PeriodEnd. simpl. by rewrite Date_month.
Qed.

(** Months counted from the start of one. *)
Lemma monthIndex_start i : monthIndex (monthStart i * Day) = i.
Proof.
  apply (idx_unique (fun i => monthStart i * Day) monthIndex).
  - apply (tl_lt _ _ _ monthly_tiles).
  - apply (tl_idx _ _ _ monthly_tiles).
  - pose proof (tl_lt _ _ _ monthly_tiles i). cbn in *. lia.
Qed.

Lemma AddMonths_start i k : AddMonths (monthStart i * Day) k = monthStart (i + k) * Day.
Proof.
  unfold AddMonths. rewrite Z.mod_mul, Z.add_0_r by done. set (t := monthStart i * Day).
  assert (DayOfMonth t = 1) as ->.
  { pose proof (civil_day t) as C. destruct (monthIndex_div t) as [D M].
    assert (monthStart (monthIndex t) = daysBeforeYear (Year t) + daysBeforeMonth (isLeap (Year t)) (Month t)) as E.
    { unfold monthStart. rewrite D, M, !Z.sub_add. done. }
    unfold t at 1 in E. rewrite monthIndex_start in E.
    assert (dayOf t = monthStart i) as F by (unfold dayOf, t; by rewrite Z.div_mul). lia. }
  rewrite Date_month. unfold t. by rewrite monthIndex_start.
Qed.

Lemma tiles_spec period bound idx now :
  tiles period bound idx ->
  exists s e, PeriodStart period now = Ok s /\ PeriodEnd period now = Ok e /\ s <= now < e /\
    (forall t, s <= t < e -> PeriodStart period t = Ok s /\ PeriodEnd period t = Ok e) /\
    PeriodStart period e = Ok e.
Proof.
  intros [L I S E]. exists (bound (idx now)), (bound (idx now + 1)).
  split; [done|]. split; [done|]. split; [done|]. split.
  - intros t Ht. rewrite S, E. by rewrite (idx_unique bound idx L I (idx now) t Ht).
  - rewrite S. f_equal. f_equal. apply (idx_unique bound idx L I). pose proof (L (idx now + 1)). lia.
Qed.

Lemma period_bounds period now :
  period ∈ ["hourly"; "daily"; "weekly"; "monthly"] ->
  exists s e, PeriodStart period now = Ok s /\ PeriodEnd period now = Ok e /\ s <= now < e.
Proof.
  rewrite !elem_of_cons. intros [->|[->|[->|[->|H]]]]; [..|by apply elem_of_nil in H].
  - destruct (tiles_spec _ _ _ now hourly_tiles) as (s & e & ? & ? & ? & _). eauto.
  - destruct (tiles_spec _ _ _ now daily_tiles) as (s & e & ? & ? & ? & _). eauto.
  - destruct (tiles_spec _ _ _ now weekly_tiles) as (s & e & ? & ? & ? & _). eauto.
  - destruct (tiles_spec _ _ _ now monthly_tiles) as (s & e & ? & ? & ? & _). eauto.
Qed.

(** Budget periods tile time. For the hourly, daily, weekly and monthly periods the
    current period contains the current time, every time in it has the same start and end,
    and its end is the start of the next period: no instant is in two periods or in none.
    This covers leap years, month lengths and the carry from December to January. *)
Theorem period_tiling period now :
  period ∈ ["hourly"; "daily"; "weekly"; "monthly"] ->
  exists s e, PeriodStart period now = Ok s /\ PeriodEnd period now = Ok e /\ s <= now < e /\
    (forall t, s <= t < e -> PeriodStart period t = Ok s /\ PeriodEnd period t = Ok e) /\
    PeriodStart period e = Ok e.
Proof.
  rewrite !elem_of_cons. intros [->|[->|[->|[->|H]]]]; [..|by apply elem_of_nil in H].
  - eapply tiles_spec, hourly_tiles.
  - eapply tiles_spec, daily_tiles.
  - eapply tiles_spec, weekly_tiles.
  - eapply tiles_spec, monthly_tiles.
Qed.

(** 2024-02-29 12:00 UTC, in the leap February. *)
Lemma period_tiling_witness :
  PeriodStart "monthly" (Date 2024 2 29 12 0 0) = Ok (Date 2024 2 1 0 0 0) /\
  exists e, PeriodEnd "monthly" (Date 2024 2 29 12 0 0) = Ok e /\ PeriodStart "monthly" e = Ok e.
Proof.
  split; [vm_compute; reflexivity|].
  destruct (period_tiling "monthly" (Date 2024 2 29 12 0 0)) as (s & e & _ & H1 & _ & _ & H2).
  - apply list_elem_of_In. simpl. tauto.
  - exists e. split; [exact H1|exact H2].
Defined.

(** The source's own examples (manager_test.go). *)
Example period_examples :
  let now := Date 2026 2 21 15 30 0 in
  PeriodStart "weekly" now = Ok (Date 2026 2 16 0 0 0) /\
  PeriodEnd "weekly" now = Ok (Date 2026 2 23 0 0 0) /\
  PeriodEnd "monthly" now = Ok (Date 2026 3 1 0 0 0) /\
  PeriodStart "quarterly" now = Err "unknown period: quarterly".
Proof. vm_compute. repeat split. Qed.

End Calendar.
