(* ===== verification/RateLimit.v ===== *)
(** * Rate limits (internal/ratelimit, internal/gateway/middleware/rate_limit.go)

    The sliding-window script run by Redis, the limiter that calls it, the middleware that
    enforces the per-key limits, and the concurrency limiter. A Redis key is a sorted set
    with its sequence counter and their common expiry time; a script runs atomically; the
    server and the gateway read the same clock. Lua's numbers here are integers below 2^53
    and exact. *)

From S2P Require Import Prelude Float64 Types VirtualKey Calendar.
Local Open Scope Z_scope.
Local Open Scope go_scope.

Module RL.

(** ** redis_limiter.go *)

(** A rate-limit key: member [(now, seq)] (printed as [now:seq]) to score, the sequence
    counter, and the time in milliseconds after which both are expired. *)
Record window_entry := mkEntry {
  members : gmap (Z * Z) Z;
  seq : Z;
  deadline : Z
}.

Abbreviation Redis := (gmap string window_entry).

Definition no_entry : window_entry := mkEntry ∅ 0 0.

(** What Redis holds under a key at a time: nothing once its expiry has passed. *)
Definition live (st : Redis) (key : string) (now : Z) : window_entry :=
  match st !! key with
  | Some e => if now <=? deadline e then e else no_entry
  | None => no_entry
  end.

(** ZREMRANGEBYSCORE key 0 max. *)
Definition zremrange (m : gmap (Z * Z) Z) (max : Z) : gmap (Z * Z) Z :=
  filter (fun kv => (0 <=? kv.2) && (kv.2 <=? max) = false) m.

(** The lowest score, ZRANGE key 0 0 WITHSCORES. *)
Definition oldest (m : gmap (Z * Z) Z) : option Z :=
  foldr (fun kv acc => Some (match acc with Some s => Z.min s kv.2 | None => kv.2 end)) None
    (map_to_list m).

(** EXPIRE's argument: math.ceil(window / 1000) + 1 seconds. *)
Definition ttl_ms (window : Z) : Z := ((window + 999) / 1000 + 1) * 1000.

Definition slidingWindowScript (st : Redis) (key : string) (limit window cost now : Z)
  : (Z * Z * Z) * Redis :=
  let e := live st key now in
  let m := zremrange (members e) (now - window) in
  let current := Z.of_nat (size m) in
  if current + cost <=? limit then
    let e' :=
      if 0 <? cost then
        let seq' := seq e + 1 in
        mkEntry (<[(now, seq') := now]> m) seq' (now + ttl_ms window)
      else mkEntry m (seq e) (deadline e) in
    ((1, limit - current - cost, 0), <[key := e']> st)
  else
    let reset := match oldest m with Some s => s + window | None => 0 end in
    ((0, 0, reset), <[key := mkEntry m (seq e) (deadline e)]> st).

Record Result := mkResult {
  Allowed : bool;
  Remaining : Z;
  ResetAt : Time
}.

(** [Allow] at time [now]; [ok] says whether Redis answers. *)
Definition Allow (st : Redis) (key : string) (limit cost : Z) (window : Duration) (ok : bool)
    (now : Time) : option Result * Redis :=
  if negb ok then (None, st)
  else
    let nowMs := Calendar.UnixMilli now in
    let windowMs := Z.quot window Millisecond in
    let '((a, r, resetMs), st) := slidingWindowScript st key limit windowMs cost nowMs in
    (Some (mkResult (a =? 1) r (if 0 <? resetMs then Calendar.ofUnixMilli resetMs else 0)), st).

Definition KeyForKeyRPM (keyID windowMinute : string) : string :=
  "rl:key:" +:+ keyID +:+ ":rpm:" +:+ windowMinute.

Definition KeyForKeyTPM (keyID windowMinute : string) : string :=
  "rl:key:" +:+ keyID +:+ ":tpm:" +:+ windowMinute.

Definition WindowMinute (now : Time) : string := Calendar.FormatMinute now.

(** ** middleware/rate_limit.go *)

(** The 429 response: metric, limit, remaining, Retry-After and the optional reset header. *)
Record rateLimitError := mkRLError {
  RLMetric : string;
  RLLimit : Z;
  RLRemaining : Z;
  RetryAfter : Z;
  RLReset : option Z
}.

(** [Duration.Seconds] truncated by the conversion to int. *)
Definition writeRateLimitError (metric : string) (limit : Z) (r : Result) (now : Time)
  : rateLimitError :=
  let retryAfter :=
    if negb (IsZero (ResetAt r)) then
      let secs := Z.quot (time_Sub (ResetAt r) now) Second in
      if 0 <? secs then secs else 60
    else 60 in
  mkRLError metric limit (Remaining r) retryAfter
    (if negb (IsZero (ResetAt r)) then Some (Calendar.Unix (ResetAt r)) else None).

(** [CheckTPM]: the error written, if the request is blocked. *)
Definition CheckTPM (st : Redis) (key : VK.VirtualKey) (ok : bool) (now : Time)
  : option rateLimitError * Redis :=
  match VK.TPMLimit key with
  | None => (None, st)
  | Some limit =>
      if limit <=? 0 then (None, st)
      else
        let tpmKey := KeyForKeyTPM (VK.ID key) (WindowMinute now) in
        match Allow st tpmKey limit 0 Minute ok now with
        | (None, st) => (None, st)
        | (Some r, st) =>
            if negb (Allowed r) then (Some (writeRateLimitError "tpm" limit r now), st)
            else (None, st)
        end
  end.

Definition RecordTPM (st : Redis) (key : VK.VirtualKey) (tokens : Z) (ok : bool) (now : Time)
  : Redis :=
  match VK.TPMLimit key with
  | None => st
  | Some limit =>
      if tokens =? 0 then st
      else
        let tpmKey := KeyForKeyTPM (VK.ID key) (WindowMinute now) in
        (Allow st tpmKey (limit +i tokens) tokens Minute ok now).2
  end.

Inductive outcome := Blocked (e : rateLimitError) | Forwarded.

(** [RateLimit] around a handler that used [tokens] ([None] without a log context) and
    returned at time [done]. *)
Definition RateLimit (st : Redis) (key : option VK.VirtualKey) (tokens : option Z) (ok : bool)
    (now done : Time) : outcome * Redis :=
  match key with
  | None => (Forwarded, st)
  | Some key =>
      let '(rpm, st) :=
        match VK.RPMLimit key with
        | Some limit =>
            if 0 <? limit then
              let rpmKey := KeyForKeyRPM (VK.ID key) (WindowMinute now) in
              match Allow st rpmKey limit 1 Minute ok now with
              | (Some r, st) =>
                  (if negb (Allowed r) then Some (writeRateLimitError "rpm" limit r now) else None, st)
              | (None, st) => (None, st)
              end
            else (None, st)
        | None => (None, st)
        end in
      match rpm with
      | Some e => (Blocked e, st)
      | None =>
          match CheckTPM st key ok now with
          | (Some e, st) => (Blocked e, st)
          | (None, st) =>
              (Forwarded,
               match tokens with Some n => RecordTPM st key n ok done | None => st end)
          end
      end
  end.

(** ** concurrency_limiter.go *)

(** The semaphore channel: its capacity and how many slots are taken. *)
Record ConcurrencyLimiter := mkCL { cap : Z; taken : Z }.

Definition NewConcurrencyLimiter (max : Z) : ConcurrencyLimiter := mkCL max 0.

Inductive acquire := Acquired | TooMany | CtxErr.

(** The outcomes a non-blocking [select] may choose: a ready send, a done context, or the
    default when neither is ready. *)
Inductive Acquire (l : ConcurrencyLimiter) (ctxDone : bool)
  : acquire -> ConcurrencyLimiter -> Prop :=
| Acquire_slot : taken l < cap l -> Acquire l ctxDone Acquired (mkCL (cap l) (taken l + 1))
| Acquire_ctx : ctxDone = true -> Acquire l ctxDone CtxErr l
| Acquire_default : ~ taken l < cap l -> ctxDone = false -> Acquire l ctxDone TooMany l.

(** The release function receives from the channel; it blocks when the channel is empty. *)
Inductive Release (l : ConcurrencyLimiter) : ConcurrencyLimiter -> Prop :=
| Release_slot : 0 < taken l -> Release l (mkCL (cap l) (taken l - 1)).

(** ** The sliding window as a log of timestamps *)

(** The number of logged requests younger than the window at time [t]. *)
Definition in_window (log : list Z) (W t : Z) : Z :=
  Z.of_nat (length (List.filter (fun s => t - W <? s) log)).

(** A key's entry represents a log of admitted requests, none later than [now]. *)
Record tracks (e : window_entry) (log : list Z) (W now : Z) : Prop := {
  tr_member : forall m sc, members e !! m = Some sc -> m.1 = sc /\ 0 <= sc <= now /\ m.2 <= seq e;
  tr_deadline : forall m sc, members e !! m = Some sc -> sc + W < deadline e;
  tr_count : forall c, now - W <= c ->
    Z.of_nat (size (filter (fun kv => c < kv.2) (members e))) =
    Z.of_nat (length (List.filter (fun s => c <? s) log))
}.

Definition tracks_key (st : Redis) (key : string) (log : list Z) (W now : Z) : Prop :=
  tracks (default no_entry (st !! key)) log W now.

Lemma zremrange_filter m c :
  (forall k sc, m !! k = Some sc -> 0 <= sc) -> zremrange m c = filter (fun kv => c < kv.2) m.
Proof.
  intros H. apply map_filter_ext. intros k sc Hk. simpl. specialize (H _ _ Hk).
  rewrite andb_false_iff, Z.leb_gt, Z.leb_gt. lia.
Qed.

Lemma filter_none (m : gmap (Z * Z) Z) c :
  (forall k sc, m !! k = Some sc -> sc <= c) -> filter (fun kv => c < kv.2) m = ∅.
Proof.
  intros H. apply map_empty. intros k. apply map_lookup_filter_None. right.
  intros sc Hk. simpl. specialize (H _ _ Hk). lia.
Qed.

Lemma tracks_empty now W : tracks no_entry [] W now.
Proof.
  split; simpl.
  - intros m sc H. by rewrite lookup_empty in H.
  - intros m sc H. by rewrite lookup_empty in H.
  - intros c _. by rewrite map_filter_empty, map_size_empty.
Qed.

(** Expiry drops no request that is still in the window. *)
Lemma tracks_live st key log W now t :
  tracks_key st key log W now -> now <= t -> tracks (live st key t) log W t.
Proof.
  unfold tracks_key, live. intros [H1 H2 H3] Ht.
  destruct (st !! key) as [e|]; simpl in *.
  - destruct (t <=? deadline e) eqn:E; breflect.
    + split; [|done|].
      * intros m sc H. specialize (H1 _ _ H). lia.
      * intros c Hc. apply H3. lia.
    + split; simpl.
      * intros m sc H. by rewrite lookup_empty in H.
      * intros m sc H. by rewrite lookup_empty in H.
      * intros c Hc. rewrite <- H3 by lia. rewrite (filter_none (members e)); [done|].
        intros k sc H. specialize (H2 _ _ H). lia.
  - split; simpl.
    + intros m sc H. by rewrite lookup_empty in H.
    + intros m sc H. by rewrite lookup_empty in H.
    + intros c Hc. rewrite <- H3 by lia. done.
Qed.

Lemma tracks_purge e log W t :
  tracks e log W t -> 0 <= W ->
  tracks (mkEntry (zremrange (members e) (t - W)) (seq e) (deadline e)) log W t /\
  Z.of_nat (size (zremrange (members e) (t - W))) = in_window log W t.
Proof.
  intros [H1 H2 H3] HW.
  rewrite zremrange_filter by (intros k sc Hk; apply H1 in Hk; lia). split.
  - split; simpl.
    + intros m sc [H _]%map_lookup_filter_Some. eauto.
    + intros m sc [H _]%map_lookup_filter_Some. eauto.
    + intros c Hc. rewrite <- H3 by done. rewrite map_filter_filter. do 2 f_equal.
      apply map_filter_ext. intros k sc Hk. simpl. lia.
  - unfold in_window. by apply H3.
Qed.

Lemma ttl_covers W : 0 <= W -> W < ttl_ms W.
Proof.
  intros H. unfold ttl_ms. pose proof (Z.div_mod (W + 999) 1000 ltac:(lia)).
  pose proof (Z.mod_pos_bound (W + 999) 1000 ltac:(lia)). lia.
Qed.

Lemma tracks_add e log W t :
  tracks e log W t -> 0 <= W -> 0 <= t ->
  tracks (mkEntry (<[(t, seq e + 1) := t]> (members e)) (seq e + 1) (t + ttl_ms W)) (t :: log) W t.
Proof.
  intros [H1 H2 H3] HW Ht. pose proof (ttl_covers W HW) as T.
  assert (members e !! (t, seq e + 1) = None) as F.
  { destruct (members e !! (t, seq e + 1)) as [sc|] eqn:E; [|done].
    apply H1 in E as (_ & _ & E). simpl in E. lia. }
  split; simpl.
  - intros m sc [[<- <-]|[_ H]]%lookup_insert_Some; simpl; [lia|]. specialize (H1 _ _ H). lia.
  - intros m sc [[<- <-]|[_ H]]%lookup_insert_Some; simpl; [lia|]. specialize (H1 _ _ H). lia.
  - intros c Hc. destruct (Z.ltb_spec c t) as [L|L].
    + rewrite map_filter_insert_True by done. rewrite map_size_insert_None.
      * simpl. specialize (H3 c Hc). lia.
      * apply map_lookup_filter_None. by left.
    + rewrite map_filter_insert_False by (simpl; lia). rewrite delete_id by done.
      by apply H3.
Qed.

Lemma oldest_bounds m lo hi :
  (forall k sc, m !! k = Some sc -> lo < sc <= hi) ->
  match oldest m with Some s => lo < s <= hi | None => m = ∅ end.
Proof.
  intros H. unfold oldest.
  assert (Forall (fun kv => lo < kv.2 <= hi) (map_to_list m)) as F.
  { apply Forall_forall. intros [k sc] I. apply elem_of_map_to_list in I. simpl. eauto. }
  assert (match foldr (fun kv acc => Some (match acc with Some s => Z.min s kv.2 | None => kv.2 end))
                  None (map_to_list m) with
          | Some s => lo < s <= hi
          | None => map_to_list m = []
          end) as R.
  { clear H. induction F as [|[k sc] l Hk F IH]; simpl in *; [done|].
    destruct (foldr _ _ l); lia. }
  destruct (foldr _ _ _); [done|]. by apply map_to_list_empty_iff.
Qed.

(** One call of the script against the log of admitted requests. *)
Lemma script_refines st key log limit W cost now t :
  tracks_key st key log W now -> now <= t -> 0 <= t -> 0 <= W ->
  let '((a, remaining, reset), st') := slidingWindowScript st key limit W cost t in
  (forall k, k <> key -> st' !! k = st !! k) /\
  (in_window log W t + cost <= limit ->
     a = 1 /\ remaining = limit - in_window log W t - cost /\ reset = 0 /\
     tracks_key st' key (if 0 <? cost then t :: log else log) W t) /\
  (limit < in_window log W t + cost ->
     a = 0 /\ remaining = 0 /\ (0 < in_window log W t -> t < reset <= t + W) /\
     tracks_key st' key log W t).
Proof.
  intros T Ht H0 HW. pose proof (tracks_live _ _ _ _ _ t T Ht) as L.
  destruct (tracks_purge _ _ _ _ L HW) as [P C].
  unfold slidingWindowScript. rewrite C.
  set (m := zremrange _ _) in *.
  destruct (_ <=? limit) eqn:E; breflect.
  - split; [intros k N; by rewrite lookup_insert_ne|]. split; [|lia]. intros _.
    split_and!; try done. unfold tracks_key. rewrite lookup_insert_eq. simpl.
    destruct (0 <? cost); [|done]. by apply tracks_add in P.
  - split; [intros k N; by rewrite lookup_insert_ne|]. split; [lia|]. intros _.
    split_and!; try done.
    + intros N. pose proof (oldest_bounds m (t - W) t) as O.
      lapply O; [clear O; intros O|].
      * destruct (oldest m) as [s|]; [lia|]. rewrite O, map_size_empty in C. lia.
      * intros k sc Hk. unfold m in Hk.
        rewrite zremrange_filter in Hk
          by (intros ? ? Hx; apply (tr_member _ _ _ _ L) in Hx; lia).
        apply map_lookup_filter_Some in Hk as [Hk Hlt]. simpl in Hlt.
        apply (tr_member _ _ _ _ L) in Hk as (_ & ? & _). lia.
    + unfold tracks_key. by rewrite lookup_insert_eq.
Qed.

(** The abstract limiter: admit a request while fewer than [L] of the admitted ones are
    younger than the window. The log is kept newest first. *)
Fixpoint window_spec (L W : Z) (log : list Z) (ts : list Z) : list bool * list Z :=
  match ts with
  | [] => ([], log)
  | t :: ts =>
      let ok := in_window log W t + 1 <=? L in
      let '(rs, log) := window_spec L W (if ok then t :: log else log) ts in
      (ok :: rs, log)
  end.

(** Unit-cost calls of [Allow] on one key, at the given times. *)
Fixpoint allow_run (st : Redis) (key : string) (L : Z) (window : Duration) (ts : list Time)
  : list bool * Redis :=
  match ts with
  | [] => ([], st)
  | t :: ts =>
      let '(r, st) := Allow st key L 1 window true t in
      let '(rs, st) := allow_run st key L window ts in
      (match r with Some r => Allowed r | None => false end :: rs, st)
  end.

(** At most [L] log entries in any window of length [W]. *)
Definition bounded (L W : Z) (log : list Z) : Prop :=
  forall T, Z.of_nat (length (List.filter (fun s => (T - W <? s) && (s <=? T)) log)) <= L.

Lemma filter_length_le {A} (p q : A -> bool) l :
  (forall x, p x = true -> q x = true) ->
  (length (List.filter p l) <= length (List.filter q l))%nat.
Proof.
  intros H. induction l as [|x l IH]; simpl; [lia|].
  destruct (p x) eqn:P; [rewrite (H _ P)|destruct (q x)]; simpl; lia.
Qed.

Lemma bounded_add L W log t :
  bounded L W log -> in_window log W t + 1 <= L -> Forall (fun s => s <= t) log ->
  bounded L W (t :: log).
Proof.
  intros B H F T. simpl. destruct ((T - W <? t) && (t <=? T)) eqn:E; [|apply B].
  breflect. simpl. unfold in_window in H.
  pose proof (filter_length_le (fun s => (T - W <? s) && (s <=? T)) (fun s => t - W <? s) log).
  lapply H2; [lia|]. intros x Hx. breflect. apply Z.ltb_lt. lia.
Qed.

Lemma window_spec_bounded L W log ts t0 :
  bounded L W log -> Forall (fun s => s <= t0) log -> StronglySorted Z.le (t0 :: ts) ->
  bounded L W (window_spec L W log ts).2.
Proof.
  revert log t0. induction ts as [|t ts IH]; intros log t0 B F S; simpl; [done|].
  inversion S as [|? ? S' SF]; subst. inversion SF; subst.
  assert (Forall (fun s => s <= t) log) as F' by (eapply Forall_impl; [exact F|]; simpl; lia).
  destruct (_ <=? L) eqn:E; breflect.
  - specialize (IH (t :: log) t (bounded_add _ _ _ _ B E F') ltac:(constructor; [lia|done]) S').
    by destruct (window_spec L W (t :: log) ts).
  - specialize (IH log t B F' S'). by destruct (window_spec L W log ts).
Qed.

Lemma UnixMilli_mono t t' : t <= t' -> Calendar.UnixMilli t <= Calendar.UnixMilli t'.
Proof.
  intros H. unfold Calendar.UnixMilli. pose proof (Z.div_le_mono t t' Millisecond ltac:(done) H). lia.
Qed.

Lemma UnixMilli_sorted l : StronglySorted Z.le l -> StronglySorted Z.le (Calendar.UnixMilli <$> l).
Proof.
  induction 1 as [|x l S IH F]; cbn; constructor; [done|].
  apply Forall_fmap. eapply Forall_impl; [exact F|]. intros y. apply UnixMilli_mono.
Qed.

(** One unit-cost call of [Allow] is one step of the abstract limiter. *)
Lemma Allow_refines st key log L window now t :
  tracks_key st key log (Z.quot window Millisecond) now ->
  now <= Calendar.UnixMilli t -> 0 <= Calendar.UnixMilli t -> 0 <= window ->
  exists r, (Allow st key L 1 window true t).1 = Some r /\
    let ok := in_window log (Z.quot window Millisecond) (Calendar.UnixMilli t) + 1 <=? L in
    Allowed r = ok /\
    tracks_key (Allow st key L 1 window true t).2 key
      (if ok then Calendar.UnixMilli t :: log else log)
      (Z.quot window Millisecond) (Calendar.UnixMilli t) /\
    (forall k, k <> key -> (Allow st key L 1 window true t).2 !! k = st !! k).
Proof.
  intros T Hn H0 HW. unfold Allow. simpl.
  pose proof (script_refines st key log L (Z.quot window Millisecond) 1 now (Calendar.UnixMilli t)
    T Hn H0 ltac:(apply Z.quot_pos; [done|unfold Millisecond; lia])) as R.
  destruct (slidingWindowScript _ _ _ _ _ _) as [[[a rem] reset] st'].
  destruct R as (K & A & D). eexists. split; [done|]. simpl.
  destruct (_ <=? L) eqn:E; breflect.
  - destruct (A E) as (-> & _ & _ & T'). done.
  - destruct (D E) as (-> & _ & _ & T'). done.
Qed.

Lemma allow_run_refines st key log L window now ts :
  tracks_key st key log (Z.quot window Millisecond) now -> 0 <= window -> 0 <= now ->
  StronglySorted Z.le (now :: (Calendar.UnixMilli <$> ts)) ->
  (allow_run st key L window ts).1 =
  (window_spec L (Z.quot window Millisecond) log (Calendar.UnixMilli <$> ts)).1.
Proof.
  revert st log now. induction ts as [|t ts IH]; intros st log now T HW H0 S; simpl; [done|].
  inversion S as [|? ? S' SF]; subst. inversion SF; subst.
  destruct (Allow_refines st key log L window now t T) as (r & E & A & T' & _); try lia.
  destruct (Allow st key L 1 window true t) as [o st'] eqn:EA. simpl in *. rewrite E.
  rewrite <- A in *.
  specialize (IH st' _ (Calendar.UnixMilli t) T' HW ltac:(lia) S').
  destruct (allow_run st' key L window ts) as [rs st2]. simpl in *.
  destruct (window_spec _ _ _ _) as [rs' log']. simpl in *. by rewrite IH.
Qed.

(** C8. The Redis script is a sliding-window counter. On a fresh key, whatever the
    sequence of unit-cost calls at non-decreasing times, the answers of Allow are those of
    the abstract limiter that admits a call while fewer than the limit of the admitted
    calls are younger than the window; hence no window of that length, wherever it starts,
    contains more admitted calls than the limit. Neither expiry of the keys nor calls in
    the same millisecond break this. *)
Theorem Allow_is_sliding_window st key L window t0 ts :
  st !! key = None -> 0 <= window -> 0 <= L -> 0 <= Calendar.UnixMilli t0 ->
  StronglySorted Z.le (t0 :: ts) ->
  let W := Z.quot window Millisecond in
  let spec := window_spec L W [] (Calendar.UnixMilli <$> ts) in
  (allow_run st key L window ts).1 = spec.1 /\ bounded L W spec.2.
Proof.
  intros Hk HW HL H0 S W spec.
  assert (StronglySorted Z.le (Calendar.UnixMilli t0 :: (Calendar.UnixMilli <$> ts))) as S'.
  { change (StronglySorted Z.le (Calendar.UnixMilli <$> (t0 :: ts))). by apply UnixMilli_sorted. }
  split.
  - eapply allow_run_refines; [|done|exact H0|done].
    unfold tracks_key. rewrite Hk. apply tracks_empty.
  - eapply (window_spec_bounded L W [] _ (Calendar.UnixMilli t0)); [|constructor|done].
    intros T. simpl. lia.
Qed.

(** ** The middleware within one calendar minute *)

Lemma script_frame st key limit W cost t k :
  k <> key -> (slidingWindowScript st key limit W cost t).2 !! k = st !! k.
Proof.
  intros N. unfold slidingWindowScript. destruct (_ <=? limit); simpl;
    by rewrite lookup_insert_ne.
Qed.

Lemma Allow_frame st key limit cost w ok t k :
  k <> key -> (Allow st key limit cost w ok t).2 !! k = st !! k.
Proof.
  intros N. unfold Allow. destruct ok; [|done]. simpl.
  pose proof (script_frame st key limit (Z.quot w Millisecond) cost (Calendar.UnixMilli t) k N).
  by destruct (slidingWindowScript _ _ _ _ _ _) as [[[? ?] ?] ?].
Qed.

Lemma rpm_tpm_keys_differ id w w' : KeyForKeyRPM id w <> KeyForKeyTPM id w'.
Proof.
  unfold KeyForKeyRPM, KeyForKeyTPM. rewrite <- !str_app_assoc.
  intros H. rewrite !str_app_assoc in H. do 2 apply str_app_inj_l in H. discriminate.
Qed.

Lemma CheckTPM_frame st k ok t key :
  (forall w, key <> KeyForKeyTPM (VK.ID k) w) -> (CheckTPM st k ok t).2 !! key = st !! key.
Proof.
  intros N. unfold CheckTPM. destruct (VK.TPMLimit k); [|done]. destruct (_ <=? 0); [done|].
  pose proof (Allow_frame st (KeyForKeyTPM (VK.ID k) (WindowMinute t)) z 0 Minute ok t key (N _)) as F.
  destruct (Allow _ _ _ _ _ _ _) as [[r|] st']; [|done]. by destruct (negb (Allowed r)).
Qed.

Lemma RecordTPM_frame st k tokens ok t key :
  (forall w, key <> KeyForKeyTPM (VK.ID k) w) -> RecordTPM st k tokens ok t !! key = st !! key.
Proof.
  intros N. unfold RecordTPM. destruct (VK.TPMLimit k); [|done]. destruct (_ =? 0); [done|].
  by apply Allow_frame.
Qed.

(** A request: the tokens it uses, when it arrives and when its handler returns. *)
Record request := mkReq { rq_tokens : option Z; rq_now : Time; rq_done : Time }.

#[local] Arguments RateLimit : simpl never.

Fixpoint rate_run (st : Redis) (key : VK.VirtualKey) (rs : list request) : list outcome :=
  match rs with
  | [] => []
  | r :: rs =>
      let '(o, st) := RateLimit st (Some key) (rq_tokens r) true (rq_now r) (rq_done r) in
      o :: rate_run st key rs
  end.

Definition is_forwarded (o : outcome) : bool := match o with Forwarded => true | _ => false end.

(** The milliseconds of a calendar minute. *)
Lemma minute_ms q t :
  t / Minute = q -> q * 60000 - Calendar.unixOffsetMs <= Calendar.UnixMilli t
                    < (q + 1) * 60000 - Calendar.unixOffsetMs.
Proof.
  intros <-. unfold Calendar.UnixMilli. change Minute with (Millisecond * 60000).
  rewrite <- Z.div_div by done.
  pose proof (Z.div_mod (t / Millisecond) 60000 ltac:(done)).
  pose proof (Z.mod_pos_bound (t / Millisecond) 60000 ltac:(done)). lia.
Qed.

(** Logged milliseconds of the current minute are all in the window. *)
Lemma in_window_minute log q t :
  Forall (fun s => q * 60000 - Calendar.unixOffsetMs <= s) log -> t / Minute = q ->
  in_window log 60000 (Calendar.UnixMilli t) = Z.of_nat (length log).
Proof.
  intros F H. apply minute_ms in H. unfold in_window. do 2 f_equal.
  induction F as [|s l Hs F IH]; simpl; [done|].
  rewrite (proj2 (Z.ltb_lt _ _)) by lia. by rewrite IH.
Qed.

Lemma RateLimit_rpm st key L log q now r :
  VK.RPMLimit key = Some L -> 0 < L ->
  let k := KeyForKeyRPM (VK.ID key) (WindowMinute (rq_now r)) in
  tracks_key st k log 60000 now -> now <= Calendar.UnixMilli (rq_now r) ->
  0 <= Calendar.UnixMilli (rq_now r) -> rq_now r / Minute = q ->
  Forall (fun s => q * 60000 - Calendar.unixOffsetMs <= s) log ->
  let '(o, st') := RateLimit st (Some key) (rq_tokens r) true (rq_now r) (rq_done r) in
  (is_forwarded o = true -> Z.of_nat (length log) + 1 <= L) /\
  exists log', tracks_key st' k log' 60000 (Calendar.UnixMilli (rq_now r)) /\
    Forall (fun s => q * 60000 - Calendar.unixOffsetMs <= s) log' /\
    (log' = log \/ log' = Calendar.UnixMilli (rq_now r) :: log) /\
    (is_forwarded o = true -> log' = Calendar.UnixMilli (rq_now r) :: log) /\
    (log' = log \/ Z.of_nat (length log') <= L).
Proof.
  intros HL H0 k T Hn Hp Hq F. unfold RateLimit. rewrite HL, (proj2 (Z.ltb_lt 0 L)) by done.
  fold k. destruct (Allow_refines st k log L Minute now (rq_now r) T Hn Hp ltac:(done))
    as (res & E & A & T' & _).
  change (Z.quot Minute Millisecond) with 60000 in *.
  rewrite (in_window_minute log q) in A, T' by done.
  destruct (Allow st k L 1 Minute true (rq_now r)) as [o st1]. simpl in *. subst o. rewrite A.
  assert (forall w, k <> KeyForKeyTPM (VK.ID key) w) as NK by (intros w; apply rpm_tpm_keys_differ).
  destruct (Z.leb_spec (Z.of_nat (length log) + 1) L) as [Le|Gt]; simpl in *.
  - pose proof (CheckTPM_frame st1 key true (rq_now r) k NK) as C.
    destruct (CheckTPM st1 key true (rq_now r)) as [[e|] st2]; simpl in *.
    + split; [done|]. eexists. unfold tracks_key in *. rewrite C.
      split; [exact T'|]. split; [constructor; [by apply minute_ms|done]|]. simpl.
      split; [by right|]. split; [done|]. right. lia.
    + split; [lia|]. exists (Calendar.UnixMilli (rq_now r) :: log).
      assert (match rq_tokens r with Some n => RecordTPM st2 key n true (rq_done r) | None => st2 end
                !! k = st1 !! k) as R by (destruct (rq_tokens r); [by rewrite RecordTPM_frame|done]).
      unfold tracks_key in *. rewrite R.
      split; [exact T'|]. split; [constructor; [by apply minute_ms|done]|]. simpl.
      split; [by right|]. split; [done|]. right. lia.
  - split; [done|]. exists log. split_and!; try done; by left.
Qed.

Lemma rate_run_bound st key L log q now rs :
  VK.RPMLimit key = Some L -> 0 < L ->
  tracks_key st (KeyForKeyRPM (VK.ID key) (WindowMinute (q * Minute))) log 60000 now ->
  Forall (fun s => q * 60000 - Calendar.unixOffsetMs <= s) log ->
  Z.of_nat (length log) <= L -> 0 <= now ->
  StronglySorted Z.le (now :: (Calendar.UnixMilli <$> (rq_now <$> rs))) ->
  Forall (fun r => rq_now r / Minute = q) rs ->
  Z.of_nat (length (List.filter is_forwarded (rate_run st key rs))) + Z.of_nat (length log) <= L.
Proof.
  intros HL H0. revert st log now.
  induction rs as [|r rs IH]; intros st log now T F Hlen Hn S Q; simpl; [lia|].
  inversion S as [|? ? S' SF]; subst. inversion SF; subst. inversion Q; subst.
  assert (WindowMinute (rq_now r / Minute * Minute) = WindowMinute (rq_now r)) as EW
    by (apply Calendar.FormatMinute_same; by rewrite Z.div_mul).
  rewrite EW in T.
  pose proof (RateLimit_rpm st key L log (rq_now r / Minute) now r HL H0 T) as R.
  destruct (RateLimit _ _ _ _ _ _) as [o st'].
  destruct R as (R1 & log' & T' & F' & Hl & Hf & Hb); try done; [lia|].
  rewrite <- EW in T'.
  specialize (IH st' log' (Calendar.UnixMilli (rq_now r)) T' F'
    ltac:(destruct Hb as [->|]; lia) ltac:(lia) S' ltac:(done)).
  cbn [List.filter]. destruct (is_forwarded o) eqn:O; cbn [length] in *.
  - rewrite (Hf eq_refl) in IH. cbn [length] in IH. lia.
  - destruct Hl as [->| ->]; cbn [length] in *; lia.
Qed.

(** Requests per minute. For a key with RPM limit [L], however many requests arrive
    within one calendar minute, at most [L] are forwarded to the next handler, whatever
    tokens they use and however the TPM check answers. *)
Theorem rpm_minute_bound st key L q rs :
  VK.RPMLimit key = Some L -> 0 < L ->
  st !! KeyForKeyRPM (VK.ID key) (WindowMinute (q * Minute)) = None ->
  StronglySorted Z.le (rq_now <$> rs) ->
  Forall (fun r => rq_now r / Minute = q /\ 0 <= Calendar.UnixMilli (rq_now r)) rs ->
  Z.of_nat (length (List.filter is_forwarded (rate_run st key rs))) <= L.
Proof.
  intros HL H0 Hk S Q. destruct rs as [|r rs]; [simpl; lia|].
  inversion Q as [|? ? [Q1 Q2] _]; subst.
  pose proof (rate_run_bound st key L [] (rq_now r / Minute) 0 (r :: rs) HL H0) as B.
  simpl length in B. rewrite Z.add_0_r in B. apply B.
  - unfold tracks_key. rewrite Hk. apply tracks_empty.
  - constructor.
  - lia.
  - lia.
  - constructor.
    + clear -S. induction S as [|x l S IH F]; [constructor|]. simpl. constructor; [done|].
      apply Forall_fmap. eapply Forall_impl; [exact F|]. intros y. apply UnixMilli_mono.
    + apply Forall_fmap, Forall_fmap. eapply Forall_impl; [exact Q|]. by intros ? [].
  - eapply Forall_impl; [exact Q|]. by intros ? [].
Qed.

(** ** Tokens per minute *)

(** Token recordings of one key in one minute. *)
Fixpoint record_run (st : Redis) (key : VK.VirtualKey) (rs : list (Z * Time)) : Redis :=
  match rs with
  | [] => st
  | r :: rs => record_run (RecordTPM st key r.1 true r.2) key rs
  end.

Lemma RecordTPM_count st key L log q now tokens t :
  VK.TPMLimit key = Some L -> 0 < L -> 0 < tokens -> L + tokens <= int64_max ->
  let k := KeyForKeyTPM (VK.ID key) (WindowMinute t) in
  tracks_key st k log 60000 now -> now <= Calendar.UnixMilli t -> 0 <= Calendar.UnixMilli t ->
  t / Minute = q -> Forall (fun s => q * 60000 - Calendar.unixOffsetMs <= s) log ->
  tracks_key (RecordTPM st key tokens true t) k
    (if Z.of_nat (length log) <=? L then Calendar.UnixMilli t :: log else log)
    60000 (Calendar.UnixMilli t).
Proof.
  intros HL H0 Ht Ho k T Hn Hp Hq F. unfold RecordTPM. rewrite HL.
  rewrite (proj2 (Z.eqb_neq tokens 0)) by lia. fold k.
  rewrite wrap64_id by (unfold in_int64, int64_min, int64_max in *; lia).
  unfold Allow. simpl. change (Z.quot Minute Millisecond) with 60000.
  pose proof (script_refines st k log (L + tokens) 60000 tokens now (Calendar.UnixMilli t)
    T Hn Hp ltac:(done)) as R. rewrite (in_window_minute log q) in R by done.
  destruct (slidingWindowScript _ _ _ _ _ _) as [[[a rem] reset] st']. simpl.
  destruct R as (_ & A & D). destruct (Z.leb_spec (Z.of_nat (length log)) L).
  - destruct A as (_ & _ & _ & A); [lia|]. by rewrite (proj2 (Z.ltb_lt 0 tokens)) in A.
  - destruct D as (_ & _ & _ & D); [lia|]. done.
Qed.

Lemma record_run_count st key L log q now rs :
  VK.TPMLimit key = Some L -> 0 < L ->
  tracks_key st (KeyForKeyTPM (VK.ID key) (WindowMinute (q * Minute))) log 60000 now ->
  Forall (fun s => q * 60000 - Calendar.unixOffsetMs <= s) log -> 0 <= now ->
  StronglySorted Z.le (now :: (Calendar.UnixMilli <$> rs.*2)) ->
  Forall (fun r => r.2 / Minute = q /\ 0 < r.1 /\ L + r.1 <= int64_max) rs ->
  exists log' now', tracks_key (record_run st key rs)
      (KeyForKeyTPM (VK.ID key) (WindowMinute (q * Minute))) log' 60000 now' /\
    (forall B, now <= B -> Forall (fun r => Calendar.UnixMilli r.2 <= B) rs -> now' <= B) /\
    Forall (fun s => q * 60000 - Calendar.unixOffsetMs <= s) log' /\
    Z.of_nat (length log') =
      Z.max (Z.of_nat (length log)) (Z.min (L + 1) (Z.of_nat (length log) + Z.of_nat (length rs))).
Proof.
  intros HL H0. revert st log now.
  induction rs as [|[n t] rs IH]; intros st log now T F Hn S Q.
  - exists log, now. split_and!; try done. simpl. lia.
  - inversion S as [|? ? S' SF]; subst. inversion SF; subst. inversion Q as [|? ? (Q1 & Q2 & Q3) Q']; subst.
    simpl in *.
    assert (WindowMinute (t / Minute * Minute) = WindowMinute t) as EW
      by (apply Calendar.FormatMinute_same; by rewrite Z.div_mul).
    rewrite EW in *.
    pose proof (RecordTPM_count st key L log (t / Minute) now n t HL H0 Q2 Q3 T
      ltac:(done) ltac:(lia) eq_refl F) as T'.
    destruct (IH _ _ _ T') as (log' & now' & T2 & E & F2 & Len); try done; [|lia|].
    { destruct (_ <=? L); [|done]. constructor; [by apply minute_ms|done]. }
    exists log', now'. split_and!; try done.
    + intros B _ FB. inversion FB; subst. by apply E.
    + rewrite Len. destruct (Z.leb_spec (Z.of_nat (length log)) L); simpl length; lia.
Qed.

(** The token limit counts requests. Whatever numbers of tokens the requests of one
    minute report, the pre-flight TPM check blocks the next request of the minute exactly
    when more than [L] requests were recorded: the tokens themselves are never added up,
    against the stated meaning of a tokens-per-minute limit. *)
Theorem tpm_counts_requests st key L q rs t :
  VK.TPMLimit key = Some L -> 0 < L ->
  st !! KeyForKeyTPM (VK.ID key) (WindowMinute (q * Minute)) = None ->
  StronglySorted Z.le (0 :: (Calendar.UnixMilli <$> rs.*2)) ->
  Forall (fun r => r.2 / Minute = q /\ 0 < r.1 /\ L + r.1 <= int64_max) rs ->
  t / Minute = q -> 0 <= Calendar.UnixMilli t ->
  Forall (fun r => Calendar.UnixMilli r.2 <= Calendar.UnixMilli t) rs ->
  (CheckTPM (record_run st key rs) key true t).1 <> None <-> L < Z.of_nat (length rs).
Proof.
  intros HL H0 Hk S Q Hq Hp Hlast.
  destruct (record_run_count st key L [] q 0 rs HL H0) as (log & now & T & B & F & Len); try done.
  { unfold tracks_key. rewrite Hk. apply tracks_empty. }
  specialize (B _ Hp Hlast). simpl length in Len. rewrite <- Hq in T.
  assert (WindowMinute (t / Minute * Minute) = WindowMinute t) as EW
    by (apply Calendar.FormatMinute_same; by rewrite Z.div_mul).
  rewrite EW in T.
  unfold CheckTPM. rewrite HL, (proj2 (Z.leb_gt L 0)) by done. unfold Allow. simpl.
  change (Z.quot Minute Millisecond) with 60000.
  pose proof (script_refines _ _ log L 60000 0 now (Calendar.UnixMilli t) T B Hp ltac:(done)) as R.
  rewrite (in_window_minute log q) in R by done.
  destruct (slidingWindowScript _ _ _ _ _ _) as [[[a rem] reset] st']. simpl.
  destruct R as (_ & A & D).
  destruct (Z.le_gt_cases (Z.of_nat (length log) + 0) L) as [Le|Gt].
  - destruct (A Le) as (-> & _). simpl. split; [done|lia].
  - destruct (D Gt) as (-> & _). simpl. split; [lia|done].
Qed.

(** ** The concurrency limiter as a transition system *)

Inductive cl_step : ConcurrencyLimiter -> ConcurrencyLimiter -> Prop :=
| cl_acquire l ctx r l' : Acquire l ctx r l' -> cl_step l l'
| cl_release l l' : Release l l' -> cl_step l l'.

(** Concurrency cap. In every state reached by acquires and releases, the slots taken
    are between zero and the configured maximum; an acquire whose context is live gets a
    slot if one is free and is refused at once otherwise, so it never waits. *)
Theorem concurrency_cap max l ctx :
  0 <= max -> rtc cl_step (NewConcurrencyLimiter max) l ->
  cap l = max /\ 0 <= taken l <= max /\
  (exists r l', Acquire l ctx r l') /\
  (forall r l', Acquire l false r l' ->
     r = (if taken l <? max then Acquired else TooMany)).
Proof.
  intros Hm R.
  assert (cap l = max /\ 0 <= taken l <= max) as [Hc Ht].
  { remember (NewConcurrencyLimiter max) as l0 eqn:E.
    assert (cap l0 = max /\ 0 <= taken l0 <= max) as H0 by (subst l0; simpl; lia).
    clear E. induction R as [l|l0 l1 l2 S _ IH]; [done|]. apply IH.
    destruct S as [x c r y A|x y A]; destruct A; simpl in *; lia. }
  split_and!; try done; try lia.
  - destruct (decide (taken l < cap l)) as [L|L].
    + eexists _, _. by apply Acquire_slot.
    + destruct ctx; [eexists _, _; by apply Acquire_ctx|eexists _, _; by apply Acquire_default].
  - intros r l' A. rewrite <- Hc. destruct A; simpl; [|done|].
    + by rewrite (proj2 (Z.ltb_lt _ _)).
    + rewrite (proj2 (Z.ltb_ge _ _)); [done|lia].
Qed.

(** ** Witnesses *)

Definition demo_key (rpm tpm : option Z) : VK.VirtualKey :=
  VK.mkVK "k1" "h" "sk-ABCD" "ci" None None None None None rpm tpm [] [] "{}" true 0 0 None.

(** A time in 2024, and the minute it is in. *)
Definition demo_t0 : Time := Calendar.Date 2024 5 1 10 30 0.
Definition demo_q : Z := demo_t0 / Minute.
Definition at_ms (ms : Z) : Time := demo_t0 + ms * Millisecond.

Lemma Allow_is_sliding_window_witness :
  (allow_run ∅ "k" 2 Minute [at_ms 0; at_ms 0; at_ms 10; at_ms 59999; at_ms 60000; at_ms 61000]).1
  = [true; true; false; false; true; true].
Proof.
  destruct (Allow_is_sliding_window ∅ "k" 2 Minute demo_t0
    [at_ms 0; at_ms 0; at_ms 10; at_ms 59999; at_ms 60000; at_ms 61000]) as [H _].
  - reflexivity.
  - vm_compute. discriminate.
  - lia.
  - vm_compute. discriminate.
  - repeat constructor; vm_compute; discriminate.
  - rewrite H. vm_compute. reflexivity.
Defined.

Lemma rpm_minute_bound_witness :
  Z.of_nat (length (List.filter is_forwarded (rate_run ∅ (demo_key (Some 1) None)
    [mkReq None (at_ms 0) (at_ms 5); mkReq None (at_ms 7) (at_ms 9)]))) <= 1.
Proof.
  apply (rpm_minute_bound ∅ (demo_key (Some 1) None) 1 demo_q).
  - reflexivity.
  - lia.
  - reflexivity.
  - repeat constructor; vm_compute; discriminate.
  - repeat constructor; vm_compute; try discriminate; reflexivity.
Defined.

(** A limit of two tokens a minute lets two requests of a million tokens each pass. *)
Lemma tpm_counts_requests_witness :
  (CheckTPM (record_run ∅ (demo_key None (Some 2)) [(1000000, at_ms 0); (1000000, at_ms 1)])
     (demo_key None (Some 2)) true (at_ms 2)).1 = None.
Proof.
  pose proof (tpm_counts_requests ∅ (demo_key None (Some 2)) 2 demo_q
    [(1000000, at_ms 0); (1000000, at_ms 1)] (at_ms 2)) as H.
  destruct (CheckTPM _ _ _ _).1 as [e|] eqn:E; [exfalso|reflexivity].
  assert (2 < 2) as C; [|lia].
  apply H.
  - reflexivity.
  - lia.
  - reflexivity.
  - repeat constructor; vm_compute; discriminate.
  - repeat constructor; vm_compute; try discriminate; reflexivity.
  - reflexivity.
  - vm_compute. discriminate.
  - repeat constructor; vm_compute; discriminate.
  - discriminate.
Defined.

Lemma concurrency_cap_witness :
  0 <= taken (mkCL 1 1) <= 1 /\ exists r l', Acquire (mkCL 1 1) false r l'.
Proof.
  destruct (concurrency_cap 1 (mkCL 1 1) false) as (_ & H1 & H2 & _).
  - lia.
  - eapply rtc_l; [|apply rtc_refl]. eapply (cl_acquire _ false Acquired).
    apply (Acquire_slot (mkCL 1 0) false). simpl. lia.
  - split; [exact H1|exact H2].
Defined.

(** The keys carry the calendar minute, so the window does not slide across it: with a
    limit of two requests a minute, four requests within four milliseconds are forwarded. *)
Example minute_boundary_burst :
  rate_run ∅ (demo_key (Some 2) None)
    [mkReq None (at_ms 59998) (at_ms 59998); mkReq None (at_ms 59999) (at_ms 59999);
     mkReq None (at_ms 60000) (at_ms 60000); mkReq None (at_ms 60001) (at_ms 60001)]
  = [Forwarded; Forwarded; Forwarded; Forwarded].
Proof. vm_compute. reflexivity. Qed.

End RL.
