(* ===== verification/Budget.v ===== *)
(** * Budgets (internal/budget, internal/store/redis/budget_cache.go,
    internal/store/postgres/budget_store.go, middleware/budget_check.go,
    handler/admin_budgets.go)

    The budget table, the spend counters in Redis, the manager that checks and records
    spend with its in-memory list cache, the scheduler that starts new periods, the
    middleware and the admin endpoints. How PostgreSQL adds a [numeric] and how Redis adds
    with INCRBYFLOAT are arguments; which calls fail is an argument of each operation. *)

From S2P Require Import Prelude Float64 Types Cost VirtualKey Calendar.
Local Open Scope Z_scope.

Module Budget.

Record ErrBudgetExceeded := mkExceeded {
  Current : float64;
  Limit : float64;
  ExPeriod : string
}.

Record Budget := mkBudget {
  BID : UUID;
  EntityType : string;
  EntityID : UUID;
  Period : string;
  SoftLimitUSD : option float64;
  HardLimitUSD : option float64;
  CurrentSpend : float64;
  PStart : Time;
  PEnd : Time
}.

(** The table, by its unique key (entity type, entity, period). *)
Abbreviation BKey := (string * UUID * string)%type.

(** The spend counters: value and, once set, the time of expiry. *)
Record State := mkState {
  table : gmap BKey Budget;
  redis : gmap string (float64 * option Time);
  listCache : gmap string (list Budget * Time)
}.

Definition set_table (st : State) (t : gmap BKey Budget) : State := mkState t (redis st) (listCache st).
Definition set_redis (st : State) (r : gmap string (float64 * option Time)) : State :=
  mkState (table st) r (listCache st).
Definition set_lists (st : State) (l : gmap string (list Budget * Time)) : State :=
  mkState (table st) (redis st) l.

(** Which external calls succeed: the list query, and by counter key the Redis reads, writes
    and increments and the table's increments. *)
Record faults := mkFaults {
  list_ok : bool;
  get_ok : string -> bool;
  set_ok : string -> bool;
  incr_ok : string -> bool;
  add_ok : string -> bool;
  upsert_ok : bool;
  reset_query_ok : bool;
  reset_ok : UUID -> bool
}.

Section Budgets.
(** [current_spend + $4] on numeric columns, and INCRBYFLOAT. *)
Context (numeric_add incr_float : float64 -> float64 -> float64).
Context (ToLower : string -> string).

(** ** store/redis/budget_cache.go *)

Definition budgetTTL (period : string) : Duration :=
  if String.eqb period "hourly" then 2 * Hour
  else if String.eqb period "daily" then 25 * Hour
  else if String.eqb period "weekly" then 8 * 24 * Hour
  else if String.eqb period "monthly" then 32 * 24 * Hour
  else 366 * 24 * Hour.

Definition budgetKey (entityType : string) (entityID : UUID) (period : string) : string :=
  "budget:" +:+ entityType +:+ ":" +:+ entityID +:+ ":" +:+ period.

(** A counter at a time: gone once its expiry has passed. *)
Definition counter (st : State) (key : string) (now : Time) : option (float64 * option Time) :=
  match redis st !! key with
  | Some (v, Some e) => if now <=? e then Some (v, Some e) else None
  | Some (v, None) => Some (v, None)
  | None => None
  end.

Definition IncrSpend (st : State) (f : faults) (entityType : string) (entityID : UUID)
    (period : string) (amountUSD : float64) (now : Time) : res string float64 * State :=
  let key := budgetKey entityType entityID period in
  let ttl := budgetTTL period in
  if negb (incr_ok f key) then (Err "budget cache incr", st)
  else
    let '(v, e) := match counter st key now with
                   | Some (v, e) => (incr_float v amountUSD, e)
                   | None => (incr_float f64_0 amountUSD, None)
                   end in
    (* ExpireNX: only a key without expiry gets one *)
    let e := match e with Some e => Some e | None => Some (time_Add now ttl) end in
    (Ok v, set_redis st (<[key := (v, e)]> (redis st))).

Definition GetSpend (st : State) (f : faults) (entityType : string) (entityID : UUID)
    (period : string) (now : Time) : res string (float64 * bool) :=
  let key := budgetKey entityType entityID period in
  if negb (get_ok f key) then Err "budget cache get"
  else match counter st key now with
       | None => Ok (f64_0, false)
       | Some (v, _) => Ok (v, true)
       end.

Definition SetSpend (st : State) (f : faults) (entityType : string) (entityID : UUID)
    (period : string) (amountUSD : float64) (now : Time) : res string unit * State :=
  let key := budgetKey entityType entityID period in
  if negb (set_ok f key) then (Err "budget cache set", st)
  else (Ok tt, set_redis st (<[key := (amountUSD, Some (time_Add now (budgetTTL period)))]> (redis st))).

Definition DeleteSpend (st : State) (entityType : string) (entityID : UUID) (period : string)
  : State :=
  set_redis st (delete (budgetKey entityType entityID period) (redis st)).

(** ** store/postgres/budget_store.go *)

Definition store_Get (st : State) (entityType : string) (entityID : UUID) (period : string)
  : option Budget := table st !! (entityType, entityID, period).

Definition period_less (a b : Budget) : bool := String.ltb (Period a) (Period b).

Definition store_List (st : State) (entityType : string) (entityID : UUID) : list Budget :=
  insertionSort period_less
    (List.filter (fun b => String.eqb (EntityType b) entityType && String.eqb (EntityID b) entityID)
       (map_to_list (table st)).*2).

(** Insert, or update limits and period of the existing row; [newID] is the database's. *)
Definition store_Upsert (st : State) (b : Budget) (newID : UUID) : UUID * State :=
  let k := (EntityType b, EntityID b, Period b) in
  match table st !! k with
  | None =>
      (newID, set_table st (<[k := mkBudget newID (EntityType b) (EntityID b) (Period b)
         (SoftLimitUSD b) (HardLimitUSD b) (CurrentSpend b) (PStart b) (PEnd b)]> (table st)))
  | Some old =>
      (BID old, set_table st (<[k := mkBudget (BID old) (EntityType b) (EntityID b) (Period b)
         (SoftLimitUSD b) (HardLimitUSD b) (CurrentSpend old) (PStart b) (PEnd b)]> (table st)))
  end.

Definition add_spend (amount : float64) (b : Budget) : Budget :=
  mkBudget (BID b) (EntityType b) (EntityID b) (Period b) (SoftLimitUSD b) (HardLimitUSD b)
    (numeric_add (CurrentSpend b) amount) (PStart b) (PEnd b).

Definition store_AddSpend (st : State) (f : faults) (entityType : string) (entityID : UUID)
    (period : string) (amountUSD : float64) : res string unit * State :=
  if negb (add_ok f (budgetKey entityType entityID period)) then (Err "budget add spend", st)
  else (Ok tt, set_table st (alter (add_spend amountUSD) (entityType, entityID, period) (table st))).

(** The row filter of [ResetExpired]. *)
Definition expired (b : Budget) (now : Time) : bool :=
  negb (String.eqb (Period b) "lifetime") && (PEnd b <=? now).

(** What the loop body does to the row of one expired budget. *)
Definition reset_row (f : faults) (now : Time) (b : Budget) : Budget :=
  match Calendar.PeriodStart (Period b) now, Calendar.PeriodEnd (Period b) now with
  | Ok s, Ok e =>
      if reset_ok f (BID b) then
        mkBudget (BID b) (EntityType b) (EntityID b) (Period b) (SoftLimitUSD b) (HardLimitUSD b)
          f64_0 s e
      else b
  | _, _ => b
  end.

Definition reset_counts (f : faults) (now : Time) (b : Budget) : bool :=
  match Calendar.PeriodStart (Period b) now, Calendar.PeriodEnd (Period b) now with
  | Ok _, Ok _ => reset_ok f (BID b)
  | _, _ => false
  end.

(** [ResetExpired]: every expired row is rewritten; the result counts the rewritten rows. *)
Definition store_ResetExpired (st : State) (f : faults) (now : Time) : res string Z * State :=
  if negb (reset_query_ok f) then (Err "budget reset query", st)
  else
    let rows := List.filter (fun b => expired b now) (map_to_list (table st)).*2 in
    (Ok (Z.of_nat (length (List.filter (reset_counts f now) rows))),
     set_table st ((fun b => if expired b now then reset_row f now b else b) <$> table st)).

(** ** manager.go *)

Definition listCacheTTL : Duration := 60 * Second.

Definition listKey (entityType : string) (entityID : UUID) : string :=
  entityType +:+ ":" +:+ entityID.

Definition cachedList (st : State) (f : faults) (entityType : string) (entityID : UUID) (now : Time)
  : res string (list Budget) * State :=
  let key := listKey entityType entityID in
  let fetch :=
    if negb (list_ok f) then (Err "budget list", st)
    else
      let budgets := store_List st entityType entityID in
      (Ok budgets, set_lists st (<[key := (budgets, time_Add now listCacheTTL)]> (listCache st))) in
  match listCache st !! key with
  | Some (data, expiresAt) => if time_Before now expiresAt then (Ok data, st) else fetch
  | None => fetch
  end.

Definition InvalidateListCache (st : State) (entityType : string) (entityID : UUID) : State :=
  set_lists st (delete (listKey entityType entityID) (listCache st)).

Definition currentSpend (st : State) (f : faults) (b : Budget) (now : Time)
  : res string float64 * State :=
  match GetSpend st f (EntityType b) (EntityID b) (Period b) now with
  | Err e => (Err e, st)
  | Ok (spend, true) => (Ok spend, st)
  | Ok (_, false) =>
      match SetSpend st f (EntityType b) (EntityID b) (Period b) (CurrentSpend b) now with
      | (Err e, st) => (Err e, st)
      | (Ok _, st) => (Ok (CurrentSpend b), st)
      end
  end.

(** The loop of [CheckBudget]; a counter error falls back to the listed spend. *)
Fixpoint check_loop (st : State) (f : faults) (budgets : list Budget) (now : Time)
  : option ErrBudgetExceeded * State :=
  match budgets with
  | [] => (None, st)
  | b :: budgets =>
      match HardLimitUSD b with
      | None => check_loop st f budgets now
      | Some limit =>
          let '(r, st) := currentSpend st f b now in
          let spend := match r with Ok s => s | Err _ => CurrentSpend b end in
          if f64_le limit spend then (Some (mkExceeded spend limit (Period b)), st)
          else check_loop st f budgets now
      end
  end.

Definition CheckBudget (st : State) (f : faults) (entityType : string) (entityID : UUID) (now : Time)
  : option ErrBudgetExceeded * State :=
  match cachedList st f entityType entityID now with
  | (Err _, st) => (None, st)
  | (Ok budgets, st) => check_loop st f budgets now
  end.

Fixpoint record_loop (st : State) (f : faults) (entityType : string) (entityID : UUID)
    (costUSD : float64) (budgets : list Budget) (now : Time) : State :=
  match budgets with
  | [] => st
  | b :: budgets =>
      let st := (IncrSpend st f entityType entityID (Period b) costUSD now).2 in
      let st := (store_AddSpend st f entityType entityID (Period b) costUSD).2 in
      record_loop st f entityType entityID costUSD budgets now
  end.

Definition RecordSpend (st : State) (f : faults) (entityType : string) (entityID : UUID)
    (costUSD : float64) (now : Time) : State :=
  if f64_eq costUSD f64_0 then st
  else match cachedList st f entityType entityID now with
       | (Err _, st) => st
       | (Ok budgets, st) => record_loop st f entityType entityID costUSD budgets now
       end.

(** ** scheduler.go *)

(** One tick: expired periods are reset in the table; [SyncDB] is empty. *)
Definition tick (st : State) (f : faults) (now : Time) : State := (store_ResetExpired st f now).2.

(** ** middleware/budget_check.go *)

(** The log context the handler leaves: model and token counts. *)
Record logContext := mkLog { LModel : string; LPrompt : Z; LCompletion : Z }.

Inductive outcome := Blocked (e : ErrBudgetExceeded) | Forwarded (costUSD : option float64).

(** After the handler: the spend of the key, its team and its organisation, when the request had
    a cost. *)
Definition record_usage (st : State) (f : faults) (calc : option Cost.Calculator) (key : VK.VirtualKey)
    (lc : option logContext) (done : Time) : option float64 * State :=
  match lc, calc with
  | Some lc, Some calc =>
      let costUSD := Cost.Calculate ToLower calc (LModel lc) (LPrompt lc) (LCompletion lc) in
      if f64_eq costUSD f64_0 then (None, st)
      else
        let st := RecordSpend st f "key" (VK.ID key) costUSD done in
        let st := match VK.TeamID key with
                  | Some t => RecordSpend st f "team" t costUSD done
                  | None => st
                  end in
        let st := match VK.OrgID key with
                  | Some o => RecordSpend st f "org" o costUSD done
                  | None => st
                  end in
        (Some costUSD, st)
  | _, _ => (None, st)
  end.

(** [BudgetCheck] around a handler; [done] is when the recording goroutine runs. *)
Definition BudgetCheck (st : State) (f : faults) (calc : option Cost.Calculator)
    (key : option VK.VirtualKey) (lc : option logContext) (now done : Time) : outcome * State :=
  match key with
  | None => (Forwarded None, st)
  | Some key =>
      match CheckBudget st f "key" (VK.ID key) now with
      | (Some exc, st) => (Blocked exc, st)
      | (None, st) => let '(costUSD, st) := record_usage st f calc key lc done in (Forwarded costUSD, st)
      end
  end.

(** ** handler/admin_budgets.go *)

Record budgetRequest := mkBudgetRequest {
  QEntityType : string;
  QEntityID : string;
  QPeriod : string;
  QSoft : option float64;
  QHard : option float64
}.

Definition validateBudgetRequest (req : budgetRequest) : res string unit :=
  if String.eqb (QEntityType req) "" then Err "entity_type required"
  else if String.eqb (QEntityID req) "" then Err "entity_id required"
  else if negb (slices_Contains ["key"; "user"; "team"; "org"] (QEntityType req)) then
    Err "entity_type must be one of: key, user, team, org"
  else if negb (slices_Contains ["hourly"; "daily"; "weekly"; "monthly"; "lifetime"] (QPeriod req)) then
    Err "period must be one of: hourly, daily, weekly, monthly, lifetime"
  else Ok tt.

(** Status with an error text, the created budget, or the budgets of an entity. *)
Inductive response := BError (status : Z) (msg : string) | BCreated (b : Budget) | BList (bs : list Budget).

Section Admin.
(** [uuid.Parse]. *)
Context (parseUUID : string -> option UUID).

Definition admin_Create (st : State) (f : faults) (body : option budgetRequest) (newID : UUID)
    (now : Time) : response * State :=
  match body with
  | None => (BError 400 "invalid body", st)
  | Some req =>
      match validateBudgetRequest req with
      | Err e => (BError 400 e, st)
      | Ok _ =>
          match parseUUID (QEntityID req) with
          | None => (BError 400 "invalid entity_id", st)
          | Some entityID =>
              match Calendar.PeriodStart (QPeriod req) now, Calendar.PeriodEnd (QPeriod req) now with
              | Ok s, Ok e =>
                  let b := mkBudget zero_uuid (QEntityType req) entityID (QPeriod req) (QSoft req)
                             (QHard req) f64_0 s e in
                  if negb (upsert_ok f) then (BError 500 "internal error", st)
                  else
                    let '(id, st) := store_Upsert st b newID in
                    (BCreated (mkBudget id (EntityType b) (EntityID b) (Period b) (SoftLimitUSD b)
                        (HardLimitUSD b) (CurrentSpend b) (PStart b) (PEnd b)),
                     InvalidateListCache st (QEntityType req) entityID)
              | _, _ => (BError 400 "invalid period", st)
              end
          end
      end
  end.

Definition admin_List (st : State) (f : faults) (entityType idText : string) : response :=
  match parseUUID idText with
  | None => BError 400 "invalid entity_id"
  | Some id => if list_ok f then BList (store_List st entityType id) else BError 500 "internal error"
  end.

End Admin.

(** ** Invariant *)

(** Budgets of one entity, one per period. *)
Definition one_entity (l : list Budget) : Prop :=
  NoDup (Period <$> l) /\
  forall b b', b ∈ l -> b' ∈ l -> EntityType b = EntityType b' /\ EntityID b = EntityID b'.

(** Rows are stored under their own key; cached lists hold the budgets of one entity. *)
Record wf (st : State) : Prop := {
  wf_table : forall k b, table st !! k = Some b -> k = (EntityType b, EntityID b, Period b);
  wf_lists : forall key l e, listCache st !! key = Some (l, e) -> one_entity l
}.

Definition key_of (b : Budget) : string := budgetKey (EntityType b) (EntityID b) (Period b).

Lemma key_of_inj b b' :
  EntityType b = EntityType b' -> EntityID b = EntityID b' -> key_of b = key_of b' ->
  Period b = Period b'.
Proof.
  unfold key_of, budgetKey. intros -> ->. intros H. by do 5 apply str_app_inj_l in H.
Qed.

Lemma store_List_elem st et eid b :
  wf st -> b ∈ store_List st et eid <->
  EntityType b = et /\ EntityID b = eid /\ table st !! (et, eid, Period b) = Some b.
Proof.
  intros W. unfold store_List. rewrite insertionSort_perm, list_elem_of_In, filter_In.
  rewrite <- list_elem_of_In, list_elem_of_fmap, andb_true_iff, !String.eqb_eq. split.
  - intros [([k b'] & -> & H) [H1 H2]]. apply elem_of_map_to_list in H. simpl in *.
    pose proof (wf_table _ W _ _ H) as ->. subst. done.
  - intros (<- & <- & H). split; [|done]. exists ((EntityType b, EntityID b, Period b), b).
    split; [done|]. by apply elem_of_map_to_list.
Qed.

Lemma NoDup_filter_fmap {A B} (p : A -> bool) (g : A -> B) l :
  (forall x y, x ∈ l -> y ∈ l -> p x = true -> p y = true -> g x = g y -> x = y) -> NoDup l ->
  NoDup (g <$> List.filter p l).
Proof.
  intros H N. induction N as [|x l Nx N IH]; simpl; [constructor|].
  assert (NoDup (g <$> List.filter p l)) as IH' by (apply IH; intros; apply H; try done; by right).
  destruct (p x) eqn:P; [|done]. simpl. constructor; [|done].
  rewrite list_elem_of_fmap. intros (y & E & I). rewrite list_elem_of_In, filter_In in I.
  destruct I as [I Py]. rewrite <- list_elem_of_In in I.
  assert (x = y) as <- by (apply H; [left|by right|done..]). done.
Qed.

Lemma store_List_one_entity st et eid : wf st -> one_entity (store_List st et eid).
Proof.
  intros W. split.
  - unfold store_List. rewrite insertionSort_perm.
    apply NoDup_filter_fmap.
    + intros x y Hx Hy Px Py E. breflect. subst et eid.
      apply list_elem_of_fmap in Hx as ([k1 x'] & -> & Hx). apply elem_of_map_to_list in Hx.
      apply list_elem_of_fmap in Hy as ([k2 y'] & -> & Hy). apply elem_of_map_to_list in Hy.
      simpl in *. pose proof (wf_table _ W _ _ Hx) as ->. pose proof (wf_table _ W _ _ Hy) as ->.
      rewrite E in Hx. congruence.
    + assert (forall l : list (BKey * Budget), NoDup (l.*1) ->
        Forall (fun kv => kv.1 = (EntityType kv.2, EntityID kv.2, Period kv.2)) l -> NoDup (l.*2)) as G.
      { induction l as [|[k b] l IH]; simpl; intros N F; [constructor|].
        inversion N; subst. inversion F; subst. constructor; [|by apply IH].
        rewrite list_elem_of_fmap. intros ([k' b'] & E & I). simpl in *. subst.
        rewrite Forall_forall in H4. specialize (H4 _ I). simpl in H4. apply H1.
        apply list_elem_of_fmap. exists (k', b'). simpl. split; [congruence|done]. }
      apply G; [apply NoDup_fst_map_to_list|]. apply Forall_forall. intros [k b] I.
      apply elem_of_map_to_list in I. simpl. by apply (wf_table _ W).
  - intros b b' Hb Hb'. apply store_List_elem in Hb as (-> & -> & _); [|done].
    by apply store_List_elem in Hb' as (-> & -> & _).
Qed.

(** The list in force for an entity: the cached one while it is fresh, else the table's. *)
Definition in_force (st : State) (et : string) (eid : UUID) (now : Time) : list Budget :=
  match listCache st !! listKey et eid with
  | Some (l, e) => if time_Before now e then l else store_List st et eid
  | None => store_List st et eid
  end.

Lemma cachedList_ok st f et eid now :
  list_ok f = true ->
  (cachedList st f et eid now).1 = Ok (in_force st et eid now) /\
  redis (cachedList st f et eid now).2 = redis st /\
  table (cachedList st f et eid now).2 = table st.
Proof.
  intros H. unfold cachedList, in_force. rewrite H. simpl.
  destruct (listCache st !! _) as [[l e]|]; [|done]. by destruct (time_Before now e).
Qed.

Lemma in_force_one_entity st et eid now : wf st -> one_entity (in_force st et eid now).
Proof.
  intros W. unfold in_force. destruct (listCache st !! _) as [[l e]|] eqn:E.
  - destruct (time_Before now e); [by eapply wf_lists|by apply store_List_one_entity].
  - by apply store_List_one_entity.
Qed.

(** ** CheckBudget *)

(** The spend a check uses: the live counter, or the listed spend when there is none or Redis
    does not answer. *)
Definition spend_of (st : State) (f : faults) (b : Budget) (now : Time) : float64 :=
  if get_ok f (key_of b) then
    match counter st (key_of b) now with Some (v, _) => v | None => CurrentSpend b end
  else CurrentSpend b.

Definition exceeded (st : State) (f : faults) (now : Time) (b : Budget) : bool :=
  match HardLimitUSD b with Some limit => f64_le limit (spend_of st f b now) | None => false end.

Lemma currentSpend_spec st f b now :
  let '(r, st') := currentSpend st f b now in
  (match r with Ok s => s | Err _ => CurrentSpend b end) = spend_of st f b now /\
  (forall b', key_of b' <> key_of b -> spend_of st' f b' now = spend_of st f b' now) /\
  table st' = table st /\ listCache st' = listCache st.
Proof.
  unfold currentSpend, GetSpend, SetSpend, spend_of. fold (key_of b).
  destruct (get_ok f (key_of b)); simpl; [|done].
  destruct (counter st (key_of b) now) as [[v e]|]; [done|].
  destruct (set_ok f (key_of b)); simpl; [|done]. split_and!; try done.
  intros b' N. unfold counter. simpl. by rewrite lookup_insert_ne by done.
Qed.

Lemma check_loop_spec st f l now :
  one_entity l ->
  (check_loop st f l now).1 =
  match find (exceeded st f now) l with
  | Some b => Some (mkExceeded (spend_of st f b now) (default f64_0 (HardLimitUSD b)) (Period b))
  | None => None
  end.
Proof.
  intros O. revert st. induction l as [|b l IH]; intros st; simpl; [done|].
  assert (one_entity l) as O'.
  { destruct O as [N E]. inversion N; subst. split; [done|]. intros; apply E; by right. }
  specialize (IH O'). destruct (HardLimitUSD b) as [limit|] eqn:HL.
  - unfold exceeded at 1. rewrite HL. pose proof (currentSpend_spec st f b now) as C.
    destruct (currentSpend st f b now) as [r st']. destruct C as (-> & C & _).
    destruct (f64_le limit (spend_of st f b now)) eqn:L; [simpl; by rewrite HL|].
    rewrite IH.
    assert (forall b', b' ∈ l -> spend_of st' f b' now = spend_of st f b' now) as S.
    { intros b' I. apply C. intros K. destruct O as [N E]. inversion N as [|? ? Nb _]; subst.
      apply Nb. destruct (E b b') as [E1 E2]; [left|by right|].
      rewrite (key_of_inj b b') by done. by apply list_elem_of_fmap_2. }
    clear -S. induction l as [|b' l IH]; simpl; [done|].
    assert (spend_of st' f b' now = spend_of st f b' now) as Sb by (apply S; left).
    assert (exceeded st' f now b' = exceeded st f now b') as -> by (unfold exceeded; by rewrite Sb).
    destruct (exceeded st f now b'); [by rewrite Sb|].
    apply IH. intros; apply S; by right.
  - unfold exceeded at 1. rewrite HL. apply IH.
Qed.

Lemma CheckBudget_eq st f et eid now :
  wf st ->
  (CheckBudget st f et eid now).1 =
  if list_ok f || match listCache st !! listKey et eid with
                  | Some (_, e) => time_Before now e | None => false end then
    match find (exceeded st f now) (in_force st et eid now) with
    | Some b => Some (mkExceeded (spend_of st f b now) (default f64_0 (HardLimitUSD b)) (Period b))
    | None => None
    end
  else None.
Proof.
  intros W. pose proof (in_force_one_entity st et eid now W) as O.
  unfold CheckBudget, cachedList. unfold in_force in *.
  destruct (listCache st !! _) as [[l e]|]; [destruct (time_Before now e)|];
    rewrite ?orb_true_r, ?orb_false_r; simpl; try by apply check_loop_spec.
  - destruct (list_ok f); simpl; [|done]. by rewrite check_loop_spec.
  - destruct (list_ok f); simpl; [|done]. by rewrite check_loop_spec.
Qed.

(** C10. The budget check. It blocks exactly when some budget in force for the entity has a
    hard limit not above its current spend, and reports the first such budget with the
    spend used; the spend is the live Redis counter if there is one and the listed spend
    otherwise. A store error lets the request pass. *)
Theorem CheckBudget_spec st f et eid now :
  wf st ->
  (CheckBudget st f et eid now).1 =
  if list_ok f || match listCache st !! listKey et eid with
                  | Some (_, e) => time_Before now e | None => false end then
    match find (exceeded st f now) (in_force st et eid now) with
    | Some b => Some (mkExceeded (spend_of st f b now) (default f64_0 (HardLimitUSD b)) (Period b))
    | None => None
    end
  else None.
Proof. apply CheckBudget_eq. Qed.

(** ** Period reset *)

Lemma reset_row_key f now b :
  (EntityType (reset_row f now b), EntityID (reset_row f now b), Period (reset_row f now b)) =
  (EntityType b, EntityID b, Period b) /\ HardLimitUSD (reset_row f now b) = HardLimitUSD b.
Proof. unfold reset_row. by repeat case_match. Qed.

Lemma wf_tick st f now : wf st -> wf (tick st f now).
Proof.
  intros W. unfold tick, store_ResetExpired. destruct (reset_query_ok f); [simpl|done].
  split; simpl; [|apply W]. intros k b H. rewrite lookup_fmap in H.
  destruct (table st !! k) as [b0|] eqn:E; [|done]. simpl in H. injection H as <-.
  pose proof (wf_table _ W _ _ E) as ->.
  destruct (expired b0 now); [|done]. by destruct (reset_row_key f now b0) as [-> _].
Qed.

(** The row of a listed budget after a tick. *)
Lemma tick_row st f now b et eid :
  wf st -> b ∈ store_List st et eid ->
  exists b', b' ∈ store_List (tick st f now) et eid /\ key_of b' = key_of b /\
             HardLimitUSD b' = HardLimitUSD b.
Proof.
  intros W Hb. pose proof (wf_tick st f now W) as W'.
  apply store_List_elem in Hb as (E1 & E2 & L); [|done].
  unfold tick, store_ResetExpired in *. destruct (reset_query_ok f); simpl in *.
  - exists (if expired b now then reset_row f now b else b).
    destruct (reset_row_key f now b) as [K H]. injection K as K1 K2 K3.
    rewrite store_List_elem by done. simpl. rewrite lookup_fmap.
    destruct (expired b now) eqn:X.
    + rewrite K3, L. simpl. rewrite X. unfold key_of. rewrite K1, K2, K3. done.
    + rewrite L. simpl. by rewrite X.
  - exists b. rewrite store_List_elem by done. done.
Qed.

(** Period reset. After the scheduler's reset at [now], a budget whose period had ended
    has spend zero and the period that contains [now], unless its write failed; every other
    budget, a lifetime budget in particular, is unchanged, and no budget is added or lost. *)
Theorem ResetExpired_spec st f now k b :
  wf st -> reset_query_ok f = true -> reset_ok f (BID b) = true ->
  Period b ∈ Calendar.ValidPeriods -> table st !! k = Some b ->
  exists b', table (store_ResetExpired st f now).2 !! k = Some b' /\
    BID b' = BID b /\ HardLimitUSD b' = HardLimitUSD b /\ Period b' = Period b /\
    if expired b now then
      CurrentSpend b' = f64_0 /\ PStart b' <= now < PEnd b'
    else b' = b.
Proof.
  intros W Hq Hr HP Hk. unfold store_ResetExpired. rewrite Hq. simpl.
  rewrite lookup_fmap, Hk. simpl. eexists. split; [done|].
  destruct (expired b now) eqn:E; [|done].
  assert (exists s e, Calendar.PeriodStart (Period b) now = Ok s /\
            Calendar.PeriodEnd (Period b) now = Ok e /\ s <= now < e) as (s & e & Hs & He & Hse).
  { unfold expired in E. breflect. unfold Calendar.ValidPeriods in HP.
    destruct (Calendar.period_bounds (Period b) now) as (s & e & ? & ? & ?); [|eauto].
    rewrite !elem_of_cons in HP. rewrite !elem_of_cons. tauto. }
  unfold reset_row. rewrite Hs, He, Hr. simpl. done.
Qed.

(** A reset does not unblock. The scheduler's reset zeroes the table but not the Redis
    counter, which outlives the period: while the counter is alive and at the hard limit, a
    key whose period was just reset is still refused. *)
Theorem reset_keeps_blocking st f et eid now b limit v e :
  wf st -> b ∈ store_List st et eid -> HardLimitUSD b = Some limit ->
  counter st (key_of b) now = Some (v, e) -> f64_le limit v = true ->
  list_ok f = true -> get_ok f (key_of b) = true -> listCache st !! listKey et eid = None ->
  (CheckBudget (tick st f now) f et eid now).1 <> None.
Proof.
  intros W Hb HL Hc Hv Hl Hg Hn.
  assert (wf (tick st f now)) as W' by by apply wf_tick.
  assert (redis (tick st f now) = redis st /\ listCache (tick st f now) = listCache st) as [R Lc]
    by (unfold tick, store_ResetExpired; by destruct (reset_query_ok f)).
  destruct (tick_row st f now b et eid W Hb) as (b' & I & Hkey & HL').
  assert (exceeded (tick st f now) f now b' = true) as X.
  { unfold exceeded, spend_of. rewrite HL', HL, Hkey, Hg.
    assert (counter (tick st f now) (key_of b) now = Some (v, e)) as ->
      by (unfold counter in *; by rewrite R). done. }
  pose proof (CheckBudget_eq (tick st f now) f et eid now W') as C. rewrite Hl in C. simpl in C.
  rewrite C. unfold in_force. rewrite Lc, Hn.
  destruct (find _ (store_List (tick st f now) et eid)) as [b0|] eqn:F; [done|].
  eapply find_none in F; [|apply list_elem_of_In; exact I]. congruence.
Qed.

(** ** RecordSpend *)

(** Recording on periods other than [p] leaves the row and the counter of [p] alone. *)
Lemma record_loop_frame st f et eid cost l now p :
  p ∉ (Period <$> l) ->
  table (record_loop st f et eid cost l now) !! (et, eid, p) = table st !! (et, eid, p) /\
  redis (record_loop st f et eid cost l now) !! budgetKey et eid p = redis st !! budgetKey et eid p.
Proof.
  revert st. induction l as [|b l IH]; intros st N; simpl; [done|].
  rewrite fmap_cons, not_elem_of_cons in N. destruct N as [N1 N2].
  destruct (IH (store_AddSpend (IncrSpend st f et eid (Period b) cost now).2 f et eid (Period b) cost).2 N2)
    as [-> ->].
  assert (budgetKey et eid (Period b) <> budgetKey et eid p) as NK.
  { unfold budgetKey. intros E. do 5 apply str_app_inj_l in E. done. }
  unfold store_AddSpend, IncrSpend.
  destruct (add_ok f _), (incr_ok f _); simpl; repeat case_match; simpl;
    rewrite ?lookup_alter_ne, ?lookup_insert_ne by congruence; done.
Qed.

(** A row of another entity is never touched. *)
Lemma record_loop_other st f et eid cost l now et' eid' p :
  (et', eid') <> (et, eid) ->
  table (record_loop st f et eid cost l now) !! (et', eid', p) = table st !! (et', eid', p).
Proof.
  intros N. revert st. induction l as [|b l IH]; intros st; simpl; [done|]. rewrite IH.
  unfold store_AddSpend, IncrSpend.
  destruct (add_ok f _), (incr_ok f _); simpl; repeat case_match; simpl;
    rewrite ?lookup_alter_ne by congruence; done.
Qed.

Lemma record_one st f et eid cost b now :
  incr_ok f (budgetKey et eid (Period b)) = true -> add_ok f (budgetKey et eid (Period b)) = true ->
  let st' := (store_AddSpend (IncrSpend st f et eid (Period b) cost now).2 f et eid (Period b) cost).2 in
  table st' = alter (add_spend cost) (et, eid, Period b) (table st) /\
  exists e, redis st' !! budgetKey et eid (Period b) =
    Some (incr_float (match counter st (budgetKey et eid (Period b)) now with
                      | Some (v, _) => v | None => f64_0 end) cost, Some e).
Proof.
  intros Hi Ha. unfold store_AddSpend, IncrSpend. rewrite Hi, Ha. simpl.
  destruct (counter st (budgetKey et eid (Period b)) now) as [[v [e|]]|]; simpl;
    rewrite lookup_insert_eq; eauto.
Qed.

Lemma record_loop_spec st f et eid cost l now b row :
  NoDup (Period <$> l) -> b ∈ l -> table st !! (et, eid, Period b) = Some row ->
  incr_ok f (budgetKey et eid (Period b)) = true -> add_ok f (budgetKey et eid (Period b)) = true ->
  table (record_loop st f et eid cost l now) !! (et, eid, Period b) = Some (add_spend cost row) /\
  exists e, redis (record_loop st f et eid cost l now) !! budgetKey et eid (Period b) =
    Some (incr_float (match counter st (budgetKey et eid (Period b)) now with
                      | Some (v, _) => v | None => f64_0 end) cost, Some e).
Proof.
  intros ND Hb Hrow Hi Ha. revert st Hrow.
  induction l as [|b0 l IH]; intros st Hrow; [by apply elem_of_nil in Hb|].
  rewrite fmap_cons in ND. inversion ND as [|? ? Nb ND']; subst. simpl.
  apply elem_of_cons in Hb as [<-|Hb].
  - destruct (record_loop_frame (store_AddSpend (IncrSpend st f et eid (Period b) cost now).2
      f et eid (Period b) cost).2 f et eid cost l now (Period b) Nb) as [-> ->].
    destruct (record_one st f et eid cost b now Hi Ha) as [-> H].
    by rewrite lookup_alter_eq, Hrow.
  - assert (Period b0 <> Period b) as N.
    { intros E. apply Nb. rewrite E. by apply list_elem_of_fmap_2. }
    destruct (record_loop_frame st f et eid cost [b0] now (Period b)) as [E1 E2];
      [simpl; rewrite list_elem_of_singleton; congruence|]. simpl in E1, E2.
    destruct (IH ND' Hb (store_AddSpend (IncrSpend st f et eid (Period b0) cost now).2
      f et eid (Period b0) cost).2) as [T [e He]]; [by rewrite E1|].
    split; [done|]. exists e. rewrite He. unfold counter. by rewrite E2.
Qed.

(** Recording spend. For a nonzero cost, and calls that succeed, the row of every budget
    in force for the entity grows by the cost, and so does its Redis counter (from zero when
    it has none or the old one expired); rows of other entities are untouched. *)
Theorem RecordSpend_spec st f et eid cost now b row :
  wf st -> f64_eq cost f64_0 = false -> list_ok f = true ->
  b ∈ in_force st et eid now -> table st !! (et, eid, Period b) = Some row ->
  incr_ok f (budgetKey et eid (Period b)) = true -> add_ok f (budgetKey et eid (Period b)) = true ->
  let st' := RecordSpend st f et eid cost now in
  table st' !! (et, eid, Period b) = Some (add_spend cost row) /\
  (exists e, redis st' !! budgetKey et eid (Period b) =
     Some (incr_float (match counter st (budgetKey et eid (Period b)) now with
                       | Some (v, _) => v | None => f64_0 end) cost, Some e)) /\
  (forall et' eid' p, (et', eid') <> (et, eid) ->
     table st' !! (et', eid', p) = table st !! (et', eid', p)).
Proof.
  intros W Hc Hl Hb Hrow Hi Ha st'.
  destruct (in_force_one_entity st et eid now W) as [ND _].
  destruct (cachedList_ok st f et eid now Hl) as (C1 & C2 & C3).
  assert (st' = record_loop (cachedList st f et eid now).2 f et eid cost (in_force st et eid now) now) as ->.
  { unfold st', RecordSpend. rewrite Hc. destruct (cachedList st f et eid now) as [r s1].
    simpl in C1. by subst r. }
  set (s1 := (cachedList st f et eid now).2) in *. rewrite <- C3 in *.
  assert (counter st (budgetKey et eid (Period b)) now = counter s1 (budgetKey et eid (Period b)) now)
    as -> by (unfold counter; by rewrite C2).
  destruct (record_loop_spec s1 f et eid cost (in_force st et eid now) now b row ND Hb Hrow Hi Ha)
    as [T R].
  split; [done|]. split; [done|]. intros. by apply record_loop_other.
Qed.

End Budgets.

(** ** Witnesses *)

Definition no_faults : faults :=
  mkFaults true (fun _ => true) (fun _ => true) (fun _ => true) (fun _ => true) true true (fun _ => true).

Definition usd (n : Z) : float64 := f64_of_Z n.
Definition demo_day : Time := Calendar.Date 2024 5 1 0 0 0.
Definition demo_budget (spend : Z) : Budget :=
  mkBudget "b1" "key" "k1" "daily" None (Some (usd 10)) (usd spend) demo_day (demo_day + Calendar.Day).
(** Twelve dollars spent of ten, in the table and in the counter. *)
Definition demo_state : State :=
  mkState {[ ("key", "k1", "daily") := demo_budget 12 ]}
    {[ "budget:key:k1:daily" := (usd 12, Some (demo_day + 25 * Hour)) ]} ∅.

Lemma demo_budget_wf : wf demo_state.
Proof.
  split.
  - intros k b H. unfold demo_state in H. simpl in H. apply lookup_singleton_Some in H as [<- <-]. reflexivity.
  - intros key l e H. exfalso. exact (lookup_empty_Some _ _ H).
Qed.

Lemma CheckBudget_spec_witness :
  (CheckBudget demo_state no_faults "key" "k1" demo_day).1 =
  Some (mkExceeded (usd 12) (usd 10) "daily").
Proof.
  rewrite (CheckBudget_spec demo_state no_faults "key" "k1" demo_day demo_budget_wf).
  vm_compute. reflexivity.
Defined.

Lemma ResetExpired_spec_witness :
  exists b', table (store_ResetExpired demo_state no_faults (demo_day + Calendar.Day)).2
               !! ("key", "k1", "daily") = Some b' /\ CurrentSpend b' = f64_0.
Proof.
  destruct (ResetExpired_spec demo_state no_faults (demo_day + Calendar.Day)
    ("key", "k1", "daily") (demo_budget 12)) as (b' & H & _ & _ & _ & S).
  - exact demo_budget_wf.
  - reflexivity.
  - reflexivity.
  - apply list_elem_of_In. simpl. tauto.
  - reflexivity.
  - exists b'. split; [exact H|].
    assert (expired (demo_budget 12) (demo_day + Calendar.Day) = true) as E
      by (vm_compute; reflexivity).
    rewrite E in S. exact (proj1 S).
Defined.

(** Half an hour into the next day, after the reset, the key is still refused. *)
Lemma reset_keeps_blocking_witness :
  (CheckBudget (tick demo_state no_faults (demo_day + Calendar.Day + 30 * Minute)) no_faults
     "key" "k1" (demo_day + Calendar.Day + 30 * Minute)).1 <> None.
Proof.
  apply (reset_keeps_blocking demo_state no_faults "key" "k1"
    (demo_day + Calendar.Day + 30 * Minute) (demo_budget 12) (usd 10) (usd 12)
    (Some (demo_day + 25 * Hour))).
  - exact demo_budget_wf.
  - apply store_List_elem; [exact demo_budget_wf|]. split; [reflexivity|]. split; reflexivity.
  - reflexivity.
  - vm_compute. reflexivity.
  - vm_compute. reflexivity.
  - reflexivity.
  - reflexivity.
  - reflexivity.
Defined.

Lemma RecordSpend_spec_witness :
  table (RecordSpend f64_add f64_add demo_state no_faults "key" "k1" (usd 3) demo_day)
    !! ("key", "k1", "daily") = Some (demo_budget 15).
Proof.
  destruct (RecordSpend_spec f64_add f64_add demo_state no_faults "key" "k1" (usd 3) demo_day
    (demo_budget 12) (demo_budget 12)) as [H _].
  - exact demo_budget_wf.
  - vm_compute. reflexivity.
  - reflexivity.
  - apply store_List_elem; [exact demo_budget_wf|]. split; [reflexivity|]. split; reflexivity.
  - reflexivity.
  - reflexivity.
  - reflexivity.
  - assert (add_spend f64_add (usd 3) (demo_budget 12) = demo_budget 15) as E
      by (vm_compute; reflexivity).
    rewrite E in H. exact H.
Defined.

End Budget.
