(* ===== verification/Access.v ===== *)
(** * Access control: roles and permissions (internal/auth/rbac), tenants (internal/tenant)
    and data residency (internal/residency, middleware/residency.go)

    The request context is a record of the values these packages put into it. The store, the
    resolver and the cache's faults are arguments. *)

From S2P Require Import Prelude Float64 Types LoadBalancer.
Local Open Scope Z_scope.

Module Rbac.

(** ** permission.go, role.go *)

Abbreviation Permission := string.
Abbreviation Role := string.

Definition PermCreateKey : Permission := "keys:create".
Definition PermReadKey : Permission := "keys:read".
Definition PermUpdateKey : Permission := "keys:update".
Definition PermDeleteKey : Permission := "keys:delete".
Definition PermManageTeam : Permission := "teams:manage".
Definition PermManageUsers : Permission := "users:manage".
Definition PermReadUsage : Permission := "usage:read".
Definition PermSetBudget : Permission := "budget:set".
Definition PermManageProviders : Permission := "providers:manage".
Definition PermManageModels : Permission := "models:manage".
Definition PermManageSystem : Permission := "system:manage".
Definition PermAll : Permission := "*".

Definition AllPermissions : list Permission :=
  [PermCreateKey; PermReadKey; PermUpdateKey; PermDeleteKey; PermManageTeam; PermManageUsers;
   PermReadUsage; PermSetBudget; PermManageProviders; PermManageModels; PermManageSystem].

Definition RoleSuperAdmin : Role := "super_admin".
Definition RoleOrgAdmin : Role := "org_admin".
Definition RoleTeamAdmin : Role := "team_admin".
Definition RoleDeveloper : Role := "developer".
Definition RoleViewer : Role := "viewer".

Definition DefaultRolePermissions : gmap Role (list Permission) :=
  list_to_map
    [(RoleSuperAdmin, [PermAll]);
     (RoleOrgAdmin, [PermCreateKey; PermReadKey; PermUpdateKey; PermDeleteKey; PermManageTeam;
                     PermManageUsers; PermReadUsage; PermSetBudget]);
     (RoleTeamAdmin, [PermCreateKey; PermReadKey; PermUpdateKey; PermDeleteKey; PermManageTeam;
                      PermReadUsage]);
     (RoleDeveloper, [PermReadKey; PermReadUsage]);
     (RoleViewer, [PermReadUsage])].

Record UserRole := mkUserRole {
  URole : Role;
  UROrgID : string;
  URTeamID : string;
  Permissions : list Permission
}.

Definition role_HasPermission (ur : UserRole) (p : Permission) : bool :=
  existsb (fun perm => String.eqb perm PermAll || String.eqb perm p) (Permissions ur).

(** ** authorizer.go *)

Record UserInfo := mkUserInfo {
  UID : UUID;
  Email : string;
  Roles : list UserRole
}.

Fixpoint roles_grant (roles : list UserRole) (p : Permission) (orgID teamID : string) : bool :=
  match roles with
  | [] => false
  | r :: roles =>
      if negb (String.eqb (UROrgID r) "") && negb (String.eqb (UROrgID r) orgID)
      then roles_grant roles p orgID teamID
      else if negb (String.eqb (URTeamID r) "") && negb (String.eqb (URTeamID r) teamID)
      then roles_grant roles p orgID teamID
      else if role_HasPermission r p then true
      else roles_grant roles p orgID teamID
  end.

Definition HasPermission (u : UserInfo) (p : Permission) (orgID teamID : string) : bool :=
  roles_grant (Roles u) p orgID teamID.

Definition ttl : Duration := 5 * Minute.

(** The role cache in Redis, absent when caching is disabled: entries with their expiry. *)
Abbreviation RoleCache := (option (gmap UUID (UserInfo * Time))).

Definition fromCache (c : RoleCache) (userID : UUID) (ok : bool) (now : Time) : option UserInfo :=
  match c with
  | Some m =>
      if ok then match m !! userID with
                 | Some (ui, e) => if time_Before now e then Some ui else None
                 | None => None
                 end
      else None
  | None => None
  end.

Definition toCache (c : RoleCache) (ui : UserInfo) (ok : bool) (now : Time) : RoleCache :=
  match c with
  | Some m => if ok then Some (<[UID ui := (ui, time_Add now ttl)]> m) else Some m
  | None => None
  end.

(** [roles] is the store's answer, [None] an error; [get_ok] and [set_ok] tell whether Redis
    answers. *)
Definition GetUserInfo (c : RoleCache) (roles : option (list UserRole)) (userID : UUID)
    (get_ok set_ok : bool) (now : Time) : option UserInfo * RoleCache :=
  match fromCache c userID get_ok now with
  | Some ui => (Some ui, c)
  | None =>
      match roles with
      | None => (None, c)
      | Some rs => let ui := mkUserInfo userID "" rs in (Some ui, toCache c ui set_ok now)
      end
  end.

Definition InvalidateCache (c : RoleCache) (userID : UUID) (ok : bool) : RoleCache :=
  match c with
  | Some m => if ok then Some (delete userID m) else Some m
  | None => None
  end.

End Rbac.

Module Tenant.

Record TenantContext := mkTenant { TOrgID : UUID; TTeamID : UUID }.

Definition zero_tenant : TenantContext := mkTenant zero_uuid zero_uuid.

(** The values of a request context that the access-control packages read and write. *)
Record Ctx := mkCtx {
  ctxUser : option Rbac.UserInfo;
  ctxOrg : option string;
  ctxTeam : option string;
  ctxTenant : option TenantContext;
  ctxPolicy : option string
}.

Definition empty_ctx : Ctx := mkCtx None None None None None.

(** ** tenant/context.go *)

Definition WithTenant (c : Ctx) (tc : TenantContext) : Ctx :=
  mkCtx (ctxUser c) (Some (TOrgID tc)) (Some (TTeamID tc)) (Some tc) (ctxPolicy c).

Definition FromContext (c : Ctx) : TenantContext := default zero_tenant (ctxTenant c).
Definition OrgIDString (c : Ctx) : string := default "" (ctxOrg c).
Definition TeamIDString (c : Ctx) : string := default "" (ctxTeam c).

(** ** rbac/middleware.go *)

Definition InjectUser (c : Ctx) (ui : Rbac.UserInfo) : Ctx :=
  mkCtx (Some ui) (ctxOrg c) (ctxTeam c) (ctxTenant c) (ctxPolicy c).

Definition UserFromContext (c : Ctx) : option Rbac.UserInfo := ctxUser c.

Definition orgTeamFromCtx (c : Ctx) : string * string :=
  (default "" (ctxOrg c), default "" (ctxTeam c)).

(** A middleware's verdict: an error status and body, or the context it serves the next
    handler with. *)
Inductive verdict := Deny (status : Z) (msg : string) | Serve (c : Ctx).

Definition RequirePermission (perm : Rbac.Permission) (c : Ctx) : verdict :=
  match UserFromContext c with
  | None => Deny 401 "unauthenticated"
  | Some ui =>
      let '(orgID, teamID) := orgTeamFromCtx c in
      if negb (Rbac.HasPermission ui perm orgID teamID) then Deny 403 "forbidden" else Serve c
  end.

Definition RequireRole (roles : list Rbac.Role) (c : Ctx) : verdict :=
  match UserFromContext c with
  | None => Deny 401 "unauthenticated"
  | Some ui =>
      if existsb (fun ur => slices_Contains roles (Rbac.URole ur)) (Rbac.Roles ui)
      then Serve c else Deny 403 "forbidden"
  end.

(** ** tenant/middleware.go *)

Section Middleware.
(** [Resolver.ResolveForUser]; [None] is an error. *)
Context (ResolveForUser : UUID -> option (UUID * UUID)).

Definition Middleware (c : Ctx) : verdict :=
  match UserFromContext c with
  | None => Serve c
  | Some ui =>
      match ResolveForUser (Rbac.UID ui) with
      | None => Deny 500 "internal error resolving tenant"
      | Some (orgID, teamID) => Serve (WithTenant c (mkTenant orgID teamID))
      end
  end.

(** The tenant middleware in front of a permission check. *)
Definition guarded (perm : Rbac.Permission) (c : Ctx) : verdict :=
  match Middleware c with
  | Deny s m => Deny s m
  | Serve c => RequirePermission perm c
  end.

End Middleware.

(** ** tenant/service.go *)

Record Settings := mkSettings {
  SRPM : Z;
  STPM : Z;
  SBudget : float64;
  SAllowed : list string;
  SBlocked : list string
}.

Definition no_settings : Settings := mkSettings 0 0 f64_0 [] [].

(** [Unmarshal] is what decoding leaves in the settings, whether it fails or not. *)
Definition ParseSettings (Unmarshal : RawMessage -> Settings) (raw : RawMessage) : Settings :=
  if String.eqb raw "" then no_settings else Unmarshal raw.

Definition minNonZero (a b : Z) : Z :=
  if a =? 0 then b else if b =? 0 then a else if a <? b then a else b.

Definition minNonZeroFloat (a b : float64) : float64 :=
  if f64_eq a f64_0 then b else if f64_eq b f64_0 then a else if f64_lt a b then a else b.

Definition intersection (a b : list string) : list string :=
  List.filter (fun v => bool_decide (v ∈ (list_to_set b : gset string))) a.

(** [range] over a map yields its keys in some order. *)
Definition union (a b : list string) : list string :=
  elements ((list_to_set a ∪ list_to_set b) : gset string).

Definition MergeSettings (org team : Settings) : Settings :=
  mkSettings (minNonZero (SRPM org) (SRPM team)) (minNonZero (STPM org) (STPM team))
    (minNonZeroFloat (SBudget org) (SBudget team))
    (if Z.of_nat (length (SAllowed org)) =? 0 then SAllowed team
     else if Z.of_nat (length (SAllowed team)) =? 0 then SAllowed org
     else intersection (SAllowed org) (SAllowed team))
    (union (SBlocked org) (SBlocked team)).

(** ** Theorems *)

Lemma role_HasPermission_spec ur p :
  Rbac.role_HasPermission ur p = true <->
  Rbac.PermAll ∈ Rbac.Permissions ur \/ p ∈ Rbac.Permissions ur.
Proof.
  unfold Rbac.role_HasPermission. rewrite existsb_exists. split.
  - intros (x & I & E). rewrite <- list_elem_of_In in I. apply orb_true_iff in E as [E|E];
      breflect; subst; auto.
  - intros [H|H]; rewrite list_elem_of_In in H; eexists; (split; [exact H|]);
      rewrite String.eqb_refl, ?orb_true_r; done.
Qed.

(** A role covers a scope: it is global or for this organisation, and organisation-wide or for
    this team. *)
Definition covers (r : Rbac.UserRole) (org team : string) : Prop :=
  (Rbac.UROrgID r = "" \/ Rbac.UROrgID r = org) /\ (Rbac.URTeamID r = "" \/ Rbac.URTeamID r = team).

Lemma roles_grant_spec roles p org team :
  Rbac.roles_grant roles p org team = true <->
  exists r, r ∈ roles /\ covers r org team /\ (Rbac.PermAll ∈ Rbac.Permissions r \/ p ∈ Rbac.Permissions r).
Proof.
  assert (forall s x, negb (String.eqb s "") && negb (String.eqb s x) = true <-> ~ (s = "" \/ s = x)) as G.
  { intros s x. rewrite andb_true_iff, !negb_true_iff, !String.eqb_neq. tauto. }
  induction roles as [|r roles IH]; simpl; [set_solver|].
  setoid_rewrite elem_of_cons.
  destruct (negb (String.eqb (Rbac.UROrgID r) "") && _) eqn:E1.
  { apply G in E1. rewrite IH. unfold covers. naive_solver. }
  destruct (negb (String.eqb (Rbac.URTeamID r) "") && _) eqn:E2.
  { apply G in E2. rewrite IH. unfold covers. naive_solver. }
  assert (Rbac.UROrgID r = "" \/ Rbac.UROrgID r = org) as C1.
  { destruct (decide (Rbac.UROrgID r = "")), (decide (Rbac.UROrgID r = org)); auto.
    exfalso. rewrite (proj2 (G _ _)) in E1; [done|tauto]. }
  assert (Rbac.URTeamID r = "" \/ Rbac.URTeamID r = team) as C2.
  { destruct (decide (Rbac.URTeamID r = "")), (decide (Rbac.URTeamID r = team)); auto.
    exfalso. rewrite (proj2 (G _ _)) in E2; [done|tauto]. }
  destruct (Rbac.role_HasPermission r p) eqn:E.
  - apply role_HasPermission_spec in E. unfold covers. naive_solver.
  - rewrite IH. split; [naive_solver|]. intros (r' & [->|I] & C & P); [|eauto].
    apply role_HasPermission_spec in P. congruence.
Qed.

(** C11. Tenant isolation. Behind the tenant middleware, a request of an authenticated user is
    served exactly when the user's tenant resolves and one of the user's roles covers that
    organisation and team and grants the permission or the wildcard. A failure to resolve
    the tenant never lets a request through, and roles scoped to other tenants never help. *)
Theorem tenant_isolation Resolve perm c ui :
  ctxUser c = Some ui ->
  (exists c', guarded Resolve perm c = Serve c') <->
  (exists org team, Resolve (Rbac.UID ui) = Some (org, team) /\
     exists r, r ∈ Rbac.Roles ui /\ covers r org team /\
       (Rbac.PermAll ∈ Rbac.Permissions r \/ perm ∈ Rbac.Permissions r)).
Proof.
  intros U. unfold guarded, Middleware, UserFromContext. rewrite U.
  destruct (Resolve (Rbac.UID ui)) as [[org team]|]; [|naive_solver].
  unfold RequirePermission, UserFromContext, Rbac.HasPermission. simpl. rewrite U.
  destruct (Rbac.roles_grant _ _ _ _) eqn:E; simpl.
  - apply roles_grant_spec in E. split; [intros _; eauto|]. intros _. eauto.
  - split; [naive_solver|]. intros (o & t & [= <- <-] & H). apply roles_grant_spec in H. congruence.
Qed.

Lemma tenant_isolation_witness :
  exists c', guarded (fun _ => Some ("org1", "team1")) Rbac.PermSetBudget
    (InjectUser empty_ctx (Rbac.mkUserInfo "u" "e" [Rbac.mkUserRole Rbac.RoleOrgAdmin "org1" ""
       [Rbac.PermSetBudget]])) = Serve c'.
Proof.
  apply (tenant_isolation _ _ _ (Rbac.mkUserInfo "u" "e" [Rbac.mkUserRole Rbac.RoleOrgAdmin "org1" ""
    [Rbac.PermSetBudget]])).
  - reflexivity.
  - exists "org1", "team1". split; [reflexivity|]. eexists. split; [left|].
    split; [split; [right; reflexivity|left; reflexivity]|]. right. left.
Defined.

(** What an allow-list lets through. *)
Definition allows (l : list string) (m : string) : Prop := l = [] \/ m ∈ l.

Lemma minNonZero_spec a b :
  (a <> 0 -> 0 < a -> 0 <= b -> 0 < minNonZero a b <= a) /\
  (b <> 0 -> 0 < b -> 0 <= a -> 0 < minNonZero a b <= b).
Proof. unfold minNonZero. repeat case_match; breflect; lia. Qed.

Lemma intersection_spec a b m : m ∈ intersection a b <-> m ∈ a /\ m ∈ b.
Proof.
  unfold intersection. rewrite list_elem_of_In, filter_In, <- list_elem_of_In.
  rewrite bool_decide_eq_true, elem_of_list_to_set. done.
Qed.

(** Settings inheritance, exactly. A set numeric limit of either level bounds the merged
    limit; a model is blocked when either level blocks it. A model passes the merged
    allow-list when it passes both levels' lists, but also, against the rule that a team
    cannot relax its organisation, whenever both lists are set and have no model in common:
    the empty intersection means no restriction. *)
Theorem MergeSettings_spec org team m :
  (0 < SRPM org -> 0 <= SRPM team -> 0 < SRPM (MergeSettings org team) <= SRPM org) /\
  (0 < STPM org -> 0 <= STPM team -> 0 < STPM (MergeSettings org team) <= STPM org) /\
  (m ∈ SBlocked (MergeSettings org team) <-> m ∈ SBlocked org \/ m ∈ SBlocked team) /\
  (allows (SAllowed (MergeSettings org team)) m <->
     (allows (SAllowed org) m /\ allows (SAllowed team) m) \/
     (SAllowed org <> [] /\ SAllowed team <> [] /\
      forall x, x ∈ SAllowed org -> x ∉ SAllowed team)).
Proof.
  split; [intros; apply minNonZero_spec; lia|]. split; [intros; apply minNonZero_spec; lia|].
  split; [unfold MergeSettings, union; simpl; rewrite elem_of_elements; set_solver|].
  unfold MergeSettings, allows. simpl.
  assert (forall l : list string, (Z.of_nat (length l) =? 0) = bool_decide (l = [])) as L.
  { intros [|x l]; [done|]. rewrite bool_decide_eq_false_2 by done. apply Z.eqb_neq. simpl. lia. }
  rewrite !L. case_bool_decide as Eo; [rewrite Eo; naive_solver|].
  case_bool_decide as Et; [rewrite Et; naive_solver|].
  rewrite intersection_spec. split.
  - intros [N|?]; [right|left; tauto]. split_and!; try done. intros x Ho Ht.
    assert (x ∈ intersection (SAllowed org) (SAllowed team)) as I by (by apply intersection_spec).
    rewrite N in I. by apply elem_of_nil in I.
  - intros [[[?|Ho] [?|Ht]]|(_ & _ & D)]; try done; [by right|]. left.
    destruct (intersection _ _) as [|x l] eqn:E; [done|]. exfalso.
    assert (x ∈ intersection (SAllowed org) (SAllowed team)) as I by (rewrite E; left).
    apply intersection_spec in I as [Io It]. by apply (D x).
Qed.

(** An organisation that allows one model and a team that allows another: everything goes. *)
Example disjoint_allow_lists_allow_all :
  SAllowed (MergeSettings (mkSettings 0 0 f64_0 ["gpt-4o"] []) (mkSettings 0 0 f64_0 ["claude"] [])) = [].
Proof. reflexivity. Qed.

End Tenant.

Module Residency.

(** ** residency/policy.go *)

Record ProviderConstraint := mkConstraint { PCName : string; PCRegion : string }.

Record Policy := mkPolicy {
  PolName : string;
  AllowedProviders : gmap string ProviderConstraint;
  BlockedProviders : gmap string bool;
  AllowedRegions : list string
}.

Definition WithPolicy (c : Tenant.Ctx) (policyName : string) : Tenant.Ctx :=
  Tenant.mkCtx (Tenant.ctxUser c) (Tenant.ctxOrg c) (Tenant.ctxTeam c) (Tenant.ctxTenant c)
    (Some policyName).

Definition PolicyFromContext (c : Tenant.Ctx) : string := default "" (Tenant.ctxPolicy c).

Definition IsProviderAllowed (p : Policy) (providerName : string) : bool :=
  if default false (BlockedProviders p !! providerName) then false
  else if Z.of_nat (size (AllowedProviders p)) =? 0 then true
  else bool_decide (is_Some (AllowedProviders p !! providerName)).

Definition AllowedProviderNames (p : Policy) : list string := (map_to_list (AllowedProviders p)).*1.

Record PRegistry := mkPRegistry { policies : gmap string Policy }.

Definition NewRegistry (ps : list Policy) : PRegistry :=
  mkPRegistry (foldl (fun m p => <[PolName p := p]> m) ∅ ps).

Definition Get (r : PRegistry) (name : string) : option Policy := policies r !! name.

Definition List_ (r : PRegistry) : list Policy := (map_to_list (policies r)).*2.

(** ** residency/enforcer.go *)

Record ErrNoCompliantProvider := mkErrNoCompliant {
  EPolicy : string;
  EProvider : string;
  EModel : string
}.

Definition FilterChain (r : PRegistry) (policyName : string) (chain : Chain) (model : string)
  : res ErrNoCompliantProvider Chain :=
  match Get r policyName with
  | None => Ok chain
  | Some policy =>
      let filtered := List.filter (fun t => IsProviderAllowed policy (Provider t)) (Targets chain) in
      if Z.of_nat (length filtered) =? 0 then
        let primary := match Targets chain with t :: _ => Provider t | [] => "" end in
        Err (mkErrNoCompliant policyName primary model)
      else Ok (mkChain (ChainName chain) filtered)
  end.

Definition CheckProvider (r : PRegistry) (policyName providerName model : string)
  : option ErrNoCompliantProvider :=
  match Get r policyName with
  | None => None
  | Some policy =>
      if negb (IsProviderAllowed policy providerName)
      then Some (mkErrNoCompliant policyName providerName model) else None
  end.

(** ** middleware/residency.go *)

Definition DataResidency (header : string) (c : Tenant.Ctx) : Tenant.Ctx :=
  if negb (String.eqb header "") then WithPolicy c header else c.

(** ** Theorems *)

Lemma IsProviderAllowed_spec p n :
  IsProviderAllowed p n = true <->
  BlockedProviders p !! n <> Some true /\ (AllowedProviders p = ∅ \/ is_Some (AllowedProviders p !! n)).
Proof.
  unfold IsProviderAllowed. destruct (BlockedProviders p !! n) as [[]|]; simpl.
  - naive_solver.
  - destruct (Z.eqb_spec (Z.of_nat (size (AllowedProviders p))) 0) as [E|E].
    + assert (AllowedProviders p = ∅) by (apply map_size_empty_inv; lia). naive_solver.
    + rewrite bool_decide_eq_true. assert (AllowedProviders p <> ∅)
        by (intros H; rewrite H, map_size_empty in E; lia). naive_solver.
  - destruct (Z.eqb_spec (Z.of_nat (size (AllowedProviders p))) 0) as [E|E].
    + assert (AllowedProviders p = ∅) by (apply map_size_empty_inv; lia). naive_solver.
    + rewrite bool_decide_eq_true. assert (AllowedProviders p <> ∅)
        by (intros H; rewrite H, map_size_empty in E; lia). naive_solver.
Qed.

(** Data residency. Under a known policy the filtered chain keeps, in order, exactly the
    targets whose provider is not blocked and is on the allow-list if there is one; it is
    refused exactly when no target complies, naming the first target's provider. An
    unknown policy restricts nothing. *)
Theorem FilterChain_spec r name chain model :
  match FilterChain r name chain model with
  | Ok c =>
      ChainName c = ChainName chain /\
      match Get r name with
      | None => c = chain
      | Some p =>
          Targets c = List.filter (fun t => IsProviderAllowed p (Provider t)) (Targets chain) /\
          Targets c <> [] /\
          forall t, t ∈ Targets c ->
            BlockedProviders p !! Provider t <> Some true /\
            (AllowedProviders p = ∅ \/ is_Some (AllowedProviders p !! Provider t))
      end
  | Err e =>
      exists p, Get r name = Some p /\ EPolicy e = name /\ EModel e = model /\
        EProvider e = match Targets chain with t :: _ => Provider t | [] => "" end /\
        forall t, t ∈ Targets chain -> IsProviderAllowed p (Provider t) = false
  end.
Proof.
  unfold FilterChain. destruct (Get r name) as [p|]; [|done].
  destruct (List.filter _ _) as [|t0 ts] eqn:F; simpl.
  - exists p. split_and!; try done. intros t I.
    destruct (IsProviderAllowed p (Provider t)) eqn:E; [|done]. exfalso.
    assert (In t (List.filter (fun t => IsProviderAllowed p (Provider t)) (Targets chain))) as C
      by (apply filter_In; by rewrite <- list_elem_of_In).
    by rewrite F in C.
  - split; [done|]. split; [done|]. split; [done|]. intros t I.
    apply IsProviderAllowed_spec. rewrite <- F, list_elem_of_In in I. destruct (proj1 (filter_In _ _ _) I). done.
Qed.

End Residency.
