(* ===== verification/EventStream.v ===== *)
(** * Server-sent events (internal/gateway/proxy/sse_parser.go)

    The parser of a provider's event stream: lines of a scanner with a one-mebibyte limit,
    collected into events at blank lines. The theorem is a round trip: the parser reads back
    every list of events that is written in the wire format, so nothing is lost, merged or
    reordered between a writer and the gateway. *)

From S2P Require Import Prelude GoStrings.
Local Open Scope Z_scope.

Module SSE.

Record SSEEvent := mkEvent { Type_ : string; Data : string; EvID : string }.

Definition empty_event : SSEEvent := mkEvent "" "" "".

(** [scan.Buffer(_, 1024*1024)]. *)
Definition maxLine : Z := 1024 * 1024.

(** [v := line[5:]], without one leading blank. *)
Definition data_value (line : string) : string :=
  match drop_str 5 line with
  | String c v => if Ascii.eqb c " " then v else String c v
  | EmptyString => EmptyString
  end.

(** The loop: [cur] is the event being read and [dataLines] its data lines. *)
Fixpoint parse_lines (cur : SSEEvent) (dataLines : list string) (lines : list string)
  : list SSEEvent :=
  match lines with
  | [] => []
  | line :: lines =>
      if String.eqb line "" then
        if 0 <? Z.of_nat (length dataLines) then
          mkEvent (if String.eqb (Type_ cur) "" then "message" else Type_ cur)
            (String.concat newline dataLines) (EvID cur) :: parse_lines empty_event [] lines
        else parse_lines empty_event [] lines
      else if HasPrefix line "data:" then
        parse_lines cur (dataLines ++ [data_value line]) lines
      else if HasPrefix line "event:" then
        parse_lines (mkEvent (TrimSpace (drop_str 6 line)) (Data cur) (EvID cur)) dataLines lines
      else if HasPrefix line "id:" then
        parse_lines (mkEvent (Type_ cur) (Data cur) (TrimSpace (drop_str 3 line))) dataLines lines
      else parse_lines cur dataLines lines
  end.

(** The events sent on the channel for the bytes of a response body. *)
Definition ParseSSE (body : string) : list SSEEvent :=
  parse_lines empty_event [] (scan_lines maxLine body).

(** ** The wire format *)

(** The lines of one event: its type and id if it has them, its data line by line, a blank
    line. *)
Definition event_lines (e : SSEEvent) : list string :=
  ["event: " +:+ Type_ e] ++ (if String.eqb (EvID e) "" then [] else ["id: " +:+ EvID e])
  ++ ((fun l => "data: " +:+ l) <$> split_lines (Data e)) ++ [""].

Definition render (es : list SSEEvent) : string := unlines (es ≫= event_lines).

(** An event that has a wire form: a type and an id that trimming leaves alone, no carriage
    returns, and lines below the scanner's limit. *)
Record sendable (e : SSEEvent) : Prop := {
  se_type : Type_ e <> "";
  se_trim : TrimSpace (" " +:+ Type_ e) = Type_ e /\ TrimSpace (" " +:+ EvID e) = EvID e;
  se_lines : Forall (line_ok maxLine) (event_lines e)
}.

Lemma data_line line : data_value ("data: " +:+ line) = line.
Proof. done. Qed.

Lemma parse_data cur acc ls rest :
  parse_lines cur acc (((fun l => "data: " +:+ l) <$> ls) ++ rest) = parse_lines cur (acc ++ ls) rest.
Proof.
  revert acc. induction ls as [|l ls IH]; intros acc; [by rewrite app_nil_r|].
  rewrite fmap_cons. cbn [app parse_lines].
  change (String.eqb ("data: " +:+ l) "") with false.
  replace (HasPrefix ("data: " +:+ l) "data:") with true by (by destruct l).
  rewrite data_line, IH. by rewrite <- (assoc_L (++)).
Qed.

Lemma parse_event_line cur acc v rest :
  parse_lines cur acc (("event: " +:+ v) :: rest) =
  parse_lines (mkEvent (TrimSpace (" " +:+ v)) (Data cur) (EvID cur)) acc rest.
Proof. cbn [parse_lines]. by destruct v. Qed.

Lemma parse_id_line cur acc v rest :
  parse_lines cur acc (("id: " +:+ v) :: rest) =
  parse_lines (mkEvent (Type_ cur) (Data cur) (TrimSpace (" " +:+ v))) acc rest.
Proof. cbn [parse_lines]. by destruct v. Qed.

Lemma parse_event e rest :
  sendable e -> parse_lines empty_event [] (event_lines e ++ rest) =
  e :: parse_lines empty_event [] rest.
Proof.
  intros [T [S1 S2] _]. unfold event_lines. rewrite <- !(assoc_L (++)). cbn [app].
  rewrite parse_event_line, S1. destruct (String.eqb_spec (EvID e) "") as [E|E]; cbn [app].
  all: rewrite ?parse_id_line, ?S2, parse_data; cbn [app parse_lines String.eqb Type_ EvID Data].
  all: destruct (Z.ltb_spec 0 (Z.of_nat (length (split_lines (Data e)))));
    [|pose proof (split_lines_nonempty (Data e)); destruct (split_lines (Data e)); simpl in *; [done|lia]].
  all: rewrite split_lines_concat; f_equal; apply String.eqb_neq in T; rewrite T; destruct e; simpl in *;
    by subst.
Qed.

(** The parser on what was written. *)
Lemma ParseSSE_rendered es rest :
  Forall sendable es -> ParseSSE (render es +:+ rest) = es ++ ParseSSE rest.
Proof.
  intros F. unfold ParseSSE, render. rewrite scan_unlines.
  - generalize (scan_lines maxLine rest). intros tl. induction F as [|e es S F IH]; [done|].
    cbn [mbind list_bind]. rewrite <- (assoc_L (++)), parse_event by done. cbn [app]. by rewrite <- IH.
  - induction F as [|e es S F IH]; [constructor|]. cbn [mbind list_bind]. apply Forall_app. split; [apply S|done].
Qed.

(** The parser reads back what was written: for every list of events in the wire format
    and whatever follows it, the parser delivers exactly these events, in order, each with its
    type, id and data, data of several lines included; then it continues with the rest. *)
Theorem ParseSSE_render es rest :
  Forall sendable es -> ParseSSE (render es +:+ rest) = es ++ ParseSSE rest.
Proof. apply ParseSSE_rendered. Qed.

Lemma ParseSSE_render_witness :
  ParseSSE (render [mkEvent "delta" ("a" +:+ newline +:+ "b") "7"] +:+ "data: [DONE]" +:+ newline +:+ newline) =
  [mkEvent "delta" ("a" +:+ newline +:+ "b") "7"; mkEvent "message" "[DONE]" ""].
Proof.
  rewrite ParseSSE_render.
  - vm_compute. reflexivity.
  - constructor; [|constructor]. split.
    + discriminate.
    + split; vm_compute; reflexivity.
    + repeat constructor; vm_compute; reflexivity.
Defined.

(** An event without data lines, a comment and a retry field produce nothing. *)
Example ParseSSE_ignored :
  ParseSSE (unlines [": keepalive"; ""; "event: ping"; ""; "retry: 10"; "data:x"; "data: y"; ""; "data: lost"]) =
  [mkEvent "message" ("x" +:+ newline +:+ "y") ""].
Proof. vm_compute. reflexivity. Qed.

End SSE.
