(* ===== verification/ExactCache.v ===== *)
(** * The exact-match response cache (internal/cache/exact, middleware/cache.go)

    Cache keys, the store with its size limit, compression and expiry, the middleware that
    answers from the cache or records the handler's answer, and the replay of a cached
    response as a stream of server-sent events. JSON, gzip and SHA-256 are parameters. *)

From S2P Require Import Prelude GoStrings Float64 Types Calendar.
Local Open Scope Z_scope.

Module Exact.

(** ** types/openai.go: embeddings and stream chunks *)

Record EmbeddingRequest := mkEmbReq {
  EmbModel : string;
  EmbInput : RawMessage;
  EncodingFormat : string;
  EmbUser : string
}.

Record Embedding := mkEmbedding {
  EmbObject : string;
  EmbVector : list float64;
  EmbIndex : Z
}.

Record EmbeddingResponse := mkEmbResp {
  ERObject : string;
  ERData : list Embedding;
  ERModel : string;
  ERUsage : option Usage
}.

Record Delta := mkDelta { DRole : string; DContent : string }.

Record ChunkChoice := mkChunkChoice {
  CCIndex : Z;
  CCDelta : Delta;
  CCFinishReason : string
}.

Record ChatCompletionChunk := mkChunk {
  ChunkID : string;
  ChunkObject : string;
  ChunkCreated : Z;
  ChunkModel : string;
  ChunkChoices : list ChunkChoice;
  ChunkUsage : option Usage
}.

(** ** key.go *)

Record cacheKeyData := mkKeyData {
  KModel : string;
  KMessages : list Message;
  KTemperature : float64;
  KMaxTokens : Z;
  KTopP : float64
}.

(** Everything [BuildKey] looks at. *)
Definition key_data (req : ChatCompletionRequest) : cacheKeyData :=
  mkKeyData (Model req) (Messages req) (default f64_0 (Temperature req))
    (default 0 (MaxTokens req)) (default f64_0 (TopP req)).

Record Entry := mkEntry {
  EResponse : ChatCompletionResponse;
  ECreatedAt : Z;
  EEntryModel : string;
  EPromptTokens : Z;
  ECompletionTokens : Z;
  ECostUSD : float64
}.

#[export] Instance Message_eq_dec : EqDecision Message.
Proof. solve_decision. Defined.
#[export] Instance Choice_eq_dec : EqDecision Choice.
Proof. solve_decision. Defined.
#[export] Instance Usage_eq_dec : EqDecision Usage.
Proof. solve_decision. Defined.
#[export] Instance Response_eq_dec : EqDecision ChatCompletionResponse.
Proof. solve_decision. Defined.
#[export] Instance float64_eq_dec : EqDecision float64.
Proof. unfold float64. solve_decision. Defined.
#[export] Instance Entry_eq_dec : EqDecision Entry.
Proof. solve_decision. Defined.

Record EmbeddingEntry := mkEmbEntry {
  XResponse : EmbeddingResponse;
  XCreatedAt : Z;
  XModel : string;
  XInputTokens : Z;
  XCostUSD : float64
}.

(** The standard library's codecs: JSON of the three records ([None] is an error), SHA-256 in
    hex, and gzip. *)
Class Codec := {
  marshal_key : cacheKeyData -> option string;
  marshal_emb_key : string -> string -> string -> option string;
  normalize_input : string -> option string;
  sha256hex : string -> string;
  marshal_entry : Entry -> option string;
  unmarshal_entry : string -> option Entry;
  marshal_emb : EmbeddingEntry -> option string;
  unmarshal_emb : string -> option EmbeddingEntry;
  gzip : string -> option string;
  gunzip : string -> option string
}.

Section Cache.
Context `{Codec}.

Definition BuildKey (req : ChatCompletionRequest) : string :=
  match marshal_key (key_data req) with
  | None => ""
  | Some data => sha256hex data
  end.

Definition IsCacheable (req : ChatCompletionRequest) (temperatureZeroOnly : bool)
    (headers : gmap string string) : bool :=
  if String.eqb (default "" (headers !! "Cache-Control")) "no-cache"
     || String.eqb (default "" (headers !! "X-Gateway-No-Cache")) "true" then false
  else match MaxTokens req with
       | None => false
       | Some _ =>
           if temperatureZeroOnly
              && match Temperature req with Some t => f64_lt f64_0 t | None => false end
           then false else true
       end.

Definition BuildEmbeddingKey (req : EmbeddingRequest) : string :=
  match normalize_input (EmbInput req) with
  | None => ""
  | Some input =>
      match marshal_emb_key (EmbModel req) (EncodingFormat req) input with
      | None => ""
      | Some data => sha256hex data
      end
  end.

Definition IsEmbeddingCacheable (headers : gmap string string) : bool :=
  negb (String.eqb (default "" (headers !! "Cache-Control")) "no-cache")
  && negb (String.eqb (default "" (headers !! "X-Gateway-No-Cache")) "true").

(** ** cache.go: values under their Redis key, with the expiry if any *)

Abbreviation Redis := (gmap string (string * option Time)).

Record Cache := mkCache { maxResponseSize : Z; defaultTTL : Duration }.

Definition keyPrefix : string := "cache:exact:".
Definition embKeyPrefix : string := "cache:emb:".

Definition redis_get (st : Redis) (key : string) (now : Time) : option string :=
  match st !! key with
  | Some (v, Some e) => if now <? e then Some v else None
  | Some (v, None) => Some v
  | None => None
  end.

(** SET with a TTL of zero means no expiry. *)
Definition redis_set (st : Redis) (key v : string) (ttl : Duration) (now : Time) : Redis :=
  <[key := (v, if ttl =? 0 then None else Some (time_Add now ttl))]> st.

(** A gzip stream starts with the bytes 1f 8b. *)
Definition is_gzip (data : string) : bool :=
  match data with
  | String a (String b _) => Nat.eqb (Ascii.nat_of_ascii a) 31 && Nat.eqb (Ascii.nat_of_ascii b) 139
  | _ => false
  end.

Definition maybeDecompress (data : string) : string :=
  if negb (is_gzip data) then data
  else match gunzip data with Some out => out | None => data end.

Inductive cacheErr := ErrGet | ErrUnmarshal | ErrMarshal | ErrResponseTooLarge | ErrSet.

(** [Ok None] is a miss. *)
Definition Get (st : Redis) (key : string) (ok : bool) (now : Time) : res cacheErr (option Entry) :=
  if negb ok then Err ErrGet
  else match redis_get st (keyPrefix +:+ key) now with
       | None => Ok None
       | Some data =>
           match unmarshal_entry (maybeDecompress data) with
           | None => Err ErrUnmarshal
           | Some e => Ok (Some e)
           end
       end.

(** What is written: the compressed text when that is shorter. *)
Definition compressed (data : string) : string :=
  match gzip data with
  | Some z => if Z.of_nat (String.length z) <? Z.of_nat (String.length data) then z else data
  | None => data
  end.

Definition new_entry (resp : ChatCompletionResponse) (costUSD : float64) (now : Time) : Entry :=
  mkEntry resp (Calendar.Unix now) (RespModel resp)
    (match RespUsage resp with Some u => PromptTokens u | None => 0 end)
    (match RespUsage resp with Some u => CompletionTokens u | None => 0 end) costUSD.

Definition Store (c : Cache) (st : Redis) (key : string) (resp : ChatCompletionResponse)
    (costUSD : float64) (ttl : Duration) (ok : bool) (now : Time) : res cacheErr unit * Redis :=
  let ttl := if ttl =? 0 then defaultTTL c else ttl in
  match marshal_entry (new_entry resp costUSD now) with
  | None => (Err ErrMarshal, st)
  | Some data =>
      if maxResponseSize c <? Z.of_nat (String.length data) then (Err ErrResponseTooLarge, st)
      else if negb ok then (Err ErrSet, st)
      else (Ok tt, redis_set st (keyPrefix +:+ key) (compressed data) ttl now)
  end.

Definition Delete (st : Redis) (key : string) : Redis := delete (keyPrefix +:+ key) st.

Definition GetEmbedding (st : Redis) (key : string) (ok : bool) (now : Time)
  : res cacheErr (option EmbeddingEntry) :=
  if negb ok then Err ErrGet
  else match redis_get st (embKeyPrefix +:+ key) now with
       | None => Ok None
       | Some data =>
           match unmarshal_emb (maybeDecompress data) with
           | None => Err ErrUnmarshal
           | Some e => Ok (Some e)
           end
       end.

Definition StoreEmbedding (c : Cache) (st : Redis) (key : string) (resp : EmbeddingResponse)
    (costUSD : float64) (ttl : Duration) (ok : bool) (now : Time) : res cacheErr unit * Redis :=
  let ttl := if ttl =? 0 then defaultTTL c else ttl in
  let e := mkEmbEntry resp (Calendar.Unix now) (ERModel resp)
             (match ERUsage resp with Some u => TotalTokens u | None => 0 end) costUSD in
  match marshal_emb e with
  | None => (Err ErrMarshal, st)
  | Some data =>
      if maxResponseSize c <? Z.of_nat (String.length data) then (Err ErrResponseTooLarge, st)
      else if negb ok then (Err ErrSet, st)
      else (Ok tt, redis_set st (embKeyPrefix +:+ key) (compressed data) ttl now)
  end.

Definition Age (e : Entry) (now : Time) : Z := wrap64 (Calendar.Unix now - ECreatedAt e).

(** ** replay.go *)

Inductive event := Chunk (c : ChatCompletionChunk) | Done.

(** The text of the words as they are sent: a space after each word but the last. *)
Fixpoint word_texts (words : list string) : list string :=
  match words with
  | [] => []
  | [w] => [w]
  | w :: ws => (w +:+ " ") :: word_texts ws
  end.

Definition chunk_of (r : ChatCompletionResponse) (d : Delta) (fin : string) (u : option Usage)
  : event :=
  Chunk (mkChunk (RespID r) "chat.completion.chunk" (RespCreated r) (RespModel r)
           [mkChunkChoice 0 d fin] u).

Definition ReplayAsStream (cached : ChatCompletionResponse) : list event :=
  match Choices cached with
  | [] => [Done]
  | c :: _ =>
      let words := Fields (Content (ChoiceMessage c)) in
      [chunk_of cached (mkDelta "assistant" "") "" None]
      ++ ((fun t => chunk_of cached (mkDelta "" t) "" None) <$> word_texts words)
      ++ [chunk_of cached (mkDelta "" "") (FinishReason c) (RespUsage cached); Done]
  end.

(** ** middleware/cache.go *)

(** A request as the middleware sees it, and what the next handler answers: status, body and
    the body's JSON decoding. *)
Record call := mkCall {
  c_path : string;
  c_req : option ChatCompletionRequest;
  c_headers : gmap string string;
  c_code : Z;
  c_body : string;
  c_parsed : option ChatCompletionResponse
}.

Inductive served :=
| FromNext
| FromCache (e : Entry) (stream : bool)
| Recorded (code : Z) (body : string).

(** The middleware without concurrent duplicates: the answer, and the store the background
    goroutine performs. [get_ok] and [set_ok] say whether Redis answers. *)
Definition Handler (c : Cache) (st : Redis) (q : call) (get_ok set_ok : bool) (now : Time)
  : served * Redis :=
  if negb (HasSuffix (c_path q) "/chat/completions") then (FromNext, st)
  else match c_req q with
       | None => (FromNext, st)
       | Some req =>
           if negb (IsCacheable req true (c_headers q)) then (FromNext, st)
           else
             let key := BuildKey req in
             if String.eqb key "" then (FromNext, st)
             else match Get st key get_ok now with
                  | Ok (Some e) => (FromCache e (Stream req), st)
                  | _ =>
                      if Stream req then (FromNext, st)
                      else
                        let st := match c_parsed q with
                                  | Some resp =>
                                      if c_code q =? 200
                                      then (Store c st key resp f64_0 0 set_ok now).2 else st
                                  | None => st
                                  end in
                        (Recorded (c_code q) (c_body q), st)
                  end
       end.

(** ** Soundness of hits *)

(** What the standard library promises of the codecs. *)
Class CodecLaws : Prop := {
  entry_roundtrip : forall e d, marshal_entry e = Some d -> unmarshal_entry d = Some e;
  entry_text : forall e d, marshal_entry e = Some d -> is_gzip d = false;
  gzip_roundtrip : forall d z, gzip d = Some z -> gunzip z = Some d /\ is_gzip z = true;
  sha256_inj : forall a b, sha256hex a = sha256hex b -> a = b
}.

Context `{!CodecLaws}.

Lemma decompress_compressed e d : marshal_entry e = Some d -> maybeDecompress (compressed d) = d.
Proof.
  intros M. pose proof (entry_text _ _ M) as T. unfold compressed, maybeDecompress.
  destruct (gzip d) as [z|] eqn:G; [|by rewrite T].
  destruct (_ <? _); [|by rewrite T]. destruct (gzip_roundtrip _ _ G) as [-> ->]. done.
Qed.

(** A past call whose answer was recorded under [key] at time [t]. *)
Definition recorded_by (q : call) (t : Time) (key : string) (resp : ChatCompletionResponse) : Prop :=
  exists req, c_req q = Some req /\ BuildKey req = key /\ key <> "" /\ Stream req = false /\
    IsCacheable req true (c_headers q) = true /\ c_code q = 200 /\ c_parsed q = Some resp.

(** Every exact-cache value is the encoding of an answer recorded by a call of the history. *)
Definition from_history (c : Cache) (hist : list (call * Time)) (st : Redis) : Prop :=
  forall key v exp, st !! (keyPrefix +:+ key) = Some (v, exp) ->
    exists q t resp data, (q, t) ∈ hist /\ recorded_by q t key resp /\
      marshal_entry (new_entry resp f64_0 t) = Some data /\ v = compressed data /\
      exp = (if defaultTTL c =? 0 then None else Some (time_Add t (defaultTTL c))).

Lemma from_history_weaken c hist st q t :
  from_history c hist st -> from_history c ((q, t) :: hist) st.
Proof.
  intros F key v exp L. destruct (F _ _ _ L) as (q' & t' & r & d & I & R).
  exists q', t', r, d. split; [by right|done].
Qed.

(** A store keeps the history, whatever becomes of it. *)
Lemma Store_from_history c hist st q t key resp s :
  from_history c hist st -> recorded_by q t key resp ->
  from_history c ((q, t) :: hist) (Store c st key resp f64_0 0 s t).2.
Proof.
  intros F R. apply (from_history_weaken c hist st q t) in F. unfold Store. simpl.
  destruct (marshal_entry _) as [data|] eqn:M; [|done].
  destruct (_ <? _); [done|]. destruct s; [simpl|done].
  intros k v exp L. unfold redis_set in L.
  apply lookup_insert_Some in L as [[E [= <- <-]]|[_ L]]; [|by apply F].
  pose proof (str_app_inj_l keyPrefix _ _ E) as E'. subst k.
  exists q, t, resp, data. split; [left|]. split_and!; done.
Qed.

Lemma Handler_from_history c hist st q g s t :
  from_history c hist st -> from_history c ((q, t) :: hist) (Handler c st q g s t).2.
Proof.
  intros F0. pose proof (from_history_weaken c hist st q t F0) as F. unfold Handler.
  destruct (HasSuffix _ _); [|done]. simpl. destruct (c_req q) as [req|] eqn:Q; [|done].
  destruct (IsCacheable req true (c_headers q)) eqn:C; [|done]. simpl.
  destruct (String.eqb_spec (BuildKey req) "") as [|N]; [done|].
  assert (from_history c ((q, t) :: hist)
    (if Stream req then (FromNext, st) else
       (Recorded (c_code q) (c_body q),
        match c_parsed q with
        | Some resp => if c_code q =? 200 then (Store c st (BuildKey req) resp f64_0 0 s t).2 else st
        | None => st
        end)).2) as G.
  { destruct (Stream req) eqn:S; [done|]. simpl. destruct (c_parsed q) as [resp|] eqn:P; [|done].
    destruct (Z.eqb_spec (c_code q) 200) as [K|]; [|done].
    apply Store_from_history; [done|]. exists req. by split_and!. }
  destruct (Get st (BuildKey req) g t) as [[e|]|e]; [done|exact G|exact G].
Qed.

(** A read that finds an entry finds the answer of a recorded call, within its lifetime. *)
Lemma Get_from_history c hist st key ok now e :
  from_history c hist st -> Get st key ok now = Ok (Some e) ->
  exists q t, (q, t) ∈ hist /\ recorded_by q t key (EResponse e) /\
    (defaultTTL c <> 0 -> now < t + defaultTTL c).
Proof.
  intros F. unfold Get. destruct ok; [simpl|done].
  destruct (redis_get st _ now) as [v|] eqn:L; [|done].
  unfold redis_get in L. destruct (st !! _) as [[v' exp]|] eqn:E; [|done].
  destruct (F _ _ _ E) as (q & t & resp & data & I & R & M & -> & ->).
  assert (v = compressed data /\ (defaultTTL c <> 0 -> now < t + defaultTTL c)) as [-> HT].
  { destruct (Z.eqb_spec (defaultTTL c) 0); [injection L as <-; split; [done|lia]|].
    unfold time_Add in L. destruct (Z.ltb_spec now (t + defaultTTL c)); [|done].
    injection L as <-. done. }
  rewrite (decompress_compressed _ _ M), (entry_roundtrip _ _ M). intros [= <-]. by exists q, t.
Qed.

(** Requests with one key have the same key fields. *)
Lemma BuildKey_inj req req' :
  BuildKey req <> "" -> BuildKey req = BuildKey req' ->
  marshal_key (key_data req) = marshal_key (key_data req').
Proof.
  unfold BuildKey. intros N E. destruct (marshal_key (key_data req)) as [a|]; [|done].
  destruct (marshal_key (key_data req')) as [b|]; [by rewrite (sha256_inj _ _ E)|congruence].
Qed.

(** The calls so far, newest first, with the time of each. *)
Fixpoint cache_run (c : Cache) (hist : list (call * Time)) : Redis :=
  match hist with
  | [] => ∅
  | (q, t) :: hist => (Handler c (cache_run c hist) q true true t).2
  end.

Lemma cache_run_history c hist : from_history c hist (cache_run c hist).
Proof.
  induction hist as [|[q t] hist IH]; simpl.
  - intros key v exp L. exfalso. exact (lookup_empty_Some _ _ L).
  - by apply Handler_from_history.
Qed.

(** A cache hit is sound. Whatever calls came before, a response served from the cache is
    exactly the answer, with status 200, that the handler gave to an earlier non-streaming
    call whose key fields (model, messages, temperature, max_tokens, top_p) encode to the
    same text, and it is served only within the cache lifetime of that answer. Compression,
    the size limit and failed writes do not change this. *)
Theorem cache_hit_sound c hist q e stream now :
  (Handler c (cache_run c hist) q true true now).1 = FromCache e stream ->
  exists q' t req req',
    (q', t) ∈ hist /\ c_req q = Some req /\ c_req q' = Some req' /\ stream = Stream req /\
    marshal_key (key_data req) = marshal_key (key_data req') /\ Stream req' = false /\
    c_code q' = 200 /\ c_parsed q' = Some (EResponse e) /\
    (defaultTTL c <> 0 -> now < t + defaultTTL c).
Proof.
  unfold Handler. destruct (HasSuffix _ _); [|done]. simpl.
  destruct (c_req q) as [req|] eqn:Q; [|done]. destruct (IsCacheable req true _); [|done]. simpl.
  destruct (String.eqb_spec (BuildKey req) "") as [|N]; [done|].
  destruct (Get _ _ _ _) as [[e'|]|] eqn:G; [|by destruct (Stream req)..].
  intros [= <- <-]. destruct (Get_from_history _ _ _ _ _ _ _ (cache_run_history c hist) G)
    as (q' & t & I & (req' & R1 & R2 & R3 & R4 & _ & R6 & R7) & HT).
  exists q', t, req, req'. split_and!; try done. by apply BuildKey_inj.
Qed.

(** The key does not cover the other fields that shape an answer: two requests that differ in
    tools, stop sequences, number of choices or penalties share one entry. *)
Lemma BuildKey_ignores_tools req tools stop n pp fp :
  BuildKey (mkRequest (Model req) (Messages req) (Temperature req) (MaxTokens req) (TopP req) n
              (Stream req) (ReqStreamOptions req) stop pp fp (User req) tools (Metadata req)
              (PromptSlug req) (PromptVariables req)) = BuildKey req.
Proof. reflexivity. Qed.

End Cache.

(** ** Witness of the hit theorem: a codec that knows one entry *)

Definition demo_resp : ChatCompletionResponse :=
  mkResponse "id" "chat.completion" 0 "m" [mkChoice 0 (mkMessage "assistant" "hi") "stop"] None.
Definition demo_entry : Entry := new_entry demo_resp f64_0 5.

#[local] Instance demo_codec : Codec := {|
  marshal_key kd := Some (KModel kd);
  marshal_emb_key _ _ _ := None;
  normalize_input s := Some s;
  sha256hex s := s;
  marshal_entry e := if decide (e = demo_entry) then Some "{}" else None;
  unmarshal_entry d := if String.eqb d "{}" then Some demo_entry else None;
  marshal_emb _ := None;
  unmarshal_emb _ := None;
  gzip _ := None;
  gunzip _ := None |}.

#[local] Instance demo_laws : CodecLaws.
Proof.
  split; simpl; try done.
  - intros e d. destruct (decide (e = demo_entry)) as [->|]; [|done]. by intros [= <-].
  - intros e d. destruct (decide (e = demo_entry)) as [->|]; [|done]. by intros [= <-].
Qed.

Definition demo_req (temp : option float64) : ChatCompletionRequest :=
  mkRequest "m" [mkMessage "user" "hello"] temp (Some 10) None None false None "" None None "" []
    ∅ "" ∅.
Definition demo_call : call :=
  mkCall "/v1/chat/completions" (Some (demo_req None)) ∅ 200 "{}" (Some demo_resp).

Lemma cache_hit_sound_witness :
  exists q' t req req', (q', t) ∈ [(demo_call, 5)] /\ c_req demo_call = Some req /\
    c_req q' = Some req' /\ c_parsed q' = Some (EResponse demo_entry).
Proof.
  destruct (cache_hit_sound (mkCache 1000 60) [(demo_call, 5)] demo_call demo_entry false 9)
    as (q' & t & req & req' & H1 & H2 & H3 & _ & _ & _ & _ & H4 & _).
  - vm_compute. reflexivity.
  - exists q', t, req, req'. split; [exact H1|]. split; [exact H2|]. split; [exact H3|exact H4].
Defined.

(** ** Replay *)

Definition content_of (e : event) : string :=
  match e with
  | Chunk c => foldr (fun ch s => DContent (CCDelta ch) +:+ s) "" (ChunkChoices c)
  | Done => ""
  end.

(** The text a client reads from a stream. *)
Definition stream_text (es : list event) : string := foldr (fun e s => content_of e +:+ s) "" es.

Lemma stream_text_app a b : stream_text (a ++ b) = stream_text a +:+ stream_text b.
Proof. induction a as [|e a IH]; simpl; [done|]. by rewrite IH, str_app_assoc. Qed.

Lemma word_texts_concat r ws :
  stream_text ((fun t => chunk_of r (mkDelta "" t) "" None) <$> word_texts ws) = String.concat " " ws.
Proof.
  induction ws as [|w ws IH]; [done|]. destruct ws as [|w' ws]; [simpl; by rewrite !str_app_nil_r|].
  change (word_texts (w :: w' :: ws)) with ((w +:+ " ") :: word_texts (w' :: ws)).
  rewrite fmap_cons. change (stream_text (?x :: ?y)) with (content_of x +:+ stream_text y).
  rewrite IH. simpl. by rewrite !str_app_nil_r, !str_app_assoc.
Qed.

(** Replay of a cached response as a stream. The stream ends with the marker and carries
    the first choice's words joined by single spaces, with its finish reason and the usage
    in the last chunk. The words of the stream are those of the answer, in order and
    complete; every run of white space, line breaks included, reaches the client as one
    space, and leading and trailing white space is lost. *)
Theorem ReplayAsStream_text r c cs :
  Choices r = c :: cs ->
  stream_text (ReplayAsStream r) = String.concat " " (Fields (Content (ChoiceMessage c))) /\
  Fields (stream_text (ReplayAsStream r)) = Fields (Content (ChoiceMessage c)) /\
  exists body, ReplayAsStream r =
    body ++ [chunk_of r (mkDelta "" "") (FinishReason c) (RespUsage r); Done].
Proof.
  intros E. assert (stream_text (ReplayAsStream r) =
    String.concat " " (Fields (Content (ChoiceMessage c)))) as T.
  { unfold ReplayAsStream. rewrite E, !stream_text_app, word_texts_concat. simpl.
    by rewrite str_app_nil_r. }
  split; [done|]. split.
  - rewrite T. apply Fields_concat, fields_from_words; [|done]. intros a b W N. by destruct a, b.
  - unfold ReplayAsStream. rewrite E. eexists. rewrite (assoc_L (++)). done.
Qed.

(** Two lines of code come back on one line. *)
Lemma ReplayAsStream_text_witness :
  stream_text (ReplayAsStream (mkResponse "id" "chat.completion" 0 "m"
    [mkChoice 0 (mkMessage "assistant" ("a:" +:+ newline +:+ "  b")) "stop"] None)) = "a: b".
Proof.
  destruct (ReplayAsStream_text (mkResponse "id" "chat.completion" 0 "m"
    [mkChoice 0 (mkMessage "assistant" ("a:" +:+ newline +:+ "  b")) "stop"] None)
    (mkChoice 0 (mkMessage "assistant" ("a:" +:+ newline +:+ "  b")) "stop") []) as [H _].
  - reflexivity.
  - rewrite H. vm_compute. reflexivity.
Defined.

End Exact.
