(* ===== verification/CacheFlights.v ===== *)
(** * Concurrent requests to the cache (internal/gateway/middleware/cache.go)

    The cache middleware under concurrency: requests arrive, identical ones that miss the cache
    join one execution of the next handler, the execution answers all that joined it, and a
    background goroutine stores the answer later. Each of these is one step. The library that
    joins duplicate calls is the class [SingleFlight], which states what it documents: one
    execution per key at a time, and a duplicate waits for it and receives its result. *)

From S2P Require Import Prelude Float64 Types ExactCache.
Local Open Scope Z_scope.
Import Exact.

Module Flights.

(** ** Joining duplicate calls *)

(** A group of calls: the execution in flight for a key, with the closure that runs and the
    callers that wait for it, the one that started it first. *)
Class SingleFlight (F : Type) := {
  Group : Type;
  new_group : Group;
  flight : string -> Group -> option (F * list nat);
  Do : string -> nat -> F -> Group -> Group;
  returned : string -> Group -> Group
}.

Class SingleFlightLaws (F : Type) `{!SingleFlight F} : Prop := {
  flight_new : forall k, flight k new_group = None;
  flight_Do : forall k r (f : F) g, flight k (Do k r f g) =
    match flight k g with Some (f0, cs) => Some (f0, cs ++ [r]) | None => Some (f, [r]) end;
  flight_Do_other : forall k k' r (f : F) g, k <> k' -> flight k' (Do k r f g) = flight k' g;
  flight_returned : forall k (g : Group), flight k (returned k g) = None;
  flight_returned_other : forall k k' (g : Group), k <> k' -> flight k' (returned k g) = flight k' g
}.

#[export] Instance map_flights F : SingleFlight F := {
  Group := gmap string (F * list nat);
  new_group := ∅;
  flight k g := g !! k;
  Do k r f g := <[k := match g !! k with Some (f0, cs) => (f0, cs ++ [r]) | None => (f, [r]) end]> g;
  returned k g := delete k g
}.

#[export] Instance map_flights_laws F : SingleFlightLaws F.
Proof.
  split; simpl; intros.
  - apply lookup_empty.
  - rewrite lookup_insert_eq. by destruct (_ !! _) as [[]|].
  - by rewrite lookup_insert_ne.
  - apply lookup_delete_eq.
  - by rewrite lookup_delete_ne.
Qed.

Section Middleware.
Abbreviation Redis := (gmap string (string * option Time)).
Context `{Codec} `{SF : !SingleFlight call}.

(** ** The middleware *)

(** What the handler decides before it calls the group. *)
Inductive admission := PassOn | Hit (e : Entry) (stream : bool) | Share (key : string).

Definition enter (st : Redis) (q : call) (get_ok : bool) (now : Time) : admission :=
  if negb (HasSuffix (c_path q) "/chat/completions") then PassOn
  else match c_req q with
       | None => PassOn
       | Some req =>
           if negb (IsCacheable req true (c_headers q)) then PassOn
           else
             let key := BuildKey req in
             if String.eqb key "" then PassOn
             else match Get st key get_ok now with
                  | Ok (Some e) => Hit e (Stream req)
                  | _ => if Stream req then PassOn else Share key
                  end
       end.

(** The closure's answer to store: a parsed answer with status 200. *)
Definition to_store (q : call) : option ChatCompletionResponse :=
  if c_code q =? 200 then c_parsed q else None.

(** The cache, the group, the stores that background goroutines still have to make, the answers
    given so far, and the executions started and finished by their key. *)
Record State := mkState {
  redis : Redis;
  group : Group;
  pending : list (string * call * ChatCompletionResponse);
  answers : list (nat * served);
  started : list string;
  finished : list string
}.

Definition init : State := mkState ∅ new_group [] [] [] [].

Inductive event :=
| Arrive (r : nat) (q : call) (get_ok : bool) (now : Time)
| Answer (key : string)
| Save (i : nat) (set_ok : bool) (now : Time).

Definition respond (st : State) (r : nat) (a : served) : State :=
  mkState (redis st) (group st) (pending st) (answers st ++ [(r, a)]) (started st) (finished st).

(** A request [r] comes to the middleware; the next handler's answer to it, should it run, is
    part of [q]. *)
Definition arrive (st : State) (r : nat) (q : call) (get_ok : bool) (now : Time) : State :=
  match enter (redis st) q get_ok now with
  | PassOn => respond st r FromNext
  | Hit e stream => respond st r (FromCache e stream)
  | Share key =>
      mkState (redis st) (Do key r q (group st)) (pending st) (answers st)
        (match flight key (group st) with None => started st ++ [key] | Some _ => started st end)
        (finished st)
  end.

(** The next handler returns to the closure of the execution in flight: all its callers are
    answered, and the store is left to a goroutine. *)
Definition answer (st : State) (key : string) : State :=
  match flight key (group st) with
  | None => st
  | Some (q, cs) =>
      mkState (redis st) (returned key (group st))
        (match to_store q with Some resp => pending st ++ [(key, q, resp)] | None => pending st end)
        (answers st ++ map (fun r => (r, Recorded (c_code q) (c_body q))) cs)
        (started st) (finished st ++ [key])
  end.

Definition save (c : Cache) (st : State) (i : nat) (set_ok : bool) (now : Time) : State :=
  match pending st !! i with
  | None => st
  | Some (key, _, resp) =>
      mkState (Store c (redis st) key resp f64_0 0 set_ok now).2 (group st)
        (delete i (pending st)) (answers st) (started st) (finished st)
  end.

Definition step (c : Cache) (st : State) (ev : event) : State :=
  match ev with
  | Arrive r q get_ok now => arrive st r q get_ok now
  | Answer key => answer st key
  | Save i set_ok now => save c st i set_ok now
  end.

Definition run (c : Cache) (evs : list event) : State := foldl (step c) init evs.

(** ** Without duplicates: the middleware of the sequential model *)

Lemma Handler_enter c st q g s now :
  Handler c st q g s now =
  match enter st q g now with
  | PassOn => (FromNext, st)
  | Hit e stream => (FromCache e stream, st)
  | Share key => (Recorded (c_code q) (c_body q),
                  match to_store q with
                  | Some resp => (Store c st key resp f64_0 0 s now).2
                  | None => st
                  end)
  end.
Proof.
  unfold Handler, enter, to_store. destruct (HasSuffix _ _); [|done]. simpl.
  destruct (c_req q) as [req|]; [|done]. destruct (IsCacheable _ _ _); [|done]. simpl.
  destruct (String.eqb _ ""); [done|].
  destruct (Get _ _ _ _) as [[e|]|]; [done| |].
  all: destruct (Stream req); [done|]; destruct (c_parsed q), (c_code q =? 200); done.
Qed.

Context `{SFL : !SingleFlightLaws call}.

(** A request that is alone: its arrival, the answer of the next handler and the store together
    are the sequential middleware. *)
Lemma alone_is_Handler c st r q g s now :
  pending st = [] -> (forall k, flight k (group st) = None) ->
  let st' := match enter (redis st) q g now with
             | Share key => foldl (step c) st [Arrive r q g now; Answer key; Save 0 s now]
             | _ => step c st (Arrive r q g now)
             end in
  redis st' = (Handler c (redis st) q g s now).2 /\
  answers st' = answers st ++ [(r, (Handler c (redis st) q g s now).1)] /\ pending st' = [] /\
  (forall k, flight k (group st') = None).
Proof.
  intros P Fl. rewrite Handler_enter. cbn [foldl step]. unfold arrive.
  destruct (enter (redis st) q g now) as [|e stream|key] eqn:A; [by simpl..|].
  unfold answer. cbn [group redis pending answers]. rewrite flight_Do, Fl.
  cbn [map]. unfold save. cbn [pending group redis answers]. rewrite P.
  assert (forall k, flight k (returned key (Do key r q (group st))) = None) as N.
  { intros k. destruct (decide (key = k)) as [->|E]; [apply flight_returned|].
    by rewrite flight_returned_other, flight_Do_other. }
  by destruct (to_store q).
Qed.

(** ** Every interleaving *)

Definition arrivals (evs : list event) : list (nat * call) :=
  omap (fun ev => match ev with Arrive r q _ _ => Some (r, q) | _ => None end) evs.

(** The key under which a request may share an execution. *)
Definition shared_key (q : call) : option string :=
  match c_req q with
  | Some req =>
      if IsCacheable req true (c_headers q) && negb (String.eqb (BuildKey req) "") && negb (Stream req)
      then Some (BuildKey req) else None
  | None => None
  end.

Definition occ (k : string) (l : list string) : nat := length (List.filter (String.eqb k) l).

Lemma occ_app k a b : occ k (a ++ b) = (occ k a + occ k b)%nat.
Proof. unfold occ. by rewrite List.filter_app, length_app. Qed.

Lemma occ_one k k' : occ k [k'] = if decide (k = k') then 1%nat else 0%nat.
Proof. unfold occ. simpl. destruct (String.eqb_spec k k'), (decide (k = k')); done. Qed.

Lemma enter_Share st q g now key : enter st q g now = Share key -> shared_key q = Some key.
Proof.
  unfold enter, shared_key. destruct (HasSuffix _ _); [|done]. simpl.
  destruct (c_req q) as [req|]; [|done]. destruct (IsCacheable _ _ _); [|done]. simpl.
  destruct (String.eqb _ ""); [done|]. simpl.
  destruct (Get _ _ _ _) as [[e|]|]; [done| |]; destruct (Stream req); simpl; congruence.
Qed.

(** What a served answer says about the requests that came. *)
Definition explained (c : Cache) (arr : list (nat * call)) (r : nat) (a : served) : Prop :=
  match a with
  | FromNext => True
  | Recorded code body =>
      exists q r0 q0 k, (r, q) ∈ arr /\ (r0, q0) ∈ arr /\ shared_key q = Some k /\ shared_key q0 = Some k /\
        code = c_code q0 /\ body = c_body q0
  | FromCache e _ =>
      exists q req r0 q0, (r, q) ∈ arr /\ c_req q = Some req /\ (r0, q0) ∈ arr /\
        shared_key q0 = Some (BuildKey req) /\ c_code q0 = 200 /\ c_parsed q0 = Some (EResponse e)
  end.

Record inv (c : Cache) (arr : list (nat * call)) (st : State) : Prop := {
  i_once : NoDup (answers st).*1;
  i_flight : forall k f cs, flight k (group st) = Some (f, cs) ->
    NoDup cs /\ (exists r, (r, f) ∈ arr /\ shared_key f = Some k) /\
    forall r, r ∈ cs -> r ∉ (answers st).*1 /\ exists q, (r, q) ∈ arr /\ shared_key q = Some k;
  i_known : forall r, r ∈ (answers st).*1 -> r ∈ arr.*1;
  i_all : forall r, r ∈ arr.*1 ->
    r ∈ (answers st).*1 \/ exists k f cs, flight k (group st) = Some (f, cs) /\ r ∈ cs;
  i_explained : forall r a, (r, a) ∈ answers st -> explained c arr r a;
  i_runs : forall k, occ k (started st) =
    (occ k (finished st) + match flight k (group st) with Some _ => 1 | None => 0 end)%nat;
  i_pending : forall k q resp, (k, q, resp) ∈ pending st ->
    recorded_by q 0 k resp /\ exists r, (r, q) ∈ arr;
  i_stored : exists hist, from_history c hist (redis st) /\ forall q t, (q, t) ∈ hist -> exists r, (r, q) ∈ arr
}.

Lemma explained_mono c arr arr' r a : (forall x, x ∈ arr -> x ∈ arr') -> explained c arr r a -> explained c arr' r a.
Proof.
  intros S. destruct a as [|e s|code body]; [done| |].
  - intros (q & req & r0 & q0 & A & B & C & D). exists q, req, r0, q0. split_and!; naive_solver.
  - intros (q & r0 & q0 & k & A & B & C). exists q, r0, q0, k. split_and!; naive_solver.
Qed.

Lemma inv_init c : inv c [] init.
Proof.
  split; unfold init; cbn.
  - constructor.
  - intros k f cs Fl. by rewrite flight_new in Fl.
  - set_solver.
  - set_solver.
  - set_solver.
  - intros k. by rewrite flight_new.
  - set_solver.
  - exists []. split; [|set_solver]. intros key v e L. exfalso. exact (lookup_empty_Some _ _ L).
Qed.

(** A request that is answered at once. *)
Lemma inv_respond c arr st r q a :
  inv c arr st -> r ∉ arr.*1 -> explained c (arr ++ [(r, q)]) r a -> inv c (arr ++ [(r, q)]) (respond st r a).
Proof.
  intros [I1 I2 I3 I4 I5 I6 I7 I8] N E.
  assert (forall x, x ∈ arr -> x ∈ arr ++ [(r, q)]) as Mono by (intros; apply elem_of_app; auto).
  split; cbn [respond answers group started finished pending redis]; rewrite ?fmap_app; cbn [fmap list_fmap fst] in *.
  - apply NoDup_app. split; [done|]. split; [|apply NoDup_singleton].
    intros x A. rewrite list_elem_of_singleton. intros ->. by apply N, I3.
  - intros k f cs Fl. destruct (I2 k f cs Fl) as (A & (r0 & B & B') & C). split; [done|]. split; [eauto|].
    intros x X. destruct (C x X) as (D & q' & D' & D''). split; [|eauto].
    rewrite elem_of_app, list_elem_of_singleton. intros [?| ->]; [done|].
    apply N, list_elem_of_fmap. by exists (r, q').
  - intros x. rewrite !elem_of_app. intros [A|A]; [left; auto|by right].
  - intros x. rewrite !elem_of_app. intros [A|A]; [|left; by right]. destruct (I4 x A) as [?|?]; [left; by left|by right].
  - intros x a'. rewrite elem_of_app, list_elem_of_singleton. intros [A|[= -> ->]]; [|done].
    eapply explained_mono; eauto.
  - done.
  - intros k q' resp P. destruct (I7 k q' resp P) as (A & r' & B). eauto.
  - destruct I8 as (hist & A & B). exists hist. split; [done|]. intros q' t X. destruct (B q' t X). eauto.
Qed.

(** A request that joins an execution, or starts one. *)
Lemma inv_share c arr st r q key g now :
  inv c arr st -> r ∉ arr.*1 -> enter (redis st) q g now = Share key ->
  inv c (arr ++ [(r, q)]) (arrive st r q g now).
Proof.
  intros [I1 I2 I3 I4 I5 I6 I7 I8] N Ad. pose proof (enter_Share _ _ _ _ _ Ad) as K. unfold arrive. rewrite Ad.
  assert (forall x, x ∈ arr -> x ∈ arr ++ [(r, q)]) as Mono by (intros; apply elem_of_app; auto).
  assert ((r, q) ∈ arr ++ [(r, q)]) as Here by (apply elem_of_app; right; left).
  assert (forall k f cs x, flight k (group st) = Some (f, cs) -> x ∈ cs -> x ∈ arr.*1) as Known.
  { intros k f cs x Fl X. destruct (I2 k f cs Fl) as (_ & _ & C). destruct (C x X) as (_ & q' & D & _).
    apply list_elem_of_fmap. by exists (x, q'). }
  assert (forall k f cs, flight k (group st) = Some (f, cs) ->
    NoDup cs /\ (exists r0, (r0, f) ∈ arr ++ [(r, q)] /\ shared_key f = Some k) /\
    forall x, x ∈ cs -> x ∉ (answers st).*1 /\ exists q', (x, q') ∈ arr ++ [(r, q)] /\ shared_key q' = Some k) as I2'.
  { intros k f cs Fl. destruct (I2 k f cs Fl) as (A & (r0 & B & B') & C). split; [done|]. split; [eauto|].
    intros x X. destruct (C x X) as (D & q' & D' & D''). eauto. }
  split; cbn [answers group started finished pending redis]; rewrite ?fmap_app; cbn [fmap list_fmap fst].
  - done.
  - intros k f cs. destruct (decide (key = k)) as [<-|Ne]; [|rewrite flight_Do_other by done; apply I2'].
    assert (r ∉ (answers st).*1) as Na by (intros X; by apply N, I3).
    rewrite flight_Do. destruct (flight key (group st)) as [[f0 cs0]|] eqn:Fl.
    + intros [= <- <-]. destruct (I2' _ _ _ Fl) as (A & B & C). split; [|split; [done|]].
      * apply NoDup_app. split; [done|]. split; [|apply NoDup_singleton].
        intros x X. rewrite list_elem_of_singleton. intros ->. apply N. eapply Known; eauto.
      * intros x. rewrite elem_of_app, list_elem_of_singleton. intros [X| ->]; [by apply C|]. eauto.
    + intros [= <- <-]. split; [apply NoDup_singleton|]. split; [eauto|].
      intros x. rewrite list_elem_of_singleton. intros ->. eauto.
  - intros x X. rewrite elem_of_app. left. auto.
  - intros x. rewrite elem_of_app. intros X. cut (x = r \/ x ∈ arr.*1).
    + intros [->|Y].
      * right. exists key. rewrite flight_Do. destruct (flight key (group st)) as [[f0 cs0]|]; do 2 eexists; split; try done;
          rewrite ?elem_of_app; rewrite list_elem_of_singleton; auto.
      * destruct (I4 x Y) as [?|(k & f & cs & Fl & Z)]; [by left|]. right. exists k.
        destruct (decide (key = k)) as [<-|Ne].
        -- rewrite flight_Do, Fl. do 2 eexists. split; [done|]. apply elem_of_app. by left.
        -- rewrite flight_Do_other by done. eauto.
    + destruct X as [X|X]; [by right|]. apply list_elem_of_singleton in X. by left.
  - intros x a X. eapply explained_mono; eauto.
  - intros k. specialize (I6 k). destruct (decide (key = k)) as [<-|Ne].
    + rewrite flight_Do. destruct (flight key (group st)) as [[]|]; [done|].
      rewrite occ_app, I6, occ_one, decide_True by done. lia.
    + rewrite flight_Do_other by done. destruct (flight key (group st)); [done|].
      rewrite occ_app, I6, occ_one, decide_False by congruence. lia.
  - intros k q' resp P. destruct (I7 k q' resp P) as (A & r' & B). eauto.
  - destruct I8 as (hist & A & B). exists hist. split; [done|]. intros q' t X. destruct (B q' t X). eauto.
Qed.

Lemma to_store_recorded q key resp :
  shared_key q = Some key -> to_store q = Some resp -> recorded_by q 0 key resp.
Proof.
  unfold shared_key, to_store, recorded_by. intros K S. destruct (c_req q) as [req|] eqn:Q; [|done].
  destruct (IsCacheable _ _ _) eqn:C; [|done]. destruct (String.eqb_spec (BuildKey req) ""); [done|].
  destruct (Stream req) eqn:T; [done|]. simpl in K. destruct (Z.eqb_spec (c_code q) 200); [|done].
  exists req. split_and!; congruence.
Qed.

(** The end of an execution. *)
Lemma inv_answer c arr st key : NoDup arr.*1 -> inv c arr st -> inv c arr (answer st key).
Proof.
  intros U [I1 I2 I3 I4 I5 I6 I7 I8]. unfold answer.
  destruct (flight key (group st)) as [[q cs]|] eqn:Fl; [|by split].
  destruct (I2 _ _ _ Fl) as (A & (r0 & B & B') & C).
  assert ((map (fun r => (r, Recorded (c_code q) (c_body q))) cs).*1 = cs) as Ids.
  { rewrite <- list_fmap_compose. etrans; [|apply list_fmap_id]. done. }
  assert (forall k f cs', flight k (returned key (group st)) = Some (f, cs') -> key <> k /\ flight k (group st) = Some (f, cs')) as Other.
  { intros k f cs' X. destruct (decide (key = k)) as [<-|Ne]; [by rewrite flight_returned in X|].
    by rewrite flight_returned_other in X. }
  split; cbn [answers group started finished pending redis]; rewrite ?fmap_app, ?Ids.
  - apply NoDup_app. split; [done|]. split; [|done]. intros x X Y. by apply (C x Y).
  - intros k f cs' X. apply Other in X as [Ne X]. destruct (I2 _ _ _ X) as (A' & D & C'). split; [done|]. split; [done|].
    intros x Y. destruct (C' x Y) as (E & q' & F & G). split; [|eauto]. rewrite elem_of_app. intros [?|Z]; [done|].
    destruct (C x Z) as (_ & q'' & F' & G'). assert (q' = q''); [|congruence].
    apply list_elem_of_lookup in F as [i F], F' as [j F'].
    assert (i = j) as <-; [|congruence]. eapply (NoDup_lookup arr.*1); [done| |]; rewrite list_lookup_fmap.
    + by rewrite F.
    + by rewrite F'.
  - intros x. rewrite elem_of_app. intros [X|X]; [auto|]. destruct (C x X) as (_ & q' & F & _).
    apply list_elem_of_fmap. by exists (x, q').
  - intros x X. rewrite elem_of_app. destruct (I4 x X) as [?|(k & f & cs' & Y & Z)]; [left; by left|].
    destruct (decide (key = k)) as [<-|Ne]; [left; right; congruence|].
    right. exists k, f, cs'. by rewrite flight_returned_other.
  - intros x a. rewrite elem_of_app, list_elem_of_fmap. intros [X|(y & [= -> ->] & Y)]; [auto|].
    destruct (C y Y) as (_ & q' & F & G). cbn. exists q', r0, q, key. done.
  - intros k. rewrite occ_app, occ_one, I6. destruct (decide (k = key)) as [->|Ne].
    + rewrite Fl, flight_returned. lia.
    + rewrite flight_returned_other by done. lia.
  - intros k q' resp. destruct (to_store q) as [resp'|] eqn:T; [|apply I7].
    rewrite elem_of_app, list_elem_of_singleton. intros [P|[= -> -> ->]]; [by apply I7|].
    split; [by apply to_store_recorded|eauto].
  - done.
Qed.

(** A store made by a goroutine. *)
Lemma inv_save c arr st i ok now : inv c arr st -> inv c arr (save c st i ok now).
Proof.
  intros [I1 I2 I3 I4 I5 I6 I7 I8]. unfold save. destruct (pending st !! i) as [[[key q] resp]|] eqn:P; [|by split].
  split; cbn [answers group started finished pending redis]; try done.
  - intros k q' resp' X. apply I7. apply list_elem_of_lookup in X as [j X].
    destruct (Nat.lt_ge_cases j i); [rewrite list_lookup_delete_lt in X by done|rewrite list_lookup_delete_ge in X by done];
      by eapply list_elem_of_lookup_2.
  - destruct I8 as (hist & A & B). destruct (I7 key q resp) as ((req & R) & r & E); [by eapply list_elem_of_lookup_2|].
    exists ((q, now) :: hist). split; [apply Store_from_history; [done|by exists req]|].
    intros q' t. rewrite elem_of_cons. intros [[= -> ->]|X]; eauto.
Qed.

Context `{CL : !CodecLaws}.

Lemma shared_recorded q t key resp :
  recorded_by q t key resp -> shared_key q = Some key /\ c_code q = 200 /\ c_parsed q = Some resp.
Proof.
  intros (req & Q & <- & N & S & C & K & P). unfold shared_key. rewrite Q, C, S.
  apply String.eqb_neq in N. by rewrite N.
Qed.

Lemma admit_Hit st q g now e stream :
  enter st q g now = Hit e stream ->
  exists req, c_req q = Some req /\ BuildKey req <> "" /\ Get st (BuildKey req) g now = Ok (Some e).
Proof.
  unfold enter. destruct (HasSuffix _ _); [|done]. simpl. destruct (c_req q) as [req|]; [|done].
  destruct (IsCacheable _ _ _); [|done]. simpl. destruct (String.eqb_spec (BuildKey req) ""); [done|].
  destruct (Get _ _ _ _) as [[e'|]|] eqn:G; [|by destruct (Stream req)..]. intros [= <- <-]. by exists req.
Qed.

Lemma inv_step c arr st ev :
  NoDup (arr ++ arrivals [ev]).*1 -> inv c arr st -> inv c (arr ++ arrivals [ev]) (step c st ev).
Proof.
  intros U I. destruct ev as [r q g now|key|i ok now]; cbn [arrivals omap list_omap step] in *;
    rewrite ?app_nil_r in *; [|by apply inv_answer|by apply inv_save].
  assert (r ∉ arr.*1) as N.
  { rewrite fmap_app in U. apply NoDup_app in U as (_ & U & _). intros X. apply (U r X). left. }
  destruct (enter (redis st) q g now) as [|e stream|key] eqn:A; [| |by eapply inv_share]; unfold arrive; rewrite A.
  - by apply inv_respond.
  - apply inv_respond; [done|done|]. destruct (admit_Hit _ _ _ _ _ _ A) as (req & Q & _ & G).
    destruct (i_stored _ _ _ I) as (hist & F & K).
    destruct (Get_from_history _ _ _ _ _ _ _ F G) as (q0 & t & X & R & _).
    destruct (K q0 t X) as (r0 & Y). apply shared_recorded in R as (R1 & R2 & R3).
    exists q, req, r0, q0. rewrite !elem_of_app. split_and!; auto. right. left.
Qed.

Lemma inv_run c evs : NoDup (arrivals evs).*1 -> inv c (arrivals evs) (run c evs).
Proof.
  unfold run. induction evs as [|ev evs IH] using rev_ind; intros U; [apply inv_init|].
  assert (arrivals (evs ++ [ev]) = arrivals evs ++ arrivals [ev]) as E by apply omap_app.
  rewrite foldl_app, E in *. cbn [foldl]. apply inv_step; [done|]. apply IH.
  rewrite fmap_app in U. by apply NoDup_app in U as (? & _).
Qed.

(** C22. Concurrent requests to the cache. Whatever the order in which distinct requests arrive,
    executions of the next handler end and answers are stored: a request is answered at most
    once; one that is not answered yet waits for an execution in flight under its own key; for
    every key at most one execution is in flight, so that the executions started are those
    finished and at most one more; a recorded answer is the answer of the next handler to a
    request with the same key fields; and an answer from the cache is an answer with status 200
    that the next handler gave to a request with the same key fields. *)
Theorem duplicates_share c evs :
  NoDup (arrivals evs).*1 ->
  let st := run c evs in
  NoDup (answers st).*1 /\
  (forall r q, (r, q) ∈ arrivals evs ->
     r ∈ (answers st).*1 \/
     exists k f cs, shared_key q = Some k /\ flight k (group st) = Some (f, cs) /\ r ∈ cs) /\
  (forall k, (occ k (finished st) <= occ k (started st) <= S (occ k (finished st)))%nat) /\
  (forall r code body, (r, Recorded code body) ∈ answers st ->
     exists q r0 q0 req req0, (r, q) ∈ arrivals evs /\ (r0, q0) ∈ arrivals evs /\
       c_req q = Some req /\ c_req q0 = Some req0 /\
       marshal_key (key_data req) = marshal_key (key_data req0) /\ code = c_code q0 /\ body = c_body q0) /\
  (forall r e stream, (r, FromCache e stream) ∈ answers st ->
     exists q r0 q0 req req0, (r, q) ∈ arrivals evs /\ (r0, q0) ∈ arrivals evs /\
       c_req q = Some req /\ c_req q0 = Some req0 /\
       marshal_key (key_data req) = marshal_key (key_data req0) /\
       c_code q0 = 200 /\ c_parsed q0 = Some (EResponse e)).
Proof.
  intros U st. pose proof (inv_run c evs U) as [I1 I2 I3 I4 I5 I6 I7 I8]. fold st in I1, I2, I3, I4, I5, I6.
  assert (forall q k, shared_key q = Some k -> exists req, c_req q = Some req /\ BuildKey req = k /\ k <> "") as Sk.
  { intros q k. unfold shared_key. destruct (c_req q) as [req|]; [|done].
    destruct (String.eqb_spec (BuildKey req) ""); [by rewrite andb_false_r|].
    destruct (_ && _); [|done]. intros [= <-]. eauto. }
  split_and!; [done| | | |].
  - intros r q A. destruct (I4 r) as [?|(k & f & cs & Fl & X)]; [apply list_elem_of_fmap; by exists (r, q)|by left|].
    right. destruct (I2 _ _ _ Fl) as (_ & _ & C). destruct (C r X) as (_ & q' & B & K).
    exists k, f, cs. split; [|done]. rewrite <- K. f_equal.
    apply list_elem_of_lookup in A as [i A], B as [j B].
    assert (i = j) as <-; [|congruence]. eapply (NoDup_lookup (arrivals evs).*1); [done| |]; rewrite list_lookup_fmap.
    + by rewrite A.
    + by rewrite B.
  - intros k. specialize (I6 k). destruct (flight k (group st)); lia.
  - intros r code body X. destruct (I5 _ _ X) as (q & r0 & q0 & k & A & B & C & D & -> & ->).
    destruct (Sk _ _ C) as (req & Q & K & N), (Sk _ _ D) as (req0 & Q0 & K0 & _).
    exists q, r0, q0, req, req0. split_and!; try done. apply BuildKey_inj; congruence.
  - intros r e stream X. destruct (I5 _ _ X) as (q & req & r0 & q0 & A & Q & B & C & D & E).
    destruct (Sk _ _ C) as (req0 & Q0 & K0 & N). exists q, r0, q0, req, req0. split_and!; try done.
    apply BuildKey_inj; congruence.
Qed.

End Middleware.
(** ** Witnesses *)

#[local] Existing Instances demo_codec demo_laws.

(** The next handler's answer to a request whose client went away. *)
Definition cancelled_call : call :=
  mkCall "/v1/chat/completions" (Some (demo_req None)) ∅ 502 "context canceled" None.

(** Three requests join one execution, and a fourth is served from what it stored. *)
Definition demo_events : list event :=
  [Arrive 0 demo_call true 1; Arrive 1 demo_call true 2; Arrive 2 demo_call true 3; Answer "m"; Save 0 true 5;
   Arrive 3 demo_call true 6].

Lemma duplicates_share_witness :
  answers (run (mkCache 1000 60) demo_events) =
    [(0%nat, Recorded 200 "{}"); (1%nat, Recorded 200 "{}"); (2%nat, Recorded 200 "{}");
     (3%nat, FromCache demo_entry false)] /\
  (occ "m" (finished (run (mkCache 1000 60) demo_events)) <= occ "m" (started (run (mkCache 1000 60) demo_events)))%nat.
Proof.
  split; [vm_compute; reflexivity|].
  destruct (duplicates_share (mkCache 1000 60) demo_events) as (_ & _ & H & _).
  - vm_compute. repeat constructor; set_solver.
  - apply (H "m").
Defined.

(** A caller that joins an execution gets the answer made for the caller that started it: when
    the first client disconnects, its cancelled request is the answer of all of them, although
    the next handler would have answered the second request. *)
Example followers_share_failure :
  answers (run (mkCache 1000 60)
    [Arrive 0 cancelled_call true 1; Arrive 1 demo_call true 2; Answer "m"]) =
  [(0%nat, Recorded 502 "context canceled"); (1%nat, Recorded 502 "context canceled")].
Proof. vm_compute. reflexivity. Qed.

End Flights.
