(* ===== verification/Chat.v ===== *)
(** * The chat endpoint (internal/gateway/handler/chat.go, internal/gateway/proxy/stream.go,
    internal/telemetry/request_log.go)

    The request log context, the streaming of provider chunks to the client as server-sent
    events, and the chat completions handler that validates a request, resolves its chain,
    applies data residency and runs the fallback router. *)

From S2P Require Import Prelude Float64 Types ProviderErrors LoadBalancer Fallback Cost VirtualKey Routing.
From S2P Require Import Access ExactCache.
Import PErr.
Local Open Scope Z_scope.

Module Telemetry.

(** [RequestLogContext]; the setters do nothing when the context has none. *)
Record RequestLogContext := mkLC {
  LVirtualKeyID : option UUID;
  LUserID : option UUID;
  LTeamID : option UUID;
  LOrgID : option UUID;
  LModel : string;
  LProvider : string;
  LPromptTokens : Z;
  LCompletionTokens : Z;
  LTotalTokens : Z;
  LFinishReason : string;
  LErrorCode : string;
  LErrorMessage : string;
  LIsStreaming : bool;
  LTTFTAt : Time;
  LCostUSD : float64;
  LCacheResult : string
}.

Definition empty_log : RequestLogContext :=
  mkLC None None None None "" "" 0 0 0 "" "" "" false 0 f64_0 "".

Definition SetVirtualKeyInfo (k u t o : option UUID) (l : RequestLogContext) : RequestLogContext :=
  mkLC k u t o (LModel l) (LProvider l) (LPromptTokens l) (LCompletionTokens l) (LTotalTokens l)
    (LFinishReason l) (LErrorCode l) (LErrorMessage l) (LIsStreaming l) (LTTFTAt l) (LCostUSD l)
    (LCacheResult l).

Definition SetModel (model provider : string) (l : RequestLogContext) : RequestLogContext :=
  mkLC (LVirtualKeyID l) (LUserID l) (LTeamID l) (LOrgID l) model provider (LPromptTokens l)
    (LCompletionTokens l) (LTotalTokens l) (LFinishReason l) (LErrorCode l) (LErrorMessage l)
    (LIsStreaming l) (LTTFTAt l) (LCostUSD l) (LCacheResult l).

Definition SetTokens (p c t : Z) (l : RequestLogContext) : RequestLogContext :=
  mkLC (LVirtualKeyID l) (LUserID l) (LTeamID l) (LOrgID l) (LModel l) (LProvider l) p c t
    (LFinishReason l) (LErrorCode l) (LErrorMessage l) (LIsStreaming l) (LTTFTAt l) (LCostUSD l)
    (LCacheResult l).

Definition SetFinishReason (reason : string) (l : RequestLogContext) : RequestLogContext :=
  mkLC (LVirtualKeyID l) (LUserID l) (LTeamID l) (LOrgID l) (LModel l) (LProvider l)
    (LPromptTokens l) (LCompletionTokens l) (LTotalTokens l) reason (LErrorCode l)
    (LErrorMessage l) (LIsStreaming l) (LTTFTAt l) (LCostUSD l) (LCacheResult l).

Definition SetError (code msg : string) (l : RequestLogContext) : RequestLogContext :=
  mkLC (LVirtualKeyID l) (LUserID l) (LTeamID l) (LOrgID l) (LModel l) (LProvider l)
    (LPromptTokens l) (LCompletionTokens l) (LTotalTokens l) (LFinishReason l) code msg
    (LIsStreaming l) (LTTFTAt l) (LCostUSD l) (LCacheResult l).

Definition SetStreaming (l : RequestLogContext) : RequestLogContext :=
  mkLC (LVirtualKeyID l) (LUserID l) (LTeamID l) (LOrgID l) (LModel l) (LProvider l)
    (LPromptTokens l) (LCompletionTokens l) (LTotalTokens l) (LFinishReason l) (LErrorCode l)
    (LErrorMessage l) true (LTTFTAt l) (LCostUSD l) (LCacheResult l).

Definition RecordTTFT (now : Time) (l : RequestLogContext) : RequestLogContext :=
  if IsZero (LTTFTAt l) then
    mkLC (LVirtualKeyID l) (LUserID l) (LTeamID l) (LOrgID l) (LModel l) (LProvider l)
      (LPromptTokens l) (LCompletionTokens l) (LTotalTokens l) (LFinishReason l) (LErrorCode l)
      (LErrorMessage l) (LIsStreaming l) now (LCostUSD l) (LCacheResult l)
  else l.

Definition SetCacheResult (r : string) (l : RequestLogContext) : RequestLogContext :=
  mkLC (LVirtualKeyID l) (LUserID l) (LTeamID l) (LOrgID l) (LModel l) (LProvider l)
    (LPromptTokens l) (LCompletionTokens l) (LTotalTokens l) (LFinishReason l) (LErrorCode l)
    (LErrorMessage l) (LIsStreaming l) (LTTFTAt l) (LCostUSD l) r.

End Telemetry.

Module Sse.

(** What the select loop takes next: the client is gone, the keepalive ticker fired, a chunk
    at a time, or the provider's channel is closed. *)
Inductive input :=
| CtxDone
| KeepaliveTick
| ChunkIn (c : StreamChunk) (now : Time)
| ChannelClosed.

Record CompletionStreamChoice := mkCSChoice { CSIndex : Z; CSText : string; CSFinish : string }.

Record CompletionStreamChunk := mkCSChunk {
  CSID : string;
  CSObject : string;
  CSCreated : Z;
  CSModel : string;
  CSChoices : list CompletionStreamChoice;
  CSUsage : option Usage
}.

(** What is written to the client. *)
Inductive output :=
| OKeepalive
| OChunk (c : Exact.ChatCompletionChunk)
| OTextChunk (c : CompletionStreamChunk)
| OError (msg : string)
| ODone.

Definition buildChunk (id : string) (created : Z) (model : string) (sc : StreamChunk)
  : Exact.ChatCompletionChunk :=
  Exact.mkChunk id "chat.completion.chunk" created model
    (match SFinishReason sc with
     | Some fr => [Exact.mkChunkChoice 0 (Exact.mkDelta "" "") fr]
     | None => [Exact.mkChunkChoice 0 (Exact.mkDelta "" (SDelta sc)) ""]
     end) (SUsage sc).

Definition buildTextChunk (id : string) (created : Z) (model : string) (sc : StreamChunk)
  : CompletionStreamChunk :=
  mkCSChunk id "text_completion" created model
    [mkCSChoice 0 (SDelta sc) (default "" (SFinishReason sc))] (SUsage sc).

(** [writeSSEError]. *)
Definition writeSSEError (msg : string) : list output := [OError msg; ODone].

(** The telemetry a chunk leaves. *)
Definition note_chunk (c : StreamChunk) (now : Time) (l : Telemetry.RequestLogContext)
  : Telemetry.RequestLogContext :=
  let l := if negb (String.eqb (SDelta c) "") then Telemetry.RecordTTFT now l else l in
  let l := match SUsage c with
           | Some u => Telemetry.SetTokens (PromptTokens u) (CompletionTokens u) (TotalTokens u) l
           | None => l
           end in
  match SFinishReason c with Some fr => Telemetry.SetFinishReason fr l | None => l end.

Section Loop.
(** [error.Error], and how a chunk is rendered. *)
Context (err_text : goerror -> string) (render : StreamChunk -> output).

(** The loop: what is written until it returns or waits for more input. *)
Fixpoint stream_loop (ins : list input) (l : Telemetry.RequestLogContext)
  : list output * Telemetry.RequestLogContext :=
  match ins with
  | [] => ([], l)
  | CtxDone :: _ => ([], l)
  | KeepaliveTick :: ins => let '(out, l) := stream_loop ins l in (OKeepalive :: out, l)
  | ChannelClosed :: _ => ([ODone], l)
  | ChunkIn c now :: ins =>
      match SError c with
      | Some e => (writeSSEError (err_text e), Telemetry.SetError "stream_error" (err_text e) l)
      | None =>
          let '(out, l) := stream_loop ins (note_chunk c now l) in (render c :: out, l)
      end
  end.

End Loop.

(** [StreamChannelToClient], on a writer that can flush. *)
Definition StreamChannelToClient (err_text : goerror -> string) (id : string) (created : Z)
    (model : string) (ins : list input) (l : Telemetry.RequestLogContext)
  : list output * Telemetry.RequestLogContext :=
  let '(out, l) := stream_loop err_text (fun c => OChunk (buildChunk id created model c)) ins l in
  (OChunk (Exact.mkChunk id "chat.completion.chunk" created model
             [Exact.mkChunkChoice 0 (Exact.mkDelta "assistant" "") ""] None) :: out, l).

Definition StreamTextChannelToClient (err_text : goerror -> string) (id : string) (created : Z)
    (model : string) (ins : list input) (l : Telemetry.RequestLogContext)
  : list output * Telemetry.RequestLogContext :=
  stream_loop err_text (fun c => OTextChunk (buildTextChunk id created model c)) ins l.

(** ** Delivery *)

Definition text_of (o : output) : string :=
  match o with
  | OChunk c => foldr (fun ch s => Exact.DContent (Exact.CCDelta ch) +:+ s) "" (Exact.ChunkChoices c)
  | OTextChunk c => foldr (fun ch s => CSText ch +:+ s) "" (CSChoices c)
  | _ => ""
  end.

(** The text a client reads. *)
Definition received (out : list output) : string := foldr (fun o s => text_of o +:+ s) "" out.

(** The chunks of an input, with keepalives in between, then the channel's close. *)
Fixpoint inputs_of (ins : list input) : option (list StreamChunk) :=
  match ins with
  | [ChannelClosed] => Some []
  | KeepaliveTick :: ins => inputs_of ins
  | ChunkIn c _ :: ins => if bool_decide (SError c = None) then cons c <$> inputs_of ins else None
  | _ => None
  end.

(** The text the provider sent. *)
Definition sent (cs : list StreamChunk) : string := foldr (fun c s => SDelta c +:+ s) "" cs.

(** The text of the chunks that carry no finish reason. *)
Definition sent_before_finish (cs : list StreamChunk) : string :=
  foldr (fun c s => match SFinishReason c with Some _ => s | None => SDelta c +:+ s end) "" cs.

Lemma inputs_of_cons i ins cs :
  inputs_of (i :: ins) = Some cs ->
  (i = ChannelClosed /\ ins = [] /\ cs = []) \/ (i = KeepaliveTick /\ inputs_of ins = Some cs) \/
  (exists c t cs', i = ChunkIn c t /\ SError c = None /\ inputs_of ins = Some cs' /\ cs = c :: cs').
Proof.
  destruct i as [| |c t|]; simpl; [done|auto| |destruct ins; [|done]; intros [= <-]; auto].
  case_bool_decide as E; [|done]. intros H. right. right.
  destruct (inputs_of ins) as [cs'|]; simplify_eq/=. by exists c, t, cs'.
Qed.

(** A stream that closes without error: every chunk is written once, in order, and the marker
    is written once, at the end. *)
Lemma stream_loop_closed err_text render ins cs l :
  inputs_of ins = Some cs ->
  exists out, (stream_loop err_text render ins l).1 = out ++ [ODone] /\
    List.filter (fun o => match o with OKeepalive => false | _ => true end) out =
      List.filter (fun o => match o with OKeepalive => false | _ => true end) (render <$> cs).
Proof.
  revert cs l. induction ins as [|i ins IH]; intros cs l H; [done|].
  apply inputs_of_cons in H as [(-> & -> & ->)|[[-> H]|(c & t & cs' & -> & E & H & ->)]].
  - by exists [].
  - destruct (IH cs l H) as (out & Eo & Ef). simpl.
    destruct (stream_loop err_text render ins l) as [o l']. simpl in *. subst o.
    by exists (OKeepalive :: out).
  - simpl. rewrite E. destruct (IH cs' (note_chunk c t l) H) as (out & Eo & Ef).
    destruct (stream_loop err_text render ins _) as [o l']. simpl in *. subst o.
    exists (render c :: out). split; [done|]. simpl. by rewrite Ef.
Qed.

Lemma received_app a b : received (a ++ b) = received a +:+ received b.
Proof. induction a as [|o a IH]; simpl; [done|]. by rewrite IH, str_app_assoc. Qed.

Lemma received_filter out :
  received (List.filter (fun o => match o with OKeepalive => false | _ => true end) out) = received out.
Proof. induction out as [|[] out IH]; simpl; congruence. Qed.

Lemma received_chunks id created model cs :
  received ((fun c => OChunk (buildChunk id created model c)) <$> cs) = sent_before_finish cs.
Proof.
  induction cs as [|c cs IH]; [done|]. rewrite fmap_cons. simpl. rewrite IH.
  destruct (SFinishReason c); simpl; [done|]. by rewrite str_app_nil_r.
Qed.

Lemma received_text_chunks id created model cs :
  received ((fun c => OTextChunk (buildTextChunk id created model c)) <$> cs) = sent cs.
Proof.
  induction cs as [|c cs IH]; [done|]. rewrite fmap_cons. simpl. rewrite IH. by rewrite str_app_nil_r.
Qed.

(** Stream delivery. When the provider's stream closes without an error, both endpoints
    end with exactly one end marker, at the end. On /v1/completions the client receives
    exactly the text the provider sent. On /v1/chat/completions it receives the text of the
    chunks without a finish reason: text that arrives in the same chunk as the finish reason
    is dropped. *)
Theorem stream_delivery err_text id created model ins cs l :
  inputs_of ins = Some cs ->
  (exists out, (StreamTextChannelToClient err_text id created model ins l).1 = out ++ [ODone] /\
     ODone ∉ out /\ received out = sent cs) /\
  (exists out, (StreamChannelToClient err_text id created model ins l).1 = out ++ [ODone] /\
     ODone ∉ out /\ received out = sent_before_finish cs).
Proof.
  intros H.
  assert (forall (render : StreamChunk -> output) out, (forall c, render c <> ODone) ->
    List.filter (fun o => match o with OKeepalive => false | _ => true end) out =
    List.filter (fun o => match o with OKeepalive => false | _ => true end) (render <$> cs) ->
    ODone ∉ out /\ received out = received (render <$> cs)) as G.
  { intros render out N F. split.
    - intros I. rewrite list_elem_of_In in I.
      assert (In ODone (List.filter (fun o => match o with OKeepalive => false | _ => true end)
        (render <$> cs))) as C by (rewrite <- F; apply filter_In; done).
      apply filter_In in C as [C _]. rewrite <- list_elem_of_In, list_elem_of_fmap in C.
      destruct C as (c & E & _). by apply (N c).
    - by rewrite <- received_filter, F, received_filter. }
  split.
  - unfold StreamTextChannelToClient.
    destruct (stream_loop_closed err_text (fun c => OTextChunk (buildTextChunk id created model c))
      ins cs l H) as (out & -> & F).
    apply G in F as [F1 F2]; [|done]. exists out. rewrite F2, received_text_chunks. done.
  - unfold StreamChannelToClient.
    destruct (stream_loop_closed err_text (fun c => OChunk (buildChunk id created model c))
      ins cs l H) as (out & E & F).
    destruct (stream_loop _ _ ins l) as [o l']. simpl in E. subst o.
    apply G in F as [F1 F2]; [|done]. eexists (_ :: out). split; [done|]. simpl.
    rewrite F2, received_chunks. split; [|done]. rewrite not_elem_of_cons. by split.
Qed.

(** A provider that ends with text and finish reason in one chunk loses that text. *)
Lemma stream_delivery_witness :
  received (StreamChannelToClient (fun _ => "") "id" 0 "m"
    [ChunkIn (mkChunk "Hel" None None None) 1; KeepaliveTick;
     ChunkIn (mkChunk "lo" (Some "stop") None None) 2; ChannelClosed] Telemetry.empty_log).1 = "Hel".
Proof.
  destruct (stream_delivery (fun _ => "") "id" 0 "m"
    [ChunkIn (mkChunk "Hel" None None None) 1; KeepaliveTick;
     ChunkIn (mkChunk "lo" (Some "stop") None None) 2; ChannelClosed]
    [mkChunk "Hel" None None None; mkChunk "lo" (Some "stop") None None] Telemetry.empty_log)
    as [_ (out & E & _ & R)].
  - reflexivity.
  - rewrite E, received_app, R. reflexivity.
Defined.

End Sse.

Module Chat.

(** ** Model strings *)

Definition parseModel (model : string) : ParsedModel :=
  match Index model "/" with
  | Some i =>
      let p := take_str i model in
      if negb (String.eqb p "") then mkParsedModel p (drop_str (S i) model)
      else mkParsedModel "openai" model
  | None => mkParsedModel "openai" model
  end.

Section Handler.
Context {W : Type} `{World W}.
(** [strconv.Quote], [%g], [error.Error], and the JSON decoding of a body ([Err] with the
    decoder's message). *)
Context (Quote : string -> string) (fmt_g : float64 -> string) (err_text : goerror -> string)
        (Unmarshal : string -> res string ChatCompletionRequest).

Definition validateChatRequest (req : ChatCompletionRequest) : res string unit :=
  if String.eqb (Model req) "" then Err "model is required"
  else if Z.of_nat (length (Messages req)) =? 0 then
    Err "messages is required and must not be empty"
  else match Temperature req with
       | Some t =>
           if f64_lt t f64_0 || f64_lt (f64_of_Z 2) t then
             Err ("temperature must be between 0.0 and 2.0, got " +:+ fmt_g t)
           else match MaxTokens req with
                | Some n => if n <=? 0 then Err "max_tokens must be a positive integer" else Ok tt
                | None => Ok tt
                end
       | None =>
           match MaxTokens req with
           | Some n => if n <=? 0 then Err "max_tokens must be a positive integer" else Ok tt
           | None => Ok tt
           end
       end.

(** The handler: its router, the optional rule engine and residency registry, the chains. *)
Record ChatHandler := mkHandler {
  fallbackRouter : Fallback.Router W;
  advRouter : option (ChatCompletionRequest -> option Chain);
  residencyEnforcer : option Residency.PRegistry;
  chains : gmap string Chain
}.

Definition NewChatHandler (fr : Fallback.Router W) : ChatHandler := mkHandler fr None None ∅.

Definition WithAdvancedRouter (h : ChatHandler) (ar : ChatCompletionRequest -> option Chain)
  : ChatHandler := mkHandler (fallbackRouter h) (Some ar) (residencyEnforcer h) (chains h).

Definition WithResidencyEnforcer (h : ChatHandler) (re : Residency.PRegistry) : ChatHandler :=
  mkHandler (fallbackRouter h) (advRouter h) (Some re) (chains h).

Definition SetChains (h : ChatHandler) (cs : list Chain) : ChatHandler :=
  mkHandler (fallbackRouter h) (advRouter h) (residencyEnforcer h)
    (foldl (fun m c => <[ChainName c := c]> m) ∅ cs).

Definition resolveChain (h : ChatHandler) (model : string) : Chain :=
  match chains h !! model with
  | Some c => c
  | None => let parsed := parseModel model in
            SingleTarget (ParsedProvider parsed) (ParsedModelName parsed)
  end.

(** What is answered; [HPanic] is the dereference of a nil response. *)
Inductive response :=
| HError (status : Z) (msg errType code : string)
| HStreamError (status : Z) (msg errType : string)
| HJson (resp : ChatCompletionResponse)
| HStream (out : list Sse.output)
| HPanic.

Definition primary (chain : Chain) : string :=
  match Targets chain with t :: _ => Provider t | [] => "" end.

(** [handleStream]; [schedule] is what the select loop sees of the provider's channel, the
    keepalive ticker and the client, and [id] and [created] are the stream's. *)
Definition handleStream (h : ChatHandler) (req : ChatCompletionRequest) (body : string)
    (chain : Chain) (schedule : list StreamChunk -> list Sse.input) (id : string) (created : Z)
    (l : Telemetry.RequestLogContext) (w : W) : response * Telemetry.RequestLogContext * W :=
  match Fallback.ExecuteStream Quote (fallbackRouter h) chain req body w with
  | (Err (e, _), w) =>
      match errors_As_gateway e with
      | Some g => (HStreamError (HTTPStatus g) (GMessage g) (code_string (Code g)),
                   Telemetry.SetError (code_string (Code g)) (GMessage g) l, w)
      | None => (HStreamError 502 (err_text e) "api_error",
                 Telemetry.SetError "stream_error" (err_text e) l, w)
      end
  | (Ok (ch, used), w) =>
      let l := if negb (String.eqb (Provider used) (primary chain))
               then Telemetry.SetModel (Model req) (Provider used) l else l in
      let '(out, l) := Sse.StreamChannelToClient err_text id created (Model req) (schedule ch) l in
      (HStream out, l, w)
  end.

(** [Handle]: [body] is [None] when it cannot be read. *)
Definition Handle (h : ChatHandler) (ctx : Tenant.Ctx) (body : option string)
    (schedule : list StreamChunk -> list Sse.input) (id : string) (created : Z)
    (l : Telemetry.RequestLogContext) (w : W) : response * Telemetry.RequestLogContext * W :=
  match body with
  | None => (HError 400 "failed to read request body" "invalid_request_error" "", l, w)
  | Some body =>
  match Unmarshal body with
  | Err m => (HError 400 ("invalid JSON: " +:+ m) "invalid_request_error" "", l, w)
  | Ok req =>
  match validateChatRequest req with
  | Err m => (HError 400 m "invalid_request_error" "", l, w)
  | Ok _ =>
      let chain := match advRouter h with
                   | Some resolve =>
                       match resolve req with Some c => c | None => resolveChain h (Model req) end
                   | None => resolveChain h (Model req)
                   end in
      if Z.of_nat (length (Targets chain)) =? 0 then
        (HError 400 ("no provider available for model: " +:+ Model req)
           "invalid_request_error" "model_not_found", l, w)
      else
        let filtered :=
          match residencyEnforcer h with
          | Some reg =>
              let policyName := Residency.PolicyFromContext ctx in
              if negb (String.eqb policyName "")
              then Residency.FilterChain reg policyName chain (Model req) else Ok chain
          | None => Ok chain
          end in
        match filtered with
        | Err e =>
            (HError 451 ("data residency policy '" +:+ Residency.EPolicy e +:+
               "' does not allow provider '" +:+ Residency.EProvider e +:+ "' for model '" +:+
               Residency.EModel e +:+ "'") "data_residency_violation" "no_compliant_provider", l, w)
        | Ok chain =>
            let l := Telemetry.SetModel (Model req) (primary chain) l in
            if Stream req then
              handleStream h req body chain schedule id created (Telemetry.SetStreaming l) w
            else
              match Fallback.Execute Quote (fallbackRouter h) chain req body w with
              | (Err (e, _), w) =>
                  match errors_As_gateway e with
                  | Some g => (HError (HTTPStatus g) (GMessage g) (code_string (Code g)) "",
                               Telemetry.SetError (code_string (Code g)) (GMessage g) l, w)
                  | None => (HError 502 (err_text e) "api_error" "",
                             Telemetry.SetError "api_error" (err_text e) l, w)
                  end
              | (Ok (resp, used), w) =>
                  let l := if negb (String.eqb (Provider used) (primary chain))
                           then Telemetry.SetModel (Model req) (Provider used) l else l in
                  match resp with
                  | None => (HPanic, l, w)
                  | Some resp =>
                      let l := match RespUsage resp with
                               | Some u => Telemetry.SetTokens (PromptTokens u) (CompletionTokens u)
                                             (TotalTokens u) l
                               | None => l
                               end in
                      let l := match Choices resp with
                               | c :: _ => Telemetry.SetFinishReason (FinishReason c) l
                               | [] => l
                               end in
                      (HJson resp, l, w)
                  end
              end
        end
  end
  end
  end.

(** ** Routing of a request *)

(** A request that passes validation. *)
Definition valid (req : ChatCompletionRequest) : Prop :=
  Model req <> "" /\ Messages req <> [] /\
  (forall t, Temperature req = Some t -> f64_lt t f64_0 = false /\ f64_lt (f64_of_Z 2) t = false) /\
  (forall n, MaxTokens req = Some n -> 0 < n).

Lemma validate_spec req : validateChatRequest req = Ok tt <-> valid req.
Proof.
  unfold validateChatRequest, valid.
  destruct (String.eqb_spec (Model req) "") as [E|N]; [split; [done|by intros (? & _)]|].
  destruct (Messages req) as [|m ms]; [split; [done|by intros (_ & ? & _)]|].
  cbn [length]. rewrite (proj2 (Z.eqb_neq _ 0)) by lia.
  assert (match MaxTokens req with
          | Some n => if n <=? 0 then Err "max_tokens must be a positive integer" else Ok tt
          | None => Ok tt end = Ok tt <-> forall n, MaxTokens req = Some n -> 0 < n) as M.
  { destruct (MaxTokens req) as [k|]; [|by split]. destruct (Z.leb_spec k 0).
    - split; [done|]. intros HH. specialize (HH k eq_refl). lia.
    - split; [|done]. intros _ k' [= <-]. done. }
  destruct (Temperature req) as [t|].
  - destruct (f64_lt t f64_0 || f64_lt (f64_of_Z 2) t) eqn:E.
    + split; [done|]. intros (_ & _ & T & _). destruct (T t eq_refl) as [A B].
      by rewrite A, B in E.
    + apply orb_false_iff in E as [A B]. rewrite M. split; [|by intros (_ & _ & _ & ?)].
      intros HM. split_and!; try done. by intros t' [= <-].
  - rewrite M. split; [|by intros (_ & _ & _ & ?)]. intros HM. by split_and!.
Qed.

(** The chain a request is given before residency. *)
Definition routed (h : ChatHandler) (req : ChatCompletionRequest) : Chain :=
  match advRouter h with
  | Some resolve =>
      match resolve req with Some c => c | None => resolveChain h (Model req) end
  | None => resolveChain h (Model req)
  end.

(** [chain] is [routed h req], restricted to what the active policy allows. *)
Definition compliant (h : ChatHandler) (ctx : Tenant.Ctx) (req : ChatCompletionRequest) (chain : Chain)
  : Prop :=
  Targets chain <> [] /\ Targets chain ⊆ Targets (routed h req) /\
  forall reg p, residencyEnforcer h = Some reg ->
    Residency.Get reg (Residency.PolicyFromContext ctx) = Some p ->
    Residency.PolicyFromContext ctx <> "" ->
    Forall (fun t => Residency.IsProviderAllowed p (Provider t) = true) (Targets chain).

Lemma FilterChain_compliant reg name chain model c :
  Residency.FilterChain reg name chain model = Ok c -> Targets chain <> [] ->
  Targets c <> [] /\ Targets c ⊆ Targets chain /\
  forall p, Residency.Get reg name = Some p ->
    Forall (fun t => Residency.IsProviderAllowed p (Provider t) = true) (Targets c).
Proof.
  unfold Residency.FilterChain. destruct (Residency.Get reg name) as [p|]; [|intros [= ->]; done].
  destruct (_ =? 0) eqn:E; [done|]. intros [= <-] N. simpl. breflect. split_and!.
  - intros F. rewrite F in E. done.
  - intros t I. rewrite list_elem_of_In in I. apply filter_In in I as [I _].
    by apply list_elem_of_In.
  - intros p' [= <-]. apply Forall_forall. intros t I. rewrite list_elem_of_In in I.
    by apply filter_In in I as [_ I].
Qed.

Lemma residency_compliant h ctx req chain :
  Targets (routed h req) <> [] ->
  match residencyEnforcer h with
  | Some reg =>
      if negb (String.eqb (Residency.PolicyFromContext ctx) "")
      then Residency.FilterChain reg (Residency.PolicyFromContext ctx) (routed h req) (Model req)
      else Ok (routed h req)
  | None => Ok (routed h req)
  end = Ok chain ->
  compliant h ctx req chain.
Proof.
  intros N F. destruct (residencyEnforcer h) as [reg|] eqn:E.
  - destruct (String.eqb_spec (Residency.PolicyFromContext ctx) "") as [P|P]; simpl in F.
    + injection F as <-. split_and!; done.
    + apply FilterChain_compliant in F as (F1 & F2 & F3); [|done].
      split_and!; [done|done|]. intros reg' p E' G _. rewrite E in E'. injection E' as <-. auto.
  - injection F as <-. split_and!; [done|done|]. intros. congruence.
Qed.

(** An error answer that leaves the world alone. *)
Lemma refused (Q : Prop) s m ty c (w : W) :
  s = 400 \/ s = 451 ->
  HError s m ty c <> HPanic /\
  ((w = w /\ exists s' m' ty' c', HError s m ty c = HError s' m' ty' c' /\ (s' = 400 \/ s' = 451)) \/ Q).
Proof. intros Hs. split; [done|]. left. split; [done|]. by exists s, m, ty, c. Qed.

End Handler.

(** C9. The chat handler. Whatever the request, the handler never dereferences a nil
    response; it either answers with an error without calling any provider, or the request
    is valid and it runs the fallback router, as a stream exactly when the request asks for
    one, on a non-empty chain of the routed targets that contains, when a known residency
    policy is active, only providers the policy allows. *)
Theorem Handle_spec {W} `{World W} Quote fmt_g err_text Unmarshal (h : ChatHandler)
    ctx body schedule id created l (w : W) :
  (forall sort, Fallback.lb (fallbackRouter h) = Some sort -> LoadBalancer sort) ->
  let '(resp, _, w') := Handle Quote fmt_g err_text Unmarshal h ctx body schedule id created l w in
  resp <> HPanic /\
  ((w' = w /\ exists s m ty c, resp = HError s m ty c /\ (s = 400 \/ s = 451)) \/
   exists raw req chain, body = Some raw /\ Unmarshal raw = Ok req /\ valid req /\
     compliant h ctx req chain /\
     w' = if Stream req
          then (Fallback.ExecuteStream Quote (fallbackRouter h) chain req raw w).2
          else (Fallback.Execute Quote (fallbackRouter h) chain req raw w).2).
Proof.
  intros HL. unfold Handle.
  destruct body as [raw|]; [|apply refused; auto].
  destruct (Unmarshal raw) as [req|m] eqn:U; [|apply refused; auto].
  destruct (validateChatRequest fmt_g req) as [[]|m] eqn:V; [|apply refused; auto].
  fold (routed h req). apply validate_spec in V.
  destruct (Targets (routed h req)) as [|t0 ts0] eqn:T; [apply refused; auto|]. cbn [length].
  rewrite (proj2 (Z.eqb_neq _ 0)) by lia.
  destruct (match residencyEnforcer h with Some _ => _ | None => _ end) as [chain|e] eqn:F;
    [|apply refused; auto].
  assert (compliant h ctx req chain) as C by (apply residency_compliant; [by rewrite T|done]).
  destruct (Stream req) eqn:S.
  - unfold handleStream.
    destruct (Fallback.ExecuteStream _ _ _ _ _ _) as [[[ch used]|[e t]] w'] eqn:X.
    + destruct (Sse.StreamChannelToClient _ _ _ _ _ _) as [out l']. split; [done|]. right.
      exists raw, req, chain. rewrite S, X. done.
    + destruct (errors_As_gateway e); (split; [done|]); right; exists raw, req, chain;
        rewrite S, X; done.
  - destruct (Fallback.Execute _ _ _ _ _ _) as [[[resp used]|[e t]] w'] eqn:X.
    + assert (is_Some resp) as [r ->] by (by eapply Fallback.Execute_resp_some).
      split; [done|]. right. exists raw, req, chain. rewrite S, X. done.
    + destruct (errors_As_gateway e); (split; [done|]); right; exists raw, req, chain;
        rewrite S, X; done.
Qed.

#[local] Existing Instance Fallback.sim_world.

(** A request under a policy that allows one of two routed providers. *)
Definition demo_policy : Residency.Policy :=
  Residency.mkPolicy "eu" {[ "b" := Residency.mkConstraint "b" "eu" ]} ∅ [].
Definition demo_handler : ChatHandler :=
  mkHandler Fallback.sim_router (Some (fun _ => Some Fallback.sim_chain))
    (Some (Residency.NewRegistry [demo_policy])) ∅.
Definition demo_request : ChatCompletionRequest := simple_request "m" [mkMessage "user" "hi"].
Definition demo_ctx : Tenant.Ctx := Residency.WithPolicy Tenant.empty_ctx "eu".
Definition demo_run :=
  Handle id (fun _ => "") (fun _ => "") (fun _ => Ok demo_request) demo_handler demo_ctx (Some "{}")
    (fun _ => []) "id" 0 Telemetry.empty_log (Fallback.sim_start 5).

Lemma Handle_spec_witness :
  demo_run.1.1 = HJson Fallback.sim_response /\
  exists chain, compliant demo_handler demo_ctx demo_request chain /\
    demo_run.2 = (Fallback.Execute id Fallback.sim_router chain demo_request "{}" (Fallback.sim_start 5)).2.
Proof.
  assert (demo_run = (HJson Fallback.sim_response, demo_run.1.2, demo_run.2)) as E
    by (vm_compute; reflexivity).
  split; [rewrite E; reflexivity|].
  pose proof (Handle_spec id (fun _ => "") (fun _ => "") (fun _ => Ok demo_request) demo_handler
    demo_ctx (Some "{}") (fun _ => []) "id" 0 Telemetry.empty_log (Fallback.sim_start 5)
    ltac:(intros sort [=])) as H.
  change (Handle _ _ _ _ _ _ _ _ _ _ _ _) with demo_run in H. rewrite E in H.
  destruct H as [_ [(_ & s & m & ty & c & X & _)|(raw & req & chain & [= <-] & [= <-] & _ & C & X)]].
  - discriminate X.
  - exists chain. split; [exact C|exact X].
Defined.

End Chat.
