(* ===== verification/Guardrail.v ===== *)
(** * Guardrails (internal/guardrail and its detectors, middleware/guardrail.go)

    The check interface, the five detectors, the pipeline that runs them, the manager that
    swaps pipelines, the seed policies, and the middleware that applies the pipeline to a
    chat request and its answer. Regular expressions, case mapping, JSON and the judge's
    model are parameters; [range] over a map visits it in an order that is an argument. *)

From S2P Require Import Prelude Types.
Local Open Scope Z_scope.

Module Guard.

(** ** interface.go *)

Inductive Direction := DirectionInput | DirectionOutput.

(** [Action] is a string type with three known values. *)
Inductive Action := ActionBlock | ActionMask | ActionLogOnly | ActionOther (name : string).

Record Result := mkResult {
  Triggered : bool;
  RAction : Action;
  Modified : string;
  Category : string;
  GuardName : string
}.

(** The zero [Result]. *)
Definition no_result : Result := mkResult false (ActionOther "") "" "" "".

(** A guardrail: its name and its check, which may fail. *)
Record Guardrail := mkGuard {
  GName : string;
  Check : string -> Direction -> res string Result
}.

Record BlockError := mkBlock {
  BGuardrail : string;
  BCategory : string;
  BMessage : string
}.

Section Detectors.
(** [Regexp.MatchString] and [Regexp.ReplaceAllStringFunc] with a constant, by pattern;
    [strings.ToLower] and [strings.ToUpper]. *)
Context (MatchString : string -> string -> bool) (ReplaceAll : string -> string -> string -> string)
        (ToLower ToUpper : string -> string).

(** ** keyword/filter.go *)

Definition keyword_NewFilter (keywords : list string) : list string := ToLower <$> keywords.

Definition keyword_Check (enabled : bool) (action : Action) (keywords : list string)
    (text : string) (dir : Direction) : res string Result :=
  if negb enabled || (Z.of_nat (length keywords) =? 0) then Ok no_result
  else
    let lower := ToLower text in
    match find (fun kw => Contains lower kw) keywords with
    | Some kw => Ok (mkResult true action "" kw "custom_keywords")
    | None => Ok no_result
    end.

(** ** content/filter.go *)

Definition categoryPatterns : list (string * list string) :=
  [("hate", ["(?i)\b(hate\s+speech|racial\s+slur|ethnic\s+slur|bigot)\b"]);
   ("violence", ["(?i)\b(how\s+to\s+(kill|murder|bomb|shoot)|build\s+a\s+bomb|make\s+a\s+weapon)\b"]);
   ("sexual", ["(?i)\b(explicit\s+sexual|pornography|child\s+sexual)\b"])].

(** [order] is the order in which [range] visits [categoryPatterns]. *)
Definition content_Check (order : list (string * list string)) (enabled : bool) (action : Action)
    (categories : list string) (text : string) (dir : Direction) : res string Result :=
  if negb enabled then Ok no_result
  else match find (fun cp => slices_Contains categories cp.1
                               && existsb (fun re => MatchString re text) cp.2) order with
       | Some cp => Ok (mkResult true action "" cp.1 "content_filter")
       | None => Ok no_result
       end.

(** ** injection/detector.go *)

Definition injectionPatterns : list string :=
  ["(?i)ignore\s+.{0,30}instructions?"; "(?i)you\s+are\s+now\s+";
   "(?i)act\s+as\s+(if\s+you\s+are|a|an)\s+"; "(?i)forget\s+(everything|all|your)\s+(you|previous)";
   "(?i)(system\s+prompt|initial\s+instructions)"; "(?i)(jailbreak|dan\s+mode|developer\s+mode)"].

Definition is_input (dir : Direction) : bool :=
  match dir with DirectionInput => true | DirectionOutput => false end.

Definition injection_Check (enabled : bool) (action : Action) (text : string) (dir : Direction)
  : res string Result :=
  if negb enabled || negb (is_input dir) then Ok no_result
  else if existsb (fun re => MatchString re text) injectionPatterns
       then Ok (mkResult true action "" "prompt_injection" "prompt_injection")
       else Ok no_result.

(** ** pii/detector.go *)

Definition pii_patterns : list (string * string) :=
  [("credit_card", "\b(?:\d{4}[-\s]?){3}\d{4}\b"); ("ssn", "\b\d{3}-\d{2}-\d{4}\b");
   ("email", "[a-zA-Z0-9._%+\-]+@[a-zA-Z0-9.\-]+\.[a-zA-Z]{2,}");
   ("phone_us", "\b(?:\+1[-.\s]?)?\(?\d{3}\)?[-.\s]?\d{3}[-.\s]?\d{4}\b");
   ("ip_address", "\b(?:\d{1,3}\.){3}\d{1,3}\b"); ("korean_rrn", "\b\d{6}-[1-4]\d{6}\b")].

(** The categories of a new detector: all of them when none is named. *)
Definition pii_NewDetector (categories : list string) : list string :=
  if Z.of_nat (length categories) =? 0 then pii_patterns.*1 else categories.

Definition is_mask (a : Action) : bool := match a with ActionMask => true | _ => false end.

(** The loop over the patterns, visited in [order]: whether one matched, the first category,
    and the text with the matches replaced. *)
Fixpoint pii_loop (order : list (string * string)) (action : Action) (categories : list string)
    (text : string) (triggered : bool) (first modified : string) : bool * string * string :=
  match order with
  | [] => (triggered, first, modified)
  | (category, re) :: order =>
      if negb (slices_Contains categories category) || negb (MatchString re text)
      then pii_loop order action categories text triggered first modified
      else
        pii_loop order action categories text true
          (if String.eqb first "" then category else first)
          (if is_mask action then ReplaceAll re ("[" +:+ ToUpper category +:+ "_REDACTED]") modified
           else modified)
  end.

Definition pii_Check (order : list (string * string)) (enabled : bool) (action : Action)
    (categories : list string) (text : string) (dir : Direction) : res string Result :=
  if negb enabled then Ok no_result
  else
    let '(triggered, first, modified) := pii_loop order action categories text false "" text in
    if negb triggered then Ok no_result else Ok (mkResult true action modified first "pii").

(** ** llmjudge/judge.go *)

Record safetyResult := mkSafety { Safe : bool; SCategory : string; SReason : string }.

Section Judge.
(** The model's answer to a system prompt and a text, and the decoding of its JSON. *)
Context (Complete : string -> string -> res string string)
        (Unmarshal : string -> option safetyResult).

Definition classify (systemPrompt text : string) : res string safetyResult :=
  match Complete systemPrompt text with
  | Err e => Err ("llm judge: " +:+ e)
  | Ok raw => match Unmarshal raw with
              | None => Ok (mkSafety true "" "")
              | Some r => Ok r
              end
  end.

Definition judge_injection_Check (systemPrompt : string) (action : Action) (text : string)
    (dir : Direction) : res string Result :=
  if negb (is_input dir) then Ok no_result
  else match classify systemPrompt text with
       | Err _ => Ok no_result
       | Ok r => if Safe r then Ok no_result
                 else Ok (mkResult true action "" "prompt_injection" "prompt_injection")
       end.

Definition judge_content_Check (systemPrompt : string) (action : Action) (text : string)
    (dir : Direction) : res string Result :=
  match classify systemPrompt text with
  | Err _ => Ok no_result
  | Ok r => if Safe r then Ok no_result
            else Ok (mkResult true action ""
                       (if String.eqb (SCategory r) "" then "other" else SCategory r) "content_filter")
  end.

End Judge.

End Detectors.

(** ** pipeline.go *)

Record Pipeline := mkPipeline { input : list Guardrail; output : list Guardrail }.

Definition HasOutput (p : Pipeline) : bool := 0 <? Z.of_nat (length (output p)).

(** [run]: the text after masking, and the block error if a guardrail blocked. *)
Fixpoint run (current : string) (dir : Direction) (guards : list Guardrail)
  : string * option BlockError :=
  match guards with
  | [] => (current, None)
  | g :: guards =>
      match Check g current dir with
      | Err _ => run current dir guards
      | Ok r =>
          if negb (Triggered r) then run current dir guards
          else match RAction r with
               | ActionBlock =>
                   (current, Some (mkBlock (GuardName r) (Category r)
                      ("Request blocked by content policy: " +:+ Category r +:+ " detected.")))
               | ActionMask => run (Modified r) dir guards
               | ActionLogOnly => run current dir guards
               | ActionOther _ => run current dir guards
               end
      end
  end.

Definition CheckInput (p : Pipeline) (text : string) := run text DirectionInput (input p).
Definition CheckOutput (p : Pipeline) (text : string) := run text DirectionOutput (output p).

(** ** manager.go: the active pipeline, if any *)

Record Manager := mkManager { pipeline : option Pipeline }.

Definition NewManager : Manager := mkManager None.
Definition SetPipeline (m : Manager) (p : option Pipeline) : Manager := mkManager p.

(** ** builder.go, store.go *)

Record PolicyRecord := mkPolicyRecord {
  GuardrailType : string;
  IsEnabled : bool;
  PAction : string;
  Engine : string;
  ConfigJSON : string;
  SortOrder : Z
}.

(** The guardrail section of the configuration. *)
Record GuardrailConfig := mkGuardConfig {
  PIIEnabled : bool; PIIAction : string; PIICategories : list string;
  InjEnabled : bool; InjAction : string; InjEngine : string;
  CFEnabled : bool; CFAction : string; CFEngine : string; CFCategories : list string;
  KWEnabled : bool; KWAction : string; KWBlocked : list string;
  LJProvider : string; LJModel : string
}.

Definition defaultStr (v fallback : string) : string := if String.eqb v "" then fallback else v.

Section Builder.
(** [json.Marshal] of a map from names to string lists, and of one to strings. *)
Context (marshal_list : string -> list string -> string)
        (marshal_pairs : list (string * string) -> string).

Definition ConfigToRecords (gc : GuardrailConfig) : list PolicyRecord :=
  [mkPolicyRecord "pii" (PIIEnabled gc) (defaultStr (PIIAction gc) "log_only") ""
     (marshal_list "categories" (PIICategories gc)) 0;
   mkPolicyRecord "prompt_injection" (InjEnabled gc) (defaultStr (InjAction gc) "block")
     (defaultStr (InjEngine gc) "regex") (marshal_pairs []) 1;
   mkPolicyRecord "content_filter" (CFEnabled gc) (defaultStr (CFAction gc) "log_only")
     (defaultStr (CFEngine gc) "regex") (marshal_list "categories" (CFCategories gc)) 2;
   mkPolicyRecord "custom_keywords" (KWEnabled gc) (defaultStr (KWAction gc) "block") ""
     (marshal_list "blocked" (KWBlocked gc)) 3;
   mkPolicyRecord "llm_judge" false "log_only" ""
     (marshal_pairs [("provider", LJProvider gc); ("model", LJModel gc)]) 4].

End Builder.

(** ** middleware/guardrail.go *)

(** The loop over the messages: the block error of the first blocked user message, or the
    messages with the masked contents. *)
Fixpoint check_messages (p : Pipeline) (ms : list Message) : res BlockError (list Message) :=
  match ms with
  | [] => Ok []
  | m :: ms =>
      if negb (String.eqb (Role m) "user") || String.eqb (Content m) "" then
        match check_messages p ms with Ok ms => Ok (m :: ms) | Err e => Err e end
      else match CheckInput p (Content m) with
           | (_, Some e) => Err e
           | (modified, None) =>
               match check_messages p ms with
               | Ok ms => Ok (mkMessage (Role m) modified :: ms)
               | Err e => Err e
               end
           end
  end.

(** What the client gets: a guardrail error, the handler's answer as it is, the filtered
    answer with its status, or nothing when the captured answer is empty. The messages are
    those the next handler is called with. *)
Inductive outcome :=
| Blocked (e : BlockError)
| Passed (ms : list Message)
| OutputBlocked (ms : list Message) (e : BlockError)
| Filtered (ms : list Message) (status : Z) (body : string)
| Empty (ms : list Message).

(** [path] and [req] of the request ([None]: the body is not a chat request); [next] is the
    handler's status and body for the messages it is given. *)
Definition GuardrailCheck (m : Manager) (path : string) (req : option ChatCompletionRequest)
    (next : list Message -> Z * string) : outcome :=
  match pipeline m with
  | None => Passed (match req with Some r => Messages r | None => [] end)
  | Some p =>
      if negb (HasSuffix path "/chat/completions") then
        Passed (match req with Some r => Messages r | None => [] end)
      else match req with
           | None => Passed []
           | Some r =>
               match check_messages p (Messages r) with
               | Err e => Blocked e
               | Ok ms =>
                   if negb (Stream r) && HasOutput p then
                     let '(status, text) := next ms in
                     if negb (String.eqb text "") then
                       match CheckOutput p text with
                       | (_, Some e) => OutputBlocked ms e
                       | (filtered, None) => Filtered ms status filtered
                       end
                     else Empty ms
                   else Passed ms
               end
           end
  end.

(** ** Theorems *)

(** A guardrail that blocks a text in a direction. *)
Definition blocks (g : Guardrail) (dir : Direction) (text : string) : Prop :=
  exists r, Check g text dir = Ok r /\ Triggered r = true /\ RAction r = ActionBlock.

(** The text after one guardrail that does not block. *)
Definition after (dir : Direction) (text : string) (g : Guardrail) : string :=
  match Check g text dir with
  | Ok r => if Triggered r && is_mask (RAction r) then Modified r else text
  | Err _ => text
  end.

(** What the pipeline's result means for its guardrails, as a predicate on the result. *)
Definition run_ok (dir : Direction) (text : string) (guards : list Guardrail)
    (result : string * option BlockError) : Prop :=
  match result.2 with
  | Some e => exists pre g post, guards = pre ++ g :: post /\
      blocks g dir (foldl (after dir) text pre) /\ result.1 = foldl (after dir) text pre
  | None => result.1 = foldl (after dir) text guards /\
      forall pre g post, guards = pre ++ g :: post -> ~ blocks g dir (foldl (after dir) text pre)
  end.

(** A guardrail that does not block hands its text to the rest of the pipeline. *)
Lemma run_ok_cons dir text g guards result :
  ~ blocks g dir text -> run_ok dir (after dir text g) guards result ->
  run_ok dir text (g :: guards) result.
Proof.
  intros N H. unfold run_ok in *. destruct result as [t [e|]]; simpl in *.
  - destruct H as (pre & g' & post & -> & B & ->). by exists (g :: pre), g', post.
  - destruct H as [-> NB]. split; [done|]. intros [|g' pre] g0 post [= <- ->]; [done|].
    simpl. by eapply NB.
Qed.

(** The pipeline blocks exactly when some guardrail blocks the text as the guardrails before
    it left it, and otherwise returns the text after all of them. *)
Lemma run_spec dir guards text : run_ok dir text guards (run text dir guards).
Proof.
  revert text. induction guards as [|g guards IH]; intros text.
  { split; [done|]. intros [] ? ?; done. }
  assert (forall t, after dir text g = t -> ~ blocks g dir text ->
    run_ok dir text (g :: guards) (run t dir guards)) as G.
  { intros t <- N. by apply run_ok_cons. }
  simpl. destruct (Check g text dir) as [r|e] eqn:C.
  - assert (~ (Triggered r = true /\ RAction r = ActionBlock) -> ~ blocks g dir text) as B.
    { intros N (r' & C' & T & A). apply N. by rewrite C in C'; injection C' as <-. }
    destruct (Triggered r) eqn:T; [destruct (RAction r) eqn:A|]; simpl.
    1: { exists [], g, guards. split; [done|]. split; [by exists r|done]. }
    all: apply G; [unfold after; rewrite C, T, ?A; done | apply B; intros [? ?]; congruence].
  - apply G; [unfold after; by rewrite C|]. intros (r & C' & _). congruence.
Qed.

(** A message the input guardrails look at. *)
Definition checked (m : Message) : Prop := Role m = "user" /\ Content m <> "".

(** The guard of the loop skips exactly the other messages. *)
Lemma skip_checked m :
  if negb (String.eqb (Role m) "user") || String.eqb (Content m) "" then ~ checked m else checked m.
Proof.
  unfold checked. destruct (String.eqb_spec (Role m) "user"), (String.eqb_spec (Content m) "");
    simpl; tauto.
Qed.

(** The message the next handler sees in place of one. *)
Definition masked (p : Pipeline) (m : Message) : Message :=
  if String.eqb (Role m) "user" && negb (String.eqb (Content m) "")
  then mkMessage (Role m) (foldl (after DirectionInput) (Content m) (input p)) else m.

(** Some input guardrail blocks the content, as the guardrails before it left it. *)
Definition blocked_input (p : Pipeline) (text : string) : Prop :=
  exists pre g post, input p = pre ++ g :: post /\
    blocks g DirectionInput (foldl (after DirectionInput) text pre).

Lemma CheckInput_spec p text :
  match CheckInput p text with
  | (_, Some _) => blocked_input p text
  | (t, None) => t = foldl (after DirectionInput) text (input p) /\ ~ blocked_input p text
  end.
Proof.
  unfold CheckInput. pose proof (run_spec DirectionInput (input p) text) as H.
  destruct (run text DirectionInput (input p)) as [t [e|]]; unfold run_ok in H; simpl in H.
  - destruct H as (pre & g & post & E & B & _). by exists pre, g, post.
  - destruct H as [-> NB]. split; [done|]. intros (pre & g & post & E & B). by eapply NB.
Qed.

Lemma check_messages_spec p ms :
  match check_messages p ms with
  | Err _ => exists m, m ∈ ms /\ checked m /\ blocked_input p (Content m)
  | Ok ms' => ms' = masked p <$> ms /\
      forall m, m ∈ ms -> checked m -> ~ blocked_input p (Content m)
  end.
Proof.
  induction ms as [|m ms IH]; simpl; [set_solver|].
  pose proof (skip_checked m) as C.
  destruct (negb (String.eqb (Role m) "user") || _).
  - destruct (check_messages p ms) as [ms'|e].
    + destruct IH as [-> NB]. split.
      * f_equal. unfold masked. unfold checked in C.
        destruct (String.eqb_spec (Role m) "user"), (String.eqb_spec (Content m) ""); simpl; try done.
        exfalso. auto.
      * intros m' [->|I]%elem_of_cons; [done|auto].
    + destruct IH as (m' & I & C' & B). exists m'. split; [by right|done].
  - pose proof (CheckInput_spec p (Content m)) as S.
    destruct (CheckInput p (Content m)) as [t [e|]].
    + exists m. split; [left|done].
    + destruct S as [-> NB]. destruct (check_messages p ms) as [ms'|e].
      * destruct IH as [-> NB']. split.
        -- f_equal. unfold masked. destruct C as [-> NE]. simpl.
           by rewrite (proj2 (String.eqb_neq _ _)).
        -- intros m' [->|I]%elem_of_cons; [done|auto].
      * destruct IH as (m' & I & C' & B). exists m'. split; [by right|done].
Qed.

(** Input guardrails. With an active pipeline, a chat request is refused before the next
    handler exactly when some non-empty user message is blocked by an input guardrail (on the
    text as the guardrails before it masked it); otherwise the handler is called with every
    user message replaced by the text the pipeline leaves and all other messages unchanged. *)
Theorem GuardrailCheck_input m p path req next :
  pipeline m = Some p -> HasSuffix path "/chat/completions" = true ->
  match GuardrailCheck m path (Some req) next with
  | Blocked _ => exists msg, msg ∈ Messages req /\ checked msg /\ blocked_input p (Content msg)
  | Passed ms | OutputBlocked ms _ | Filtered ms _ _ | Empty ms =>
      ms = masked p <$> Messages req /\
      forall msg, msg ∈ Messages req -> checked msg -> ~ blocked_input p (Content msg)
  end.
Proof.
  intros Hp Hs. unfold GuardrailCheck. rewrite Hp, Hs. simpl.
  pose proof (check_messages_spec p (Messages req)) as S.
  destruct (check_messages p (Messages req)) as [ms|e]; [|done].
  destruct (negb (Stream req) && HasOutput p); [|done].
  destruct (next ms) as [status text]. destruct (negb (String.eqb text "")); [|done].
  by destruct (CheckOutput p text) as [t [e|]].
Qed.

(** A keyword filter, as it is built, with the given action. *)
Definition keyword_guard (action : Action) : Guardrail :=
  mkGuard "custom_keywords" (keyword_Check ascii_ToLower true action ["secret"]).

Lemma GuardrailCheck_input_witness :
  exists msg, msg ∈ [mkMessage "user" "the SECRET plan"] /\ checked msg /\
    blocked_input (mkPipeline [keyword_guard ActionBlock] []) (Content msg).
Proof.
  pose proof (GuardrailCheck_input (mkManager (Some (mkPipeline [keyword_guard ActionBlock] [])))
    (mkPipeline [keyword_guard ActionBlock] []) "/v1/chat/completions"
    (simple_request "m" [mkMessage "user" "the SECRET plan"]) (fun _ => (200, ""))) as H.
  lapply H; [clear H; intros H|reflexivity]. lapply H; [clear H; intros H|reflexivity].
  assert (GuardrailCheck (mkManager (Some (mkPipeline [keyword_guard ActionBlock] [])))
    "/v1/chat/completions" (Some (simple_request "m" [mkMessage "user" "the SECRET plan"]))
    (fun _ => (200, "")) = Blocked (mkBlock "custom_keywords" "secret"
      "Request blocked by content policy: secret detected.")) as E by (vm_compute; reflexivity).
  rewrite E in H. exact H.
Defined.

(** The keyword filter sets no replacement text, so with the mask action a match erases the
    whole message. *)
Example mask_without_replacement_erases :
  GuardrailCheck (mkManager (Some (mkPipeline [keyword_guard ActionMask] []))) "/v1/chat/completions"
    (Some (simple_request "m" [mkMessage "user" "a long question about a secret"])) (fun _ => (200, ""))
  = Passed [mkMessage "user" ""].
Proof. vm_compute. reflexivity. Qed.

End Guard.
