(* ===== verification/Adapters.v ===== *)
(** * Provider adapters (internal/provider/openai, anthropic, gemini, azure, mistral, grok,
    cohere, bedrock, selfhosted)

    How each adapter turns a gateway request into the provider's HTTP request, and the
    provider's answer back into an OpenAI-style response or a classified error. The HTTP
    client, the JSON codec, the clock and the key source are arguments; the request and
    response structs are records. The streaming halves are in ProviderStreams. *)

From S2P Require Import Prelude GoStrings Float64 Types ProviderErrors Calendar Fallback ExactCache.
Local Open Scope Z_scope.
Import PErr Fallback.Fallback.

Module Http.

(** A POST request: the URL, the headers that are set, and the body. *)
Record request := mkReq { Url : string; Headers : list (string * string); Body : string }.

(** What [client.Do] and reading the body give: a transport failure, or a status with the
    bytes read, the error reading them if any, and the Retry-After header. *)
Inductive reply :=
| NetFailure (msg : string)
| Reply (status : Z) (body : string) (readErr : option string) (retryAfter : string).

End Http.

(** [fmt.Errorf("label: %w", err)]. *)
Definition wrap_err {A} (label : string) (r : res goerror A) : res goerror A :=
  match r with Ok a => Ok a | Err e => Err (EWrap label e) end.

(** A JSON error as it is wrapped. *)
Definition json_err {A} (label : string) (r : res string A) : res goerror A :=
  match r with Ok a => Ok a | Err m => Err (EWrap label (EOther m)) end.

(** The parts of encoding/json the adapters use on bodies: an object as a map of raw values. *)
Class Json := {
  parse_object : string -> res string (gmap string RawMessage);
  marshal_object : gmap string RawMessage -> res string string;
  marshal_string : string -> RawMessage;
  parse_string : RawMessage -> option string;
  parse_strings : RawMessage -> res string (list string);
  parse_response : string -> res string ChatCompletionResponse
}.

(** What the adapters rely on: an object survives encoding and decoding. *)
Class JsonLaws `{Json} : Prop :=
  json_roundtrip : forall m s, marshal_object m = Ok s -> parse_object s = Ok m.

Module Adapters.

(** ** The adapters' state: the base URL and the model list set from the database *)

Record Adapter := mkAdapter { adBaseURL : string; dbModels : option (list ModelInfo) }.

Definition newAdapter (defaultBaseURL baseURL : string) : Adapter :=
  mkAdapter (if String.eqb baseURL "" then defaultBaseURL else baseURL) None.

Definition openai_newAdapter : string -> Adapter := newAdapter "https://api.openai.com/v1".
Definition anthropic_newAdapter : string -> Adapter := newAdapter "https://api.anthropic.com/v1".
Definition gemini_newAdapter : string -> Adapter :=
  newAdapter "https://generativelanguage.googleapis.com/v1beta".
Definition mistral_newAdapter : string -> Adapter := newAdapter "https://api.mistral.ai/v1".
Definition grok_newAdapter : string -> Adapter := newAdapter "https://api.x.ai/v1".
Definition cohere_newAdapter : string -> Adapter := newAdapter "https://api.cohere.com/v2".

(** A nil slice is [None]. *)
Definition SetModels (models : option (list ModelInfo)) (a : Adapter) : Adapter :=
  mkAdapter (adBaseURL a) models.

Definition model_list (owner : string) (ids : list string) : list ModelInfo :=
  map (fun id => mkModelInfo id "model" 0 owner) ids.

(** [Models]: the database's list when it was set, else the adapter's own. *)
Definition Models_or (own : list ModelInfo) (a : Adapter) : list ModelInfo := default own (dbModels a).

Definition openai_Models : Adapter -> list ModelInfo :=
  Models_or (model_list "openai" ["openai/gpt-4o"; "openai/gpt-4o-mini"; "openai/gpt-4-turbo";
    "openai/o1"; "openai/o3-mini"]).
Definition anthropic_Models : Adapter -> list ModelInfo :=
  Models_or (model_list "anthropic" ["anthropic/claude-sonnet-4-6"; "anthropic/claude-haiku-4-5-20251001";
    "anthropic/claude-opus-4-20250514"; "anthropic/claude-sonnet-4-20250514"]).
Definition gemini_Models : Adapter -> list ModelInfo :=
  Models_or (model_list "google" ["google/gemini-2.0-flash"; "google/gemini-2.0-pro";
    "google/gemini-1.5-pro"; "google/gemini-1.5-flash"]).
Definition mistral_Models : Adapter -> list ModelInfo :=
  Models_or (model_list "mistral" ["mistral/mistral-large-latest"; "mistral/mistral-small-latest";
    "mistral/codestral-latest"; "mistral/mistral-embed"]).
Definition grok_Models : Adapter -> list ModelInfo :=
  Models_or (model_list "xai" ["grok/grok-3"; "grok/grok-3-mini"; "grok/grok-2-1212";
    "grok/grok-2-vision-1212"]).
Definition cohere_Models : Adapter -> list ModelInfo :=
  Models_or (model_list "cohere" ["cohere/command-r-plus-08-2024"; "cohere/command-r-08-2024";
    "cohere/command-r7b-12-2024"]).
Definition bedrock_Models : Adapter -> list ModelInfo :=
  Models_or (model_list "bedrock" ["bedrock/anthropic.claude-3-5-sonnet-20241022-v2:0";
    "bedrock/anthropic.claude-3-5-haiku-20241022-v1:0"; "bedrock/amazon.nova-pro-v1:0";
    "bedrock/amazon.nova-lite-v1:0"; "bedrock/meta.llama3-70b-instruct-v1:0"]).

(** Azure's own list is its deployments. *)
Definition azure_Models (deployments : list string) : Adapter -> list ModelInfo :=
  Models_or (model_list "azure" (map (fun id => "azure/" +:+ id) deployments)).

Definition azure_resourceURL (baseURL resourceName : string) : string :=
  if String.eqb baseURL "" then "https://" +:+ resourceName +:+ ".openai.azure.com" else baseURL.
Definition azure_apiVersion (v : string) : string := if String.eqb v "" then "2024-02-01" else v.

Section Adapters.
Context `{J : Json}.
(** [http.NewRequest]'s error for a URL, the client, and [strconv.ParseFloat]. *)
Context (bad_url : string -> option string) (Do : Http.request -> Http.reply)
        (ParseFloat : string -> option float64).

(** The exchange every adapter makes: build the request, send it, read the body, map a status
    other than 200 to an error, decode. *)
Definition post {A} (create read : string) (rq : Http.request)
    (parse_error : Z -> string -> string -> GatewayError) (decode : string -> res goerror A)
  : res goerror A :=
  match bad_url (Http.Url rq) with
  | Some m => Err (EWrap create (EOther m))
  | None =>
      match Do rq with
      | Http.NetFailure m => Err (EGateway (NewNetworkError m))
      | Http.Reply _ _ (Some m) _ => Err (EWrap read (EOther m))
      | Http.Reply status body None h =>
          if negb (status =? 200) then Err (EGateway (parse_error status body h)) else decode body
      end
  end.

(** The same for a stream: on 200 the body is left to the reader, and an error reading an
    error body is ignored. *)
Definition post_stream {A} (create : string) (rq : Http.request)
    (parse_error : Z -> string -> string -> GatewayError) (reader : string -> A) : res goerror A :=
  match bad_url (Http.Url rq) with
  | Some m => Err (EWrap create (EOther m))
  | None =>
      match Do rq with
      | Http.NetFailure m => Err (EGateway (NewNetworkError m))
      | Http.Reply status body _ h =>
          if negb (status =? 200) then Err (EGateway (parse_error status body h)) else Ok (reader body)
      end
  end.

Definition quote : string := bytes [34]%nat.

Definition bearer (key : string) : list (string * string) :=
  [("Content-Type", "application/json"); ("Authorization", "Bearer " +:+ key)].

(** The OpenAI response with the gateway's model name restored. *)
Definition with_model (model : string) (r : ChatCompletionResponse) : ChatCompletionResponse :=
  mkResponse (RespID r) (RespObject r) (RespCreated r) model (Choices r) (RespUsage r).

Local Open Scope go_scope.

(** ** openai *)

Definition openai_BuildRequest (model : string) (rawBody : string) : res goerror string :=
  let* body := json_err "unmarshal openai request" (parse_object rawBody) in
  match marshal_object (<["model" := marshal_string model]> body) with
  | Ok s => Ok s | Err m => Err (EOther m)
  end.

(** The raw value [{"include_usage":true}]. *)
Definition include_usage : RawMessage :=
  "{" +:+ quote +:+ "include_usage" +:+ quote +:+ ":true}".

Definition openai_buildStreamBody (model : string) (rawBody : string) : res goerror string :=
  let* body := json_err "unmarshal openai stream body" (parse_object rawBody) in
  match marshal_object (<["stream_options" := include_usage]>
          (<["stream" := "true"]> (<["model" := marshal_string model]> body))) with
  | Ok s => Ok s | Err m => Err (EOther m)
  end.

Definition openai_ParseResponse (originalModel respBody : string)
  : res goerror ChatCompletionResponse :=
  let* r := json_err "unmarshal openai response" (parse_response respBody) in
  Ok (with_model originalModel r).

Section OpenAI.
(** The decoded error body: message and code. *)
Context (unmarshal_err : string -> option (string * option string)).

Definition openai_ChatCompletion (keyFunc : res goerror string) (baseURL model : string)
    (req : ChatCompletionRequest) (rawBody : string) : res goerror ChatCompletionResponse :=
  let* apiKey := wrap_err "resolve openai api key" keyFunc in
  let* body := wrap_err "build openai request" (openai_BuildRequest model rawBody) in
  post "create openai request" "read openai response"
    (Http.mkReq (baseURL +:+ "/chat/completions") (bearer apiKey) body)
    (openai_ParseError ParseFloat unmarshal_err) (openai_ParseResponse (Model req)).

Definition openai_ChatCompletionStream {A} (reader : string -> A) (keyFunc : res goerror string)
    (baseURL model : string) (rawBody : string) : res goerror A :=
  let* apiKey := wrap_err "resolve openai api key" keyFunc in
  let* body := wrap_err "build openai stream request" (openai_buildStreamBody model rawBody) in
  post_stream "create openai stream request"
    (Http.mkReq (baseURL +:+ "/chat/completions") (bearer apiKey) body)
    (openai_ParseError ParseFloat unmarshal_err) reader.

(** [Embed]; [marshal_embed] is the encoding of its request struct, [parse_embed] the decoding
    of the response. *)
Definition openai_Embed (marshal_embed : string -> RawMessage -> string -> res string string)
    (parse_embed : string -> res string Exact.EmbeddingResponse) (keyFunc : res goerror string)
    (baseURL model : string) (req : Exact.EmbeddingRequest) : res goerror Exact.EmbeddingResponse :=
  let* apiKey := wrap_err "resolve openai api key" keyFunc in
  let* body := json_err "marshal openai embed request"
                 (marshal_embed (marshal_string model) (Exact.EmbInput req) (Exact.EncodingFormat req)) in
  post "create openai embed request" "read openai embed response"
    (Http.mkReq (baseURL +:+ "/embeddings") (bearer apiKey) body)
    (openai_ParseError ParseFloat unmarshal_err)
    (fun b => let* r := json_err "unmarshal openai embed response" (parse_embed b) in
       Ok (Exact.mkEmbResp (Exact.ERObject r) (Exact.ERData r) (Exact.EmbModel req) (Exact.ERUsage r))).

(** ** selfhosted: the openai adapter without a key, under a mapped model name *)

Record ModelEntry := mkModelEntry { MEID : string; MEName : string }.

Definition resolveModel (models : list ModelEntry) (gatewayID : string) : string :=
  match find (fun m => String.eqb (MEID m) gatewayID) models with
  | Some m => MEName m
  | None =>
      match Index gatewayID "/" with
      | Some idx => drop_str (S idx) gatewayID
      | None => gatewayID
      end
  end.

Definition injectModel (rawBody serverModel : string) : res goerror string :=
  match parse_object rawBody with
  | Err m => Err (EOther m)
  | Ok body =>
      match marshal_object (<["model" := marshal_string serverModel]> body) with
      | Ok s => Ok s | Err m => Err (EOther m)
      end
  end.

(** [strings.TrimRight(s, "/")]. *)
Fixpoint trim_slashes (s : string) : string :=
  match s with
  | EmptyString => EmptyString
  | String c s' =>
      match trim_slashes s' with
      | EmptyString => if Ascii.eqb c "/" then EmptyString else String c EmptyString
      | t => String c t
      end
  end.

Definition openAIBase (baseURL : string) : string := trim_slashes baseURL +:+ "/v1".

Definition healthCheckURL (baseURL engine : string) : string :=
  if String.eqb engine "ollama" then trim_slashes baseURL +:+ "/api/tags"
  else trim_slashes baseURL +:+ "/v1/models".

Definition selfhosted_Models (engine : string) (models : list ModelEntry) : list ModelInfo :=
  map (fun m => mkModelInfo (MEID m) "model" 0 engine) models.

(** [HealthCheck]; [Get] is the GET of the health URL. *)
Definition HealthCheck (format_int : Z -> string) (Get : string -> Http.reply)
    (name baseURL engine : string) : option goerror :=
  let url := healthCheckURL baseURL engine in
  match bad_url url with
  | Some m => Some (EWrap ("selfhosted " +:+ name +:+ ": build health request") (EOther m))
  | None =>
      match Get url with
      | Http.NetFailure m => Some (EGateway (NewNetworkError m))
      | Http.Reply status body _ _ =>
          if 500 <=? status
          then Some (EOther ("selfhosted " +:+ name +:+ ": health check HTTP " +:+ format_int status +:+ ": " +:+ body))
          else None
      end
  end.

Definition selfhosted_ChatCompletion (name baseURL : string) (models : list ModelEntry)
    (model : string) (req : ChatCompletionRequest) (rawBody : string)
  : res goerror ChatCompletionResponse :=
  let serverModel := resolveModel models model in
  let* body := wrap_err ("selfhosted " +:+ name +:+ ": inject model") (injectModel rawBody serverModel) in
  openai_ChatCompletion (Ok "") (openAIBase baseURL) serverModel req body.

Definition selfhosted_ChatCompletionStream {A} (reader : string -> A) (name baseURL : string)
    (models : list ModelEntry) (model rawBody : string) : res goerror A :=
  let serverModel := resolveModel models model in
  let* body := wrap_err ("selfhosted " +:+ name +:+ ": inject model") (injectModel rawBody serverModel) in
  openai_ChatCompletionStream reader (Ok "") (openAIBase baseURL) serverModel body.

End OpenAI.

(** ** anthropic *)

(** [StopSequences] of both Anthropic and Gemini: a string or a list of strings. *)
Definition stop_sequences (stop : RawMessage) : list string :=
  if 0 <? Z.of_nat (String.length stop) then
    match parse_string stop with
    | Some s => [s]
    | None => match parse_strings stop with Ok l => l | Err _ => [] end
    end
  else [].

Record an_request := mkAnReq {
  AnModel : string;
  AnMaxTokens : Z;
  AnSystem : string;
  AnMessages : list Message;
  AnTemperature : option float64;
  AnTopP : option float64;
  AnStop : list string;
  AnStream : bool
}.

Definition an_defaultMaxTokens : Z := 4096.

(** The loop over the messages: system messages go to the system field, the others are kept. *)
Fixpoint an_split (system : string) (acc msgs : list Message) : string * list Message :=
  match msgs with
  | [] => (system, acc)
  | m :: msgs =>
      if String.eqb (Role m) "system" then an_split (Content m) acc msgs
      else an_split system (acc ++ [mkMessage (Role m) (Content m)]) msgs
  end.

Definition an_BuildRequest (model : string) (req : ChatCompletionRequest) : an_request :=
  let '(system, messages) := an_split "" [] (Messages req) in
  mkAnReq model (match MaxTokens req with Some n => n | None => an_defaultMaxTokens end)
    system messages (Temperature req) (TopP req) (stop_sequences (Stop req)) (Stream req).

Record an_response := mkAnResp {
  AnID : string;
  AnContent : list (string * string);
  AnStopReason : string;
  AnInputTokens : Z;
  AnOutputTokens : Z
}.

Definition an_mapStopReason (reason : string) : string :=
  if String.eqb reason "end_turn" || String.eqb reason "stop_sequence" then "stop"
  else if String.eqb reason "max_tokens" then "length"
  else if String.eqb reason "tool_use" then "tool_calls"
  else "stop".

(** The text blocks of a response, in order. *)
Definition an_text (content : list (string * string)) : string :=
  foldl (fun text c => if String.eqb c.1 "text" then text +:+ c.2 else text) "" content.

Definition an_ParseResponse (unmarshal : string -> res string an_response) (now : Time)
    (originalModel respBody : string) : res goerror ChatCompletionResponse :=
  let* ar := json_err "unmarshal anthropic response" (unmarshal respBody) in
  Ok (mkResponse ("chatcmpl-" +:+ AnID ar) "chat.completion" (Calendar.Unix now) originalModel
    [mkChoice 0 (mkMessage "assistant" (an_text (AnContent ar))) (an_mapStopReason (AnStopReason ar))]
    (Some (mkUsage (AnInputTokens ar) (AnOutputTokens ar) (AnInputTokens ar +i AnOutputTokens ar)))).

Section Anthropic.
Context (marshal_an : an_request -> res string string)
        (unmarshal_an : string -> res string an_response)
        (unmarshal_err : string -> option string).

Definition an_headers (apiKey : string) : list (string * string) :=
  [("Content-Type", "application/json"); ("x-api-key", apiKey); ("anthropic-version", "2023-06-01")].

Definition an_ChatCompletion (keyFunc : res goerror string) (baseURL model : string)
    (req : ChatCompletionRequest) (now : Time) : res goerror ChatCompletionResponse :=
  let* apiKey := wrap_err "resolve anthropic api key" keyFunc in
  let* body := json_err "build anthropic request" (marshal_an (an_BuildRequest model req)) in
  post "create anthropic request" "read anthropic response"
    (Http.mkReq (baseURL +:+ "/messages") (an_headers apiKey) body)
    (anthropic_ParseError ParseFloat unmarshal_err) (an_ParseResponse unmarshal_an now (Model req)).

(** The copy of the request with [Stream] forced. *)
Definition force_stream (req : ChatCompletionRequest) : ChatCompletionRequest :=
  mkRequest (Model req) (Messages req) (Temperature req) (MaxTokens req) (TopP req) (ReqN req) true
    (ReqStreamOptions req) (Stop req) (PresencePenalty req) (FrequencyPenalty req) (User req)
    (Tools req) (Metadata req) (PromptSlug req) (PromptVariables req).

Definition an_ChatCompletionStream {A} (reader : string -> A) (keyFunc : res goerror string)
    (baseURL model : string) (req : ChatCompletionRequest) : res goerror A :=
  let* apiKey := wrap_err "resolve anthropic api key" keyFunc in
  let* body := json_err "build anthropic stream request"
                 (marshal_an (an_BuildRequest model (force_stream req))) in
  post_stream "create anthropic stream request"
    (Http.mkReq (baseURL +:+ "/messages") (an_headers apiKey) body)
    (anthropic_ParseError ParseFloat unmarshal_err) reader.

End Anthropic.

(** ** gemini *)

Record ge_request := mkGeReq {
  GeContents : list Message;
  GeSystem : option string;
  GeTemperature : option float64;
  GeTopP : option float64;
  GeMaxOutputTokens : option Z;
  GeStop : list string
}.

(** The loop over the messages: the system instruction, and the contents with the assistant
    renamed to "model". A content is its role and the text of its one part. *)
Fixpoint ge_split (system : option string) (acc msgs : list Message) : option string * list Message :=
  match msgs with
  | [] => (system, acc)
  | m :: msgs =>
      if String.eqb (Role m) "system" then ge_split (Some (Content m)) acc msgs
      else if String.eqb (Role m) "assistant" then ge_split system (acc ++ [mkMessage "model" (Content m)]) msgs
      else ge_split system (acc ++ [mkMessage (Role m) (Content m)]) msgs
  end.

Definition ge_BuildRequest (req : ChatCompletionRequest) : ge_request :=
  let '(system, contents) := ge_split None [] (Messages req) in
  mkGeReq contents system (Temperature req) (TopP req) (MaxTokens req) (stop_sequences (Stop req)).

(** A candidate: the texts of its parts and its finish reason. *)
Record ge_candidate := mkCand { CandParts : list string; CandFinish : string }.

Record ge_response := mkGeResp {
  GeCandidates : list ge_candidate;
  GePromptTokens : Z;
  GeCandidatesTokens : Z;
  GeTotalTokens : Z
}.

Definition ge_mapFinishReason (reason : string) : string :=
  if String.eqb reason "STOP" then "stop"
  else if String.eqb reason "MAX_TOKENS" then "length"
  else if String.eqb reason "SAFETY" then "content_filter"
  else "stop".

Definition parts_text (parts : list string) : string := foldl (fun t p => t +:+ p) "" parts.

(** [format_int] is [fmt]'s %d of the clock's nanoseconds. *)
Definition ge_ParseResponse (format_int : Z -> string) (unmarshal : string -> res string ge_response)
    (now : Time) (originalModel respBody : string) : res goerror ChatCompletionResponse :=
  let* gr := json_err "unmarshal gemini response" (unmarshal respBody) in
  match GeCandidates gr with
  | [] => Err (EOther "gemini returned no candidates")
  | c :: _ =>
      Ok (mkResponse ("chatcmpl-gemini-" +:+ format_int now) "chat.completion" (Calendar.Unix now)
        originalModel
        [mkChoice 0 (mkMessage "assistant" (parts_text (CandParts c))) (ge_mapFinishReason (CandFinish c))]
        (Some (mkUsage (GePromptTokens gr) (GeCandidatesTokens gr) (GeTotalTokens gr))))
  end.

Section Gemini.
Context (marshal_ge : ge_request -> res string string)
        (unmarshal_ge : string -> res string ge_response)
        (unmarshal_err : string -> option (string * string))
        (format_int : Z -> string).

Definition ge_headers : list (string * string) := [("Content-Type", "application/json")].

Definition ge_ChatCompletion (keyFunc : res goerror string) (baseURL model : string)
    (req : ChatCompletionRequest) (now : Time) : res goerror ChatCompletionResponse :=
  let* apiKey := wrap_err "resolve gemini api key" keyFunc in
  let* body := json_err "build gemini request" (marshal_ge (ge_BuildRequest req)) in
  post "create gemini request" "read gemini response"
    (Http.mkReq (baseURL +:+ "/models/" +:+ model +:+ ":generateContent?key=" +:+ apiKey) ge_headers body)
    (gemini_ParseError ParseFloat unmarshal_err)
    (ge_ParseResponse format_int unmarshal_ge now (Model req)).

Definition ge_ChatCompletionStream {A} (reader : string -> A) (keyFunc : res goerror string)
    (baseURL model : string) (req : ChatCompletionRequest) : res goerror A :=
  let* apiKey := wrap_err "resolve gemini api key" keyFunc in
  let* body := json_err "build gemini stream request" (marshal_ge (ge_BuildRequest req)) in
  post_stream "create gemini stream request"
    (Http.mkReq (baseURL +:+ "/models/" +:+ model +:+ ":streamGenerateContent?key=" +:+ apiKey +:+ "&alt=sse")
       ge_headers body)
    (gemini_ParseError ParseFloat unmarshal_err) reader.

(** *** gemini/embed.go *)

Context (marshal_embed marshal_batch : list string -> res string string)
        (unmarshal_embed : string -> res string (list float64))
        (unmarshal_batch : string -> res string (list (list float64))).

Definition doEmbedPost (url body : string) : res goerror string :=
  post "create gemini embed request" "read gemini embed response" (Http.mkReq url ge_headers body)
    (gemini_ParseError ParseFloat unmarshal_err) Ok.

(** The embeddings of a batch, each under its position. *)
Definition index_embeddings (vs : list (list float64)) : list Exact.Embedding :=
  imap (fun i v => Exact.mkEmbedding "embedding" v (Z.of_nat i)) vs.

Definition embedSingle (apiKey baseURL model text originalModel : string)
  : res goerror Exact.EmbeddingResponse :=
  let* body := json_err "marshal gemini embed request" (marshal_embed [text]) in
  let* respBody := doEmbedPost (baseURL +:+ "/models/" +:+ model +:+ ":embedContent?key=" +:+ apiKey) body in
  let* v := json_err "unmarshal gemini embed response" (unmarshal_embed respBody) in
  Ok (Exact.mkEmbResp "list" [Exact.mkEmbedding "embedding" v 0] originalModel None).

Definition embedBatch (apiKey baseURL model : string) (texts : list string) (originalModel : string)
  : res goerror Exact.EmbeddingResponse :=
  let* body := json_err "marshal gemini batch embed request" (marshal_batch texts) in
  let* respBody := doEmbedPost (baseURL +:+ "/models/" +:+ model +:+ ":batchEmbedContents?key=" +:+ apiKey) body in
  let* vs := json_err "unmarshal gemini batch embed response" (unmarshal_batch respBody) in
  Ok (Exact.mkEmbResp "list" (index_embeddings vs) originalModel None).

Definition ge_Embed (keyFunc : res goerror string) (baseURL model : string)
    (req : Exact.EmbeddingRequest) : res goerror Exact.EmbeddingResponse :=
  let* apiKey := wrap_err "resolve gemini api key" keyFunc in
  match parse_string (Exact.EmbInput req) with
  | Some single => embedSingle apiKey baseURL model single (Exact.EmbModel req)
  | None =>
      let* batch := json_err "parse gemini embed input" (parse_strings (Exact.EmbInput req)) in
      embedBatch apiKey baseURL model batch (Exact.EmbModel req)
  end.

End Gemini.

(** ** azure: the model is in the URL, so it leaves the body *)

Definition az_BuildRequest (rawBody : string) : res goerror string :=
  let* body := json_err "unmarshal azure request" (parse_object rawBody) in
  match marshal_object (delete "model" body) with
  | Ok s => Ok s | Err m => Err (EOther m)
  end.

Definition az_BuildStreamRequest (rawBody : string) : res goerror string :=
  let* body := json_err "unmarshal azure stream request" (parse_object rawBody) in
  match marshal_object (<["stream" := "true"]> (delete "model" body)) with
  | Ok s => Ok s | Err m => Err (EOther m)
  end.

Definition az_ParseResponse (originalModel respBody : string) : res goerror ChatCompletionResponse :=
  let* r := json_err "unmarshal azure response" (parse_response respBody) in
  Ok (with_model originalModel r).

Definition az_url (resourceURL apiVersion model : string) : string :=
  resourceURL +:+ "/openai/deployments/" +:+ model +:+ "/chat/completions?api-version=" +:+ apiVersion.

(** [provider.NormalizeHTTPError] on the body as it is. *)
Definition raw_error (status : Z) (body header : string) : GatewayError :=
  NormalizeHTTPError ParseFloat status body header.

Definition az_ChatCompletion (keyFunc : res goerror string) (resourceURL apiVersion model rawBody : string)
  : res goerror ChatCompletionResponse :=
  let* apiKey := wrap_err "resolve azure api key" keyFunc in
  let* body := wrap_err "build azure request" (az_BuildRequest rawBody) in
  post "create azure request" "read azure response"
    (Http.mkReq (az_url resourceURL apiVersion model)
       [("Content-Type", "application/json"); ("api-key", apiKey)] body)
    raw_error (az_ParseResponse ("azure/" +:+ model)).

Definition az_ChatCompletionStream {A} (reader : string -> A) (keyFunc : res goerror string)
    (resourceURL apiVersion model rawBody : string) : res goerror A :=
  let* apiKey := wrap_err "resolve azure api key" keyFunc in
  let* body := wrap_err "build azure stream request" (az_BuildStreamRequest rawBody) in
  post_stream "create azure stream request"
    (Http.mkReq (az_url resourceURL apiVersion model)
       [("Content-Type", "application/json"); ("api-key", apiKey); ("Accept", "text/event-stream")] body)
    raw_error reader.

(** ** mistral and grok: the same code under two names *)

Definition compat_buildRequest (model rawBody : string) : res goerror string :=
  let* body := json_err "unmarshal" (parse_object rawBody) in
  match marshal_object (<["model" := marshal_string model]> body) with
  | Ok s => Ok s | Err m => Err (EOther m)
  end.

Definition compat_buildStreamRequest (model rawBody : string) : res goerror string :=
  let* body := json_err "unmarshal" (parse_object rawBody) in
  match marshal_object (<["stream" := "true"]> (<["model" := marshal_string model]> body)) with
  | Ok s => Ok s | Err m => Err (EOther m)
  end.

Definition compat_parseResponse (name originalModel respBody : string)
  : res goerror ChatCompletionResponse :=
  let* r := json_err ("unmarshal " +:+ name +:+ " response") (parse_response respBody) in
  Ok (with_model originalModel r).

Definition compat_ChatCompletion (name : string) (keyFunc : res goerror string)
    (baseURL model rawBody : string) : res goerror ChatCompletionResponse :=
  let* apiKey := wrap_err ("resolve " +:+ name +:+ " api key") keyFunc in
  let* body := wrap_err ("build " +:+ name +:+ " request") (compat_buildRequest model rawBody) in
  post ("create " +:+ name +:+ " request") ("read " +:+ name +:+ " response")
    (Http.mkReq (baseURL +:+ "/chat/completions") (bearer apiKey) body)
    raw_error (compat_parseResponse name (name +:+ "/" +:+ model)).

Definition compat_ChatCompletionStream {A} (reader : string -> A) (name : string)
    (keyFunc : res goerror string) (baseURL model rawBody : string) : res goerror A :=
  let* apiKey := wrap_err ("resolve " +:+ name +:+ " api key") keyFunc in
  let* body := wrap_err ("build " +:+ name +:+ " stream request") (compat_buildStreamRequest model rawBody) in
  post_stream ("create " +:+ name +:+ " stream request")
    (Http.mkReq (baseURL +:+ "/chat/completions") (bearer apiKey ++ [("Accept", "text/event-stream")]) body)
    raw_error reader.

Definition grok_buildRequest := compat_buildRequest.
Definition grok_buildStreamRequest := compat_buildStreamRequest.
Definition grok_parseResponse := compat_parseResponse "grok".
Definition mistral_ChatCompletion := compat_ChatCompletion "mistral".
Definition grok_ChatCompletion := compat_ChatCompletion "grok".
Definition mistral_ChatCompletionStream {A} (reader : string -> A) :=
  compat_ChatCompletionStream reader "mistral".
Definition grok_ChatCompletionStream {A} (reader : string -> A) :=
  compat_ChatCompletionStream reader "grok".

(** ** cohere *)

Record co_request := mkCoReq {
  CoModel : string;
  CoMessages : list Message;
  CoMaxTokens : option Z;
  CoTemperature : option float64;
  CoStream : bool
}.

(** The fields of the response that are read; a content block is its type and text. *)
Record co_response := mkCoResp {
  CoID : string;
  CoContent : list (string * string);
  CoFinishReason : string;
  CoInputTokens : Z;
  CoOutputTokens : Z
}.

Section Cohere.
Context (ToLower : string -> string)
        (marshal_co : co_request -> res string string)
        (unmarshal_co : string -> res string co_response).

Definition co_text (content : list (string * string)) : string :=
  match find (fun c => String.eqb c.1 "text") content with Some c => c.2 | None => "" end.

Definition parseCohereResponse (originalModel respBody : string) : res goerror ChatCompletionResponse :=
  let* cr := json_err "unmarshal cohere response" (unmarshal_co respBody) in
  let finishReason :=
    if negb (String.eqb (CoFinishReason cr) "") then ToLower (CoFinishReason cr) else "stop" in
  Ok (mkResponse (CoID cr) "chat.completion" 0 originalModel
    [mkChoice 0 (mkMessage "assistant" (co_text (CoContent cr))) finishReason]
    (Some (mkUsage (CoInputTokens cr) (CoOutputTokens cr) (CoInputTokens cr +i CoOutputTokens cr)))).

Definition co_ChatCompletion (keyFunc : res goerror string) (baseURL model : string)
    (req : ChatCompletionRequest) : res goerror ChatCompletionResponse :=
  let* apiKey := wrap_err "resolve cohere api key" keyFunc in
  let cohReq := mkCoReq model (Messages req) (MaxTokens req) (Temperature req) false in
  let* body := json_err "marshal cohere request" (marshal_co cohReq) in
  post "create cohere request" "read cohere response"
    (Http.mkReq (baseURL +:+ "/chat") (bearer apiKey) body)
    raw_error (parseCohereResponse (Model req)).

Definition co_ChatCompletionStream {A} (reader : string -> A) (keyFunc : res goerror string)
    (baseURL model : string) (req : ChatCompletionRequest) : res goerror A :=
  let* apiKey := wrap_err "resolve cohere api key" keyFunc in
  let cohReq := mkCoReq model (Messages req) (MaxTokens req) (Temperature req) true in
  let* body := json_err "marshal cohere stream request" (marshal_co cohReq) in
  post_stream "create cohere stream request"
    (Http.mkReq (baseURL +:+ "/chat") (bearer apiKey ++ [("Accept", "text/event-stream")]) body)
    raw_error reader.

(** *** cohere/embed.go *)

Record co_embed_request := mkCoEmb {
  CEModel : string;
  CETexts : list string;
  CEInputType : string;
  CETypes : list string
}.

Context (marshal_ce : co_embed_request -> res string string)
        (unmarshal_ce : string -> res string (list (list float64) * Z)).

Definition co_Embed (keyFunc : res goerror string) (baseURL model : string)
    (req : Exact.EmbeddingRequest) : res goerror Exact.EmbeddingResponse :=
  let* apiKey := wrap_err "resolve cohere api key" keyFunc in
  let* texts := match parse_string (Exact.EmbInput req) with
                | Some single => Ok [single]
                | None => json_err "parse cohere embed input" (parse_strings (Exact.EmbInput req))
                end in
  let* body := json_err "marshal cohere embed request"
                 (marshal_ce (mkCoEmb model texts "search_document" ["float"])) in
  post "create cohere embed request" "read cohere embed response"
    (Http.mkReq (baseURL +:+ "/embed") (bearer apiKey) body)
    raw_error
    (fun b => let* r := json_err "unmarshal cohere embed response" (unmarshal_ce b) in
       let usage := if 0 <? r.2 then Some (mkUsage 0 0 r.2) else None in
       Ok (Exact.mkEmbResp "list" (index_embeddings r.1) (Exact.EmbModel req) usage)).

End Cohere.

(** ** bedrock *)

(** [InferenceConfig] is always present; its [TopP] is never set. *)
Record br_request := mkBrReq {
  BrMessages : list Message;
  BrSystem : list string;
  BrMaxTokens : option Z;
  BrTemperature : option float64
}.

(** The loop over the messages: every system text is kept, in order, and messages of roles
    other than user and assistant are dropped. *)
Definition br_step (cr : br_request) (msg : Message) : br_request :=
  if String.eqb (Role msg) "system" then
    mkBrReq (BrMessages cr) (BrSystem cr ++ [Content msg]) (BrMaxTokens cr) (BrTemperature cr)
  else if String.eqb (Role msg) "user" || String.eqb (Role msg) "assistant" then
    mkBrReq (BrMessages cr ++ [mkMessage (Role msg) (Content msg)]) (BrSystem cr)
      (BrMaxTokens cr) (BrTemperature cr)
  else cr.

Definition br_request_of (req : ChatCompletionRequest) : br_request :=
  foldl br_step (mkBrReq [] [] (MaxTokens req) (Temperature req)) (Messages req).

Record br_response := mkBrResp {
  BrContent : list string;
  BrStopReason : string;
  BrInputTokens : Z;
  BrOutputTokens : Z;
  BrTotalTokens : Z
}.

Definition br_mapStopReason (reason : string) : string :=
  if String.eqb reason "end_turn" then "stop"
  else if String.eqb reason "max_tokens" then "length"
  else if String.eqb reason "stop_sequence" then "stop"
  else if String.eqb reason "tool_use" then "tool_calls"
  else "stop".

(** *** bedrock/sigv4.go *)

(** [http.CanonicalHeaderKey] and the header map's [Set] and [Get]. *)
Definition ascii_upper (c : ascii) : ascii :=
  let n := Ascii.nat_of_ascii c in
  if (97 <=? n)%nat && (n <=? 122)%nat then Ascii.ascii_of_nat (n - 32) else c.

Fixpoint canonical_from (upper : bool) (s : string) : string :=
  match s with
  | EmptyString => EmptyString
  | String c s' =>
      String (if upper then ascii_upper c else ascii_lower c) (canonical_from (Ascii.eqb c "-") s')
  end.

Definition CanonicalHeaderKey (s : string) : string := canonical_from true s.

Definition Header_Set (k v : string) (h : list (string * string)) : list (string * string) :=
  if existsb (fun kv => String.eqb kv.1 k) h
  then map (fun kv => if String.eqb kv.1 k then (k, v) else kv) h
  else h ++ [(k, v)].

Definition Header_Get (k : string) (h : list (string * string)) : string :=
  match find (fun kv => String.eqb kv.1 k) h with Some kv => kv.2 | None => "" end.

(** [strings.Join]. *)
Fixpoint Join (sep : string) (l : list string) : string :=
  match l with
  | [] => ""
  | [x] => x
  | x :: l' => x +:+ sep +:+ Join sep l'
  end.

(** [hex.EncodeToString]. *)
Definition hex_digit (n : nat) : ascii := Ascii.ascii_of_nat (if (n <? 10)%nat then 48 + n else 87 + n).

Fixpoint hex_string (s : string) : string :=
  match s with
  | EmptyString => EmptyString
  | String c s' =>
      let n := Ascii.nat_of_ascii c in
      String (hex_digit (n / 16)) (String (hex_digit (n mod 16)) (hex_string s'))
  end.

(** The two date layouts. *)
Definition awsDate (t : Time) : string :=
  Calendar.pad4 (Calendar.Year t) +:+ Calendar.pad2 (Calendar.Month t) +:+ Calendar.pad2 (Calendar.DayOfMonth t).
Definition awsDateTime (t : Time) : string :=
  awsDate t +:+ "T" +:+ Calendar.pad2 (Calendar.HourOf t) +:+ Calendar.pad2 (Calendar.MinuteOf t)
    +:+ Calendar.pad2 ((t mod Minute) / Second) +:+ "Z".

Record AuthConfig := mkAuth { AccessKeyID : string; SecretAccessKey : string; SessionToken : string }.

Section SigV4.
(** SHA-256 and HMAC-SHA-256, and the parts net/url gives of a request's URL. *)
Context (sha256 : string -> string) (hmac : string -> string -> string)
        (url_host url_path url_query : string -> string).

Definition hashHex (data : string) : string := hex_string (sha256 data).
Definition hmacHex (key data : string) : string := hex_string (hmac key data).

Definition buildSigningKey (secretKey date region service : string) : string :=
  hmac (hmac (hmac (hmac ("AWS4" +:+ secretKey) date) region) service) "aws4_request".

Definition buildCanonicalHeaders (r : Http.request) (headersToSign : list string) : string :=
  foldl (fun sb h =>
    let val := if String.eqb h "host" then url_host (Http.Url r)
               else TrimSpace (Header_Get (CanonicalHeaderKey h) (Http.Headers r)) in
    sb +:+ h +:+ ":" +:+ val +:+ newline) "" headersToSign.

Definition headers_to_sign (sessionToken : string) : list string :=
  insertionSort String.ltb
    (["content-type"; "host"; "x-amz-content-sha256"; "x-amz-date"] ++
     (if negb (String.eqb sessionToken "") then ["x-amz-security-token"] else [])).

(** The headers set before signing. *)
Definition prepared (auth : AuthConfig) (now : Time) (r : Http.request) : Http.request :=
  let h := Header_Set "X-Amz-Date" (awsDateTime now) (Http.Headers r) in
  let h := if negb (String.eqb (SessionToken auth) "")
           then Header_Set "X-Amz-Security-Token" (SessionToken auth) h else h in
  Http.mkReq (Http.Url r) (Header_Set "X-Amz-Content-Sha256" (hashHex (Http.Body r)) h) (Http.Body r).

(** The canonical request of a request with a list of signed headers. *)
Definition canonical_request (r : Http.request) (headers : list string) : string :=
  let uri := url_path (Http.Url r) in
  Join newline ["POST"; if String.eqb uri "" then "/" else uri; url_query (Http.Url r);
                buildCanonicalHeaders r headers; Join ";" headers; hashHex (Http.Body r)].

Definition signRequest (region service : string) (auth : AuthConfig) (now : Time) (r : Http.request)
  : Http.request :=
  let r := prepared auth now r in
  let headers := headers_to_sign (SessionToken auth) in
  let credentialScope := awsDate now +:+ "/" +:+ region +:+ "/" +:+ service +:+ "/aws4_request" in
  let stringToSign := Join newline ["AWS4-HMAC-SHA256"; awsDateTime now; credentialScope;
                                    hashHex (canonical_request r headers)] in
  let signature := hmacHex (buildSigningKey (SecretAccessKey auth) (awsDate now) region service) stringToSign in
  Http.mkReq (Http.Url r)
    (Header_Set "Authorization" ("AWS4-HMAC-SHA256 Credential=" +:+ AccessKeyID auth +:+ "/" +:+ credentialScope
       +:+ ", SignedHeaders=" +:+ Join ";" headers +:+ ", Signature=" +:+ signature) (Http.Headers r))
    (Http.Body r).

Section Bedrock.
Context (marshal_br : br_request -> res string string)
        (unmarshal_br : string -> res string br_response)
        (unmarshal_err : string -> option (string * string)).

Definition BuildConverseRequest (req : ChatCompletionRequest) : res goerror string :=
  json_err "marshal bedrock request" (marshal_br (br_request_of req)).

Definition ParseConverseResponse (originalModel respBody : string) : res goerror ChatCompletionResponse :=
  let* cr := json_err "unmarshal bedrock response" (unmarshal_br respBody) in
  Ok (mkResponse "" "chat.completion" 0 originalModel
    [mkChoice 0 (mkMessage "assistant" (parts_text (BrContent cr))) (br_mapStopReason (BrStopReason cr))]
    (Some (mkUsage (BrInputTokens cr) (BrOutputTokens cr) (BrTotalTokens cr)))).

(** The decoded body: the message and the [__type]. *)
Definition parseBedrockError (status : Z) (body header : string) : GatewayError :=
  match unmarshal_err body with
  | None => NormalizeHTTPError ParseFloat status body header
  | Some (message, code) =>
      let msg := if negb (String.eqb message "") then message else body in
      if Contains code "ThrottlingException" then NormalizeHTTPError ParseFloat 429 msg header
      else NormalizeHTTPError ParseFloat status msg header
  end.

Definition br_url (baseURL model suffix : string) : string :=
  baseURL +:+ "/model/" +:+ model +:+ suffix.

Definition br_ChatCompletion (region : string) (auth : AuthConfig) (baseURL model : string) (req : ChatCompletionRequest) (now : Time)
  : res goerror ChatCompletionResponse :=
  let* body := wrap_err "build bedrock request" (BuildConverseRequest req) in
  post "create bedrock request" "read bedrock response"
    (signRequest region "bedrock" auth now (Http.mkReq (br_url baseURL model "/converse") ge_headers body))
    parseBedrockError (ParseConverseResponse ("bedrock/" +:+ model)).

Definition br_ChatCompletionStream {A} (reader : string -> A) (region : string) (auth : AuthConfig)
    (baseURL model : string) (req : ChatCompletionRequest) (now : Time) : res goerror A :=
  let* body := wrap_err "build bedrock stream request" (BuildConverseRequest req) in
  post_stream "create bedrock stream request"
    (signRequest region "bedrock" auth now (Http.mkReq (br_url baseURL model "/converse-stream") ge_headers body))
    parseBedrockError reader.

End Bedrock.

End SigV4.

(** ** Theorems *)

(** *** Bodies that are passed through *)

(** A map of raw fields with a list of assignments made in it. *)
Definition assign (fs : list (string * RawMessage)) (m : gmap string RawMessage) : gmap string RawMessage :=
  foldl (fun m kv => <[kv.1 := kv.2]> m) m fs.

Lemma assign_other fs m k : (forall v, (k, v) ∉ fs) -> assign fs m !! k = m !! k.
Proof.
  revert m. induction fs as [|[k' v'] fs IH]; intros m H; simpl; [done|].
  rewrite IH by (intros v F; apply (H v); by right).
  apply lookup_insert_ne. intros ->. apply (H v'). by left.
Qed.

(** [sent] is [raw] as an object, with its fields except the assigned ones unchanged. *)
Definition rewrites (fs : list (string * RawMessage)) (raw sent : string) : Prop :=
  exists body body', parse_object raw = Ok body /\ parse_object sent = Ok body' /\
    Forall (fun kv => body' !! kv.1 = Some kv.2) fs /\
    forall k, k ∉ fs.*1 -> body' !! k = body !! k.

Lemma rewrites_intro `{!JsonLaws} fs raw sent body :
  NoDup fs.*1 -> parse_object raw = Ok body -> marshal_object (assign fs body) = Ok sent ->
  rewrites fs raw sent.
Proof.
  intros N P M. exists body, (assign fs body). split; [done|]. split; [by apply json_roundtrip|]. split.
  - clear P M. revert body N. induction fs as [|[k v] fs IH]; intros body N; constructor; simpl.
    + simpl in N. inversion N as [|? ? N1 N2]; subst.
      rewrite assign_other; [apply lookup_insert_eq|].
      intros v' F. apply N1. apply list_elem_of_fmap. by exists (k, v').
    + simpl in N. inversion N; subst. by apply IH.
  - intros k Hk. apply assign_other. intros v F. apply Hk, list_elem_of_fmap. by exists (k, v).
Qed.

(** The azure body: the model field is gone and the rest of [raw] is unchanged, but for
    [stream] when a stream is asked for. *)
Definition without_model (stream : bool) (raw sent : string) : Prop :=
  exists body body', parse_object raw = Ok body /\ parse_object sent = Ok body' /\
    body' !! "model" = None /\ (stream = true -> body' !! "stream" = Some "true") /\
    forall k, k <> "model" -> (stream = true -> k <> "stream") -> body' !! k = body !! k.


(** *** Conversations that are translated *)

Definition is_system (m : Message) : bool := String.eqb (Role m) "system".
Definition systems (msgs : list Message) : list string := map Content (List.filter is_system msgs).
Definition dialogue (msgs : list Message) : list Message := List.filter (fun m => negb (is_system m)) msgs.
Definition to_gemini (m : Message) : Message :=
  mkMessage (if String.eqb (Role m) "assistant" then "model" else Role m) (Content m).

Lemma last_default {A} (d d' x : A) l : List.last (x :: l) d = List.last (x :: l) d'.
Proof. revert x. induction l as [|y l IH]; intros x; [done|]. exact (IH y). Qed.

Lemma an_split_spec sys acc msgs :
  an_split sys acc msgs = (List.last (systems msgs) sys, acc ++ dialogue msgs).
Proof.
  unfold systems, dialogue. revert sys acc. induction msgs as [|[r c] msgs IH]; intros sys acc; simpl.
  - by rewrite app_nil_r.
  - change (is_system (mkMessage r c)) with (String.eqb r "system").
    destruct (String.eqb r "system"); rewrite IH; simpl.
    + f_equal. destruct (map Content (List.filter is_system msgs)) eqn:E; [done|].
      apply last_default.
    + by rewrite <- app_assoc.
Qed.

Lemma ge_split_spec sys acc msgs :
  ge_split sys acc msgs =
  (List.last (map Some (systems msgs)) sys, acc ++ map to_gemini (dialogue msgs)).
Proof.
  unfold systems, dialogue. revert sys acc. induction msgs as [|[r c] msgs IH]; intros sys acc; simpl.
  - by rewrite app_nil_r.
  - change (is_system (mkMessage r c)) with (String.eqb r "system").
    destruct (String.eqb r "system"); [|destruct (String.eqb r "assistant") eqn:A]; rewrite IH; simpl.
    + f_equal. destruct (map Content (List.filter is_system msgs)) eqn:E; [done|].
      cbn [map]. apply last_default.
    + unfold to_gemini at 2. simpl. by rewrite A, <- app_assoc.
    + unfold to_gemini at 2. simpl. by rewrite A, <- app_assoc.
Qed.

Definition converses (m : Message) : bool := String.eqb (Role m) "user" || String.eqb (Role m) "assistant".

Lemma br_foldl_spec msgs cr :
  foldl br_step cr msgs =
  mkBrReq (BrMessages cr ++ List.filter converses msgs) (BrSystem cr ++ systems msgs)
    (BrMaxTokens cr) (BrTemperature cr).
Proof.
  unfold systems. revert cr. induction msgs as [|[r c] msgs IH]; intros [ms sys mt t]; simpl.
  - by rewrite !app_nil_r.
  - rewrite IH.
    change (is_system (mkMessage r c)) with (String.eqb r "system").
    change (converses (mkMessage r c)) with (String.eqb r "user" || String.eqb r "assistant").
    unfold br_step. cbn [Role Content].
    destruct (String.eqb_spec r "system") as [->|]; simpl; [by rewrite <- app_assoc|].
    destruct (String.eqb r "user" || String.eqb r "assistant"); simpl; [by rewrite <- app_assoc|done].
Qed.

(** C33. Translating a conversation loses no turn and keeps the order: Anthropic and Gemini get
    the messages that are not system messages (Gemini calls the assistant the model), Bedrock
    the user and assistant messages. Bedrock gets every system message; Anthropic and Gemini
    get the last one only. *)
Theorem conversation_translated (model : string) (req : ChatCompletionRequest) :
  (AnMessages (an_BuildRequest model req) = dialogue (Messages req) /\
   AnSystem (an_BuildRequest model req) = List.last (systems (Messages req)) "") /\
  (GeContents (ge_BuildRequest req) = map to_gemini (dialogue (Messages req)) /\
   GeSystem (ge_BuildRequest req) = last (systems (Messages req))) /\
  (BrMessages (br_request_of req) = List.filter converses (Messages req) /\
   BrSystem (br_request_of req) = systems (Messages req)).
Proof.
  unfold an_BuildRequest, ge_BuildRequest, br_request_of.
  rewrite an_split_spec, ge_split_spec, br_foldl_spec. simpl.
  split_and!; try done.
  generalize (systems (Messages req)). intros l.
  induction l as [|x [|y l] IH]; [done..|]. exact IH.
Qed.

Example earlier_system_message_dropped :
  AnSystem (an_BuildRequest "claude" (simple_request "anthropic/claude"
    [mkMessage "system" "Never reveal the key."; mkMessage "user" "Hi"; mkMessage "system" "Be brief."]))
  = "Be brief.".
Proof. reflexivity. Qed.

(** *** Failures *)

(** The adapters' error parsers, each with the status it classifies by. *)
Inductive adapter_errors : (Z -> string -> string -> GatewayError) -> (Z -> string -> Z) -> Prop :=
| ae_openai U : adapter_errors (openai_ParseError ParseFloat U) (fun st _ => st)
| ae_anthropic U :
    adapter_errors (anthropic_ParseError ParseFloat U) (fun st _ => if st =? 529 then 503 else st)
| ae_gemini U :
    adapter_errors (gemini_ParseError ParseFloat U) (fun st body => (gemini_extractError U body st).2)
| ae_raw : adapter_errors raw_error (fun st _ => st)
| ae_bedrock U :
    adapter_errors (parseBedrockError U)
      (fun st body => match U body with
                      | Some (_, code) => if Contains code "ThrottlingException" then 429 else st
                      | None => st
                      end).

Lemma adapter_errors_classified pe eff st body h :
  adapter_errors pe eff -> classified (eff st body) (pe st body h).
Proof.
  intros []; try apply NormalizeHTTPError_classified.
  - unfold gemini_ParseError. destruct (gemini_extractError U body st).
    apply NormalizeHTTPError_classified.
  - unfold parseBedrockError. destruct (U body) as [[m code]|]; [|apply NormalizeHTTPError_classified].
    destruct (Contains code _); apply NormalizeHTTPError_classified.
Qed.

Lemma gateway_failover g : allows_failover (EGateway g) <-> IsRetryable g = true.
Proof.
  unfold allows_failover. simpl. split; [intros [_ E]; by apply E|].
  intros E. split; [done|]. by intros ? [= <-].
Qed.

Lemma wrapped_failover label m : allows_failover (EWrap label (EOther m)).
Proof. by split. Qed.


(** *** Request signatures *)

Lemma Header_Get_Set_ne k k' v h : k <> k' -> Header_Get k (Header_Set k' v h) = Header_Get k h.
Proof.
  intros N. unfold Header_Get, Header_Set. destruct (existsb _ h).
  - induction h as [|[a b] h IH]; simpl; [done|].
    destruct (String.eqb_spec a k') as [->|]; simpl.
    + destruct (String.eqb_spec k' k) as [->|]; done.
    + destruct (String.eqb a k); done.
  - induction h as [|[a b] h IH]; simpl; [|by destruct (String.eqb a k)].
    by destruct (String.eqb_spec k' k) as [->|].
Qed.

Lemma Header_Get_Set k v h : Header_Get k (Header_Set k v h) = v.
Proof.
  unfold Header_Get, Header_Set. destruct (existsb _ h) eqn:E.
  - induction h as [|[a b] h IH]; simpl in *; [done|].
    destruct (String.eqb a k) eqn:F; simpl; [by rewrite String.eqb_refl|]. rewrite F. by apply IH.
  - induction h as [|[a b] h IH]; simpl in *; [by rewrite String.eqb_refl|].
    apply orb_false_iff in E as [E1 E2]. rewrite E1. by apply IH.
Qed.

(** The headers that are signed, in order; the security token is among them exactly when the
    request carries one. *)
Lemma headers_to_sign_spec token :
  headers_to_sign token =
  ["content-type"; "host"; "x-amz-content-sha256"; "x-amz-date"] ++
  (if String.eqb token "" then [] else ["x-amz-security-token"]).
Proof. unfold headers_to_sign. by destruct (String.eqb token ""). Qed.

End Adapters.

Section Signature.
Context (sha256 : string -> string) (hmac : string -> string -> string)
        (url_host url_path url_query : string -> string).

(** What the service computes from a request it receives and compares with the Authorization
    header: every input but the credentials is read off the request. *)
Definition expected_authorization (region service : string) (auth : AuthConfig) (date : string)
    (headers : list string) (r : Http.request) : string :=
  let scope := date +:+ "/" +:+ region +:+ "/" +:+ service +:+ "/aws4_request" in
  let toSign := Join newline ["AWS4-HMAC-SHA256"; Header_Get "X-Amz-Date" (Http.Headers r); scope;
    hashHex sha256 (canonical_request sha256 url_host url_path url_query r headers)] in
  "AWS4-HMAC-SHA256 Credential=" +:+ AccessKeyID auth +:+ "/" +:+ scope +:+ ", SignedHeaders=" +:+
  Join ";" headers +:+ ", Signature=" +:+
  hmacHex hmac (buildSigningKey hmac (SecretAccessKey auth) date region service) toSign.

Lemma foldl_ext_Forall {A B} (f g : A -> B -> A) l a :
  Forall (fun x => forall a, f a x = g a x) l -> foldl f a l = foldl g a l.
Proof. intros F. revert a. induction F as [|x l E F IH]; intros a; simpl; [done|]. by rewrite E. Qed.

Lemma canonical_ignores_authorization v r headers :
  Forall (fun h => CanonicalHeaderKey h <> "Authorization") headers ->
  canonical_request sha256 url_host url_path url_query
    (Http.mkReq (Http.Url r) (Header_Set "Authorization" v (Http.Headers r)) (Http.Body r)) headers =
  canonical_request sha256 url_host url_path url_query r headers.
Proof.
  intros F. unfold canonical_request. cbn [Http.Url Http.Body].
  enough (buildCanonicalHeaders url_host
    (Http.mkReq (Http.Url r) (Header_Set "Authorization" v (Http.Headers r)) (Http.Body r)) headers =
    buildCanonicalHeaders url_host r headers) as -> by done.
  unfold buildCanonicalHeaders. cbn [Http.Url Http.Headers]. apply foldl_ext_Forall.
  eapply Forall_impl; [exact F|]. intros h Fh sb. cbv beta zeta. by rewrite Header_Get_Set_ne.
Qed.


End Signature.

(** ** A JSON codec, for the witnesses *)

#[local] Instance demo_json : Json := {|
  parse_object s := match decode (unbits s) with Some m => Ok m | None => Err "syntax" end;
  marshal_object m := Ok (bits (encode m));
  marshal_string s := quote +:+ s +:+ quote;
  parse_string _ := None;
  parse_strings _ := Err "syntax";
  parse_response _ := Err "syntax"
|}.

#[local] Instance demo_json_laws : JsonLaws.
Proof. intros m s [= <-]. simpl. by rewrite unbits_bits, decode_encode. Qed.




End Adapters.
