(* ===== verification/ProviderStreams.v ===== *)
(** * Provider streams (internal/provider/*/stream.go and the stream halves of azure, mistral,
    grok, cohere and bedrock)

    How the bytes of a provider's streaming response become the chunks of a stream. OpenAI,
    Anthropic and Gemini read whole SSE events; the other adapters read the body in pieces of
    whatever size the network delivers and keep what is incomplete for the next read, and they
    are shown to produce the same chunks for every way of cutting the body into reads. The JSON
    decoders are arguments. The definitions follow a stream whose context is not cancelled:
    cancelling it stops the sends, so the client gets a prefix of these chunks. *)

From S2P Require Import Prelude GoStrings Types ProviderErrors Fallback EventStream Chat Adapters.
Local Open Scope Z_scope.
Import PErr SSE.

Module Streams.

Local Open Scope go_scope.

Definition error_chunk (label m : string) : StreamChunk :=
  mkChunk "" None None (Some (EWrap label (EOther m))).
Definition delta_chunk (text : string) : StreamChunk := mkChunk text None None None.

(** ** Readers of SSE events *)

(** The decoded OpenAI chunk: each choice's delta content and finish reason, and the usage. *)
Record oa_chunk := mkOaChunk { OaChoices : list (string * option string); OaUsage : option Usage }.

Definition oa_StreamChunk (c : oa_chunk) : StreamChunk :=
  match OaChoices c with
  | (content, fr) :: _ => mkChunk content fr (OaUsage c) None
  | [] => mkChunk "" None (OaUsage c) None
  end.

Section OpenAI.
Context (decode : string -> res string oa_chunk).

Fixpoint openai_events (es : list SSEEvent) : list StreamChunk :=
  match es with
  | [] => []
  | e :: es =>
      if String.eqb (Data e) "[DONE]" then []
      else match decode (Data e) with
           | Err m => [error_chunk "parse openai chunk" m]
           | Ok c => oa_StreamChunk c :: openai_events es
           end
  end.

Definition openai_stream (body : string) : list StreamChunk := openai_events (ParseSSE body).

End OpenAI.

(** An Anthropic event: its type, raw delta, the input tokens of its message and the output
    tokens of its usage. *)
Record an_event := mkAnEvent {
  AeType : string;
  AeDelta : RawMessage;
  AeMessage : option Z;
  AeUsage : option Z
}.

Section Anthropic.
Context (decode : string -> res string an_event)
        (text_delta : RawMessage -> option (string * string))
        (stop_delta : RawMessage -> option string).

Fixpoint anthropic_events (inputTokens : Z) (es : list SSEEvent) : list StreamChunk :=
  match es with
  | [] => []
  | e :: es =>
      match decode (Data e) with
      | Err m => [error_chunk "parse anthropic event" m]
      | Ok ev =>
          if String.eqb (AeType ev) "message_start" then
            anthropic_events (match AeMessage ev with Some n => n | None => inputTokens end) es
          else if String.eqb (AeType ev) "content_block_delta" then
            match text_delta (AeDelta ev) with
            | None => anthropic_events inputTokens es
            | Some (ty, text) =>
                if String.eqb ty "text_delta" && negb (String.eqb text "")
                then delta_chunk text :: anthropic_events inputTokens es
                else anthropic_events inputTokens es
            end
          else if String.eqb (AeType ev) "message_delta" then
            match stop_delta (AeDelta ev) with
            | None => anthropic_events inputTokens es
            | Some reason =>
                let usage := match AeUsage ev with
                             | Some out => Some (mkUsage inputTokens out (inputTokens +i out))
                             | None => None
                             end in
                mkChunk "" (Some (Adapters.an_mapStopReason reason)) usage None
                  :: anthropic_events inputTokens es
            end
          else if String.eqb (AeType ev) "message_stop" then []
          else anthropic_events inputTokens es
      end
  end.

Definition anthropic_stream (body : string) : list StreamChunk := anthropic_events 0 (ParseSSE body).

End Anthropic.

Section Gemini.
Context (decode : string -> res string Adapters.ge_response).

(** The delta of a cumulative text against what was accumulated, and what is accumulated then. *)
Definition ge_delta (accumulated cumulative : string) : string * string :=
  if Z.of_nat (String.length accumulated) <? Z.of_nat (String.length cumulative)
  then (drop_str (String.length accumulated) cumulative, cumulative)
  else ("", accumulated).

Definition send_delta (delta : string) : list StreamChunk :=
  if negb (String.eqb delta "") then [delta_chunk delta] else [].

Fixpoint gemini_events (accumulated : string) (es : list SSEEvent) : list StreamChunk :=
  match es with
  | [] => []
  | e :: es =>
      match decode (Data e) with
      | Err m => [error_chunk "parse gemini stream event" m]
      | Ok gr =>
          match Adapters.GeCandidates gr with
          | [] => gemini_events accumulated es
          | cand :: _ =>
              let '(delta, accumulated) := ge_delta accumulated (Adapters.parts_text (Adapters.CandParts cand)) in
              let fr := Adapters.CandFinish cand in
              if negb (String.eqb fr "") && negb (String.eqb fr "FINISH_REASON_UNSPECIFIED") then
                let usage := if 0 <? Adapters.GeTotalTokens gr
                             then Some (mkUsage (Adapters.GePromptTokens gr) (Adapters.GeCandidatesTokens gr)
                                          (Adapters.GeTotalTokens gr))
                             else None in
                send_delta delta ++ [mkChunk "" (Some (Adapters.ge_mapFinishReason fr)) usage None]
              else send_delta delta ++ gemini_events accumulated es
          end
      end
  end.

Definition gemini_stream (body : string) : list StreamChunk := gemini_events "" (ParseSSE body).

End Gemini.

(** ** Readers of pieces *)

(** One pass of a parsing loop over its buffer: it stops, keeping some of the buffer, or takes
    something off the front and sends some chunks. *)
Inductive pass := Stop (leftover : string) | Sent (cs : list StreamChunk) (rest : string).

Section Pieces.
Context (next : string -> pass).

(** The parsing loop, and the reading loop around it: each read is appended to what was left
    over. *)
Fixpoint drain (fuel : nat) (buf : string) : list StreamChunk * string :=
  match fuel with
  | O => ([], buf)
  | S fuel =>
      match next buf with
      | Stop l => ([], l)
      | Sent cs rest => let '(cs', l) := drain fuel rest in (cs ++ cs', l)
      end
  end.

(** Every pass shortens the buffer, so its length is enough fuel. *)
Definition parse_buffer (buf : string) : list StreamChunk * string := drain (S (String.length buf)) buf.

Fixpoint read_loop (leftover : string) (reads : list string) : list StreamChunk :=
  match reads with
  | [] => []
  | r :: reads =>
      if 0 <? Z.of_nat (String.length r) then
        let '(cs, leftover) := parse_buffer (leftover +:+ r) in cs ++ read_loop leftover reads
      else read_loop leftover reads
  end.

End Pieces.

(** [strings.IndexByte], and the buffer cut there. *)
Fixpoint cut_at (c : ascii) (s : string) : option (string * string) :=
  match s with
  | EmptyString => None
  | String x s' =>
      if Ascii.eqb x c then Some (EmptyString, s')
      else match cut_at c s' with Some (a, b) => Some (String x a, b) | None => None end
  end.

(** [strings.TrimRight(s, "\r")]. *)
Fixpoint trim_CR (s : string) : string :=
  match s with
  | EmptyString => EmptyString
  | String c s' =>
      match trim_CR s' with
      | EmptyString => if Ascii.eqb c CR then EmptyString else String c EmptyString
      | t => String c t
      end
  end.

Section OpenAICompatible.
Context (decode : string -> res string oa_chunk).

(** The chunk of a data line. *)
Definition data_line_chunks (line : string) : list StreamChunk :=
  if String.eqb line "" || String.eqb line "data: [DONE]" then []
  else if negb (HasPrefix line "data: ") then []
  else match decode (drop_str 6 line) with
       | Err _ => []
       | Ok c => [oa_StreamChunk c]
       end.

(** azure/transform.go: after a line feed a second one is skipped. *)
Definition processSSELines (buf : string) : pass :=
  match cut_at LF buf with
  | None => Stop buf
  | Some (line, rest) =>
      let rest := match rest with
                  | String c rest' => if Ascii.eqb c LF then rest' else rest
                  | EmptyString => rest
                  end in
      Sent (data_line_chunks line) rest
  end.

(** parseMistralLines and parseGrokLines. *)
Definition parseCompatLines (buf : string) : pass :=
  match cut_at LF buf with
  | None => Stop buf
  | Some (line, rest) => Sent (data_line_chunks (trim_CR line)) rest
  end.

Definition parseGrokLines : string -> pass := parseCompatLines.

Definition azure_stream (reads : list string) : list StreamChunk := read_loop processSSELines "" reads.
Definition compat_stream (reads : list string) : list StreamChunk := read_loop parseCompatLines "" reads.
Definition grok_stream (reads : list string) : list StreamChunk := read_loop parseGrokLines "" reads.

End OpenAICompatible.

Record co_event := mkCoEvent { CvType : string; CvText : string; CvFinish : string }.

Section Cohere.
(** [json.Unmarshal] of an event: what it stored, and whether it failed. *)
Context (ToLower : string -> string) (unmarshal : string -> co_event * bool).

Definition co_event_chunks (ev : co_event) : list StreamChunk :=
  if String.eqb (CvType ev) "content-delta" then [delta_chunk (CvText ev)]
  else if String.eqb (CvType ev) "message-end" then
    let fr := ToLower (CvFinish ev) in
    let fr := if String.eqb fr "" then "stop" else fr in
    [mkChunk "" (Some fr) None None]
  else [].

Definition co_line_chunks (line : string) : list StreamChunk :=
  if String.eqb line "" then []
  else let '(ev, failed) := unmarshal line in
       if failed then
         if HasPrefix line "data: " then co_event_chunks (unmarshal (drop_str 6 line)).1 else []
       else co_event_chunks ev.

Definition parseCohereLines (buf : string) : pass :=
  match cut_at LF buf with
  | None => Stop buf
  | Some (line, rest) => Sent (co_line_chunks (trim_CR line)) rest
  end.

Definition cohere_stream (reads : list string) : list StreamChunk := read_loop parseCohereLines "" reads.

End Cohere.

(** A Bedrock event: the text of a content block, the stop reason, the usage. *)
Record br_event := mkBrEvent {
  BeDelta : option string;
  BeStop : option string;
  BeUsage : option Usage
}.

(** The index of the brace that closes the first object of [buf]. *)
Fixpoint findJSONEnd_from (depth : Z) (inString escaped : bool) (i : nat) (buf : string) : option nat :=
  match buf with
  | EmptyString => None
  | String b buf =>
      if escaped then findJSONEnd_from depth inString false (S i) buf
      else if Ascii.eqb b "\" && inString then findJSONEnd_from depth inString true (S i) buf
      else if Ascii.eqb b (Ascii.ascii_of_nat 34) then findJSONEnd_from depth (negb inString) false (S i) buf
      else if inString then findJSONEnd_from depth inString false (S i) buf
      else if Ascii.eqb b "{" then findJSONEnd_from (depth +i 1) inString false (S i) buf
      else if Ascii.eqb b "}" then
        if depth -i 1 =? 0 then Some i else findJSONEnd_from (depth -i 1) inString false (S i) buf
      else findJSONEnd_from depth inString false (S i) buf
  end.

Definition findJSONEnd (buf : string) : option nat := findJSONEnd_from 0 false false O buf.

Section Bedrock.
Context (decode : string -> option br_event).

Definition br_event_chunks (ev : br_event) : list StreamChunk :=
  match BeDelta ev, BeStop ev, BeUsage ev with
  | None, None, None => []
  | d, s, u => [mkChunk (default "" d) (Adapters.br_mapStopReason <$> s) u None]
  end.

Definition parseBedrockStreamChunks (buf : string) : pass :=
  match cut_at "{" buf with
  | None => Stop ""
  | Some (_, tl) =>
      let from_start := String "{" tl in
      match findJSONEnd from_start with
      | None => Stop buf
      | Some e =>
          let jsonData := take_str (S e) from_start in
          Sent (match decode jsonData with Some ev => br_event_chunks ev | None => [] end)
            (drop_str (S e) from_start)
      end
  end.

Definition bedrock_stream (reads : list string) : list StreamChunk :=
  read_loop parseBedrockStreamChunks "" reads.

End Bedrock.

(** ** Any cut of the body gives the same chunks *)

(** What a parsing pass must satisfy: it takes something off the buffer, it decides the same
    when more follows, and what it drops when it stops could not have begun anything. *)
Class Incremental (next : string -> pass) : Prop := {
  inc_shorter : forall a cs rest, next a = Sent cs rest -> (String.length rest < String.length a)%nat;
  inc_sent : forall a cs rest b, next a = Sent cs rest ->
    exists rest', next (a +:+ b) = Sent cs rest' /\
      (parse_buffer next rest').1 = (parse_buffer next (rest +:+ b)).1;
  inc_stop : forall a l b, next a = Stop l ->
    (parse_buffer next (a +:+ b)).1 = (parse_buffer next (l +:+ b)).1
}.

Section Run.
Context (next : string -> pass).
Context (Sh : forall a cs rest, next a = Sent cs rest -> (String.length rest < String.length a)%nat).

Lemma drain_fuel fuel buf :
  (String.length buf < fuel)%nat -> drain next fuel buf = parse_buffer next buf.
Proof.
  unfold parse_buffer.
  enough (forall f g buf, (String.length buf < f)%nat -> (String.length buf < g)%nat ->
    drain next f buf = drain next g buf) as H by (intros; apply H; lia).
  intros f. induction f as [|f IH]; intros g b Hf Hg; [lia|]. destruct g as [|g]; [lia|]. simpl.
  destruct (next b) as [|cs rest] eqn:E; [done|]. apply Sh in E.
  by rewrite (IH g) by lia.
Qed.

Lemma parse_buffer_unfold buf :
  parse_buffer next buf =
  match next buf with
  | Stop l => ([], l)
  | Sent cs rest => (cs ++ (parse_buffer next rest).1, (parse_buffer next rest).2)
  end.
Proof.
  unfold parse_buffer at 1. cbn [drain]. destruct (next buf) as [|cs rest] eqn:E; [done|].
  rewrite drain_fuel by (apply Sh in E; lia). by destruct (parse_buffer next rest).
Qed.

End Run.

Section Incremental.
Context (next : string -> pass) `{!Incremental next}.

Lemma parse_buffer_app a b :
  (parse_buffer next (a +:+ b)).1 =
  (parse_buffer next a).1 ++ (parse_buffer next ((parse_buffer next a).2 +:+ b)).1.
Proof.
  induction a as [a IH] using (induction_ltof1 _ String.length).
  rewrite (parse_buffer_unfold next inc_shorter a). destruct (next a) as [l|cs rest] eqn:E.
  - by rewrite (inc_stop _ _ b E).
  - destruct (inc_sent _ _ _ b E) as (rest' & E' & R).
    rewrite (parse_buffer_unfold next inc_shorter (a +:+ b)), E'. cbn [fst snd].
    rewrite R, IH by (apply inc_shorter in E; exact E). by rewrite (assoc_L (++)).
Qed.

Lemma leftover_silent a : (parse_buffer next (parse_buffer next a).2).1 = [].
Proof.
  pose proof (parse_buffer_app a "") as H. rewrite !str_app_nil_r in H.
  apply (f_equal length) in H. rewrite length_app in H. apply length_zero_iff_nil. lia.
Qed.

Lemma read_loop_whole l reads :
  (parse_buffer next l).1 = [] ->
  read_loop next l reads = (parse_buffer next (foldl String.append l reads)).1.
Proof.
  revert l. induction reads as [|r reads IH]; intros l Hl; simpl; [done|].
  destruct (Z.ltb_spec 0 (Z.of_nat (String.length r))).
  - destruct (parse_buffer next (l +:+ r)) as [cs l'] eqn:E.
    assert (l' = (parse_buffer next (l +:+ r)).2) as El by (by rewrite E).
    rewrite IH by (rewrite El; apply leftover_silent).
    enough (forall x y, foldl String.append (x +:+ y) reads = x +:+ foldl String.append y reads) as F.
    { pose proof (parse_buffer_app (l +:+ r) (foldl String.append "" reads)) as H'.
      rewrite E in H'. simpl in H'. rewrite <- !F, !str_app_nil_r in H'. by rewrite H'. }
    clear. induction reads as [|z reads IH]; intros x y; simpl; [done|]. by rewrite <- IH, str_app_assoc.
  - destruct r; [|simpl in *; lia]. rewrite IH by done. by rewrite str_app_nil_r.
Qed.

(** The chunks do not depend on how the body was cut into reads. *)
Lemma reads_as_whole reads :
  read_loop next "" reads = (parse_buffer next (foldl String.append "" reads)).1.
Proof.
  apply read_loop_whole. rewrite (parse_buffer_unfold next inc_shorter).
  destruct (next "") as [|cs rest] eqn:E; [done|]. apply inc_shorter in E. simpl in E. lia.
Qed.

End Incremental.

(** *** Lines *)

Lemma cut_at_spec c s a b : cut_at c s = Some (a, b) -> s = a +:+ String c b /\ has_char c a = false.
Proof.
  revert a. induction s as [|x s IH]; simpl; intros a E; [done|].
  destruct (Ascii.eqb_spec x c) as [->|N]; [by injection E as <- <-|].
  destruct (cut_at c s) as [[a' b']|]; [|done]. injection E as <- <-.
  destruct (IH a' eq_refl) as [-> H]. split; [done|]. simpl. rewrite H.
  by apply Ascii.eqb_neq in N as ->.
Qed.

Lemma cut_at_app c s t a b : cut_at c s = Some (a, b) -> cut_at c (s +:+ t) = Some (a, b +:+ t).
Proof.
  revert a. induction s as [|x s IH]; simpl; intros a E; [done|].
  destruct (Ascii.eqb x c); [by injection E as <- <-|].
  destruct (cut_at c s) as [[a' b']|]; [|done]. injection E as <- <-. by rewrite (IH a' eq_refl).
Qed.

Lemma cut_at_skip c a b :
  cut_at c a = None ->
  cut_at c (a +:+ b) = match cut_at c b with Some (x, y) => Some (a +:+ x, y) | None => None end.
Proof.
  induction a as [|x a IH]; simpl; intros E; [by destruct (cut_at c b) as [[? ?]|]|].
  destruct (Ascii.eqb x c); [done|]. destruct (cut_at c a) as [[? ?]|]; [done|].
  rewrite IH by done. by destruct (cut_at c b) as [[? ?]|].
Qed.

Lemma cut_at_line c l rest : has_char c l = false -> cut_at c (l +:+ String c rest) = Some (l, rest).
Proof.
  induction l as [|x l IH]; simpl; [by rewrite Ascii.eqb_refl|].
  rewrite orb_false_iff. intros [-> H]. by rewrite IH.
Qed.

Lemma cut_at_shorter c s a b : cut_at c s = Some (a, b) -> (String.length b < String.length s)%nat.
Proof. intros E. apply cut_at_spec in E as [-> _]. rewrite str_length_app. simpl. lia. Qed.

(** A pass that takes a line off and sends what the line gives. *)
Definition line_pass (emit : string -> list StreamChunk) (buf : string) : pass :=
  match cut_at LF buf with None => Stop buf | Some (line, rest) => Sent (emit line) rest end.

#[export] Instance line_pass_incremental emit : Incremental (line_pass emit).
Proof.
  unfold line_pass. split.
  - intros a cs rest E. destruct (cut_at LF a) as [[l r]|] eqn:C; simplify_eq. by eapply cut_at_shorter.
  - intros a cs rest b E. destruct (cut_at LF a) as [[l r]|] eqn:C; simplify_eq.
    rewrite (cut_at_app _ _ _ _ _ C). by eexists.
  - intros a l b E. destruct (cut_at LF a) as [[? ?]|]; by simplify_eq.
Qed.

#[export] Instance parseCompatLines_incremental decode : Incremental (parseCompatLines decode) :=
  line_pass_incremental (fun line => data_line_chunks decode (trim_CR line)).

#[export] Instance parseCohereLines_incremental low un : Incremental (parseCohereLines low un) :=
  line_pass_incremental (fun line => co_line_chunks low un (trim_CR line)).

Section Azure.
Context (decode : string -> res string oa_chunk).

Lemma azure_shorter a cs rest :
  processSSELines decode a = Sent cs rest -> (String.length rest < String.length a)%nat.
Proof.
  unfold processSSELines. destruct (cut_at LF a) as [[l r]|] eqn:C; [|done].
  apply cut_at_shorter in C. intros E. injection E as _ <-. destruct r as [|c r]; [done|].
  destruct (Ascii.eqb c LF); simpl in *; lia.
Qed.

(** An empty line gives nothing, so it may be skipped or not. *)
Lemma azure_blank_line x :
  parse_buffer (processSSELines decode) (String LF x) = parse_buffer (processSSELines decode) x.
Proof.
  rewrite (parse_buffer_unfold _ azure_shorter (String LF x)).
  assert (exists rest, processSSELines decode (String LF x) = Sent [] rest /\
    (rest = x \/ x = String LF rest)) as (rest & -> & H).
  { unfold processSSELines. simpl. destruct x as [|c x].
    { eexists. split; [reflexivity|]. by left. }
    destruct (Ascii.eqb_spec c LF) as [->|]; eexists; split; try reflexivity; auto. }
  simpl. rewrite <- surjective_pairing. destruct H as [-> | -> ]; [done|].
  clear. induction rest as [|c rest IH].
  all: rewrite (parse_buffer_unfold _ azure_shorter (String LF _)); unfold processSSELines at 1.
  - reflexivity.
  - simpl. destruct (Ascii.eqb_spec c LF) as [->|]; simpl; rewrite <- surjective_pairing; [|done].
    symmetry. apply IH.
Qed.

#[export] Instance processSSELines_incremental : Incremental (processSSELines decode).
Proof.
  split; [exact azure_shorter| |].
  - intros a cs rest b. unfold processSSELines at 1 2. destruct (cut_at LF a) as [[l r]|] eqn:C; [|done].
    intros [= <- <-]. rewrite (cut_at_app _ _ _ _ _ C). eexists. split; [reflexivity|].
    destruct r as [|c r]; simpl.
    + destruct b as [|c b]; [done|]. destruct (Ascii.eqb_spec c LF) as [->|]; [|done].
      by rewrite azure_blank_line.
    + by destruct (Ascii.eqb c LF).
  - intros a l b. unfold processSSELines at 1. destruct (cut_at LF a) as [[? ?]|]; [done|].
    by intros [= <-].
Qed.

End Azure.

(** *** Objects *)

(** *** Objects *)

Lemma take_str_app_le n a b : (n <= String.length a)%nat -> take_str n (a +:+ b) = take_str n a.
Proof.
  revert a. induction n as [|n IH]; intros a H; [by destruct a, b|].
  destruct a as [|c a]; simpl in *; [lia|]. f_equal. apply IH. lia.
Qed.

Lemma drop_str_app_le n a b : (n <= String.length a)%nat -> drop_str n (a +:+ b) = drop_str n a +:+ b.
Proof.
  revert a. induction n as [|n IH]; intros a H; [by destruct a|].
  destruct a as [|c a]; simpl in *; [lia|]. apply IH. lia.
Qed.

Lemma drop_str_length n a : String.length (drop_str n a) = (String.length a - n)%nat.
Proof. revert a. induction n as [|n IH]; intros [|c a]; simpl; try lia. apply IH. Qed.

Lemma findJSONEnd_from_app d st esc i a b e :
  findJSONEnd_from d st esc i a = Some e ->
  findJSONEnd_from d st esc i (a +:+ b) = Some e /\ (i <= e < i + String.length a)%nat.
Proof.
  revert d st esc i. induction a as [|c a IH]; intros d st esc i H; [done|].
  cbn [findJSONEnd_from String.append String.length] in *.
  repeat match type of H with
  | (if ?x then _ else _) = _ => destruct x
  end; try (apply IH in H as [H ?]; split; [exact H|lia]).
  injection H as <-. split; [done|lia].
Qed.

#[export] Instance parseBedrockStreamChunks_incremental decode :
  Incremental (parseBedrockStreamChunks decode).
Proof.
  assert (forall a cs rest, parseBedrockStreamChunks decode a = Sent cs rest ->
    (String.length rest < String.length a)%nat) as Sh.
  { intros a cs rest. unfold parseBedrockStreamChunks.
    destruct (cut_at "{" a) as [[pre tl]|] eqn:C; [|done].
    destruct (findJSONEnd _) as [e|]; [|done]. intros E. injection E as _ <-.
    apply cut_at_shorter in C. rewrite drop_str_length. simpl. lia. }
  split; [exact Sh| |].
  - intros a cs rest b. unfold parseBedrockStreamChunks at 1 2.
    destruct (cut_at "{" a) as [[pre tl]|] eqn:C; [|done].
    destruct (findJSONEnd (String "{" tl)) as [e|] eqn:F; [|done]. intros E. injection E as <- <-.
    rewrite (cut_at_app _ _ _ _ _ C). apply (findJSONEnd_from_app _ _ _ _ _ b) in F as [F L].
    change (String "{" (tl +:+ b)) with (String "{" tl +:+ b). unfold findJSONEnd at 1. rewrite F.
    rewrite take_str_app_le, drop_str_app_le by lia. by eexists.
  - intros a l b. unfold parseBedrockStreamChunks at 1.
    destruct (cut_at "{" a) as [[pre tl]|] eqn:C.
    + destruct (findJSONEnd (String "{" tl)); [done|]. by intros [= <-].
    + intros [= <-]. simpl.
      rewrite (parse_buffer_unfold _ Sh (a +:+ b)), (parse_buffer_unfold _ Sh b).
      unfold parseBedrockStreamChunks. rewrite (cut_at_skip _ _ _ C).
      destruct (cut_at "{" b) as [[pre tl]|]; [|done]. by destruct (findJSONEnd _).
Qed.

(** C13. The readers that work on pieces produce the same chunks however the network cuts the
    body: for every sequence of reads, of any sizes, empty reads included, the Azure, Mistral
    and Grok, Cohere and Bedrock readers send exactly the chunks they send when the whole body
    arrives in one read, in the same order. *)
Theorem streams_any_cut decode low un decode_br (reads : list string) :
  let whole := [foldl String.append "" reads] in
  azure_stream decode reads = azure_stream decode whole /\
  compat_stream decode reads = compat_stream decode whole /\
  cohere_stream low un reads = cohere_stream low un whole /\
  bedrock_stream decode_br reads = bedrock_stream decode_br whole.
Proof.
  cbv zeta. unfold azure_stream, compat_stream, cohere_stream, bedrock_stream.
  split_and!; rewrite !(reads_as_whole _ _); reflexivity.
Qed.

(** ** What the readers send *)

Lemma line_pass_lines emit ls tail :
  Forall (fun l => has_char LF l = false) ls -> has_char LF tail = false ->
  (parse_buffer (line_pass emit) (unlines ls +:+ tail)).1 = ls ≫= emit.
Proof.
  intros F T. induction F as [|l ls L F IH]; cbn [unlines foldr].
  - change ("" +:+ tail) with tail. rewrite (parse_buffer_unfold _ inc_shorter). unfold line_pass.
    destruct (cut_at LF tail) as [[a b]|] eqn:C; [|done].
    apply cut_at_spec in C as [-> _]. rewrite has_char_app in T. simpl in T.
    by rewrite orb_true_r in T.
  - rewrite str_app_assoc. cbn [String.append].
    rewrite (parse_buffer_unfold _ inc_shorter). unfold line_pass at 1. rewrite cut_at_line by done.
    cbn [fst mbind list_bind]. f_equal. exact IH.
Qed.

(** Azure's skipping of a second line feed changes nothing. *)
Lemma azure_line_reader decode s :
  (parse_buffer (processSSELines decode) s).1 = (parse_buffer (line_pass (data_line_chunks decode)) s).1.
Proof.
  induction s as [s IH] using (induction_ltof1 _ String.length).
  rewrite (parse_buffer_unfold _ (azure_shorter decode)), (parse_buffer_unfold (line_pass _) inc_shorter).
  unfold processSSELines, line_pass. destruct (cut_at LF s) as [[l r]|] eqn:C; [|done].
  apply cut_at_shorter in C. cbn [fst]. f_equal.
  fold (line_pass (data_line_chunks decode)). fold (processSSELines decode).
  destruct r as [|c r]; [by apply IH|]. destruct (Ascii.eqb_spec c LF) as [->|]; [|by apply IH].
  rewrite <- azure_blank_line. by apply IH.
Qed.

(** A complete object: it begins with a brace and its last byte closes it. *)
Definition json_object (o : string) : Prop :=
  exists tl, o = String "{" tl /\ findJSONEnd o = Some (String.length tl).

(** Frames: bytes with no brace, then an object. *)
Definition frames (fs : list (string * string)) : string := foldr (fun f s => f.1 +:+ f.2 +:+ s) "" fs.

Lemma bedrock_frames decode fs :
  Forall (fun f => has_char "{" f.1 = false /\ json_object f.2) fs ->
  (parse_buffer (parseBedrockStreamChunks decode) (frames fs)).1 =
  fs ≫= fun f => match decode f.2 with Some ev => br_event_chunks ev | None => [] end.
Proof.
  induction 1 as [|[junk o] fs [J (tl & Eo & E)] F IH]; [done|]. cbn [fst snd] in *. subst o.
  change (frames ((junk, String "{" tl) :: fs)) with (junk +:+ String "{" (tl +:+ frames fs)).
  rewrite (parse_buffer_unfold _ inc_shorter). unfold parseBedrockStreamChunks at 1.
    rewrite (cut_at_line _ junk (tl +:+ frames fs)) by done. cbv zeta.
  change (String "{" (tl +:+ frames fs)) with (String "{" tl +:+ frames fs).
  unfold findJSONEnd at 1. destruct (findJSONEnd_from_app _ _ _ _ _ (frames fs) _ E) as [-> _].
  change (S (String.length tl)) with (String.length (String "{" tl)).
  rewrite drop_str_app. cbn [fst mbind list_bind]. f_equal; [|exact IH].
  rewrite take_str_app_le by done.
  enough (forall x, take_str (String.length x) x = x) as -> by done.
  clear. intros x. induction x; simpl; congruence.
Qed.

(** The readers lose no complete line and no complete frame: whatever the cut, the chunks
    are those of the body's lines one after the other (blank lines, comments, the end marker
    and undecodable data giving none), and for Bedrock those of its objects, provided the bytes
    between the objects contain no opening brace. *)
Theorem streams_deliver decode low un decode_br reads ls tail fs :
  Forall (fun l => has_char LF l = false) ls -> has_char LF tail = false ->
  Forall (fun f => has_char "{" f.1 = false /\ json_object f.2) fs ->
  (foldl String.append "" reads = unlines ls +:+ tail ->
     azure_stream decode reads = ls ≫= data_line_chunks decode /\
     compat_stream decode reads = ls ≫= (fun l => data_line_chunks decode (trim_CR l)) /\
     cohere_stream low un reads = ls ≫= (fun l => co_line_chunks low un (trim_CR l))) /\
  (foldl String.append "" reads = frames fs ->
     bedrock_stream decode_br reads =
     fs ≫= fun f => match decode_br f.2 with Some ev => br_event_chunks ev | None => [] end).
Proof.
  intros L T F. unfold azure_stream, compat_stream, cohere_stream, bedrock_stream.
  split; intros E; [split_and!|]; rewrite (reads_as_whole _ reads), E.
  - rewrite azure_line_reader. by apply line_pass_lines.
  - by apply line_pass_lines.
  - by apply line_pass_lines.
  - by apply bedrock_frames.
Qed.

(** A stray brace among the bytes between two objects, which a frame's length or checksum may
    contain, makes the reader wait for a brace that never closes: the events after it are lost. *)
Example brace_between_frames_loses_events :
  let frame := "{" +:+ Adapters.quote +:+ "x" +:+ Adapters.quote +:+ ":1}" in
  let decode := fun _ => Some (mkBrEvent (Some "hi") None None) in
  bedrock_stream decode [frame +:+ frame] = [delta_chunk "hi"; delta_chunk "hi"] /\
  bedrock_stream decode [frame +:+ "{" +:+ frame] = [delta_chunk "hi"].
Proof. split; reflexivity. Qed.

Lemma streams_deliver_witness :
  azure_stream (fun s => Ok (mkOaChunk [(s, None)] None)) ["data: a" +:+ newline +:+ "da"; "ta: b" +:+ newline; "x"]
  = [delta_chunk "a"; delta_chunk "b"].
Proof.
  refine (proj1 (proj1 (streams_deliver (fun s => Ok (mkOaChunk [(s, None)] None)) (fun s => s)
    (fun _ => (mkCoEvent "" "" "", true)) (fun _ => None)
    ["data: a" +:+ newline +:+ "da"; "ta: b" +:+ newline; "x"] ["data: a"; "data: b"] "x" [] _ _ _) _)).
  - by repeat constructor.
  - reflexivity.
  - constructor.
  - reflexivity.
Defined.

(** *** OpenAI, from the response's bytes to the client *)

Section OpenAIDelivery.
Context (decode : string -> res string oa_chunk).

(** An event that carries a chunk. *)
Definition carries (e : SSEEvent) (c : oa_chunk) : Prop :=
  sendable e /\ Data e <> "[DONE]" /\ decode (Data e) = Ok c.

Lemma openai_events_carried es cs tl :
  Forall2 carries es cs -> openai_events decode (es ++ tl) = map oa_StreamChunk cs ++ openai_events decode tl.
Proof.
  induction 1 as [|e c es cs (_ & N & D) F IH]; [done|]. simpl.
  apply String.eqb_neq in N. by rewrite N, D, IH.
Qed.

(** The text of the chunks that do not finish the stream. *)
Fixpoint contents (cs : list oa_chunk) : string :=
  match cs with
  | [] => ""
  | c :: cs =>
      match OaChoices c with
      | (content, None) :: _ => content +:+ contents cs
      | _ => contents cs
      end
  end.

Lemma contents_sent cs : Chat.Sse.sent_before_finish (map oa_StreamChunk cs) = contents cs.
Proof.
  induction cs as [|[[|[text [fr|]] ?] u] cs IH]; simpl in *; [done|exact IH|exact IH|]. by rewrite IH.
Qed.

(** From OpenAI's bytes to the client's text: when the response is a list of events that
    each carry a chunk, then the end marker, and then anything at all, the stream has exactly
    these chunks, and a client of /v1/chat/completions receives the text of those without a
    finish reason, in order, then one end marker, however chunks and keepalives interleave. *)
Theorem openai_stream_delivery es cs fin rest err_text id created model ins l :
  Forall2 carries es cs -> sendable fin -> Data fin = "[DONE]" ->
  let body := render (es ++ [fin]) +:+ rest in
  openai_stream decode body = map oa_StreamChunk cs /\
  (Chat.Sse.inputs_of ins = Some (openai_stream decode body) ->
   exists out, (Chat.Sse.StreamChannelToClient err_text id created model ins l).1 = out ++ [Chat.Sse.ODone] /\
     Chat.Sse.received out = contents cs).
Proof.
  intros F S D body.
  assert (openai_stream decode body = map oa_StreamChunk cs) as E.
  { unfold openai_stream, body. rewrite ParseSSE_rendered.
    - rewrite <- (assoc_L (++)), (openai_events_carried _ _ _ F). cbn [app openai_events].
      rewrite D. simpl. by rewrite app_nil_r.
    - apply Forall_app. split; [|constructor; [exact S|constructor]]. clear - F.
      induction F as [|e c es cs [He _] F IH]; by constructor. }
  split; [exact E|]. rewrite E. intros H. unfold Chat.Sse.StreamChannelToClient.
  destruct (Chat.Sse.stream_loop_closed err_text
    (fun c => Chat.Sse.OChunk (Chat.Sse.buildChunk id created model c)) ins _ l H) as (out & Eo & Ef).
  destruct (Chat.Sse.stream_loop _ _ ins l) as [o l']. simpl in Eo. subst o.
  eexists (_ :: out). split; [reflexivity|]. simpl.
  rewrite <- Chat.Sse.received_filter, Ef, Chat.Sse.received_filter, Chat.Sse.received_chunks.
  apply contents_sent.
Qed.

End OpenAIDelivery.

Lemma openai_stream_delivery_witness :
  let decode := fun s => Ok (mkOaChunk [(s, None)] None) in
  let body := render [mkEvent "message" "hi" ""; mkEvent "message" "[DONE]" ""] +:+ "junk" in
  openai_stream decode body = [delta_chunk "hi"] /\
  exists out, (Chat.Sse.StreamChannelToClient (fun _ => "") "id" 0 "m"
      [Chat.Sse.KeepaliveTick; Chat.Sse.ChunkIn (delta_chunk "hi") 1; Chat.Sse.ChannelClosed]
      Telemetry.empty_log).1 = out ++ [Chat.Sse.ODone] /\ Chat.Sse.received out = "hi".
Proof.
  cbv zeta.
  assert (forall t, Forall (line_ok maxLine) (event_lines (mkEvent "message" t "")) ->
    sendable (mkEvent "message" t "")) as S.
  { intros t F. split; [discriminate|split; vm_compute; reflexivity|exact F]. }
  destruct (openai_stream_delivery (fun s => Ok (mkOaChunk [(s, None)] None)) [mkEvent "message" "hi" ""]
    [mkOaChunk [("hi", None)] None] (mkEvent "message" "[DONE]" "") "junk" (fun _ => "") "id" 0 "m"
    [Chat.Sse.KeepaliveTick; Chat.Sse.ChunkIn (delta_chunk "hi") 1; Chat.Sse.ChannelClosed]
    Telemetry.empty_log) as [E H].
  - constructor; [|constructor]. split; [|by split]. apply S. repeat constructor; vm_compute; reflexivity.
  - apply S. repeat constructor; vm_compute; reflexivity.
  - reflexivity.
  - split; [exact E|]. apply H. rewrite E. reflexivity.
Defined.

(** *** Gemini *)

Section GeminiText.
Context (decode : string -> res string Adapters.ge_response).

Definition finished (fr : string) : bool :=
  negb (String.eqb fr "") && negb (String.eqb fr "FINISH_REASON_UNSPECIFIED").

(** A cumulative stream: each event's text extends the one before, and the stream ends with
    its last event or with a finish reason. [cumulative acc es t]: after [acc], the events [es]
    reach the text [t]. *)
Inductive cumulative : string -> list SSEEvent -> string -> Prop :=
| cum_end acc : cumulative acc [] acc
| cum_empty acc e es gr t :
    decode (Data e) = Ok gr -> Adapters.GeCandidates gr = [] -> cumulative acc es t ->
    cumulative acc (e :: es) t
| cum_more acc d e es gr c cs t :
    decode (Data e) = Ok gr -> Adapters.GeCandidates gr = c :: cs ->
    Adapters.parts_text (Adapters.CandParts c) = acc +:+ d -> finished (Adapters.CandFinish c) = false ->
    cumulative (acc +:+ d) es t -> cumulative acc (e :: es) t
| cum_finish acc d e es gr c cs :
    decode (Data e) = Ok gr -> Adapters.GeCandidates gr = c :: cs ->
    Adapters.parts_text (Adapters.CandParts c) = acc +:+ d -> finished (Adapters.CandFinish c) = true ->
    cumulative acc (e :: es) (acc +:+ d).

Lemma ge_delta_extends acc d : ge_delta acc (acc +:+ d) = (d, acc +:+ d).
Proof.
  unfold ge_delta. rewrite str_length_app. destruct d as [|c d].
  - rewrite str_app_nil_r. simpl.
    destruct (Z.ltb_spec (Z.of_nat (String.length acc)) (Z.of_nat (String.length acc + 0))); [lia|done].
  - destruct (Z.ltb_spec (Z.of_nat (String.length acc)) (Z.of_nat (String.length acc + String.length (String c d))));
      [by rewrite drop_str_app|simpl in *; lia].
Qed.

Lemma sent_app a b : Chat.Sse.sent (a ++ b) = Chat.Sse.sent a +:+ Chat.Sse.sent b.
Proof. induction a as [|c a IH]; simpl; [done|]. by rewrite IH, str_app_assoc. Qed.

Lemma sent_delta d : Chat.Sse.sent (send_delta d) = d.
Proof.
  unfold send_delta. destruct (String.eqb_spec d "") as [->|]; simpl; [done|]. apply str_app_nil_r.
Qed.

(** Gemini's cumulative texts are turned into deltas that lose and repeat nothing: the
    deltas sent, joined, are the last cumulative text, and no chunk carries both text and a
    finish reason. *)
Theorem gemini_deltas es t :
  cumulative "" es t ->
  Chat.Sse.sent (gemini_events decode "" es) = t /\
  Forall (fun c => SDelta c = "" \/ SFinishReason c = None) (gemini_events decode "" es).
Proof.
  enough (forall acc, cumulative acc es t ->
    acc +:+ Chat.Sse.sent (gemini_events decode acc es) = t /\
    Forall (fun c => SDelta c = "" \/ SFinishReason c = None) (gemini_events decode acc es)) as G
    by apply (G "").
  assert (forall d, Forall (fun c => SDelta c = "" \/ SFinishReason c = None) (send_delta d)) as FD.
  { intros d. unfold send_delta. destruct (negb _); constructor; [by right|constructor]. }
  induction 1 as [acc|acc e es gr t D C H IH|acc d e es gr c cs t D C P N H IH|acc d e es gr c cs D C P N].
  all: cbn [gemini_events]; rewrite ?D, ?C, ?P.
  - simpl. by rewrite str_app_nil_r.
  - exact IH.
  - rewrite ge_delta_extends. unfold finished in N. cbv zeta. rewrite N.
    rewrite sent_app, sent_delta, <- str_app_assoc. split; [apply IH|]. apply Forall_app. split; [done|apply IH].
  - rewrite ge_delta_extends. unfold finished in N. cbv zeta. rewrite N.
    rewrite sent_app, sent_delta. simpl. rewrite str_app_nil_r. split; [done|].
    apply Forall_app. split; [done|]. constructor; [by left|constructor].
Qed.

End GeminiText.

Lemma gemini_deltas_witness :
  let decode := fun s => Ok (Adapters.mkGeResp [Adapters.mkCand [s] (if String.eqb s "hello" then "STOP" else "")] 1 2 3) in
  Chat.Sse.sent (gemini_events decode "" [mkEvent "" "he" ""; mkEvent "" "hello" ""]) = "hello".
Proof.
  cbv zeta. apply gemini_deltas. eapply (cum_more _ "" "he"); [reflexivity..|].
  eapply (cum_finish _ "he" "llo"); reflexivity.
Defined.

Example anthropic_usage :
  anthropic_events
    (fun s => Ok (if String.eqb s "start" then mkAnEvent "message_start" "" (Some 7) None
                  else if String.eqb s "text" then mkAnEvent "content_block_delta" "hi" None None
                  else mkAnEvent "message_delta" "max_tokens" None (Some 5)))
    (fun d => Some ("text_delta", d)) Some 0
    [mkEvent "" "start" ""; mkEvent "" "text" ""; mkEvent "" "stop" ""] =
  [delta_chunk "hi"; mkChunk "" (Some "length") (Some (mkUsage 7 5 12)) None].
Proof. reflexivity. Qed.

End Streams.
