(* ===== verification/Streaming.v ===== *)
(** * Streams on the wire (internal/gateway/proxy/stream.go)

    The bytes of the event streams the gateway writes, the identifiers of its streams, and
    StreamToClient, which opens a provider's stream with retries before it commits to an event
    stream. The theorems read the bytes back with the gateway's own parser: the stream of one
    gateway, read by the OpenAI adapter of another, carries the same chunks, and a cached answer
    replayed as a stream reads like a live one. The JSON encoder and decoder of chunks are the
    class [ChunkJson] with its laws. *)

From S2P Require Import Prelude GoStrings Types ProviderErrors Retry Fallback ExactCache EventStream Chat Adapters ProviderStreams.
Local Open Scope Z_scope.
Import PErr SSE Sse.

Module Wire.

(** ** The JSON of chunks *)

Class ChunkJson := {
  chunk_json : Exact.ChatCompletionChunk -> string;
  text_json : CompletionStreamChunk -> string;
  error_json : string -> string;
  decode : string -> res string Streams.oa_chunk;
  valid_utf8 : string -> bool
}.

Section Bytes.
Context `{ChunkJson}.

(** [fmt.Fprintf(w, "data: %s\n\n", data)]. *)
Definition data_frame (d : string) : list string := ["data: " +:+ d; ""].

Definition writeChunk (c : Exact.ChatCompletionChunk) : list string := data_frame (chunk_json c).
Definition writeTextChunk (c : CompletionStreamChunk) : list string := data_frame (text_json c).

(** The lines each output puts on the connection. *)
Definition write (o : output) : list string :=
  match o with
  | OKeepalive => [": keepalive"; ""]
  | OChunk c => writeChunk c
  | OTextChunk c => writeTextChunk c
  | OError msg => data_frame (error_json msg)
  | ODone => data_frame "[DONE]"
  end.

Definition wire (out : list output) : string := unlines (out ≫= write).

(** [writeSSEChunk] and [writeSSEDone] of the replay. *)
Definition replay_output (e : Exact.event) : output :=
  match e with Exact.Chunk c => OChunk c | Exact.Done => ODone end.

(** ** Stream identifiers: the random bytes, or the clock when there are none. *)

Definition newStreamID (rand : option string) (nano : string) : string :=
  match rand with
  | None => "chatcmpl-" +:+ nano
  | Some b => "chatcmpl-" +:+ Adapters.hex_string b
  end.

Definition newCmplStreamID (rand : option string) (nano : string) : string :=
  match rand with
  | None => "cmpl-" +:+ nano
  | Some b => "cmpl-" +:+ Adapters.hex_string b
  end.

End Bytes.

(** ** StreamToClient *)

Inductive answer :=
| Unsupported
| Refused (status : Z) (msg errType : string)
| Streamed (out : list output).

Section Client.
Context `{Retry.RetryEnv W}.

(** The retried closure assigns the variable [chunks] of the function around it: the retries
    run in the world extended with that variable. *)
#[local] Instance var_env : Retry.RetryEnv (W * list StreamChunk) := {
  Retry.rand_Float64 v := let '(r, w) := Retry.rand_Float64 v.1 in (r, (w, v.2));
  Retry.wait d v := let '(c, w) := Retry.wait d v.1 in (c, (w, v.2))
}.

Definition open_stream (p : Registry.Provider_ W) (model : string) (req : ChatCompletionRequest)
    (rawBody : string) (v : W * list StreamChunk) : option goerror * (W * list StreamChunk) :=
  match Registry.ChatCompletionStream p model req rawBody v.1 with
  | (Ok ch, w) => (None, (w, ch))
  | (Err e, w) => (Some e, (w, []))
  end.

(** [flusher] says whether the writer can flush; [schedule] is what the select loop sees. *)
Definition StreamToClient (err_text : goerror -> string) (flusher : bool) (p : Registry.Provider_ W)
    (parsed : ParsedModel) (req : ChatCompletionRequest) (rawBody : string)
    (schedule : list StreamChunk -> list input) (id : string) (created : Z)
    (l : Telemetry.RequestLogContext) (w : W) : answer * Telemetry.RequestLogContext * W :=
  if negb flusher then (Unsupported, l, w)
  else match Retry.Execute Retry.Default (open_stream p (ParsedModelName parsed) req rawBody) (w, []) with
       | (Some err, (w, _)) =>
           match errors_As_gateway err with
           | Some g => (Refused (HTTPStatus g) (GMessage g) (code_string (Code g)),
                        Telemetry.SetError (code_string (Code g)) (GMessage g) l, w)
           | None => (Refused 502 (err_text err) "api_error",
                      Telemetry.SetError "stream_error" (err_text err) l, w)
           end
       | (None, (w, ch)) =>
           let '(out, l) := StreamChannelToClient err_text id created (Model req) (schedule ch) l in
           (Streamed out, l, w)
       end.

(** StreamToClient is StreamChannelToClient on the stream that the last attempt opened; an
    error status is sent only when no attempt opened one, and then nothing of an event stream
    is sent. *)
Theorem StreamToClient_channel err_text p parsed req raw schedule id created l w :
  let '(a, l', w') := StreamToClient err_text true p parsed req raw schedule id created l w in
  match a with
  | Streamed out =>
      exists w0 ch, Registry.ChatCompletionStream p (ParsedModelName parsed) req raw w0 = (Ok ch, w') /\
        StreamChannelToClient err_text id created (Model req) (schedule ch) l = (out, l')
  | Refused status _ _ =>
      exists e v, Retry.Execute Retry.Default (open_stream p (ParsedModelName parsed) req raw) (w, []) = (Some e, (w', v)) /\
        status = match errors_As_gateway e with Some g => HTTPStatus g | None => 502 end
  | Unsupported => False
  end.
Proof.
  unfold StreamToClient. cbn [negb].
  destruct (Retry.Execute Retry.Default _ (w, [])) as [[e|] [w1 ch]] eqn:X.
  - destruct (errors_As_gateway e) as [g|] eqn:G; exists e, ch; by rewrite G.
  - apply Retry.execute_from_success in X as [[w0 c0] F]; [|right; vm_compute; lia].
    unfold open_stream in F. cbn [fst] in F.
    destruct (Registry.ChatCompletionStream p (ParsedModelName parsed) req raw w0) as [[ch'|e] w2] eqn:E; simplify_eq.
    destruct (StreamChannelToClient err_text id created (Model req) (schedule ch) l) as [out l1] eqn:S.
    by exists w0, ch.
Qed.

End Client.

(** ** Reading the bytes back *)

(** What the decoder of the OpenAI adapter makes of a chunk; empty members are omitted. *)
Definition oa_of (c : Exact.ChatCompletionChunk) : Streams.oa_chunk :=
  Streams.mkOaChunk
    (map (fun ch => (Exact.DContent (Exact.CCDelta ch),
                     if String.eqb (Exact.CCFinishReason ch) "" then None else Some (Exact.CCFinishReason ch)))
       (Exact.ChunkChoices c)) (Exact.ChunkUsage c).

Definition valid_chunk `{ChunkJson} (c : Exact.ChatCompletionChunk) : bool :=
  forallb (fun ch => valid_utf8 (Exact.DContent (Exact.CCDelta ch)) && valid_utf8 (Exact.CCFinishReason ch))
    (Exact.ChunkChoices c).

(** What encoding/json promises: the text of an object is on one line, and valid text comes back
    as it was. *)
Class ChunkJsonLaws `{ChunkJson} : Prop := {
  chunk_one_line : forall c, has_char LF (chunk_json c) = false /\ has_char CR (chunk_json c) = false;
  error_one_line : forall m, has_char LF (error_json m) = false /\ has_char CR (error_json m) = false;
  chunk_object : forall c, HasPrefix (chunk_json c) "{" = true;
  error_object : forall m, HasPrefix (error_json m) "{" = true;
  decode_chunk : forall c, valid_chunk c = true -> decode (chunk_json c) = Ok (oa_of c);
  decode_error : forall m, decode (error_json m) = Ok (Streams.mkOaChunk [] None)
}.

Section ReadBack.
Context `{ChunkJsonLaws}.

(** An output that the reader's line limit allows. *)
Definition short (o : output) : Prop :=
  Forall (fun l => Z.of_nat (String.length l) < maxLine) (write o) /\
  match o with OChunk c => valid_chunk c = true | OTextChunk _ => False | _ => True end.

Definition event_of (o : output) : list SSEEvent :=
  match o with
  | OKeepalive | OTextChunk _ => []
  | OChunk c => [mkEvent "message" (chunk_json c) ""]
  | OError m => [mkEvent "message" (error_json m) ""]
  | ODone => [mkEvent "message" "[DONE]" ""]
  end.

Lemma parse_frame d rest :
  parse_lines empty_event [] (data_frame d ++ rest) = mkEvent "message" d "" :: parse_lines empty_event [] rest.
Proof.
  unfold data_frame. cbn [app].
  change (("data: " +:+ d) :: "" :: rest) with (((fun l => "data: " +:+ l) <$> [d]) ++ "" :: rest).
  rewrite parse_data. done.
Qed.

Lemma frame_ok d :
  has_char LF d = false /\ has_char CR d = false ->
  Forall (fun l => Z.of_nat (String.length l) < maxLine) (data_frame d) -> Forall (line_ok maxLine) (data_frame d).
Proof.
  intros [L C] F. unfold data_frame in *. apply Forall_cons in F as [F1 F2].
  apply Forall_cons in F2 as [F2 _]. repeat constructor; try done; cbn; by rewrite ?L, ?C.
Qed.

Lemma write_ok o : short o -> Forall (line_ok maxLine) (write o).
Proof.
  intros [F V]. destruct o as [|c|c|m|]; cbn [write] in *; try done.
  - repeat constructor.
  - by apply frame_ok; [apply chunk_one_line|].
  - by apply frame_ok; [apply error_one_line|].
  - by apply frame_ok.
Qed.

(** The gateway's parser reads back what the gateway writes: one event per output, none for a
    keepalive. *)
Lemma ParseSSE_wire out rest :
  Forall short out -> ParseSSE (wire out +:+ rest) = (out ≫= event_of) ++ ParseSSE rest.
Proof.
  intros F. unfold ParseSSE, wire. rewrite scan_unlines.
  - generalize (scan_lines maxLine rest). intros tl.
    induction F as [|o out [S V] F IH]; [done|]. cbn [mbind list_bind]. rewrite <- !(assoc_L (++)), <- IH.
    destruct o; cbn [write event_of app] in *; try apply parse_frame; done.
  - induction F as [|o out S F IH]; [constructor|]. cbn [mbind list_bind]. apply Forall_app.
    split; [by apply write_ok|done].
Qed.

Lemma object_not_done s : HasPrefix s "{" = true -> String.eqb s "[DONE]" = false.
Proof. intros P. apply String.eqb_neq. intros ->. by vm_compute in P. Qed.

(** The chunk the adapter of a second gateway reads for an output of the first. *)
Definition chunk_read (o : output) : list StreamChunk :=
  match o with
  | OChunk c => [Streams.oa_StreamChunk (oa_of c)]
  | OError _ => [mkChunk "" None None None]
  | _ => []
  end.

Lemma openai_events_wire out rest :
  Forall short out -> ODone ∉ out ->
  Streams.openai_events decode ((out ≫= event_of) ++ mkEvent "message" "[DONE]" "" :: rest) = out ≫= chunk_read.
Proof.
  intros F. induction F as [|o out [S V] F IH]; intros N; [done|].
  rewrite not_elem_of_cons in N. destruct N as [N0 N]. cbn [mbind list_bind].
  rewrite <- (assoc_L (++)). specialize (IH N).
  destruct o as [|c|c|m|]; cbn [event_of chunk_read app Streams.openai_events SSE.Data] in *; try done.
  - rewrite (object_not_done _ (chunk_object c)), decode_chunk by done. f_equal. exact IH.
  - rewrite (object_not_done _ (error_object m)), decode_error. f_equal. exact IH.
Qed.

(** The OpenAI adapter on the bytes of a stream that ends with the marker. *)
Lemma openai_stream_wire out rest :
  Forall short out -> ODone ∉ out ->
  Streams.openai_stream decode (wire (out ++ [ODone]) +:+ rest) = out ≫= chunk_read.
Proof.
  intros F N. unfold Streams.openai_stream. rewrite ParseSSE_wire.
  - rewrite bind_app. cbn [mbind list_bind event_of]. rewrite app_nil_r, <- (assoc_L (++)). cbn [app].
    by apply openai_events_wire.
  - apply Forall_app. split; [done|]. repeat constructor.
Qed.

(** ** One gateway behind another *)

(** What a chunk becomes on its way through a gateway: a finish reason drops the text beside it. *)
Definition relayed (c : StreamChunk) : StreamChunk :=
  match SFinishReason c with
  | Some fr => mkChunk "" (if String.eqb fr "" then None else Some fr) (SUsage c) None
  | None => mkChunk (SDelta c) None (SUsage c) None
  end.

Definition is_data (o : output) : bool := match o with OKeepalive => false | _ => true end.

Lemma chunk_read_filter out : List.filter is_data out ≫= chunk_read = out ≫= chunk_read.
Proof.
  induction out as [|o out IH]; [done|]. cbn [List.filter].
  destruct o; cbn [is_data mbind list_bind chunk_read app]; rewrite <- ?IH; done.
Qed.

Lemma chunk_read_built id created model cs :
  ((fun c => OChunk (buildChunk id created model c)) <$> cs) ≫= chunk_read = relayed <$> cs.
Proof.
  induction cs as [|c cs IH]; [done|]. rewrite !fmap_cons. cbn [mbind list_bind]. rewrite IH.
  unfold chunk_read, relayed, buildChunk, oa_of. by destruct (SFinishReason c).
Qed.

Lemma relayed_text cs : sent_before_finish (relayed <$> cs) = sent_before_finish cs.
Proof.
  induction cs as [|c cs IH]; [done|]. rewrite fmap_cons. cbn [sent_before_finish foldr].
  change (foldr _ "" (relayed <$> cs)) with (sent_before_finish (relayed <$> cs)). rewrite IH.
  unfold relayed. destruct (SFinishReason c) as [fr|]; [|done]. simpl. by destruct (String.eqb fr "").
Qed.

Lemma StreamChannel_closed err_text id created model ins cs l :
  inputs_of ins = Some cs ->
  exists out, (StreamChannelToClient err_text id created model ins l).1 = out ++ [ODone] /\ ODone ∉ out /\
    out ≫= chunk_read = mkChunk "" None None None :: (relayed <$> cs).
Proof.
  intros E. destruct (stream_delivery err_text id created model ins cs l E) as [_ (out & Eo & N & _)].
  exists out. split; [done|]. split; [done|]. unfold StreamChannelToClient in Eo.
  destruct (stream_loop_closed err_text (fun c => OChunk (buildChunk id created model c)) ins cs l E) as (o & Ec & F).
  destruct (stream_loop _ _ ins l) as [o' l']. cbn [fst] in *. subst o'. rewrite app_comm_cons in Eo.
  apply app_inj_tail in Eo as [<- _]. cbn [mbind list_bind chunk_read]. cbn [app]. f_equal.
  change (fun o => match o with OKeepalive => false | _ => true end) with is_data in F.
  rewrite <- chunk_read_filter, F, chunk_read_filter. apply chunk_read_built.
Qed.


(** A failure in the middle of a stream is lost on the second gateway: it reads the error event
    as an empty chunk, and the stream ends as if the provider had finished. *)
Lemma relayed_error_lost err_text id created model c e l rest :
  SError c = None -> SFinishReason c = None ->
  Forall short (StreamChannelToClient err_text id created model
    [ChunkIn c 0; ChunkIn (mkChunk "" None None (Some e)) 0] l).1 ->
  Streams.openai_stream decode (wire (StreamChannelToClient err_text id created model
    [ChunkIn c 0; ChunkIn (mkChunk "" None None (Some e)) 0] l).1 +:+ rest) =
  [mkChunk "" None None None; mkChunk (SDelta c) None (SUsage c) None; mkChunk "" None None None].
Proof.
  intros E F S. unfold StreamChannelToClient in *. cbn [stream_loop SError] in *. rewrite E in *.
  cbn [fst] in *. unfold writeSSEError in *.
  change (?a :: ?b :: OError ?m :: [ODone]) with ([a; b; OError m] ++ [ODone]) in *.
  apply Forall_app in S as [S _]. rewrite openai_stream_wire; [|done|].
  - cbn [mbind list_bind chunk_read app]. unfold buildChunk, oa_of. by rewrite F.
  - rewrite !not_elem_of_cons. repeat split; try done. apply not_elem_of_nil.
Qed.

(** ** Replayed answers *)

(** A chunk of the stream before its last one. *)
Definition unfinished (e : Exact.event) : Prop :=
  match e with
  | Exact.Chunk c => Forall (fun ch => Exact.CCFinishReason ch = "") (Exact.ChunkChoices c)
  | Exact.Done => False
  end.

Lemma replay_read r es :
  Forall unfinished es ->
  (forall e, e ∈ es -> exists d f u, e = Exact.chunk_of r d f u) ->
  sent_before_finish ((replay_output <$> es) ≫= chunk_read) = Exact.stream_text es.
Proof.
  intros F. induction F as [|e es P F IH]; intros C; [done|].
  destruct (C e) as (d & f & u & ->); [left|]. rewrite fmap_cons. cbn [mbind list_bind replay_output Exact.chunk_of].
  apply Forall_cons in P as [P _]. cbn in P. subst f.
  cbn [chunk_read app sent_before_finish foldr Streams.oa_StreamChunk oa_of]. cbn.
  rewrite str_app_nil_r. f_equal. apply IH. intros e' I. apply C. by right.
Qed.

(** A cached answer replayed as a stream reads like a live one: the adapter of a second gateway
    gets its words, joined by single spaces. *)
Theorem replay_reads_back r c cs rest :
  Choices r = c :: cs ->
  Forall short (replay_output <$> Exact.ReplayAsStream r) ->
  sent_before_finish (Streams.openai_stream decode (wire (replay_output <$> Exact.ReplayAsStream r) +:+ rest)) =
    String.concat " " (Fields (Content (ChoiceMessage c))).
Proof.
  intros E S. unfold Exact.ReplayAsStream in *. rewrite E in *.
  set (ws := Fields (Content (ChoiceMessage c))) in *.
  set (body := [Exact.chunk_of r (Exact.mkDelta "assistant" "") "" None] ++
    ((fun t => Exact.chunk_of r (Exact.mkDelta "" t) "" None) <$> Exact.word_texts ws)) in *.
  set (last := Exact.chunk_of r (Exact.mkDelta "" "") (FinishReason c) (RespUsage r)) in *.
  assert (forall es, replay_output <$> (es ++ [last; Exact.Done]) = (replay_output <$> (es ++ [last])) ++ [ODone]) as Sp
    by (intros; rewrite !fmap_app, <- (assoc_L (++)); done).
  rewrite (assoc_L (++)) in *. fold body in S |- *. rewrite Sp in *. apply Forall_app in S as [S _].
  rewrite openai_stream_wire; [|done|].
  - rewrite fmap_app, bind_app.
    assert (forall a b, sent_before_finish (a ++ b) = sent_before_finish a +:+ sent_before_finish b) as App.
    { intros a b. induction a as [|x a IH]; [done|]. simpl in *. rewrite IH. destruct (SFinishReason x); [done|].
      by rewrite str_app_assoc. }
    rewrite App, (replay_read r).
    + unfold body. rewrite Exact.stream_text_app, Exact.word_texts_concat. simpl.
      destruct (String.eqb (FinishReason c) ""); by rewrite str_app_nil_r.
    + unfold body. apply Forall_app. split; [by repeat constructor|].
      apply Forall_fmap, Forall_true. intros t. by repeat constructor.
    + intros e I. unfold body in I. rewrite elem_of_app, list_elem_of_singleton, list_elem_of_fmap in I.
      destruct I as [->|(t & -> & _)]; eauto.
  - rewrite list_elem_of_fmap. intros (e & D & I). unfold body in I.
    rewrite !elem_of_app, !list_elem_of_singleton, list_elem_of_fmap in I.
    destruct I as [[->|(t & -> & _)]| ->]; done.
Qed.

End ReadBack.

(** ** A codec *)

Definition chunk_tuple (c : Streams.oa_chunk) : list (string * option string) * option (Z * Z * Z) :=
  (Streams.OaChoices c, (fun u => (PromptTokens u, CompletionTokens u, TotalTokens u)) <$> Streams.OaUsage c).

Definition demo_json (c : Streams.oa_chunk) : string := "{" +:+ GoStrings.text_of (chunk_tuple c).

#[local] Instance demo_ChunkJson : ChunkJson := {
  chunk_json c := demo_json (oa_of c);
  text_json _ := "{}";
  error_json _ := demo_json (Streams.mkOaChunk [] None);
  decode s := match of_text (A := list (string * option string) * option (Z * Z * Z)) (drop_str 1 s) with
              | Some (cs, u) => Ok (Streams.mkOaChunk cs ((fun '(p, c, t) => mkUsage p c t) <$> u))
              | None => Err "syntax"
              end;
  valid_utf8 _ := true
}.

Lemma bits_no_char ch p :
  ch <> "0"%char -> ch <> "1"%char -> has_char ch (bits p) = false.
Proof.
  intros N0 N1. induction p as [p IH|p IH|]; cbn [bits has_char]; [| |].
  all: rewrite ?IH, ?orb_false_r; try done; apply Ascii.eqb_neq; congruence.
Qed.

#[local] Instance demo_ChunkJsonLaws : ChunkJsonLaws.
Proof.
  assert (L : forall c ch, ch <> "{"%char -> ch <> "0"%char -> ch <> "1"%char -> has_char ch (demo_json c) = false).
  { intros c ch N N0 N1. unfold demo_json. rewrite has_char_app. unfold GoStrings.text_of. rewrite bits_no_char by done.
    cbn [has_char]. rewrite !orb_false_r. apply Ascii.eqb_neq. congruence. }
  assert (D : forall c, decode (demo_json c) = Ok c).
  { intros [cs u]. unfold decode, demo_ChunkJson, demo_json.
    change (drop_str 1 ("{" +:+ ?t)) with t. rewrite of_text_of. unfold chunk_tuple. cbn. by destruct u as [[]|]. }
  split; intros; [split; by apply L|split; by apply L| | |apply D|apply D].
  all: unfold chunk_json, error_json, demo_ChunkJson, demo_json;
    generalize (GoStrings.text_of (A := list (string * option string) * option (Z * Z * Z))).
  all: intros f; by destruct (f _).
Qed.


End Wire.
