(* ===== verification/ProviderKeys.v ===== *)
(** * Provider keys (internal/crypto/aes.go, internal/provider/key_manager.go and
    key_selector.go, store/postgres/provider_key_store.go, handler/admin_provider_keys.go)

    The API keys of the providers: encryption at rest, the table, the in-memory cache of
    decrypted keys and the weighted choice among them, and the admin endpoints that change the
    table and invalidate the cache. AES-GCM is an argument with its law; base64 is defined. *)

From S2P Require Import Prelude GoStrings Float64 Types ProviderErrors.
Local Open Scope Z_scope.
Import PErr.

(** ** encoding/base64, standard alphabet with padding *)
Module Base64.

Definition alphabet : string := "ABCDEFGHIJKLMNOPQRSTUVWXYZabcdefghijklmnopqrstuvwxyz0123456789+/".

Definition digit (i : Z) : ascii := default "A"%char (String.get (Z.to_nat i) alphabet).

Fixpoint index_from (i : Z) (s : string) (c : ascii) : option Z :=
  match s with
  | EmptyString => None
  | String x s => if Ascii.eqb x c then Some i else index_from (i + 1) s c
  end.
Definition value (c : ascii) : option Z := index_from 0 alphabet c.

Definition byte (c : ascii) : Z := Z.of_nat (Ascii.nat_of_ascii c).
Definition char (z : Z) : ascii := Ascii.ascii_of_nat (Z.to_nat z).

Fixpoint Encode (s : string) : string :=
  match s with
  | EmptyString => EmptyString
  | String a EmptyString =>
      String (digit (byte a / 4)) (String (digit (byte a mod 4 * 16)) "==")
  | String a (String b EmptyString) =>
      String (digit (byte a / 4)) (String (digit (byte a mod 4 * 16 + byte b / 16))
        (String (digit (byte b mod 16 * 4)) "="))
  | String a (String b (String c s')) =>
      String (digit (byte a / 4)) (String (digit (byte a mod 4 * 16 + byte b / 16))
        (String (digit (byte b mod 16 * 4 + byte c / 64)) (String (digit (byte c mod 64)) (Encode s'))))
  end.

Definition is_break (c : ascii) : bool := Ascii.eqb c LF || Ascii.eqb c CR.

Fixpoint strip_breaks (s : string) : string :=
  match s with
  | EmptyString => EmptyString
  | String c s => if is_break c then strip_breaks s else String c (strip_breaks s)
  end.

(** Groups of four; a group with padding is the last. *)
Fixpoint decode_groups (s : string) : option string :=
  match s with
  | EmptyString => Some EmptyString
  | String c1 (String c2 (String c3 (String c4 s'))) =>
      match value c1, value c2 with
      | Some i1, Some i2 =>
          if Ascii.eqb c3 "=" then
            if Ascii.eqb c4 "=" && String.eqb s' "" then Some (String (char (i1 * 4 + i2 / 16)) "") else None
          else match value c3 with
          | None => None
          | Some i3 =>
              let a := char (i1 * 4 + i2 / 16) in
              let b := char (i2 mod 16 * 16 + i3 / 4) in
              if Ascii.eqb c4 "=" then
                if String.eqb s' "" then Some (String a (String b "")) else None
              else match value c4, decode_groups s' with
                   | Some i4, Some r => Some (String a (String b (String (char (i3 mod 4 * 64 + i4)) r)))
                   | _, _ => None
                   end
          end
      | _, _ => None
      end
  | _ => None
  end.

Definition Decode (s : string) : option string := decode_groups (strip_breaks s).

Lemma digit_ok i : 0 <= i < 64 ->
  value (digit i) = Some i /\ is_break (digit i) = false /\ Ascii.eqb (digit i) "=" = false.
Proof.
  intros H. replace i with (Z.of_nat (Z.to_nat i)) by lia.
  assert (Z.to_nat i < 64)%nat as B by lia. revert B. generalize (Z.to_nat i). clear. intros n B.
  do 64 (destruct n as [|n]; [by vm_compute|]). lia.
Qed.

Lemma byte_range c : 0 <= byte c < 256.
Proof. unfold byte. pose proof (Ascii.nat_ascii_bounded c). lia. Qed.

Lemma char_byte c : char (byte c) = c.
Proof. unfold char, byte. rewrite Nat2Z.id. apply Ascii.ascii_nat_embedding. Qed.

Lemma char_at z c : z = byte c -> char z = c.
Proof. intros ->. apply char_byte. Qed.

Ltac Zify.zify_post_hook ::= Z.div_mod_to_equations.

Local Opaque digit value byte char.

Lemma strip_Encode s : strip_breaks (Encode s) = Encode s.
Proof.
  induction s as [s IH] using (induction_ltof1 _ String.length). unfold ltof in IH.
  destruct s as [|a [|b [|c s]]]; [done|..]; pose proof (byte_range a) as Ha.
  all: try pose proof (byte_range b) as Hb; try pose proof (byte_range c) as Hc.
  all: cbn [Encode strip_breaks].
  all: repeat match goal with |- context [is_break (digit ?i)] =>
         destruct (digit_ok i ltac:(lia)) as (_ & -> & _) end.
  - done.
  - done.
  - rewrite IH by (simpl; lia). done.
Qed.

Lemma Decode_Encode s : Decode (Encode s) = Some s.
Proof.
  unfold Decode. rewrite strip_Encode.
  induction s as [s IH] using (induction_ltof1 _ String.length). unfold ltof in IH.
  destruct s as [|a [|b [|c s]]]; [done|..]; pose proof (byte_range a) as Ha.
  all: try pose proof (byte_range b) as Hb; try pose proof (byte_range c) as Hc.
  all: cbn [Encode decode_groups].
  all: repeat match goal with |- context [value (digit ?i)] =>
         destruct (digit_ok i ltac:(lia)) as (-> & _ & ?) end.
  all: repeat match goal with H : Ascii.eqb (digit ?i) "=" = false |- _ => rewrite ?H; clear H end.
  - cbn. f_equal. f_equal. apply char_at. lia.
  - cbn. do 2 f_equal; [|f_equal]; apply char_at; lia.
  - rewrite IH by (simpl; lia). do 2 f_equal; [apply char_at; lia|].
    f_equal; [apply char_at; lia|]. f_equal. apply char_at. lia.
Qed.

Ltac Zify.zify_post_hook ::= idtac.

End Base64.

(** ** crypto/aes.go *)

(** AES-256-GCM: sealing and opening under a 32-byte key and a 12-byte nonce. *)
Class GCM := {
  seal : string -> string -> string -> string;
  open : string -> string -> string -> option string
}.

(** What GCM promises: opening what was sealed under the same key and nonce gives it back. *)
Class GCMLaws `{GCM} : Prop := open_seal : forall k n p, open k n (seal k n p) = Some p.

Module Crypto.

Definition nonceSize : nat := 12.

Section Cipher.
Context `{GCM} (format_int : Z -> string).

Definition NewCipher (key : string) : res string string :=
  if negb (Z.of_nat (String.length key) =? 32)
  then Err ("encryption key must be 32 bytes, got " +:+ format_int (Z.of_nat (String.length key)))
  else Ok key.

(** [nonce] is what the random reader gave, [None] when it failed. *)
Definition Encrypt (key : string) (nonce : option string) (plaintext : string) : res string string :=
  match nonce with
  | None => Err "generate nonce"
  | Some n => Ok (Base64.Encode (n +:+ seal key n plaintext))
  end.

Definition Decrypt (key data : string) : res string string :=
  match Base64.Decode data with
  | None => Err "base64 decode"
  | Some combined =>
      if (String.length combined <? nonceSize)%nat then Err "ciphertext too short"
      else match open key (take_str nonceSize combined) (drop_str nonceSize combined) with
           | None => Err "decrypt"
           | Some p => Ok p
           end
  end.

Lemma take_drop_app n a b : String.length a = n -> take_str n (a +:+ b) = a /\ drop_str n (a +:+ b) = b.
Proof.
  intros <-. split; [|apply drop_str_app]. induction a; simpl; [by destruct b|]. by f_equal.
Qed.

Lemma Decrypt_sealed `{!GCMLaws} key nonce p :
  String.length nonce = nonceSize -> Decrypt key (Base64.Encode (nonce +:+ seal key nonce p)) = Ok p.
Proof.
  intros L. unfold Decrypt. rewrite Base64.Decode_Encode, str_length_app, L.
  destruct (take_drop_app nonceSize nonce (seal key nonce p) L) as [-> ->].
  destruct (Nat.ltb_spec (nonceSize + String.length (seal key nonce p)) nonceSize); [lia|].
  by rewrite open_seal.
Qed.

(** A stored key decrypts to what was encrypted, for every cipher key, plaintext and
    12-byte nonce: base64, the position of the nonce and the sealing agree in both directions. *)
Theorem Decrypt_Encrypt `{!GCMLaws} key nonce plaintext data :
  String.length nonce = nonceSize -> Encrypt key (Some nonce) plaintext = Ok data ->
  Decrypt key data = Ok plaintext.
Proof. intros L [= <-]. by apply Decrypt_sealed. Qed.

End Cipher.

End Crypto.

(** A sealing for the witnesses: the key and the plaintext. *)
Module ToyGCM.

#[export] Instance toy_gcm : GCM := {|
  seal k n p := k +:+ n +:+ p;
  open k n c := if HasPrefix c (k +:+ n) then Some (drop_str (String.length (k +:+ n)) c) else None
|}.

#[export] Instance toy_gcm_laws : GCMLaws.
Proof.
  intros k n p. unfold open, seal, toy_gcm. by rewrite <- str_app_assoc, HasPrefix_app, drop_str_app.
Qed.

Lemma Decrypt_Encrypt_witness :
  match Crypto.Encrypt "k" (Some "123456789012") "sk-secret" with
  | Ok d => Crypto.Decrypt "k" d = Ok "sk-secret"
  | Err _ => False
  end.
Proof. exact (Crypto.Decrypt_Encrypt "k" "123456789012" "sk-secret" _ eq_refl eq_refl). Defined.

End ToyGCM.

Module Keys.

Record ProviderKeyRecord := mkPK {
  PKID : UUID;
  PKProvider : string;
  KeyAlias : string;
  EncryptedKey : string;
  KeyPreview : string;
  GroupName : string;
  PKTags : list string;
  PKWeight : Z;
  PKActive : bool;
  MonthlyBudgetUSD : option float64;
  CurrentMonthSpend : float64;
  PKCreatedAt : Time;
  PKUpdatedAt : Time;
  PKLastUsedAt : option Time;
  UseCount : Z
}.

(** ** provider_key_store.go: the table by primary key; a NULL group is the empty string *)

Abbreviation Table := (gmap UUID ProviderKeyRecord).

Inductive StoreErr := ErrProviderKeyNotFound | ErrDB (msg : string).

(** [Create]; [id] and [now] are the database's. *)
Definition pk_Create (db : Table) (r : ProviderKeyRecord) (id : UUID) (now : Time)
  : res StoreErr ProviderKeyRecord * Table :=
  if bool_decide (is_Some (db !! id)) then (Err (ErrDB "unique violation"), db)
  else
    let row := mkPK id (PKProvider r) (KeyAlias r) (EncryptedKey r) (KeyPreview r) (GroupName r)
      (PKTags r) (PKWeight r) (PKActive r) (MonthlyBudgetUSD r) f64_0 now now None 0 in
    (Ok row, <[id := row]> db).

Definition pk_GetByID (db : Table) (id : UUID) : res StoreErr ProviderKeyRecord :=
  match db !! id with Some r => Ok r | None => Err ErrProviderKeyNotFound end.

Definition pk_List (db : Table) (providerFilter : string) : list ProviderKeyRecord :=
  insertionSort (fun a b => PKCreatedAt b <? PKCreatedAt a)
    (map_to_list (filter (fun kv => providerFilter = "" \/ PKProvider kv.2 = providerFilter) db)).*2.

(** An active key of a provider, in a group when one is asked for. *)
Definition usable (p g : string) (r : ProviderKeyRecord) : Prop :=
  PKProvider r = p /\ PKActive r = true /\ (g = "" \/ GroupName r = g).
#[export] Instance usable_dec p g r : Decision (usable p g r).
Proof. unfold usable. apply _. Defined.

Definition pk_ListActive (db : Table) (p g : string) : list ProviderKeyRecord :=
  insertionSort (fun a b => PKWeight b <? PKWeight a)
    (map_to_list (filter (fun kv => usable p g kv.2) db)).*2.

Definition pk_Update (db : Table) (r : ProviderKeyRecord) (now : Time) : res StoreErr Time * Table :=
  match db !! PKID r with
  | None => (Err ErrProviderKeyNotFound, db)
  | Some old =>
      (Ok now, <[PKID r := mkPK (PKID old) (PKProvider old) (KeyAlias r) (EncryptedKey old) (KeyPreview old)
        (GroupName r) (PKTags r) (PKWeight r) (PKActive r) (MonthlyBudgetUSD r) (CurrentMonthSpend old)
        (PKCreatedAt old) now (PKLastUsedAt old) (UseCount old)]> db)
  end.

Definition pk_Delete (db : Table) (id : UUID) : res StoreErr unit * Table :=
  match db !! id with
  | None => (Err ErrProviderKeyNotFound, db)
  | Some _ => (Ok tt, delete id db)
  end.

Definition pk_RotateKey (db : Table) (id : UUID) (enc preview : string) (now : Time)
  : res StoreErr unit * Table :=
  match db !! id with
  | None => (Err ErrProviderKeyNotFound, db)
  | Some old =>
      (Ok tt, <[id := mkPK (PKID old) (PKProvider old) (KeyAlias old) enc preview (GroupName old) (PKTags old)
        (PKWeight old) (PKActive old) (MonthlyBudgetUSD old) (CurrentMonthSpend old) (PKCreatedAt old) now
        (PKLastUsedAt old) (UseCount old)]> db)
  end.

(** ** key_selector.go *)

Record providerKey := mkKey {
  pkey_id : UUID;
  pkey_alias : string;
  decryptedKey : string;
  pkey_group : string;
  pkey_weight : Z
}.

Local Open Scope go_scope.

(** A weight of zero or less counts as one. *)
Definition eff_weight (k : providerKey) : Z := if pkey_weight k <=? 0 then 1 else pkey_weight k.

Definition totalWeight (keys : list providerKey) : Z := foldl (fun t k => t +i eff_weight k) 0 keys.

(** [cryptoRandN]: eight random bytes as an unsigned number, modulo [n]. *)
Definition cryptoRandN (draw : option Z) (n : Z) : res string Z :=
  match draw with
  | None => Err "rand"
  | Some d => Ok (wrap64 (wrapu64 d mod wrapu64 n))
  end.

Fixpoint pick_key (pick cumulative : Z) (keys : list providerKey) : option providerKey :=
  match keys with
  | [] => None
  | k :: keys =>
      let cumulative := cumulative +i eff_weight k in
      if pick <? cumulative then Some k else pick_key pick cumulative keys
  end.

Definition weightedRandom (draw : option Z) (keys : list providerKey) : res goerror providerKey :=
  match keys with
  | [] => Err (EOther "no keys to select from")
  | [k] => Ok k
  | k0 :: _ =>
      match cryptoRandN draw (totalWeight keys) with
      | Err m => Err (EWrap "random selection" (EOther m))
      | Ok pick =>
          match pick_key pick 0 keys with
          | Some k => Ok k
          | None => Ok (List.last keys k0)
          end
      end
  end.

(** ** key_manager.go *)

(** The two maps of the cache, keys and load time, are written and deleted together. *)
Record KeyState := mkKS { table : Table; kcache : gmap string (list providerKey * Time) }.

Definition cacheTTL : Duration := 5 * Minute.

Section Manager.
Context `{GCM} (Quote : string -> string).

(** The manager's settings: the cipher key when there is one, and the keys of the
    configuration file. *)
Record KeyManager := mkKM { cipher : option string; fallback : gmap string string }.

Definition cache_key (p g : string) : string := p +:+ "/" +:+ g.

(** The rows decrypted in order, up to the first that does not decrypt. *)
Fixpoint decrypt_rows (ck : string) (rows : list ProviderKeyRecord) : res goerror (list providerKey) :=
  match rows with
  | [] => Ok []
  | r :: rows =>
      match Crypto.Decrypt ck (EncryptedKey r) with
      | Err m => Err (EWrap ("decrypt key " +:+ Quote (KeyAlias r)) (EOther m))
      | Ok s => let* ks := decrypt_rows ck rows in
                Ok (mkKey (PKID r) (KeyAlias r) s (GroupName r) (PKWeight r) :: ks)
      end
  end.

(** [reloadCache] up to its lock: the rows read and decrypted. *)
Definition load (ck : string) (db : Table) (p g : string) : res goerror (list providerKey) :=
  decrypt_rows ck (pk_ListActive db p g).

Definition store_keys (st : KeyState) (p g : string) (keys : list providerKey) (now : Time) : KeyState :=
  mkKS (table st) (<[cache_key p g := (keys, now)]> (kcache st)).

Definition reloadCache (ck : string) (st : KeyState) (p g : string) (list_ok : bool) (now : Time)
  : res goerror (list providerKey) * KeyState :=
  if negb list_ok
  then (Err (EWrap ("load active provider keys for " +:+ Quote p) (EOther "database")), st)
  else match load ck (table st) p g with
       | Err e => (Err e, st)
       | Ok keys => (Ok keys, store_keys st p g keys now)
       end.

Definition getFromCache (ck : string) (st : KeyState) (p g : string) (list_ok : bool) (now : Time)
  : res goerror (list providerKey) * KeyState :=
  match kcache st !! cache_key p g with
  | Some (keys, t) =>
      if time_Sub now t <? cacheTTL then (Ok keys, st) else reloadCache ck st p g list_ok now
  | None => reloadCache ck st p g list_ok now
  end.

Definition from_config (km : KeyManager) (p : string) : res goerror string :=
  match fallback km !! p with
  | Some key => if negb (String.eqb key "") then Ok key else Err (EOther ("no active API key for provider " +:+ Quote p))
  | None => Err (EOther ("no active API key for provider " +:+ Quote p))
  end.

Definition SelectKey (km : KeyManager) (st : KeyState) (p g : string) (list_ok : bool) (draw : option Z)
    (now : Time) : res goerror string * KeyState :=
  match cipher km with
  | Some ck =>
      match getFromCache ck st p g list_ok now with
      | (Err e, st) => (Err e, st)
      | (Ok [], st) => (from_config km p, st)
      | (Ok keys, st) =>
          match weightedRandom draw keys with
          | Err e => (Err e, st)
          | Ok k => (Ok (decryptedKey k), st)
          end
      end
  | None => (from_config km p, st)
  end.

(** Every entry whose key begins with the provider's name goes. *)
Definition InvalidateCache (st : KeyState) (p : string) : KeyState :=
  mkKS (table st) (filter (fun kv => HasPrefix kv.1 p = false) (kcache st)).

(** ** admin_provider_keys.go *)

Record createProviderKeyRequest := mkCreatePK {
  CKProvider : string;
  CKAlias : string;
  CKAPIKey : string;
  CKGroup : string;
  CKTags : list string;
  CKWeight : option Z;
  CKActive : option bool
}.

Record updateProviderKeyRequest := mkUpdatePK {
  UKAlias : option string;
  UKGroup : option string;
  UKTags : option (list string);
  UKWeight : option Z;
  UKActive : option bool;
  UKBudget : option float64
}.

Record providerKeyResponse := mkPKResp {
  VID : UUID;
  VProvider : string;
  VAlias : string;
  VPreview : string;
  VGroup : string;
  VTags : list string;
  VActive : bool;
  VWeight : Z;
  VBudget : option float64;
  VSpend : float64;
  VUseCount : Z;
  VCreatedAt : Time;
  VUpdatedAt : Time;
  VLastUsedAt : option Time
}.

Definition toProviderKeyResponse (r : ProviderKeyRecord) : providerKeyResponse :=
  mkPKResp (PKID r) (PKProvider r) (KeyAlias r) (KeyPreview r) (GroupName r) (PKTags r) (PKActive r)
    (PKWeight r) (MonthlyBudgetUSD r) (CurrentMonthSpend r) (UseCount r) (PKCreatedAt r) (PKUpdatedAt r)
    (PKLastUsedAt r).

Inductive response :=
| RError (status : Z) (msg typ code : string)
| RKey (status : Z) (v : providerKeyResponse)
| RList (vs : list providerKeyResponse)
| RNoContent.

Definition keyPreview (key : string) : string :=
  if (String.length key <=? 4)%nat then "..." else "..." +:+ drop_str (String.length key - 4) key.

Definition bad_body : response := RError 400 "invalid request body" "invalid_request_error" "".
Definition bad_id : response := RError 400 "invalid key ID" "invalid_request_error" "".
Definition not_found : response := RError 404 "provider key not found" "invalid_request_error" "not_found".
Definition internal (msg : string) : response := RError 500 msg "internal_error" "".

(** What the outside does in one request: the random nonce, whether the first read, the write
    and the read after it succeed, the row's new id, and the time. *)
Record world := mkWorld {
  nonce : option string;
  read_ok : bool;
  write_ok : bool;
  fetch_ok : bool;
  new_id : UUID;
  now_ : Time
}.

Definition admin_Create (ck : string) (st : KeyState) (body : option createProviderKeyRequest) (w : world)
  : response * KeyState :=
  match body with
  | None => (bad_body, st)
  | Some req =>
      if String.eqb (CKProvider req) "" || String.eqb (CKAlias req) "" || String.eqb (CKAPIKey req) ""
      then (RError 400 "provider, key_alias, and api_key are required" "invalid_request_error" "", st)
      else match Crypto.Encrypt ck (nonce w) (CKAPIKey req) with
      | Err _ => (internal "encryption failed", st)
      | Ok enc =>
          let r := mkPK zero_uuid (CKProvider req) (CKAlias req) enc (keyPreview (CKAPIKey req)) (CKGroup req)
            (CKTags req) (default 100 (CKWeight req)) (default true (CKActive req)) None f64_0 0 0 None 0 in
          if negb (write_ok w) then (internal "failed to create key", st)
          else match pk_Create (table st) r (new_id w) (now_ w) with
               | (Err _, _) => (internal "failed to create key", st)
               | (Ok row, db) =>
                   (RKey 201 (toProviderKeyResponse row),
                    InvalidateCache (mkKS db (kcache st)) (CKProvider req))
               end
      end
  end.

Definition admin_List (st : KeyState) (providerFilter : string) (ok : bool) : response :=
  if negb ok then internal "failed to list keys"
  else RList (map toProviderKeyResponse (pk_List (table st) providerFilter)).

(** The id of the URL and the row it names, or the answer instead. *)
Definition fetch (st : KeyState) (id : option UUID) (ok : bool) : res response (UUID * ProviderKeyRecord) :=
  match id with
  | None => Err bad_id
  | Some id =>
      if negb ok then Err (internal "failed to get key")
      else match pk_GetByID (table st) id with
           | Err _ => Err not_found
           | Ok r => Ok (id, r)
           end
  end.

Definition admin_Get (st : KeyState) (id : option UUID) (ok : bool) : response :=
  match fetch st id ok with
  | Err r => r
  | Ok (_, r) => RKey 200 (toProviderKeyResponse r)
  end.

Definition apply_update (r : ProviderKeyRecord) (u : updateProviderKeyRequest) : ProviderKeyRecord :=
  mkPK (PKID r) (PKProvider r) (default (KeyAlias r) (UKAlias u)) (EncryptedKey r) (KeyPreview r)
    (default (GroupName r) (UKGroup u)) (default (PKTags r) (UKTags u)) (default (PKWeight r) (UKWeight u))
    (default (PKActive r) (UKActive u))
    (match UKBudget u with Some b => Some b | None => MonthlyBudgetUSD r end)
    (CurrentMonthSpend r) (PKCreatedAt r) (PKUpdatedAt r) (PKLastUsedAt r) (UseCount r).

Definition touch (r : ProviderKeyRecord) (t : Time) : ProviderKeyRecord :=
  mkPK (PKID r) (PKProvider r) (KeyAlias r) (EncryptedKey r) (KeyPreview r) (GroupName r) (PKTags r)
    (PKWeight r) (PKActive r) (MonthlyBudgetUSD r) (CurrentMonthSpend r) (PKCreatedAt r) t (PKLastUsedAt r)
    (UseCount r).

Definition admin_Update (st : KeyState) (id : option UUID) (body : option updateProviderKeyRequest) (w : world)
  : response * KeyState :=
  match fetch st id (read_ok w) with
  | Err r => (r, st)
  | Ok (_, r) =>
      match body with
      | None => (bad_body, st)
      | Some u =>
          let r := apply_update r u in
          if negb (write_ok w) then (internal "failed to update key", st)
          else match pk_Update (table st) r (now_ w) with
               | (Err _, _) => (internal "failed to update key", st)
               | (Ok t, db) =>
                   (RKey 200 (toProviderKeyResponse (touch r t)),
                    InvalidateCache (mkKS db (kcache st)) (PKProvider r))
               end
      end
  end.

Definition admin_Delete (st : KeyState) (id : option UUID) (w : world) : response * KeyState :=
  match fetch st id (read_ok w) with
  | Err r => (r, st)
  | Ok (id, r) =>
      if negb (write_ok w) then (internal "failed to delete key", st)
      else match pk_Delete (table st) id with
           | (Err _, _) => (internal "failed to delete key", st)
           | (Ok _, db) => (RNoContent, InvalidateCache (mkKS db (kcache st)) (PKProvider r))
           end
  end.

(** [Rotate]: the row is written first and read back for its provider. *)
Definition admin_Rotate (ck : string) (st : KeyState) (id : option UUID) (newKey : option string) (w : world)
  : response * KeyState :=
  match id with
  | None => (bad_id, st)
  | Some id =>
      match newKey with
      | None | Some "" => (RError 400 "new_api_key is required" "invalid_request_error" "", st)
      | Some key =>
          match Crypto.Encrypt ck (nonce w) key with
          | Err _ => (internal "encryption failed", st)
          | Ok enc =>
              if negb (write_ok w) then (internal "failed to rotate key", st)
              else match pk_RotateKey (table st) id enc (keyPreview key) (now_ w) with
                   | (Err ErrProviderKeyNotFound, _) => (not_found, st)
                   | (Err _, _) => (internal "failed to rotate key", st)
                   | (Ok _, db) =>
                       let st := mkKS db (kcache st) in
                       if negb (fetch_ok w) then (internal "key rotated but fetch failed", st)
                       else match pk_GetByID db id with
                            | Err _ => (internal "key rotated but fetch failed", st)
                            | Ok r => (RKey 200 (toProviderKeyResponse r), InvalidateCache st (PKProvider r))
                            end
                   end
          end
      end
  end.

(** ** Sequences of requests *)

Inductive op :=
| OpSelect (p g : string) (list_ok : bool) (draw : option Z) (now : Time)
| OpCreate (body : option createProviderKeyRequest) (w : world)
| OpUpdate (id : option UUID) (body : option updateProviderKeyRequest) (w : world)
| OpDelete (id : option UUID) (w : world)
| OpRotate (id : option UUID) (newKey : option string) (w : world).

Definition step (km : KeyManager) (ck : string) (st : KeyState) (o : op) : KeyState :=
  match o with
  | OpSelect p g ok draw now => (SelectKey km st p g ok draw now).2
  | OpCreate body w => (admin_Create ck st body w).2
  | OpUpdate id body w => (admin_Update st id body w).2
  | OpDelete id w => (admin_Delete st id w).2
  | OpRotate id key w => (admin_Rotate ck st id key w).2
  end.

Definition run (km : KeyManager) (ck : string) (st : KeyState) (ops : list op) : KeyState :=
  foldl (step km ck) st ops.

(** ** The cache follows the table *)

Definition slash_free (p : string) : Prop := has_char "/" p = false.

(** Every cached list is what the table would give now. *)
Definition coherent (ck : string) (st : KeyState) : Prop :=
  forall p g e, slash_free p -> kcache st !! cache_key p g = Some e -> load ck (table st) p g = Ok e.1.

Definition ids_match (db : Table) : Prop := forall id r, db !! id = Some r -> PKID r = id.

Lemma cache_key_inj p g p' g' :
  slash_free p -> slash_free p' -> cache_key p g = cache_key p' g' -> p = p' /\ g = g'.
Proof.
  unfold slash_free, cache_key. revert p'. induction p as [|c p IH]; intros [|c' p'] Hp Hp' E; simpl in *.
  - by injection E.
  - injection E as <- _. done.
  - injection E as -> _. done.
  - injection E as <- E. apply orb_false_iff in Hp as [_ Hp], Hp' as [_ Hp'].
    destruct (IH p' Hp Hp' E) as [-> ->]. done.
Qed.

Lemma invalidate_lookup st q k e :
  kcache (InvalidateCache st q) !! k = Some e <-> kcache st !! k = Some e /\ HasPrefix k q = false.
Proof. unfold InvalidateCache. simpl. rewrite map_lookup_filter_Some. done. Qed.

(** A change of one provider's rows followed by its invalidation. *)
Lemma coherent_change ck st db q :
  coherent ck st ->
  (forall id r, PKProvider r <> q -> table st !! id = Some r <-> db !! id = Some r) ->
  coherent ck (InvalidateCache (mkKS db (kcache st)) q).
Proof.
  intros C A p g e S E. apply invalidate_lookup in E as [E N]. simpl in E.
  assert (p <> q) as D by (intros <-; unfold cache_key in N; by rewrite HasPrefix_app in N).
  rewrite <- (C p g e S E). unfold load, pk_ListActive. do 4 f_equal.
  apply map_eq. intros id. apply option_eq. intros r. rewrite !map_lookup_filter_Some. simpl.
  split; intros [L U]; (split; [|done]); destruct U as (U & _); apply (A id r); try done; by rewrite U.
Qed.

Lemma changes_one (db : Table) id r (v : option ProviderKeyRecord) q :
  (forall x, db !! id = Some x -> PKProvider x = q) -> (forall x, v = Some x -> PKProvider x = q) ->
  PKProvider r <> q -> forall id', db !! id' = Some r <-> partial_alter (fun _ => v) id db !! id' = Some r.
Proof.
  intros Ho Hn N id'. destruct (decide (id' = id)) as [->|D].
  - rewrite lookup_partial_alter_eq. split; intros E; exfalso; apply N; auto.
  - by rewrite lookup_partial_alter_ne.
Qed.

Lemma SelectKey_state km ck st p g ok draw now :
  cipher km = Some ck ->
  (SelectKey km st p g ok draw now).2 = st \/
  exists keys, load ck (table st) p g = Ok keys /\
    (SelectKey km st p g ok draw now).2 = store_keys st p g keys now.
Proof.
  intros E. unfold SelectKey. rewrite E.
  assert ((getFromCache ck st p g ok now).2 = st \/ exists keys, load ck (table st) p g = Ok keys /\
    (getFromCache ck st p g ok now).2 = store_keys st p g keys now) as G.
  { assert ((reloadCache ck st p g ok now).2 = st \/ exists keys, load ck (table st) p g = Ok keys /\
      (reloadCache ck st p g ok now).2 = store_keys st p g keys now) as R.
    { unfold reloadCache. destruct (negb ok); [by left|].
      destruct (load ck (table st) p g) as [keys|]; [right; by exists keys|by left]. }
    unfold getFromCache. destruct (kcache st !! cache_key p g) as [[keys t]|]; [|exact R].
    destruct (time_Sub now t <? cacheTTL); [by left|exact R]. }
  destruct (getFromCache ck st p g ok now) as [[[|k ks]|e] st']; cbn [fst snd] in *; try exact G.
  destruct (weightedRandom draw (k :: ks)); exact G.
Qed.

(** A step of the system as adapters and administrators make it: adapters ask for providers
    whose name has no slash, and a rotated row can be read back. *)
Definition op_ok (o : op) : Prop :=
  match o with
  | OpSelect p _ _ _ _ => slash_free p
  | OpRotate _ _ w => fetch_ok w = true
  | _ => True
  end.

Lemma step_table_ids km ck st o : ids_match (table st) -> ids_match (table (step km ck st o)).
Proof.
  intros I. destruct o as [p g ok draw now|body w|id body w|id w|id key w]; simpl.
  - unfold SelectKey, getFromCache, reloadCache. by repeat case_match; simplify_eq/=.
  - unfold admin_Create, pk_Create. repeat case_match; simplify_eq/=; try done.
    intros id r. rewrite lookup_insert_Some. intros [[<- <-]|[_ E]]; [done|by apply I].
  - unfold admin_Update, pk_Update, fetch. repeat case_match; simplify_eq/=; try done.
    intros id' r. rewrite lookup_insert_Some. intros [[<- <-]|[_ E]]; [|by apply I]. simpl.
    eapply I; eassumption.
  - unfold admin_Delete, pk_Delete, fetch. repeat case_match; simplify_eq/=; try done.
    intros id' r. rewrite lookup_delete_Some. intros [_ E]. by apply I.
  - unfold admin_Rotate, pk_RotateKey. repeat case_match; simplify_eq/=; try done.
    all: intros id' r; rewrite lookup_insert_Some; intros [[<- <-]|[_ E]]; [|by apply I]; simpl.
    all: eapply I; eassumption.
Qed.

Lemma fetch_row st id ok i r : fetch st id ok = Ok (i, r) -> table st !! i = Some r.
Proof.
  unfold fetch, pk_GetByID. destruct id as [id|]; [|done]. destruct (negb ok); [done|].
  destruct (table st !! id) eqn:E; [|done]. by intros [= <- <-].
Qed.

(** The cache stays coherent through every request. *)
Lemma step_coherent km ck st o :
  cipher km = Some ck -> op_ok o -> ids_match (table st) -> coherent ck st ->
  coherent ck (step km ck st o).
Proof.
  intros K O I C. destruct o as [p g ok draw now|body w|id body w|id w|id key w]; simpl in *.
  - destruct (SelectKey_state km ck st p g ok draw now K) as [->|(keys & L & ->)]; [done|].
    intros p' g' e S' E. simpl in *. apply lookup_insert_Some in E as [[E <-]|[_ E]]; [|by apply C].
    apply cache_key_inj in E as [<- <-]; done.
  - unfold admin_Create, pk_Create. repeat case_match; simplify_eq/=; try done. breflect.
    apply coherent_change; [done|]. intros id r N. eapply changes_one; [|by intros x [= <-]|exact N].
    intros x E. match goal with H : ~ is_Some _ |- _ => by destruct H; eexists end.
  - destruct (admin_Update st id body w) as [resp st'] eqn:E. revert E. unfold admin_Update.
    destruct (fetch st id (read_ok w)) as [[i r]|] eqn:F; [|by intros [= _ <-]].
    apply fetch_row in F.
    destruct body as [u|]; [|by intros [= _ <-]]. destruct (negb (write_ok w)); [by intros [= _ <-]|].
    unfold pk_Update. cbn [PKID apply_update]. rewrite (I _ _ F), F. intros [= _ <-].
    apply coherent_change; [done|]. intros i' r' N. eapply changes_one; [|by intros x [= <-]|exact N].
    intros x E. by rewrite E in F; injection F as ->.
  - destruct (admin_Delete st id w) as [resp st'] eqn:E. revert E. unfold admin_Delete.
    destruct (fetch st id (read_ok w)) as [[i r]|] eqn:F; [|by intros [= _ <-]].
    apply fetch_row in F. destruct (negb (write_ok w)); [by intros [= _ <-]|].
    unfold pk_Delete. rewrite F. intros [= _ <-].
    apply coherent_change; [done|]. intros i' r' N. eapply (changes_one _ i r' None); [|done|exact N].
    intros x E. by rewrite E in F; injection F as ->.
  - destruct (admin_Rotate ck st id key w) as [resp st'] eqn:E. revert E. unfold admin_Rotate.
    destruct id as [i|]; [|by intros [= _ <-]]. destruct key as [[|c key]|]; try by intros [= _ <-].
    destruct (Crypto.Encrypt ck (nonce w) _) as [enc|]; [|by intros [= _ <-]].
    destruct (negb (write_ok w)); [by intros [= _ <-]|]. unfold pk_RotateKey.
    destruct (table st !! i) as [old|] eqn:F; [|by intros [= _ <-]]. rewrite O. cbv zeta. cbn [negb].
    unfold pk_GetByID. rewrite lookup_insert_eq. intros [= _ <-]. simpl.
    apply coherent_change; [done|]. intros i' r' N. eapply changes_one; [|by intros x [= <-]|exact N].
    intros x E. by rewrite E in F; injection F as ->.
Qed.

Lemma run_inv km ck db ops :
  cipher km = Some ck -> ids_match db -> Forall op_ok ops ->
  ids_match (table (run km ck (mkKS db ∅) ops)) /\ coherent ck (run km ck (mkKS db ∅) ops).
Proof.
  intros K I F. unfold run.
  enough (forall st, ids_match (table st) -> coherent ck st ->
    ids_match (table (foldl (step km ck) st ops)) /\ coherent ck (foldl (step km ck) st ops)) as G.
  { apply G; [done|]. intros p g e _ E. cbn [kcache] in E. by rewrite lookup_empty in E. }
  induction F as [|o ops O F IH]; intros st Is C; simpl; [done|].
  apply IH; [by apply step_table_ids|by apply step_coherent].
Qed.

Lemma pick_key_in pick cum keys k : pick_key pick cum keys = Some k -> k ∈ keys.
Proof.
  revert cum. induction keys as [|x keys IH]; intros cum; simpl; [done|].
  destruct (pick <? _); [intros [= <-]; by left|]. intros E. right. by eapply IH.
Qed.

Lemma last_elem {A} (d x : A) l : List.last (x :: l) d ∈ x :: l.
Proof. revert x. induction l as [|y l IH]; intros x; [by left|]. right. exact (IH y). Qed.

Lemma weightedRandom_in draw keys k : weightedRandom draw keys = Ok k -> k ∈ keys.
Proof.
  unfold weightedRandom. destruct keys as [|k0 [|k1 keys]]; [done|intros [= <-]; by left|].
  destruct (cryptoRandN draw _) as [pick|]; [|done].
  destruct (pick_key pick 0 _) as [x|] eqn:P; intros [= <-]; [by eapply pick_key_in|].
  exact (last_elem k0 k0 (k1 :: keys)).
Qed.

Lemma decrypt_rows_in ck rows ks k :
  decrypt_rows ck rows = Ok ks -> k ∈ ks ->
  exists r, r ∈ rows /\ Crypto.Decrypt ck (EncryptedKey r) = Ok (decryptedKey k).
Proof.
  revert ks. induction rows as [|r rows IH]; intros ks; simpl; [intros [= <-] E; by apply elem_of_nil in E|].
  destruct (Crypto.Decrypt ck (EncryptedKey r)) as [s|] eqn:D; [|done].
  destruct (decrypt_rows ck rows) as [ks'|]; [|done]. intros [= <-] E.
  apply elem_of_cons in E as [->|E]; [exists r; split; [by left|done]|].
  destruct (IH ks' eq_refl E) as (r' & R & D'). exists r'. split; [by right|done].
Qed.

Lemma ListActive_elem db p g r : r ∈ pk_ListActive db p g <-> exists id, db !! id = Some r /\ usable p g r.
Proof.
  unfold pk_ListActive. rewrite insertionSort_perm, list_elem_of_fmap. split.
  - intros ([id r'] & -> & E). apply elem_of_map_to_list, map_lookup_filter_Some in E. by exists id.
  - intros (id & E & U). exists (id, r). split; [done|].
    by apply elem_of_map_to_list, map_lookup_filter_Some.
Qed.

(** What a coherent cache or a reload hands out. *)
Lemma getFromCache_keys ck st p g ok now keys st' :
  slash_free p -> coherent ck st -> getFromCache ck st p g ok now = (Ok keys, st') ->
  load ck (table st) p g = Ok keys.
Proof.
  intros S C. unfold getFromCache.
  assert (reloadCache ck st p g ok now = (Ok keys, st') -> load ck (table st) p g = Ok keys) as R.
  { unfold reloadCache. destruct (negb ok); [done|]. destruct (load ck (table st) p g); [|done].
    by intros [= <- _]. }
  destruct (kcache st !! cache_key p g) as [[ks t]|] eqn:E; [|exact R].
  destruct (time_Sub now t <? cacheTTL); [|exact R]. intros [= <- _]. exact (C p g _ S E).
Qed.


(** ** A created key is the one adapters get *)

Lemma ListActive_single (db : Table) p id r :
  pk_ListActive db p "" = [] -> db !! id = None -> usable p "" r ->
  pk_ListActive (<[id := r]> db) p "" = [r].
Proof.
  unfold pk_ListActive. intros E N U.
  assert (filter (fun kv => usable p "" kv.2) db = ∅) as E0.
  { apply map_to_list_empty_iff. apply (f_equal length) in E.
    rewrite (Permutation_length (insertionSort_perm _ _)), length_fmap in E. by apply nil_length_inv. }
  rewrite map_filter_insert_True by done. rewrite E0, insert_empty, map_to_list_singleton. done.
Qed.

(** From the admin endpoint to the adapter: when a provider's first key is created, after
    any history of selections and administration, the next selection for that provider returns
    the API key of the request, whatever the cache held. *)
Theorem created_key_selected `{!GCMLaws} km ck db ops req w n resp st' draw now :
  cipher km = Some ck -> ids_match db -> Forall op_ok ops -> slash_free (CKProvider req) ->
  let st := run km ck (mkKS db ∅) ops in
  pk_ListActive (table st) (CKProvider req) "" = [] ->
  nonce w = Some n -> String.length n = Crypto.nonceSize -> default true (CKActive req) = true ->
  admin_Create ck st (Some req) w = (RKey 201 resp, st') ->
  (SelectKey km st' (CKProvider req) "" true draw now).1 = Ok (CKAPIKey req).
Proof.
  intros K I F S st E N L A Cr. destruct (run_inv km ck db ops K I F) as [I' C]. fold st in I', C.
  assert (coherent ck st') as C'.
  { replace st' with (step km ck st (OpCreate (Some req) w)) by (cbn [step]; by rewrite Cr).
    by apply step_coherent. }
  assert (exists k, load ck (table st') (CKProvider req) "" = Ok [k] /\ decryptedKey k = CKAPIKey req)
    as (k & Ld & D).
  { revert Cr. unfold admin_Create. rewrite N. destruct (_ || _); [done|]. cbn [Crypto.Encrypt].
    destruct (negb (write_ok w)); [done|]. unfold pk_Create. case_bool_decide as P; [done|].
    intros Cr. injection Cr as _ <-. cbn [table InvalidateCache].
    unfold load. rewrite ListActive_single;
      [|done|by apply eq_None_not_Some|by repeat split; simpl; auto].
    cbn [decrypt_rows EncryptedKey]. rewrite Crypto.Decrypt_sealed by done. by eexists. }
  unfold SelectKey. rewrite K.
  destruct (getFromCache ck st' (CKProvider req) "" true now) as [[keys|e] st2] eqn:G.
  - apply getFromCache_keys in G; [|done..]. rewrite Ld in G. injection G as <-. simpl. by rewrite D.
  - unfold getFromCache, reloadCache in G. rewrite Ld in G. cbn in G.
    by repeat case_match; simplify_eq/=.
Qed.

End Manager.

(** ** Examples *)

Import ToyGCM.

Definition demo_km : KeyManager := mkKM (Some "k") {["openai" := "cfg"]}.
Definition demo_req : createProviderKeyRequest := mkCreatePK "openai" "main" "sk-abcdef" "" [] None None.
Definition demo_world : world := mkWorld (Some "123456789012") true true true "id1" 10.
Definition no_quote (s : string) : string := s.
Definition demo_ops : list op := [OpSelect "openai" "" true None 5; OpCreate (Some demo_req) demo_world].


Lemma created_key_selected_witness :
  (SelectKey no_quote demo_km
    (run no_quote demo_km "k" (mkKS ∅ ∅) demo_ops) "openai" "" true None 20).1 = Ok "sk-abcdef".
Proof.
  refine (created_key_selected no_quote demo_km "k" ∅ [OpSelect "openai" "" true None 5] demo_req demo_world
    "123456789012" _ _ None 20 eq_refl _ _ eq_refl _ eq_refl eq_refl eq_refl _).
  - intros id r E. by rewrite lookup_empty in E.
  - repeat constructor.
  - vm_compute. reflexivity.
  - vm_compute. reflexivity.
Defined.

(** The preview shows the end of a long key and nothing of a short one. *)
Lemma keyPreview_last_four a b k k' :
  String.length k = 4%nat -> String.length k' = 4%nat -> a <> "" -> b <> "" ->
  keyPreview (a +:+ k) = keyPreview (b +:+ k') <-> k = k'.
Proof.
  intros L L' Na Nb.
  assert (forall x y, String.length y = 4%nat -> x <> "" -> keyPreview (x +:+ y) = "..." +:+ y) as P.
  { intros x y Ly Nx. unfold keyPreview. rewrite str_length_app, Ly. destruct x as [|c x]; [done|].
    destruct (Nat.leb_spec (String.length (String c x) + 4) 4); [simpl in *; lia|].
    replace (String.length (String c x) + 4 - 4)%nat with (String.length (String c x)) by lia.
    by rewrite drop_str_app. }
  rewrite !P by done. split; [|by intros ->]. intros E. by injection E.
Qed.

(** Reading the rows and storing the keys are two steps of [reloadCache]. A deletion between
    them is not seen: its invalidation comes before the store, and the deleted key is handed
    out until the entry expires. *)
Example deleted_key_served_after_race :
  let st := (admin_Create "k" (mkKS ∅ ∅) (Some demo_req) demo_world).2 in
  match load no_quote "k" (table st) "openai" "" with
  | Ok keys =>
      let st := (admin_Delete st (Some "id1") demo_world).2 in
      let st := store_keys st "openai" "" keys 11 in
      table st = ∅ /\ (SelectKey no_quote demo_km st "openai" "" true None (11 + 4 * Minute)).1 = Ok "sk-abcdef"
  | Err _ => False
  end.
Proof. vm_compute. split; reflexivity. Qed.

(** When the row cannot be read back after a rotation, the old key stays cached. *)
Example rotated_key_served_after_failed_fetch :
  let st := (admin_Create "k" (mkKS ∅ ∅) (Some demo_req) demo_world).2 in
  let st := (SelectKey no_quote demo_km st "openai" "" true None 12).2 in
  let '(resp, st) := admin_Rotate "k" st (Some "id1") (Some "sk-new-key")
    (mkWorld (Some "123456789012") true true false "" 13) in
  resp = internal "key rotated but fetch failed" /\
  (SelectKey no_quote demo_km st "openai" "" true None 14).1 = Ok "sk-abcdef".
Proof. vm_compute. split; reflexivity. Qed.

End Keys.
