(* ===== verification/Catalog.v ===== *)
(** * Providers and models (handler/admin_providers.go, store/postgres/provider_store.go and
    model_store.go)

    The catalogue in the database and the admin endpoints that change it, with what they do to
    the running gateway: the model list of the provider in the registry, the price table of the
    cost calculator, and the provider's API key. The tables are maps by primary key with the
    unique and foreign keys of the schema; prices keep their value in the DECIMAL columns. *)

From S2P Require Import Prelude GoStrings Float64 Types ProviderErrors Fallback Cost ProviderKeys.
Local Open Scope Z_scope.
Import PErr.

Module Catalog.

Record ProviderRecord := mkProv {
  PRID : UUID;
  PRName : string;
  AdapterType : string;
  PRDisplayName : string;
  BaseURL : string;
  PREnabled : bool;
  ConfigJSON : string;
  PRSortOrder : Z;
  PRCreatedAt : Time;
  PRUpdatedAt : Time
}.

Record ModelRecord := mkModel {
  MRID : UUID;
  MRProviderID : UUID;
  MRModelID : string;
  MRModelName : string;
  MRDisplayName : string;
  MREnabled : bool;
  MRInput : float64;
  MROutput : float64;
  ContextWindow : option Z;
  MaxOutputTokens : option Z;
  SupportsStreaming : bool;
  SupportsTools : bool;
  SupportsVision : bool;
  MRTags : list string;
  MRSortOrder : Z;
  MRCreatedAt : Time;
  MRUpdatedAt : Time
}.

Abbreviation Provs := (gmap UUID ProviderRecord).
Abbreviation Mods := (gmap UUID ModelRecord).

Inductive StoreErr := ErrNotFound | ErrDB (msg : string).

(** ** provider_store.go *)

Definition name_taken (db : Provs) (name : string) : bool :=
  existsb (fun kv => String.eqb (PRName kv.2) name) (map_to_list db).

Definition pv_Create (db : Provs) (r : ProviderRecord) (id : UUID) (now : Time)
  : res StoreErr ProviderRecord * Provs :=
  if name_taken db (PRName r) || bool_decide (is_Some (db !! id)) then (Err (ErrDB "unique violation"), db)
  else
    let row := mkProv id (PRName r) (AdapterType r) (PRDisplayName r) (BaseURL r) (PREnabled r)
      (ConfigJSON r) (PRSortOrder r) now now in
    (Ok row, <[id := row]> db).

Definition pv_GetByID (db : Provs) (id : UUID) : res StoreErr ProviderRecord :=
  match db !! id with Some r => Ok r | None => Err ErrNotFound end.

Definition pv_GetByName (db : Provs) (name : string) : res StoreErr ProviderRecord :=
  match find (fun kv => String.eqb (PRName kv.2) name) (map_to_list db) with
  | Some kv => Ok kv.2
  | None => Err ErrNotFound
  end.

(** ORDER BY two columns, the second one text. *)
Definition by_order {A} (ord : A -> Z) (txt : A -> string) (a b : A) : bool :=
  (ord a <? ord b) || (ord a =? ord b) && String.ltb (txt a) (txt b).

Definition pv_List (db : Provs) : list ProviderRecord :=
  insertionSort (by_order PRSortOrder PRName) (map_to_list db).*2.

Definition pv_Update (db : Provs) (r : ProviderRecord) (now : Time) : res StoreErr Time * Provs :=
  match db !! PRID r with
  | None => (Err ErrNotFound, db)
  | Some old =>
      (Ok now, <[PRID r := mkProv (PRID old) (PRName old) (AdapterType old) (PRDisplayName r) (BaseURL r)
        (PREnabled r) (ConfigJSON r) (PRSortOrder r) (PRCreatedAt old) now]> db)
  end.

(** The models of a deleted provider go with it. *)
Definition pv_Delete (db : Provs) (ms : Mods) (id : UUID) : res StoreErr unit * Provs * Mods :=
  match db !! id with
  | None => (Err ErrNotFound, db, ms)
  | Some _ => (Ok tt, delete id db, filter (fun kv => MRProviderID kv.2 <> id) ms)
  end.

(** ** model_store.go *)

Definition model_taken (ms : Mods) (p : UUID) (m : string) : bool :=
  existsb (fun kv => String.eqb (MRProviderID kv.2) p && String.eqb (MRModelID kv.2) m) (map_to_list ms).

Definition md_Create (db : Provs) (ms : Mods) (r : ModelRecord) (id : UUID) (now : Time)
  : res StoreErr ModelRecord * Mods :=
  if bool_decide (db !! MRProviderID r = None) then (Err (ErrDB "foreign key violation"), ms)
  else if model_taken ms (MRProviderID r) (MRModelID r) || bool_decide (is_Some (ms !! id))
  then (Err (ErrDB "unique violation"), ms)
  else
    let row := mkModel id (MRProviderID r) (MRModelID r) (MRModelName r) (MRDisplayName r) (MREnabled r)
      (MRInput r) (MROutput r) (ContextWindow r) (MaxOutputTokens r) (SupportsStreaming r)
      (SupportsTools r) (SupportsVision r) (MRTags r) (MRSortOrder r) now now in
    (Ok row, <[id := row]> ms).

Definition md_GetByID (ms : Mods) (id : UUID) : res StoreErr ModelRecord :=
  match ms !! id with Some r => Ok r | None => Err ErrNotFound end.

Definition md_ListByProvider (ms : Mods) (p : UUID) : list ModelRecord :=
  insertionSort (by_order MRSortOrder MRModelID)
    (map_to_list (filter (fun kv => MRProviderID kv.2 = p) ms)).*2.

Definition md_ListEnabled (ms : Mods) : list ModelRecord :=
  insertionSort (by_order MRSortOrder MRModelID)
    (map_to_list (filter (fun kv => MREnabled kv.2 = true) ms)).*2.

Definition md_Update (ms : Mods) (r : ModelRecord) (now : Time) : res StoreErr Time * Mods :=
  match ms !! MRID r with
  | None => (Err ErrNotFound, ms)
  | Some old =>
      (Ok now, <[MRID r := mkModel (MRID old) (MRProviderID old) (MRModelID old) (MRModelName r)
        (MRDisplayName r) (MREnabled r) (MRInput r) (MROutput r) (ContextWindow r) (MaxOutputTokens r)
        (SupportsStreaming r) (SupportsTools r) (SupportsVision r) (MRTags r) (MRSortOrder r)
        (MRCreatedAt old) now]> ms)
  end.

Definition md_Delete (ms : Mods) (id : UUID) : res StoreErr unit * Mods :=
  match ms !! id with
  | None => (Err ErrNotFound, ms)
  | Some _ => (Ok tt, delete id ms)
  end.

(** ** admin_providers.go *)

Record createProviderRequest := mkCP {
  CPName : string;
  CPAdapterType : string;
  CPDisplayName : string;
  CPBaseURL : string;
  CPEnabled : option bool;
  CPConfig : string;
  CPSortOrder : Z;
  CPAPIKey : string
}.

Record updateProviderRequest := mkUP {
  UPDisplayName : option string;
  UPBaseURL : option string;
  UPEnabled : option bool;
  UPConfig : option string;
  UPSortOrder : option Z
}.

Record createModelRequest := mkCM {
  CMModelID : string;
  CMModelName : string;
  CMDisplayName : string;
  CMEnabled : option bool;
  CMInput : float64;
  CMOutput : float64;
  CMContext : option Z;
  CMMaxOutput : option Z;
  CMStreaming : option bool;
  CMTools : option bool;
  CMVision : option bool;
  CMTags : list string;
  CMSortOrder : Z
}.

Record updateModelRequest := mkUM {
  UMModelName : option string;
  UMDisplayName : option string;
  UMEnabled : option bool;
  UMInput : option float64;
  UMOutput : option float64;
  UMContext : option Z;
  UMMaxOutput : option Z;
  UMStreaming : option bool;
  UMTools : option bool;
  UMVision : option bool;
  UMTags : option (list string);
  UMSortOrder : option Z
}.

(** The view of a provider is its record with the number of its models (absent when not
    counted), the view of a model is its record. *)
Inductive response :=
| RError (status : Z) (msg typ code : string)
| RProvider (status : Z) (p : ProviderRecord) (modelCount : Z)
| RProviders (ps : list (ProviderRecord * Z))
| RModel (status : Z) (m : ModelRecord)
| RModels (ms : list ModelRecord)
| RNoContent.

Definition bad_request (msg : string) : response := RError 400 msg "invalid_request_error" "".
Definition missing (msg : string) : response := RError 404 msg "invalid_request_error" "not_found".
Definition internal (msg : string) : response := RError 500 msg "internal_error" "".

Section Handler.
Context {W : Type} `{GCM} (ToLower : string -> string).

(** The handler's state: the tables, the keys and their cache, the registry, the prices. *)
Record State := mkState {
  provs : Provs;
  mods : Mods;
  keys : Keys.KeyState;
  registry : Registry.Registry_ W;
  costCalc : Cost.Calculator
}.

Definition set_provs (st : State) (ps : Provs) (ms : Mods) : State :=
  mkState ps ms (keys st) (registry st) (costCalc st).

(** What the outside does in one request: which database calls succeed, the random nonce, the
    new ids, the time. *)
Record world := mkWorld {
  read_ok : bool;
  write_ok : bool;
  begin_ok : bool;
  key_ok : bool;
  commit_ok : bool;
  sync_ok : bool;
  nonce : option string;
  new_id : UUID;
  key_id : UUID;
  now_ : Time
}.

(** The models a provider offers, and their prices. *)
Definition enabled_models (ms : Mods) (p : UUID) : list ModelRecord :=
  List.filter MREnabled (md_ListByProvider ms p).
Definition model_infos (name : string) (ms : list ModelRecord) : list ModelInfo :=
  map (fun m => mkModelInfo (MRModelID m) "model" 0 name) ms.
Definition model_prices (name : string) (ms : list ModelRecord) : list (string * Cost.ModelPricing) :=
  map (fun m => (MRModelID m, Cost.mkPricing name (MRInput m) (MROutput m))) ms.

Definition syncProviderModels (st : State) (ok : bool) (prov : ProviderRecord) : State :=
  if negb ok then st
  else
    let ms := enabled_models (mods st) (PRID prov) in
    let '(_, reg) := Registry.SetProviderModels (registry st) (PRName prov) (model_infos (PRName prov) ms) in
    mkState (provs st) (mods st) (keys st) reg
      (Cost.UpdatePricing ToLower (costCalc st) (model_prices (PRName prov) ms)).

Definition ListProviders (st : State) (ok : bool) : response :=
  if negb ok then internal "failed to list providers"
  else RProviders (map (fun r => (r, Z.of_nat (length (md_ListByProvider (mods st) (PRID r)))))
                     (pv_List (provs st))).

(** The key of a provider created with one: alias "default", weight 100, active. *)
Definition default_key (name enc apiKey : string) : Keys.ProviderKeyRecord :=
  Keys.mkPK zero_uuid name "default" enc (Keys.keyPreview apiKey) "" [] 100 true None f64_0 0 0 None 0.

(** The two inserts of the transaction: nothing is kept unless both succeed and commit. *)
Definition create_with_key (st : State) (r : ProviderRecord) (enc apiKey : string) (w : world)
  : response * State :=
  if negb (begin_ok w) then (internal "failed to create provider", st)
  else if negb (write_ok w) then (internal "failed to create provider", st)
  else match pv_Create (provs st) r (new_id w) (now_ w) with
  | (Err _, _) => (internal "failed to create provider", st)
  | (Ok row, ps) =>
      if negb (key_ok w) then (internal "failed to create provider key", st)
      else match Keys.pk_Create (Keys.table (keys st)) (default_key (PRName r) enc apiKey) (key_id w) (now_ w) with
      | (Err _, _) => (internal "failed to create provider key", st)
      | (Ok _, ks) =>
          if negb (commit_ok w) then (internal "failed to create provider", st)
          else (RProvider 201 row 0,
                mkState ps (mods st)
                  (Keys.InvalidateCache (Keys.mkKS ks (Keys.kcache (keys st))) (PRName r))
                  (registry st) (costCalc st))
      end
  end.

Definition CreateProvider (ck : option string) (st : State) (body : option createProviderRequest) (w : world)
  : response * State :=
  match body with
  | None => (bad_request "invalid request body", st)
  | Some req =>
      if String.eqb (CPName req) "" || String.eqb (CPAdapterType req) ""
      then (bad_request "name and adapter_type are required", st)
      else
      let r := mkProv zero_uuid (CPName req) (CPAdapterType req) (CPDisplayName req) (CPBaseURL req)
        (default true (CPEnabled req)) (CPConfig req) (CPSortOrder req) 0 0 in
      if String.eqb (CPAPIKey req) "" then
        if negb (write_ok w) then (internal "failed to create provider", st)
        else match pv_Create (provs st) r (new_id w) (now_ w) with
             | (Err _, _) => (internal "failed to create provider", st)
             | (Ok row, ps) => (RProvider 201 row 0, set_provs st ps (mods st))
             end
      else match ck with
           | None => (bad_request "encryption not configured; cannot store API key", st)
           | Some ck =>
               match Crypto.Encrypt ck (nonce w) (CPAPIKey req) with
               | Err _ => (internal "encryption failed", st)
               | Ok enc => create_with_key st r enc (CPAPIKey req) w
               end
           end
  end.

(** The provider an id names, or the answer instead. *)
Definition get_provider (st : State) (id : option UUID) (ok : bool) : res response (UUID * ProviderRecord) :=
  match id with
  | None => Err (bad_request "invalid key ID")
  | Some id =>
      if negb ok then Err (internal "failed to get provider")
      else match pv_GetByID (provs st) id with
           | Err _ => Err (missing "provider not found")
           | Ok r => Ok (id, r)
           end
  end.

Definition GetProvider (st : State) (id : option UUID) (ok : bool) : response :=
  match get_provider st id ok with
  | Err r => r
  | Ok (_, p) => RProvider 200 p 0
  end.

Definition apply_provider (p : ProviderRecord) (u : updateProviderRequest) : ProviderRecord :=
  mkProv (PRID p) (PRName p) (AdapterType p) (default (PRDisplayName p) (UPDisplayName u))
    (default (BaseURL p) (UPBaseURL u)) (default (PREnabled p) (UPEnabled u))
    (default (ConfigJSON p) (UPConfig u)) (default (PRSortOrder p) (UPSortOrder u)) (PRCreatedAt p) (PRUpdatedAt p).

Definition UpdateProvider (st : State) (id : option UUID) (body : option updateProviderRequest) (w : world)
  : response * State :=
  match get_provider st id (read_ok w) with
  | Err r => (r, st)
  | Ok (_, p) =>
      match body with
      | None => (bad_request "invalid request body", st)
      | Some u =>
          let p := apply_provider p u in
          if negb (write_ok w) then (internal "failed to update provider", st)
          else match pv_Update (provs st) p (now_ w) with
               | (Err _, _) => (internal "failed to update provider", st)
               | (Ok t, ps) =>
                   (RProvider 200 (mkProv (PRID p) (PRName p) (AdapterType p) (PRDisplayName p) (BaseURL p)
                      (PREnabled p) (ConfigJSON p) (PRSortOrder p) (PRCreatedAt p) t) 0,
                    set_provs st ps (mods st))
               end
      end
  end.

Definition DeleteProvider (st : State) (id : option UUID) (w : world) : response * State :=
  match id with
  | None => (bad_request "invalid key ID", st)
  | Some id =>
      if negb (write_ok w) then (internal "failed to delete provider", st)
      else match pv_Delete (provs st) (mods st) id with
           | (Err ErrNotFound, _, _) => (missing "provider not found", st)
           | (Err _, _, _) => (internal "failed to delete provider", st)
           | (Ok _, ps, ms) => (RNoContent, set_provs st ps ms)
           end
  end.

Definition ListAllModels (st : State) (ok : bool) : response :=
  if negb ok then internal "failed to list models" else RModels (md_ListEnabled (mods st)).

Definition ListModels (st : State) (id : option UUID) (ok : bool) : response :=
  match id with
  | None => bad_request "invalid key ID"
  | Some id => if negb ok then internal "failed to list models" else RModels (md_ListByProvider (mods st) id)
  end.

Definition new_model (p : UUID) (req : createModelRequest) : ModelRecord :=
  mkModel zero_uuid p (CMModelID req) (CMModelName req) (CMDisplayName req) (default true (CMEnabled req))
    (CMInput req) (CMOutput req) (CMContext req) (CMMaxOutput req) (default true (CMStreaming req))
    (default false (CMTools req)) (default false (CMVision req)) (CMTags req) (CMSortOrder req) 0 0.

Definition CreateModel (st : State) (id : option UUID) (body : option createModelRequest) (w : world)
  : response * State :=
  match get_provider st id (read_ok w) with
  | Err r => (r, st)
  | Ok (pid, prov) =>
      match body with
      | None => (bad_request "invalid request body", st)
      | Some req =>
          if String.eqb (CMModelID req) "" || String.eqb (CMModelName req) ""
          then (bad_request "model_id and model_name are required", st)
          else if negb (write_ok w) then (internal "failed to create model", st)
          else match md_Create (provs st) (mods st) (new_model pid req) (new_id w) (now_ w) with
               | (Err _, _) => (internal "failed to create model", st)
               | (Ok row, ms) =>
                   (RModel 201 row, syncProviderModels (set_provs st (provs st) ms) (sync_ok w) prov)
               end
      end
  end.

Definition apply_model (m : ModelRecord) (u : updateModelRequest) : ModelRecord :=
  mkModel (MRID m) (MRProviderID m) (MRModelID m) (default (MRModelName m) (UMModelName u))
    (default (MRDisplayName m) (UMDisplayName u)) (default (MREnabled m) (UMEnabled u))
    (default (MRInput m) (UMInput u)) (default (MROutput m) (UMOutput u))
    (match UMContext u with Some n => Some n | None => ContextWindow m end)
    (match UMMaxOutput u with Some n => Some n | None => MaxOutputTokens m end)
    (default (SupportsStreaming m) (UMStreaming u)) (default (SupportsTools m) (UMTools u))
    (default (SupportsVision m) (UMVision u)) (default (MRTags m) (UMTags u))
    (default (MRSortOrder m) (UMSortOrder u)) (MRCreatedAt m) (MRUpdatedAt m).

(** The provider of the URL is synced when it exists. *)
Definition sync_by_id (st : State) (pid : UUID) (w : world) : State :=
  match (if read_ok w then pv_GetByID (provs st) pid else Err (ErrDB "read")) with
  | Ok prov => syncProviderModels st (sync_ok w) prov
  | Err _ => st
  end.

Definition UpdateModel (st : State) (id mid : option UUID) (body : option updateModelRequest) (w : world)
  : response * State :=
  match id, mid with
  | Some pid, Some mid =>
      if negb (read_ok w) then (internal "failed to get model", st)
      else match md_GetByID (mods st) mid with
      | Err _ => (missing "model not found", st)
      | Ok m =>
          match body with
          | None => (bad_request "invalid request body", st)
          | Some u =>
              let m := apply_model m u in
              if negb (write_ok w) then (internal "failed to update model", st)
              else match md_Update (mods st) m (now_ w) with
                   | (Err _, _) => (internal "failed to update model", st)
                   | (Ok t, ms) =>
                       (RModel 200 (mkModel (MRID m) (MRProviderID m) (MRModelID m) (MRModelName m)
                          (MRDisplayName m) (MREnabled m) (MRInput m) (MROutput m) (ContextWindow m)
                          (MaxOutputTokens m) (SupportsStreaming m) (SupportsTools m) (SupportsVision m)
                          (MRTags m) (MRSortOrder m) (MRCreatedAt m) t),
                        sync_by_id (set_provs st (provs st) ms) pid w)
                   end
          end
      end
  | _, _ => (bad_request "invalid key ID", st)
  end.

Definition DeleteModel (st : State) (id mid : option UUID) (w : world) : response * State :=
  match id, mid with
  | Some pid, Some mid =>
      if negb (write_ok w) then (internal "failed to delete model", st)
      else match md_Delete (mods st) mid with
           | (Err ErrNotFound, _) => (missing "model not found", st)
           | (Err _, _) => (internal "failed to delete model", st)
           | (Ok _, ms) => (RNoContent, sync_by_id (set_provs st (provs st) ms) pid w)
           end
  | _, _ => (bad_request "invalid key ID", st)
  end.

(** ** The tables stay well formed *)

(** What the schema declares: rows under their id, unique provider names, models of existing
    providers, and one row per provider and model id. *)
Record wf (ps : Provs) (ms : Mods) : Prop := {
  wf_pid : forall id r, ps !! id = Some r -> PRID r = id;
  wf_name : forall id r id' r', ps !! id = Some r -> ps !! id' = Some r' -> PRName r = PRName r' -> id = id';
  wf_mid : forall id m, ms !! id = Some m -> MRID m = id;
  wf_fk : forall id m, ms !! id = Some m -> is_Some (ps !! MRProviderID m);
  wf_model : forall id m id' m', ms !! id = Some m -> ms !! id' = Some m' ->
    MRProviderID m = MRProviderID m' -> MRModelID m = MRModelID m' -> id = id'
}.

Lemma name_taken_false ps name id r : name_taken ps name = false -> ps !! id = Some r -> PRName r <> name.
Proof.
  unfold name_taken. intros F E <-. apply not_true_iff_false in F. apply F, existsb_exists.
  exists (id, r). split; [by apply list_elem_of_In, elem_of_map_to_list|apply String.eqb_refl].
Qed.

Lemma model_taken_false ms p m id r :
  model_taken ms p m = false -> ms !! id = Some r -> ~ (MRProviderID r = p /\ MRModelID r = m).
Proof.
  unfold model_taken. intros F E [<- <-]. apply not_true_iff_false in F. apply F, existsb_exists.
  exists (id, r). split; [by apply list_elem_of_In, elem_of_map_to_list|]. by rewrite !String.eqb_refl.
Qed.

(** Replacing a row by one with the same identity. *)
Lemma wf_pv_replace ps ms id old r :
  wf ps ms -> ps !! id = Some old -> PRID r = id -> PRName r = PRName old -> wf (<[id := r]> ps) ms.
Proof.
  intros Wf E I N. split; [| |apply Wf| |apply Wf].
  - intros i x. rewrite lookup_insert_Some. intros [[<- <-]|[_ X]]; [done|exact (wf_pid _ _ Wf _ _ X)].
  - intros i x i' x'. rewrite !lookup_insert_Some. intros [[<- <-]|[D X]] [[<- <-]|[D' X']] Q; try done.
    + rewrite N in Q. exact (wf_name _ _ Wf _ _ _ _ E X' Q).
    + rewrite N in Q. exact (wf_name _ _ Wf _ _ _ _ X E Q).
    + exact (wf_name _ _ Wf _ _ _ _ X X' Q).
  - intros i m X. apply (wf_fk _ _ Wf) in X. rewrite lookup_insert_is_Some'. by right.
Qed.

Lemma wf_md_replace ps ms id old m :
  wf ps ms -> ms !! id = Some old -> MRID m = id -> MRProviderID m = MRProviderID old ->
  MRModelID m = MRModelID old -> wf ps (<[id := m]> ms).
Proof.
  intros Wf E I P N. split; [apply Wf|apply Wf| | |].
  - intros i x. rewrite lookup_insert_Some. intros [[<- <-]|[_ X]]; [done|exact (wf_mid _ _ Wf _ _ X)].
  - intros i x. rewrite lookup_insert_Some. intros [[<- <-]|[_ X]]; [rewrite P; exact (wf_fk _ _ Wf _ _ E)|exact (wf_fk _ _ Wf _ _ X)].
  - intros i x i' x'. rewrite !lookup_insert_Some. intros [[<- <-]|[D X]] [[<- <-]|[D' X']] Q Q'; try done.
    + rewrite P in Q. rewrite N in Q'. exact (wf_model _ _ Wf _ _ _ _ E X' Q Q').
    + rewrite P in Q. rewrite N in Q'. exact (wf_model _ _ Wf _ _ _ _ X E Q Q').
    + exact (wf_model _ _ Wf _ _ _ _ X X' Q Q').
Qed.

Lemma pv_Create_wf ps ms r id now row ps' :
  wf ps ms -> pv_Create ps r id now = (Ok row, ps') ->
  wf ps' ms /\ ps' = <[id := row]> ps /\ ps !! id = None /\ PRName row = PRName r.
Proof.
  intros Wf. unfold pv_Create. destruct (name_taken ps (PRName r)) eqn:T; [done|].
  case_bool_decide as B; [done|]. apply eq_None_not_Some in B. intros [= <- <-].
  split; [|done]. split; [| |apply Wf| |apply Wf].
  - intros i x. rewrite lookup_insert_Some. intros [[<- <-]|[_ X]]; [done|exact (wf_pid _ _ Wf _ _ X)].
  - intros i x i' x'. rewrite !lookup_insert_Some. intros [[<- <-]|[D X]] [[<- <-]|[D' X']] Q; try done.
    + by destruct (name_taken_false _ _ _ _ T X').
    + by destruct (name_taken_false _ _ _ _ T X).
    + exact (wf_name _ _ Wf _ _ _ _ X X' Q).
  - intros i m X. apply (wf_fk _ _ Wf) in X. rewrite lookup_insert_is_Some'. by right.
Qed.

Lemma pv_Update_wf ps ms r now t ps' :
  wf ps ms -> pv_Update ps r now = (Ok t, ps') -> wf ps' ms.
Proof.
  intros Wf. unfold pv_Update. destruct (ps !! PRID r) as [old|] eqn:E; [|done]. intros [= _ <-].
  eapply wf_pv_replace; [done|exact E|exact (wf_pid _ _ Wf _ _ E)|done].
Qed.

Lemma pv_Delete_wf ps ms id r ps' ms' : wf ps ms -> pv_Delete ps ms id = (Ok r, ps', ms') -> wf ps' ms'.
Proof.
  intros Wf. unfold pv_Delete. destruct (ps !! id) as [old|] eqn:E; [|done]. intros [= _ <- <-]. split.
  - intros i x. rewrite lookup_delete_Some. intros [_ X]. exact (wf_pid _ _ Wf _ _ X).
  - intros i x i' x'. rewrite !lookup_delete_Some. intros [_ X] [_ X']. exact (wf_name _ _ Wf _ _ _ _ X X').
  - intros i x. rewrite map_lookup_filter_Some. intros [X _]. exact (wf_mid _ _ Wf _ _ X).
  - intros i x. rewrite map_lookup_filter_Some. intros [X N]. simpl in N.
    rewrite lookup_delete_ne by done. exact (wf_fk _ _ Wf _ _ X).
  - intros i x i' x'. rewrite !map_lookup_filter_Some. intros [X _] [X' _]. exact (wf_model _ _ Wf _ _ _ _ X X').
Qed.

Lemma md_Create_wf ps ms r id now row ms' :
  wf ps ms -> md_Create ps ms r id now = (Ok row, ms') -> wf ps ms'.
Proof.
  intros Wf. unfold md_Create. case_bool_decide as P; [done|].
  destruct (model_taken ms (MRProviderID r) (MRModelID r)) eqn:T; [done|].
  case_bool_decide as B; [done|]. intros [= _ <-]. split; [apply Wf|apply Wf| | |].
  - intros i x. rewrite lookup_insert_Some. intros [[<- <-]|[_ X]]; [done|exact (wf_mid _ _ Wf _ _ X)].
  - intros i x. rewrite lookup_insert_Some. intros [[<- <-]|[_ X]]; [|exact (wf_fk _ _ Wf _ _ X)].
    simpl. by apply not_eq_None_Some.
  - intros i x i' x'. rewrite !lookup_insert_Some. intros [[<- <-]|[D X]] [[<- <-]|[D' X']] Q Q'; try done.
    + by destruct (model_taken_false _ _ _ _ _ T X').
    + by destruct (model_taken_false _ _ _ _ _ T X).
    + exact (wf_model _ _ Wf _ _ _ _ X X' Q Q').
Qed.

Lemma md_Update_wf ps ms r now t ms' : wf ps ms -> md_Update ms r now = (Ok t, ms') -> wf ps ms'.
Proof.
  intros Wf. unfold md_Update. destruct (ms !! MRID r) as [old|] eqn:E; [|done]. intros [= _ <-].
  eapply wf_md_replace; [done|exact E|exact (wf_mid _ _ Wf _ _ E)|done|done].
Qed.

Lemma md_Delete_wf ps ms id r ms' : wf ps ms -> md_Delete ms id = (Ok r, ms') -> wf ps ms'.
Proof.
  intros Wf. unfold md_Delete. destruct (ms !! id); [|done]. intros [= _ <-]. split; [apply Wf|apply Wf| | |].
  - intros i x. rewrite lookup_delete_Some. intros [_ X]. exact (wf_mid _ _ Wf _ _ X).
  - intros i x. rewrite lookup_delete_Some. intros [_ X]. exact (wf_fk _ _ Wf _ _ X).
  - intros i x i' x'. rewrite !lookup_delete_Some. intros [_ X] [_ X']. exact (wf_model _ _ Wf _ _ _ _ X X').
Qed.

Lemma sync_tables st ok prov :
  provs (syncProviderModels st ok prov) = provs st /\ mods (syncProviderModels st ok prov) = mods st.
Proof.
  unfold syncProviderModels. destruct (negb ok); [done|]. by destruct (Registry.SetProviderModels _ _ _).
Qed.

Lemma sync_by_id_tables st pid w :
  provs (sync_by_id st pid w) = provs st /\ mods (sync_by_id st pid w) = mods st.
Proof.
  unfold sync_by_id. destruct (if read_ok w then _ else _); [apply sync_tables|done].
Qed.

(** The requests that change the catalogue. *)
Inductive op :=
| OpCreateProvider (body : option createProviderRequest) (w : world)
| OpUpdateProvider (id : option UUID) (body : option updateProviderRequest) (w : world)
| OpDeleteProvider (id : option UUID) (w : world)
| OpCreateModel (id : option UUID) (body : option createModelRequest) (w : world)
| OpUpdateModel (id mid : option UUID) (body : option updateModelRequest) (w : world)
| OpDeleteModel (id mid : option UUID) (w : world).

Definition step (ck : option string) (st : State) (o : op) : State :=
  match o with
  | OpCreateProvider body w => (CreateProvider ck st body w).2
  | OpUpdateProvider id body w => (UpdateProvider st id body w).2
  | OpDeleteProvider id w => (DeleteProvider st id w).2
  | OpCreateModel id body w => (CreateModel st id body w).2
  | OpUpdateModel id mid body w => (UpdateModel st id mid body w).2
  | OpDeleteModel id mid w => (DeleteModel st id mid w).2
  end.

Definition wf_state (st : State) : Prop := wf (provs st) (mods st).

Lemma create_with_key_cases st r enc key w :
  (exists status msg typ code, create_with_key st r enc key w = (RError status msg typ code, st)) \/
  exists row ps krow ks,
    pv_Create (provs st) r (new_id w) (now_ w) = (Ok row, ps) /\
    Keys.pk_Create (Keys.table (keys st)) (default_key (PRName r) enc key) (key_id w) (now_ w) = (Ok krow, ks) /\
    create_with_key st r enc key w =
      (RProvider 201 row 0, mkState ps (mods st)
        (Keys.InvalidateCache (Keys.mkKS ks (Keys.kcache (keys st))) (PRName r)) (registry st) (costCalc st)).
Proof.
  unfold create_with_key.
  destruct (begin_ok w); [|left; by eexists _, _, _, _]. cbn [negb].
  destruct (write_ok w); [|left; by eexists _, _, _, _]. cbn [negb].
  destruct (pv_Create _ _ _ _) as [[row|] ps] eqn:P; [|left; by eexists _, _, _, _].
  destruct (key_ok w); [|left; by eexists _, _, _, _]. cbn [negb].
  destruct (Keys.pk_Create _ _ _ _) as [[krow|] ks] eqn:K; [|left; by eexists _, _, _, _].
  destruct (commit_ok w); [|left; by eexists _, _, _, _]. right. by exists row, ps, krow, ks.
Qed.

Lemma step_wf ck st o : wf_state st -> wf_state (step ck st o).
Proof.
  unfold wf_state. intros Wf.
  destruct o as [body w|id body w|id w|id body w|id mid body w|id mid w]; cbn [step].
  - unfold CreateProvider. repeat case_match; try done.
    + subst. by eapply pv_Create_wf.
    + match goal with |- context [create_with_key ?s ?r ?e ?k ?w] =>
        destruct (create_with_key_cases s r e k w) as [(? & ? & ? & ? & ->)|(row & ps & kr & ks & P & _ & ->)] end;
        [done|]. by eapply pv_Create_wf.
  - unfold UpdateProvider. repeat case_match; try done. subst. by eapply pv_Update_wf.
  - unfold DeleteProvider. repeat case_match; try done. subst. by eapply pv_Delete_wf.
  - unfold CreateModel. repeat case_match; try done. cbn [snd].
    destruct (sync_tables (set_provs st (provs st) g) (sync_ok w) p) as [-> ->]. by eapply md_Create_wf.
  - unfold UpdateModel. repeat case_match; try done. cbn [snd].
    match goal with |- context [sync_by_id ?s ?i ?w] => destruct (sync_by_id_tables s i w) as [-> ->] end.
    by eapply md_Update_wf.
  - unfold DeleteModel. repeat case_match; try done. cbn [snd].
    match goal with |- context [sync_by_id ?s ?i ?w] => destruct (sync_by_id_tables s i w) as [-> ->] end.
    by eapply md_Delete_wf.
Qed.


(** Creating a provider together with its API key is all or nothing: either the answer is
    201 and both rows are there, the key active under the provider's name and decrypting to the
    key of the request, or the answer is an error and nothing at all has changed. *)
Theorem create_provider_atomic `{!GCMLaws} ck st req w n resp st' :
  CPAPIKey req <> "" -> nonce w = Some n -> String.length n = Crypto.nonceSize ->
  CreateProvider (Some ck) st (Some req) w = (resp, st') ->
  (exists row k, resp = RProvider 201 row 0 /\ PRName row = CPName req /\
     provs st' = <[new_id w := row]> (provs st) /\
     Keys.table (keys st') !! key_id w = Some k /\ Keys.usable (CPName req) "" k /\
     Crypto.Decrypt ck (Keys.EncryptedKey k) = Ok (CPAPIKey req)) \/
  (exists status msg typ code, resp = RError status msg typ code /\ st' = st).
Proof.
  intros Ne N L. unfold CreateProvider.
  destruct (String.eqb (CPName req) "" || String.eqb (CPAdapterType req) "");
    [intros [= <- <-]; right; by eexists _, _, _, _|].
  apply String.eqb_neq in Ne. rewrite Ne, N. cbn [Crypto.Encrypt].
  match goal with |- context [create_with_key ?s ?r ?e ?k ?w] =>
    destruct (create_with_key_cases s r e k w) as [(? & ? & ? & ? & ->)|(row & ps & kr & ks & P & K & ->)] end.
  { intros [= <- <-]. right. by eexists _, _, _, _. }
  intros [= <- <-]. left. revert P K. unfold pv_Create, Keys.pk_Create.
  destruct (_ || _); [done|]. case_bool_decide as B; [done|]. intros P K.
  injection P as <- <-. injection K as <- <-.
  eexists _, _. split_and!; try done.
  - cbn. by rewrite lookup_insert_eq.
  - by repeat split; simpl; auto.
  - cbn [Keys.EncryptedKey]. by apply Crypto.Decrypt_sealed.
Qed.

(** ** Registry and prices follow the tables *)

Lemma UpdatePricing_other c pricing m :
  Forall (fun kv => ToLower kv.1 <> m) pricing ->
  Cost.models (Cost.UpdatePricing ToLower c pricing) !! m = Cost.models c !! m.
Proof.
  unfold Cost.UpdatePricing. cbn [Cost.models]. generalize (Cost.models c). intros t F. revert t.
  induction F as [|kv l Hkv F IH]; intros t; simpl; [done|]. rewrite IH. by rewrite lookup_insert_ne.
Qed.

Lemma UpdatePricing_at c pricing m p :
  (m, p) ∈ pricing -> NoDup (map (fun kv => ToLower kv.1) pricing) ->
  Cost.models (Cost.UpdatePricing ToLower c pricing) !! ToLower m = Some p.
Proof.
  unfold Cost.UpdatePricing. cbn [Cost.models]. generalize (Cost.models c). revert m p.
  induction pricing as [|[m' p'] l IH]; intros m p t E D; [by apply elem_of_nil in E|]. simpl in *.
  inversion D as [|? ? D1 D2]; subst. apply elem_of_cons in E as [[= -> ->]|E]; [|by apply IH].
  change (Cost.models (Cost.UpdatePricing ToLower (Cost.mkCalculator (<[ToLower m' := p']> t)) l) !! ToLower m' = Some p').
  rewrite UpdatePricing_other; [apply lookup_insert_eq|].
  apply Forall_forall. intros kv Hk Q. apply D1. rewrite <- Q. apply list_elem_of_fmap. by exists kv.
Qed.

Lemma sync_prices st prov m :
  m ∈ enabled_models (mods st) (PRID prov) ->
  NoDup (map (fun m => ToLower (MRModelID m)) (enabled_models (mods st) (PRID prov))) ->
  Cost.lookup ToLower (costCalc (syncProviderModels st true prov)) (MRModelID m) =
  Some (Cost.mkPricing (PRName prov) (MRInput m) (MROutput m)).
Proof.
  intros I D. unfold syncProviderModels. cbn [negb].
  destruct (Registry.SetProviderModels _ _ _) as [b reg]. cbn [costCalc]. unfold Cost.lookup.
  rewrite (UpdatePricing_at _ _ (MRModelID m) (Cost.mkPricing (PRName prov) (MRInput m) (MROutput m))).
  - done.
  - unfold model_prices. apply list_elem_of_fmap. by exists m.
  - unfold model_prices. rewrite map_map. exact D.
Qed.

(** The gateway serves what the table says of a provider: its model list is the enabled models
    in their order, and each of them has its price. *)
Definition in_sync (st : State) (prov : ProviderRecord) : Prop :=
  (forall p, Registry.providers (registry st) !! PRName prov = Some p -> Registry.overridable p = true ->
     Registry.Models p = model_infos (PRName prov) (enabled_models (mods st) (PRID prov))) /\
  (NoDup (map (fun m => ToLower (MRModelID m)) (enabled_models (mods st) (PRID prov))) ->
   forall m, m ∈ enabled_models (mods st) (PRID prov) ->
     Cost.lookup ToLower (costCalc st) (MRModelID m) =
     Some (Cost.mkPricing (PRName prov) (MRInput m) (MROutput m))).

Lemma sync_in_sync st prov : in_sync (syncProviderModels st true prov) prov.
Proof.
  pose proof (sync_tables st true prov) as [_ M]. split.
  - intros p E O. rewrite M.
    unfold syncProviderModels, Registry.SetProviderModels in E. cbn [negb] in E.
    destruct (Registry.providers (registry st) !! PRName prov) as [q|] eqn:Q; [|cbn in E; by rewrite Q in E].
    destruct (Registry.overridable q) eqn:Oq; cbn in E.
    + rewrite lookup_insert_eq in E. by injection E as <-.
    + rewrite Q in E. injection E as ->. by rewrite Oq in O.
  - rewrite M. intros D m I. by apply sync_prices.
Qed.

(** A successful change of a provider's models reaches the running gateway: after a model
    is created, updated or deleted through its own provider's URL, the registry lists exactly
    the provider's enabled models, in the order of the table, and the calculator prices each of
    them as the table does. *)
Theorem model_changes_in_sync st pid prov mid body body' w resp st' :
  read_ok w = true -> sync_ok w = true -> provs st !! pid = Some prov ->
  (CreateModel st (Some pid) body w = (resp, st') /\ (exists m, resp = RModel 201 m) \/
   UpdateModel st (Some pid) mid body' w = (resp, st') /\ (exists m, resp = RModel 200 m) \/
   DeleteModel st (Some pid) mid w = (resp, st') /\ resp = RNoContent) ->
  in_sync st' prov.
Proof.
  intros R S P H1.
  assert (forall ms, in_sync (sync_by_id (set_provs st (provs st) ms) pid w) prov) as Sy.
  { intros ms. unfold sync_by_id, pv_GetByID. rewrite R, S. cbn [provs set_provs]. rewrite P.
    apply sync_in_sync. }
  destruct H1 as [[E [m ->]]|[[E [m ->]]|[E ->]]].
  - unfold CreateModel, get_provider, pv_GetByID in E. rewrite R, P, S in E. cbn [negb] in E.
    repeat case_match; simplify_eq. apply sync_in_sync.
  - unfold UpdateModel in E. repeat case_match; simplify_eq. apply Sy.
  - unfold DeleteModel in E. repeat case_match; simplify_eq. apply Sy.
Qed.

End Handler.

(** ** Examples *)

Import ToyGCM.

Definition demo_world : world :=
  mkWorld true true true true true true (Some "123456789012") "p1" "k1" 5.
Definition demo_provider (name : string) : Registry.Provider_ unit :=
  Registry.mkProvider name [] true (fun _ _ _ w => (Err (EOther ""), w)) (fun _ _ _ w => (Err (EOther ""), w)).
Definition demo_empty : State :=
  mkState (W:=unit) ∅ ∅ (Keys.mkKS ∅ ∅)
    (Registry.Register (Registry.Register Registry.NewRegistry (demo_provider "mistral")) (demo_provider "google"))
    (Cost.NewCalculator ∅).
Definition demo_create (name : string) : createProviderRequest := mkCP name name name "" None "" 0 "sk-secret".
Definition demo_model : createModelRequest :=
  mkCM "mistral/small" "small" "" None f64_0 f64_0 None None None None None [] 0.

Definition demo_one : State :=
  (CreateProvider (Some "k") demo_empty (Some (demo_create "mistral")) demo_world).2.
Definition world2 : world := mkWorld true true true true true true (Some "123456789012") "m1" "k2" 6.
Definition demo_two : State := (CreateModel ascii_ToLower demo_one (Some "p1") (Some demo_model) world2).2.

Lemma demo_empty_wf : wf_state demo_empty.
Proof. unfold wf_state. cbn [provs mods demo_empty]. split; intros *; intros E; exfalso; exact (lookup_empty_Some _ _ E). Qed.


Lemma create_provider_atomic_witness :
  exists row k, (CreateProvider (Some "k") demo_empty (Some (demo_create "mistral")) demo_world).1 = RProvider 201 row 0 /\
    Crypto.Decrypt "k" (Keys.EncryptedKey k) = Ok "sk-secret".
Proof.
  destruct (create_provider_atomic "k" demo_empty (demo_create "mistral") demo_world "123456789012" _ _
    ltac:(discriminate) eq_refl eq_refl (surjective_pairing _))
    as [(row & k & E & _ & _ & _ & _ & D)|(st & m & t & c & E & _)].
  - exists row, k. split; [exact E|exact D].
  - vm_compute in E. discriminate E.
Defined.

Lemma model_changes_in_sync_witness :
  in_sync ascii_ToLower demo_two (default (mkProv "" "" "" "" "" false "" 0 0 0) (provs demo_one !! "p1")).
Proof.
  eapply (model_changes_in_sync ascii_ToLower demo_one "p1" _ None (Some demo_model) None world2); try reflexivity.
  left. split; [exact (surjective_pairing _)|]. eexists. vm_compute. reflexivity.
Defined.

Definition listed (st : State (W:=unit)) (name : string) : option (list string) :=
  (fun p => map ModelInfoID (Registry.Models p)) <$> Registry.providers (registry st) !! name.

(** A model can be changed through the URL of another provider, or of none; then its own
    provider's list is not refreshed: the model below is disabled in the table and still
    served. *)
Example disabled_through_other_url_still_listed :
  let u := mkUM None None (Some false) None None None None None None None None None in
  let '(resp, st) := UpdateModel ascii_ToLower demo_two (Some "p9") (Some "m1") (Some u) world2 in
  (exists m, resp = RModel 200 m /\ MREnabled m = false) /\ listed st "mistral" = Some ["mistral/small"].
Proof. vm_compute. split; [eexists; split; reflexivity|reflexivity]. Qed.

(** Deleting a provider does not touch the registry: its models are still listed. *)
Example deleted_provider_still_listed :
  let '(resp, st) := DeleteProvider demo_two (Some "p1") world2 in
  resp = RNoContent /\ provs st = ∅ /\ mods st = ∅ /\ listed st "mistral" = Some ["mistral/small"].
Proof. vm_compute. repeat split; reflexivity. Qed.

(** The Gemini adapter registers as google but asks for the keys of gemini: the key created
    with the provider that the registry knows is not the key the adapter gets. *)
Example gemini_key_not_found :
  let st := (CreateProvider (Some "k") demo_empty (Some (demo_create "google")) demo_world).2 in
  (Keys.SelectKey (fun s => s) (Keys.mkKM (Some "k") ∅) (keys st) "google" "" true None 6).1 = Ok "sk-secret" /\
  (Keys.SelectKey (fun s => s) (Keys.mkKM (Some "k") ∅) (keys st) "gemini" "" true None 6).1 =
    Err (EOther "no active API key for provider gemini").
Proof. vm_compute. split; reflexivity. Qed.

End Catalog.
