(* ===== verification/ABTest.v ===== *)
(** * A/B tests (internal/abtest, middleware/abtest.go, handler/admin_abtests.go,
    store/postgres/abtest_store.go)

    Experiments, the assignment of an entity to a variant by a hash, the middleware that
    overrides a request's model, the recording of results with the automatic stop, and the
    statistical comparison. [math.Exp] and the text formatting of numbers are arguments. *)

From S2P Require Import Prelude GoStrings Float64 Types Chat.
From Stdlib Require Import Floats.SpecFloat.
Local Open Scope Z_scope.

Module ABTest.

Inductive Status :=
| StatusDraft | StatusRunning | StatusPaused | StatusCompleted | StatusStopped.

#[export] Instance Status_eq_dec : EqDecision Status.
Proof. solve_decision. Defined.

Record TrafficSplit := mkSplit { Variant : string; SplitModel : string; Weight : Z }.
Record TestTarget := mkTestTarget { TeamIDs : list string; SampleRate : float64 }.

Record Experiment := mkExp {
  ExpID : string;
  ExpName : string;
  ExpStatus : Status;
  Splits : list TrafficSplit;
  ExpTarget : TestTarget;
  SuccessMetrics : list string;
  MinSamples : Z;
  ConfidenceLevel : float64;
  StartAt : option Time;
  EndAt : option Time;
  Winner : string;
  ExpCreatedAt : Time;
  ExpUpdatedAt : Time
}.

Definition IsActive (e : Experiment) (now : Time) : bool :=
  if negb (bool_decide (ExpStatus e = StatusRunning)) then false
  else if match StartAt e with Some t => time_Before now t | None => false end then false
  else if match EndAt e with Some t => time_After now t | None => false end then false
  else true.

Definition ModelForVariant (e : Experiment) (variant : string) : string :=
  match find (fun s => String.eqb (Variant s) variant) (Splits e) with
  | Some s => SplitModel s
  | None => ""
  end.

(** ** assignment.go *)

(** hash/fnv's 32-bit FNV-1a. *)
Fixpoint fnv_from (h : Z) (s : string) : Z :=
  match s with
  | EmptyString => h
  | String c s => fnv_from (Z.lxor h (Z.of_nat (Ascii.nat_of_ascii c)) * 16777619 mod 2 ^ 32) s
  end.
Definition fnv32a (s : string) : Z := fnv_from 2166136261 s.

Definition NUL : string := bytes [0]%nat.

(** The walk over the splits; [uint32] addition wraps. *)
Fixpoint pick_variant (bucket cumulative : Z) (splits : list TrafficSplit) : option string :=
  match splits with
  | [] => None
  | s :: splits =>
      let cumulative := (cumulative + Weight s) mod 2 ^ 32 in
      if bucket <? cumulative then Some (Variant s) else pick_variant bucket cumulative splits
  end.

(** Whether an entity is in the sample. *)
Definition in_sample (e : Experiment) (entityID : string) : bool :=
  if f64_lt (SampleRate (ExpTarget e)) (f64_of_Z 1) then
    let ratio := f64_div (f64_of_Z (fnv32a ("sample" +:+ NUL +:+ ExpID e +:+ NUL +:+ entityID))) (f64_of_Z (2 ^ 32)) in
    negb (f64_le (SampleRate (ExpTarget e)) ratio)
  else true.

Definition bucket_of (e : Experiment) (entityID : string) : Z := fnv32a (ExpID e +:+ NUL +:+ entityID) mod 100.

Definition Assign (e : Experiment) (entityID : string) (now : Time) : string :=
  if negb (IsActive e now) then ""
  else if negb (in_sample e entityID) then ""
  else match pick_variant (bucket_of e entityID) 0 (Splits e) with
       | Some v => v
       | None => match Splits e with s :: _ => Variant s | [] => "" end
       end.

(** ** abtest_store.go *)

Record Result := mkResult {
  TestID : string;
  ResVariant : string;
  RequestID : string;
  Timestamp : Time;
  ResModel : string;
  LatencyMs : Z;
  ResPrompt : Z;
  ResCompletion : Z;
  CostUSD : float64;
  IsError : bool;
  ResFinish : string
}.

Record VariantStats := mkStats {
  Samples : Z;
  LatencyP95Ms : float64;
  AvgLatencyMs : float64;
  AvgCostPerReq : float64;
  ErrorRate : float64;
  ErrorCount : Z
}.

(** The experiments by id, and the results in the order of insertion. *)
Record DB := mkDB { tests : gmap string Experiment; results : list Result }.

Definition store_Create (db : DB) (e : Experiment) (id : string) (now : Time) : res string Experiment * DB :=
  if bool_decide (is_Some (tests db !! id)) then (Err "unique violation", db)
  else
    let row := mkExp id (ExpName e) (ExpStatus e) (Splits e) (ExpTarget e) (SuccessMetrics e) (MinSamples e)
      (ConfidenceLevel e) (StartAt e) (EndAt e) "" now now in
    (Ok row, mkDB (<[id := row]> (tests db)) (results db)).

Definition store_Get (db : DB) (id : string) : option Experiment := tests db !! id.

Definition store_List (db : DB) : list Experiment :=
  insertionSort (fun a b => ExpCreatedAt b <? ExpCreatedAt a) (map_to_list (tests db)).*2.

Definition store_Delete (db : DB) (id : string) : res string unit * DB :=
  match tests db !! id with
  | None => (Err "not found", db)
  | Some _ => (Ok tt, mkDB (delete id (tests db)) (results db))
  end.

Definition set_status (e : Experiment) (s : Status) (winner : string) (now : Time) : Experiment :=
  mkExp (ExpID e) (ExpName e) s (Splits e) (ExpTarget e) (SuccessMetrics e) (MinSamples e)
    (ConfidenceLevel e) (StartAt e) (EndAt e) winner (ExpCreatedAt e) now.

(** An UPDATE of no row is not an error. *)
Definition store_UpdateStatus (db : DB) (id : string) (s : Status) (winner : string) (now : Time) : DB :=
  match tests db !! id with
  | None => db
  | Some e => mkDB (<[id := set_status e s winner now]> (tests db)) (results db)
  end.

(** A second result of the same request is dropped. *)
Definition store_InsertResult (db : DB) (r : Result) : DB :=
  if existsb (fun x => String.eqb (TestID x) (TestID r) && String.eqb (RequestID x) (RequestID r)) (results db)
  then db else mkDB (tests db) (results db ++ [r]).

(** ** analyzer.go *)

(** [math.Ceil] of a number that is not negative, as an integer. *)
Definition ceil (x : float64) : Z :=
  let t := f64_trunc x in if f64_lt (f64_of_Z t) x then t + 1 else t.

(** [sort.Float64s] puts NaN first. *)
Definition float_less (a b : float64) : bool :=
  f64_lt a b || f64_is_nan a && negb (f64_is_nan b).

Definition p95_index (n : Z) : Z :=
  let idx := ceil (f64_mul (f64_const 95 100) (f64_of_Z n)) - 1 in if idx <? 0 then 0 else idx.

Definition P95 (vals : list float64) : float64 :=
  match vals with
  | [] => f64_0
  | _ => nth (Z.to_nat (p95_index (Z.of_nat (length vals)))) (insertionSort float_less vals) f64_0
  end.

Definition sum_floats (l : list float64) : float64 := foldl f64_add f64_0 l.

Definition GetVariantStats (db : DB) (testID variant : string) : VariantStats :=
  let rows := List.filter (fun r => String.eqb (TestID r) testID && String.eqb (ResVariant r) variant) (results db) in
  let n := Z.of_nat (length rows) in
  let errs := Z.of_nat (length (List.filter IsError rows)) in
  let lats := map (fun r => f64_of_Z (LatencyMs r)) rows in
  if 0 <? n then
    mkStats n (P95 lats) (f64_div (sum_floats lats) (f64_of_Z n))
      (f64_div (sum_floats (map CostUSD rows)) (f64_of_Z n)) (f64_div (f64_of_Z errs) (f64_of_Z n)) errs
  else mkStats n f64_0 f64_0 f64_0 f64_0 errs.

Record VariantResult := mkVR {
  VRModel : string;
  VRSamples : Z;
  VRLatency : float64;
  VRCost : float64;
  VRError : float64
}.

Record MetricSignificance := mkSig { PValue : float64; Significant : bool; ImprovementPct : float64 }.

Record AnalysisResult := mkAnalysis {
  ATestID : string;
  AStatus : Status;
  AWinner : string;
  AResults : gmap string VariantResult;
  ASignificance : gmap string MetricSignificance;
  ARecommendation : string
}.

Definition f64_abs (x : float64) : float64 := SFabs x.
Definition f64_sqrt (x : float64) : float64 := SFsqrt 53 1024 x.
Definition f64_max (x y : float64) : float64 := if f64_lt x y then y else x.
Definition f1 : float64 := f64_of_Z 1.
Definition f100 : float64 := f64_of_Z 100.

Section Analysis.
(** [math.Exp], [math.Sqrt2] and [fmt]'s %.1f. *)
Context (Exp : float64 -> float64) (Sqrt2 : float64) (fmt1 : float64 -> string).

Definition normalTailP (z : float64) : float64 :=
  let x := f64_div z Sqrt2 in
  let t := f64_div f1 (f64_add f1 (f64_mul (f64_const 3275911 10000000) x)) in
  let c n := f64_const n 1000000000 in
  let poly := f64_mul t (f64_add (c 254829592) (f64_mul t (f64_add (c (-284496736)) (f64_mul t
    (f64_add (c 1421413741) (f64_mul t (f64_add (c (-1453152027)) (f64_mul t (c 1061405429))))))))) in
  f64_mul poly (Exp (f64_neg (f64_mul x x))).

Definition tTestImprovement (controlMean treatMean : float64) (n1 n2 : Z) : float64 * float64 :=
  if f64_eq controlMean f64_0 then (f1, f64_0)
  else
    let imp := f64_mul (f64_div (f64_sub treatMean controlMean) controlMean) f100 in
    let eps := f64_const 1 1000000000 in
    let sd1 := f64_max (f64_mul controlMean (f64_const 2 10)) eps in
    let sd2 := f64_max (f64_mul treatMean (f64_const 2 10)) eps in
    let se := f64_sqrt (f64_add (f64_div (f64_mul sd1 sd1) (f64_of_Z n1)) (f64_div (f64_mul sd2 sd2) (f64_of_Z n2))) in
    if f64_eq se f64_0 then (f1, imp)
    else (normalTailP (f64_div (f64_abs (f64_sub controlMean treatMean)) se), imp).

Definition zTestImprovement (p1 p2 : float64) (n1 n2 : Z) : float64 * float64 :=
  if f64_eq p1 f64_0 && f64_eq p2 f64_0 then (f1, f64_0)
  else if f64_eq p1 f64_0 then (f1, f64_0)
  else
    let imp := f64_mul (f64_div (f64_sub p2 p1) p1) f100 in
    let pPool := f64_div (f64_add (f64_mul p1 (f64_of_Z n1)) (f64_mul p2 (f64_of_Z n2))) (f64_of_Z (wrap64 (n1 + n2))) in
    if f64_le pPool f64_0 || f64_le f1 pPool then (f1, imp)
    else
      let se := f64_sqrt (f64_mul (f64_mul pPool (f64_sub f1 pPool))
                  (f64_add (f64_div f1 (f64_of_Z n1)) (f64_div f1 (f64_of_Z n2)))) in
      if f64_eq se f64_0 then (f1, imp)
      else (normalTailP (f64_div (f64_abs (f64_sub p1 p2)) se), imp).

Definition variant_result (stats : gmap string VariantStats) (s : TrafficSplit) : VariantResult :=
  match stats !! Variant s with
  | None => mkVR (SplitModel s) 0 f64_0 f64_0 f64_0
  | Some vs => mkVR (SplitModel s) (Samples vs) (LatencyP95Ms vs) (AvgCostPerReq vs) (ErrorRate vs)
  end.

Definition variant_results (e : Experiment) (stats : gmap string VariantStats) : gmap string VariantResult :=
  foldl (fun m s => <[Variant s := variant_result stats s]> m) ∅ (Splits e).

Definition sig_of (alpha : float64) (t : float64 * float64) : MetricSignificance :=
  mkSig t.1 (f64_lt t.1 alpha) t.2.

(** How many metrics are significant, and how many of these favour the treatment. *)
Definition count_sig (sigs : list MetricSignificance) : Z * Z :=
  foldl (fun '(s, b) g =>
    if Significant g then (s + 1, if f64_lt (ImprovementPct g) f64_0 then b + 1 else b) else (s, b)) (0, 0) sigs.

Definition pct_diff (c t : float64) : float64 :=
  if f64_eq c f64_0 then f64_0 else f64_mul (f64_div (f64_sub c t) c) f100.

Definition Analyze (e : Experiment) (stats : gmap string VariantStats) : AnalysisResult :=
  let rs := variant_results e stats in
  let res0 := mkAnalysis (ExpID e) (ExpStatus e) (Winner e) rs ∅ "" in
  match Splits e with
  | sc :: st :: _ =>
      match stats !! Variant sc, stats !! Variant st with
      | Some control, Some treat =>
          if (Samples control <? 30) || (Samples treat <? 30) then res0
          else
          let alpha := f64_sub f1 (ConfidenceLevel e) in
          let n1 := Samples control in let n2 := Samples treat in
          let lat := sig_of alpha (tTestImprovement (AvgLatencyMs control) (AvgLatencyMs treat) n1 n2) in
          let cost := sig_of alpha (tTestImprovement (AvgCostPerReq control) (AvgCostPerReq treat) n1 n2) in
          let err := sig_of alpha (zTestImprovement (ErrorRate control) (ErrorRate treat) n1 n2) in
          let sigs := <["error_rate" := err]> (<["cost" := cost]> {["latency" := lat]}) in
          let '(sigCount, treatBetter) := count_sig [lat; cost; err] in
          let t := default (mkVR "" 0 f64_0 f64_0 f64_0) (rs !! Variant st) in
          let c := default (mkVR "" 0 f64_0 f64_0 f64_0) (rs !! Variant sc) in
          if (0 <? sigCount) && (treatBetter =? sigCount) then
            mkAnalysis (ExpID e) (ExpStatus e) (Variant st) rs sigs
              ("Switch to " +:+ Variant st +:+ " (" +:+ VRModel t +:+ "): " +:+ fmt1 (pct_diff (VRCost c) (VRCost t))
               +:+ "% cost reduction, " +:+ fmt1 (pct_diff (VRLatency c) (VRLatency t))
               +:+ "% latency improvement, statistically significant.")
          else if (0 <? sigCount) && (treatBetter =? 0) then
            mkAnalysis (ExpID e) (ExpStatus e) (Variant sc) rs sigs
              ("Keep " +:+ Variant sc +:+ " (" +:+ VRModel c +:+ "): treatment showed no significant improvement.")
          else mkAnalysis (ExpID e) (ExpStatus e) (Winner e) rs sigs ""
      | _, _ => res0
      end
  | _ => res0
  end.

End Analysis.

(** ** middleware/abtest.go *)

Record MwState := mkMw { db : DB; loaded : list Experiment }.

Definition Reload (st : MwState) (list_ok : bool) : MwState :=
  if negb list_ok then st
  else mkMw (db st) (List.filter (fun e => bool_decide (ExpStatus e = StatusRunning)) (store_List (db st))).

(** A request as the middleware sees it; [rbody] is [None] when reading it fails. *)
Record call := mkCall {
  path : string;
  method : string;
  rbody : option string;
  authorization : string;
  remoteAddr : string
}.

Definition bodyLimit : nat := Z.to_nat (10 * 2 ^ 20).

(** What goes to the next handler: the request as it came, a body that could not be read, a
    body put back, or the body rewritten for an assignment. *)
Inductive forwarded :=
| FUntouched
| FUnreadable
| FBody (b : string)
| FAssigned (b : string) (e : Experiment) (variant : string) (model : string).

Definition first_assigned (es : list Experiment) (entityID : string) (now : Time) : option (Experiment * string) :=
  match find (fun e => negb (String.eqb (Assign e entityID now) "")) es with
  | Some e => Some (e, Assign e entityID now)
  | None => None
  end.

Definition set_model (m : string) (r : ChatCompletionRequest) : ChatCompletionRequest :=
  mkRequest m (Messages r) (Temperature r) (MaxTokens r) (TopP r) (ReqN r) (Stream r) (ReqStreamOptions r)
    (Stop r) (PresencePenalty r) (FrequencyPenalty r) (User r) (Tools r) (Metadata r) (PromptSlug r)
    (PromptVariables r).

Section Middleware.
(** encoding/json on the request type. *)
Context (unmarshal : string -> option ChatCompletionRequest) (marshal : ChatCompletionRequest -> option string).

Definition Handler (st : MwState) (c : call) (now : Time) : forwarded :=
  if negb (HasSuffix (path c) "/chat/completions") || negb (String.eqb (method c) "POST") then FUntouched
  else match loaded st with
  | [] => FUntouched
  | es =>
      match rbody c with
      | None => FUnreadable
      | Some full =>
          let body := take_str bodyLimit full in
          match unmarshal body with
          | None => FBody body
          | Some req =>
              let entityID := if String.eqb (authorization c) "" then remoteAddr c else authorization c in
              match first_assigned es entityID now with
              | None => FBody body
              | Some (e, variant) =>
                  let vm := ModelForVariant e variant in
                  let req := if negb (String.eqb vm "") then set_model vm req else req in
                  match marshal req with
                  | None => FBody body
                  | Some b => FAssigned b e variant (Model req)
                  end
              end
          end
      end
  end.

End Middleware.

Definition result_of (lc : option Telemetry.RequestLogContext) (e : Experiment) (variant model : string)
    (start now : Time) (requestID : string) : Result :=
  let latency := Z.quot (time_Sub now start) Millisecond in
  match lc with
  | Some l => mkResult (ExpID e) variant requestID start model latency (Telemetry.LPromptTokens l)
      (Telemetry.LCompletionTokens l) (Telemetry.LCostUSD l) (negb (String.eqb (Telemetry.LErrorCode l) ""))
      (Telemetry.LFinishReason l)
  | None => mkResult (ExpID e) variant requestID start model latency 0 0 f64_0 false ""
  end.

(** Which database calls of a recording succeed. *)
Record faults := mkFaults { insert_ok : bool; stats_ok : bool; update_ok : bool; list_ok : bool }.

Definition checkAutoStop (st : MwState) (e : Experiment) (variant : string) (f : faults) (now : Time) : MwState :=
  if negb (stats_ok f) then st
  else
    let stats := GetVariantStats (db st) (ExpID e) variant in
    if Samples stats <? 100 then st
    else if f64_lt (f64_const 20 100) (ErrorRate stats) then
      let db' := if update_ok f then store_UpdateStatus (db st) (ExpID e) StatusStopped "" now else db st in
      Reload (mkMw db' (loaded st)) (list_ok f)
    else st.

Definition recordResult (st : MwState) (lc : option Telemetry.RequestLogContext) (e : Experiment)
    (variant model : string) (start now : Time) (requestID : string) (f : faults) : MwState :=
  let r := result_of lc e variant model start now requestID in
  let db' := if insert_ok f then store_InsertResult (db st) r else db st in
  checkAutoStop (mkMw db' (loaded st)) e variant f now.

(** ** admin_abtests.go *)

Record createBody := mkBody {
  BName : string;
  BSplits : list TrafficSplit;
  BTarget : TestTarget;
  BMetrics : list string;
  BMinSamples : Z;
  BConfidence : float64;
  BStartAt : option Time;
  BEndAt : option Time
}.

Inductive response :=
| RError (status : Z) (msg typ : string)
| RExperiment (status : Z) (e : Experiment)
| RExperiments (es : list Experiment)
| RAnalysis (a : AnalysisResult)
| RStatus (s : Status) (winner : string)
| RNoContent.

Definition new_experiment (b : createBody) : Experiment :=
  mkExp "" (BName b) StatusDraft (BSplits b)
    (mkTestTarget (TeamIDs (BTarget b))
       (if f64_le (SampleRate (BTarget b)) f64_0 then f1 else SampleRate (BTarget b)))
    (BMetrics b) (if BMinSamples b <=? 0 then 1000 else BMinSamples b)
    (if f64_le (BConfidence b) f64_0 then f64_const 95 100 else BConfidence b)
    (BStartAt b) (BEndAt b) "" 0 0.

(** [Err] is the decoder's message. *)
Definition admin_Create (st : MwState) (body : res string createBody) (ok : bool) (id : string) (now : Time)
  : response * MwState :=
  match body with
  | Err m => (RError 400 ("invalid JSON: " +:+ m) "invalid_request_error", st)
  | Ok b =>
      if String.eqb (BName b) "" || (Z.of_nat (length (BSplits b)) <? 2)
      then (RError 400 "name and at least 2 traffic_split entries are required" "invalid_request_error", st)
      else if negb ok then (RError 500 "database" "api_error", st)
      else match store_Create (db st) (new_experiment b) id now with
           | (Err m, _) => (RError 500 m "api_error", st)
           | (Ok e, d) => (RExperiment 201 e, mkMw d (loaded st))
           end
  end.

Definition admin_List (st : MwState) (ok : bool) : response :=
  if negb ok then RError 500 "database" "api_error" else RExperiments (store_List (db st)).

Definition admin_Get (st : MwState) (id : string) (ok : bool) : response :=
  match (if ok then store_Get (db st) id else None) with
  | None => RError 404 "experiment not found" "api_error"
  | Some e => RExperiment 200 e
  end.

Definition admin_Results (Exp : float64 -> float64) (Sqrt2 : float64) (fmt1 : float64 -> string)
    (st : MwState) (id : string) (ok : bool) (stat_ok : string -> bool) : response :=
  match (if ok then store_Get (db st) id else None) with
  | None => RError 404 "experiment not found" "api_error"
  | Some e =>
      let stats := foldl (fun m s => if stat_ok (Variant s)
                                     then <[Variant s := GetVariantStats (db st) id (Variant s)]> m else m)
                     ∅ (Splits e) in
      RAnalysis (Analyze Exp Sqrt2 fmt1 e stats)
  end.

Definition transition (st : MwState) (id : string) (s : Status) (ok reload_ok : bool) (now : Time)
  : response * MwState :=
  if negb ok then (RError 500 "database" "api_error", st)
  else (RStatus s "", Reload (mkMw (store_UpdateStatus (db st) id s "" now) (loaded st)) reload_ok).

Definition admin_Pause (st : MwState) (id : string) := transition st id StatusPaused.
Definition admin_Stop (st : MwState) (id : string) := transition st id StatusStopped.
Definition admin_Start (st : MwState) (id : string) := transition st id StatusRunning.

Definition admin_Promote (st : MwState) (id : string) (winner : option string) (ok reload_ok : bool) (now : Time)
  : response * MwState :=
  match winner with
  | None | Some "" => (RError 400 "winner variant is required" "invalid_request_error", st)
  | Some v =>
      if negb ok then (RError 500 "database" "api_error", st)
      else (RStatus StatusCompleted v,
            Reload (mkMw (store_UpdateStatus (db st) id StatusCompleted v now) (loaded st)) reload_ok)
  end.

Definition admin_Delete (st : MwState) (id : string) (ok reload_ok : bool) : response * MwState :=
  if negb ok then (RError 500 "database" "api_error", st)
  else match store_Delete (db st) id with
       | (Err _, _) => (RError 404 "experiment not found" "not_found", st)
       | (Ok _, d) => (RNoContent, Reload (mkMw d (loaded st)) reload_ok)
       end.

(** ** Theorems *)

(** *** Assignment *)

Definition total_weight (ss : list TrafficSplit) : Z := foldr (fun s n => Weight s + n) 0 ss.

(** The weight given to a variant. *)
Definition weight_of (v : string) (ss : list TrafficSplit) : Z :=
  total_weight (List.filter (fun s => String.eqb (Variant s) v) ss).

Definition picks (v : string) (cum : Z) (ss : list TrafficSplit) (b : Z) : bool :=
  match pick_variant b cum ss with Some x => String.eqb x v | None => false end.

Definition weights_ok (ss : list TrafficSplit) : Prop := Forall (fun s => 0 <= Weight s) ss.

Lemma total_weight_nonneg ss : weights_ok ss -> 0 <= total_weight ss.
Proof. induction 1; simpl in *; lia. Qed.

Lemma count_const {A} (P : A -> bool) l (b : bool) :
  (forall x, x ∈ l -> P x = b) -> length (List.filter P l) = if b then length l else O.
Proof.
  induction l as [|x l IH]; intros H; [by destruct b|]. simpl. rewrite (H x) by left.
  assert (forall y, y ∈ l -> P y = b) as H' by (intros y Hy; apply H; by right).
  destruct b; simpl; rewrite IH; done.
Qed.

Lemma filter_ext_elem {A} (P Q : A -> bool) l :
  (forall x, x ∈ l -> P x = Q x) -> List.filter P l = List.filter Q l.
Proof.
  induction l as [|x l IH]; intros H; [done|]. simpl. rewrite (H x) by left.
  rewrite IH; [done|]. intros y Hy. apply H. by right.
Qed.

(** A variant is given as many buckets as its weight. *)
Lemma picks_count v ss cum :
  weights_ok ss -> 0 <= cum -> cum + total_weight ss < 2 ^ 32 ->
  Z.of_nat (length (List.filter (picks v cum ss) (seqZ cum (total_weight ss)))) = weight_of v ss.
Proof.
  intros W. revert cum. induction W as [|s ss Ws W IH]; intros cum C B; [done|].
  pose proof (total_weight_nonneg ss W) as N. simpl total_weight in *.
  rewrite seqZ_app by lia. rewrite List.filter_app, length_app, Nat2Z.inj_add.
  assert ((cum + Weight s) mod 2 ^ 32 = cum + Weight s) as M by (apply Z.mod_small; lia).
  rewrite (count_const _ (seqZ cum (Weight s)) (String.eqb (Variant s) v)).
  - rewrite (filter_ext_elem _ (picks v (cum + Weight s) ss)).
    + rewrite IH by lia. unfold weight_of. simpl. destruct (String.eqb (Variant s) v); simpl;
        rewrite ?length_seqZ; lia.
    + intros b Hb. apply elem_of_seqZ in Hb. unfold picks. cbn [pick_variant]. rewrite M.
      by replace (b <? cum + Weight s) with false by (symmetry; apply Z.ltb_ge; lia).
  - intros b Hb. apply elem_of_seqZ in Hb. unfold picks. cbn [pick_variant]. rewrite M.
    by replace (b <? cum + Weight s) with true by (symmetry; apply Z.ltb_lt; lia).
Qed.

Lemma fnv_range s : 0 <= fnv32a s < 2 ^ 32.
Proof.
  unfold fnv32a. assert (0 <= 2166136261 < 2 ^ 32) as H by lia. revert H. generalize 2166136261.
  induction s as [|c s IH]; intros h H; [done|]. cbn [fnv_from]. apply IH, Z.mod_pos_bound. lia.
Qed.

Lemma picks_some ss cum b :
  weights_ok ss -> 0 <= cum -> cum + total_weight ss < 2 ^ 32 -> cum <= b < cum + total_weight ss ->
  pick_variant b cum ss <> None.
Proof.
  intros W. revert cum. induction W as [|s ss Ws W IH]; intros cum C B R; [simpl in R; lia|].
  simpl in B, R. cbn [pick_variant]. rewrite Z.mod_small by (pose proof (total_weight_nonneg ss W); lia).
  destruct (Z.ltb_spec b (cum + Weight s)); [done|]. apply IH; lia.
Qed.

(** Traffic is split as configured: in a running experiment on all traffic whose weights
    add up to 100, an entity's variant depends only on its bucket between 0 and 99, the same at
    any time the experiment is active, and each variant owns exactly as many of the hundred
    buckets as its weight. *)
Theorem assignment_share e now :
  IsActive e now = true -> f64_lt (SampleRate (ExpTarget e)) f1 = false ->
  weights_ok (Splits e) -> total_weight (Splits e) = 100 ->
  (forall id, 0 <= bucket_of e id < 100 /\
     Some (Assign e id now) = pick_variant (bucket_of e id) 0 (Splits e)) /\
  (forall v, Z.of_nat (length (List.filter (picks v 0 (Splits e)) (seqZ 0 100))) = weight_of v (Splits e)).
Proof.
  intros A S W T. split.
  - intros id. assert (0 <= bucket_of e id < 100) as B by (apply Z.mod_pos_bound; lia). split; [done|].
    unfold Assign, in_sample. rewrite A. fold f1. rewrite S. cbn [negb].
    destruct (pick_variant (bucket_of e id) 0 (Splits e)) eqn:P; [done|].
    exfalso. revert P. apply picks_some; rewrite ?T; try done; lia.
  - intros v. rewrite <- T. apply picks_count; rewrite ?T; try done; lia.
Qed.

Definition demo_exp (st : Status) (rate : float64) : Experiment :=
  mkExp "x" "x" st [mkSplit "control" "gpt-4o" 70; mkSplit "treat" "mistral" 30] (mkTestTarget [] rate) [] 1000
    (f64_const 95 100) None None "" 0 0.

Lemma assignment_share_witness :
  Z.of_nat (length (List.filter (picks "treat" 0 (Splits (demo_exp StatusRunning f1))) (seqZ 0 100))) = 30.
Proof.
  destruct (assignment_share (demo_exp StatusRunning f1) 5 eq_refl eq_refl) as [_ H].
  - repeat constructor; simpl; lia.
  - reflexivity.
  - exact (H "treat").
Defined.

(** *** The middleware *)

(** What the middleware may do to a request: leave its body alone, or, for an experiment that
    is loaded and active and assigns the caller, replace its model by the variant's. *)
Lemma Handler_spec un mar st c now :
  match Handler un mar st c now with
  | FUntouched => True
  | FUnreadable => rbody c = None
  | FBody b => exists full, rbody c = Some full /\ b = take_str bodyLimit full
  | FAssigned b e v m => exists full req,
      rbody c = Some full /\ un (take_str bodyLimit full) = Some req /\ e ∈ loaded st /\
      IsActive e now = true /\ v <> "" /\
      v = Assign e (if String.eqb (authorization c) "" then remoteAddr c else authorization c) now /\
      m = (if String.eqb (ModelForVariant e v) "" then Model req else ModelForVariant e v) /\
      mar (set_model m req) = Some b
  end.
Proof.
  unfold Handler. destruct (_ || _); [done|]. destruct (loaded st) as [|e0 es] eqn:L; [done|].
  destruct (rbody c) as [full|]; [|done]. destruct (un _) as [req|] eqn:U; [|by exists full].
  unfold first_assigned. destruct (find _ _) as [e|] eqn:F; [|by exists full].
  apply find_some in F as [I A].
  set (v := Assign e _ now) in *. cbv zeta.
  assert (IsActive e now = true) as Ac.
  { unfold v, Assign in A. by destruct (IsActive e now). }
  assert (forall m r, Model (set_model m r) = m) as SM by done.
  destruct (String.eqb (ModelForVariant e v) "") eqn:E; cbn [negb].
  - destruct (mar req) as [b|] eqn:M; [|by exists full]. exists full, req.
    rewrite E. split_and!; try done.
    + by apply list_elem_of_In.
    + apply negb_true_iff, String.eqb_neq in A. done.
    + destruct req. done.
  - destruct (mar _) as [b|] eqn:M; [|by exists full]. exists full, req. rewrite SM, E. split_and!; try done.
    + by apply list_elem_of_In.
    + apply negb_true_iff, String.eqb_neq in A. done.
Qed.

(** A paused, stopped, completed or draft experiment no longer affects requests once the
    middleware has reloaded. *)
Lemma Reload_running st e : e ∈ loaded (Reload st true) -> ExpStatus e = StatusRunning.
Proof.
  unfold Reload. simpl. rewrite list_elem_of_In, filter_In. intros [_ H]. by apply bool_decide_eq_true in H.
Qed.

(** *** Results *)

(** One result per request of an experiment. *)
Definition unique_results (rs : list Result) : Prop :=
  NoDup (map (fun r => (TestID r, RequestID r)) rs).

Lemma InsertResult_unique d r :
  unique_results (results d) -> unique_results (results (store_InsertResult d r)).
Proof.
  unfold store_InsertResult, unique_results. destruct (existsb _ _) eqn:E; [done|]. simpl.
  intros N. rewrite map_app. apply NoDup_app. split; [done|]. split; [|apply NoDup_singleton].
  intros [t q] H I. simpl in I. apply list_elem_of_singleton in I. injection I as -> ->.
  apply list_elem_of_fmap in H as (x & Ex & Hx). apply not_true_iff_false in E. apply E, existsb_exists.
  exists x. split; [by apply list_elem_of_In|]. injection Ex as <- <-. by rewrite !String.eqb_refl.
Qed.

(** An experiment is stopped as soon as a variant with a hundred samples fails too often. *)
Lemma autostop_stops st lc e v m start now rq row :
  tests (db st) !! ExpID e = Some row ->
  let st1 := mkMw (store_InsertResult (db st) (result_of lc e v m start now rq)) (loaded st) in
  let stats := GetVariantStats (db st1) (ExpID e) v in
  100 <= Samples stats -> f64_lt (f64_const 20 100) (ErrorRate stats) = true ->
  let st' := recordResult st lc e v m start now rq (mkFaults true true true true) in
  tests (db st') !! ExpID e = Some (set_status row StatusStopped "" now) /\
  forall x, x ∈ loaded st' -> ExpStatus x = StatusRunning.
Proof.
  intros E st1 stats S R. cbv zeta. unfold recordResult, checkAutoStop.
  cbn [insert_ok stats_ok update_ok list_ok negb]. fold st1. fold stats.
  replace (Samples stats <? 100) with false by (symmetry; apply Z.ltb_ge; lia). rewrite R. split.
  - unfold Reload. cbn [negb db]. unfold store_UpdateStatus.
    replace (tests (db st1) !! ExpID e) with (Some row).
    + cbn. by rewrite lookup_insert_eq.
    + unfold st1. cbn [db]. unfold store_InsertResult. by destruct (existsb _ _).
  - intros x Hx. by eapply Reload_running.
Qed.

(** *** Analysis *)

(** A metric on which the treatment is lower. *)
Definition favours (g : MetricSignificance) : bool := f64_lt (ImprovementPct g) f64_0.

Lemma count_sig_bounds sigs :
  let '(s, b) := count_sig sigs in
  0 <= b <= s /\ s = Z.of_nat (length (List.filter Significant sigs)) /\
  b = Z.of_nat (length (List.filter (fun g => Significant g && favours g) sigs)).
Proof.
  unfold count_sig.
  enough (forall s b, 0 <= b <= s -> let '(s', b') := foldl (fun '(s, b) g =>
    if Significant g then (s + 1, if f64_lt (ImprovementPct g) f64_0 then b + 1 else b) else (s, b)) (s, b) sigs in
    0 <= b' <= s' /\ s' = s + Z.of_nat (length (List.filter Significant sigs)) /\
    b' = b + Z.of_nat (length (List.filter (fun g => Significant g && favours g) sigs))) as G
    by (apply (G 0 0); lia).
  induction sigs as [|g sigs IH]; intros s b H; cbn [foldl List.filter]; [simpl; lia|].
  destruct (Significant g); cbn [andb].
  - fold (favours g). destruct (favours g).
    + specialize (IH (s + 1) (b + 1) ltac:(lia)). destruct (foldl _ _ sigs). simpl length in *. lia.
    + specialize (IH (s + 1) b ltac:(lia)). destruct (foldl _ _ sigs). simpl length in *. lia.
  - exact (IH s b H).
Qed.

Lemma count_sig_all sigs s : count_sig sigs = (s, s) ->
  Forall (fun g => Significant g = true -> favours g = true) sigs.
Proof.
  intros E. pose proof (count_sig_bounds sigs) as H. rewrite E in H. destruct H as (_ & H1 & H2).
  rewrite H1 in H2. apply Nat2Z.inj in H2. clear E H1 s.
  induction sigs as [|g sigs IH]; [constructor|]. simpl in H2.
  assert (length (List.filter (fun g => Significant g && favours g) sigs) <= length (List.filter Significant sigs))%nat as L.
  { clear. induction sigs as [|g sigs IH]; simpl; [done|].
    destruct (Significant g), (favours g); simpl; lia. }
  destruct (Significant g) eqn:S; cbn [andb] in H2.
  - destruct (favours g) eqn:F; simpl in H2; [|lia].
    constructor; [by intros _|]. apply IH. lia.
  - constructor; [by rewrite S|]. apply IH. lia.
Qed.

Lemma count_sig_none sigs s : count_sig sigs = (s, 0) ->
  Forall (fun g => Significant g = true -> favours g = false) sigs.
Proof.
  intros E. pose proof (count_sig_bounds sigs) as H. rewrite E in H. destruct H as (_ & _ & H2).
  assert (List.filter (fun g => Significant g && favours g) sigs = []) as F
    by (apply length_zero_iff_nil; lia).
  apply Forall_forall. intros g I S. destruct (favours g) eqn:Fg; [|done].
  assert (In g []) as []. rewrite <- F. apply filter_In. split; [by apply list_elem_of_In|]. by rewrite S.
Qed.

(** The analysis proposes the treatment only when every significant metric favours it, and
    the control only when none does; in every other case, too few samples included, the winner
    recorded by the administrator stands and nothing is recommended. *)
Theorem Analyze_winner Exp Sqrt2 fmt1 e stats sc st ss :
  Splits e = sc :: st :: ss ->
  let a := Analyze Exp Sqrt2 fmt1 e stats in
  (AWinner a = Winner e /\ ARecommendation a = "") \/
  (AWinner a = Variant st /\ ASignificance a <> ∅ /\
   map_Forall (fun _ g => Significant g = true -> favours g = true) (ASignificance a)) \/
  (AWinner a = Variant sc /\ ASignificance a <> ∅ /\
   map_Forall (fun _ g => Significant g = true -> favours g = false) (ASignificance a)).
Proof.
  intros E. cbv zeta. unfold Analyze. rewrite E.
  destruct (stats !! Variant sc) as [c|]; [|by left]. destruct (stats !! Variant st) as [t|]; [|by left].
  destruct (_ || _); [by left|].
  match goal with |- context [count_sig [?l; ?c; ?r]] => generalize l, c, r end. intros lat cost err.
  assert (forall P : MetricSignificance -> Prop, Forall P [lat; cost; err] ->
    map_Forall (fun _ g => P g)
      (<["error_rate" := err]> (<["cost" := cost]> {["latency" := lat]}) : gmap string MetricSignificance)) as MF.
  { intros P F. inversion F as [|? ? P1 F1]; inversion F1 as [|? ? P2 F2]; inversion F2; subst.
    intros k g. rewrite !lookup_insert_Some, lookup_singleton_Some. naive_solver. }
  assert (<["error_rate" := err]> (<["cost" := cost]> {["latency" := lat]}) <> (∅ : gmap string MetricSignificance)) as NE
    by apply insert_non_empty.
  destruct (count_sig [lat; cost; err]) as [n b] eqn:C.
  destruct ((0 <? n) && (b =? n)) eqn:B1.
  { right. left. breflect. subst b. split_and!; [done|exact NE|]. apply (MF _ (count_sig_all _ _ C)). }
  destruct ((0 <? n) && (b =? 0)) eqn:B2; [|by left].
  right. right. breflect. subst b. split_and!; [done|exact NE|]. apply (MF _ (count_sig_none _ _ C)).
Qed.

Lemma Analyze_winner_witness :
  AWinner (Analyze (fun x => x) f1 (fun _ => "") (demo_exp StatusRunning f1) ∅) = "".
Proof.
  destruct (Analyze_winner (fun x => x) f1 (fun _ => "") (demo_exp StatusRunning f1) ∅ _ _ _ eq_refl)
    as [[E _]|[[_ [N _]]|[_ [N _]]]]; [exact E|by destruct N|by destruct N].
Defined.

(** [min_samples] plays no part in the analysis: thirty samples are enough whatever it is. *)
Lemma Analyze_ignores_min_samples Exp Sqrt2 fmt1 e stats n :
  Analyze Exp Sqrt2 fmt1
    (mkExp (ExpID e) (ExpName e) (ExpStatus e) (Splits e) (ExpTarget e) (SuccessMetrics e) n
       (ConfidenceLevel e) (StartAt e) (EndAt e) (Winner e) (ExpCreatedAt e) (ExpUpdatedAt e)) stats =
  Analyze Exp Sqrt2 fmt1 e stats.
Proof. reflexivity. Qed.

(** [team_ids] plays no part in the assignment. *)
Lemma Assign_ignores_teams e ids id now :
  Assign (mkExp (ExpID e) (ExpName e) (ExpStatus e) (Splits e) (mkTestTarget ids (SampleRate (ExpTarget e)))
     (SuccessMetrics e) (MinSamples e) (ConfidenceLevel e) (StartAt e) (EndAt e) (Winner e) (ExpCreatedAt e)
     (ExpUpdatedAt e)) id now = Assign e id now.
Proof. reflexivity. Qed.

(** A completed experiment can be started again, which erases its winner. *)
Example completed_restarted :
  let st := mkMw (mkDB {["x" := set_status (demo_exp StatusRunning f1) StatusCompleted "treat" 5]} []) [] in
  let '(resp, st) := admin_Start st "x" true true 6 in
  resp = RStatus StatusRunning "" /\
  (fun e => (ExpStatus e, Winner e)) <$> tests (db st) !! "x" = Some (StatusRunning, "").
Proof. vm_compute. split; reflexivity. Qed.

End ABTest.
