(* ===== verification/Health.v ===== *)
(** * Health checks (internal/health, handler/health.go)

    The sliding window of provider outcomes with the status it gives, the cached dependency
    check, and the health endpoints. The checker hands out the very object it caches when it
    has just built it, and a copy afterwards: the model keeps the cached object as a cell and
    says which of the two a caller got. *)

From S2P Require Import Prelude Float64 Fallback.
Local Open Scope Z_scope.

Module Health.

(** ** provider_health.go *)

Definition slidingWindow : Duration := Minute.

Record providerEntry := mkEntry { ts : Time; success : bool }.

Abbreviation Tracker := (gmap string (list providerEntry)).

Definition NewProviderTracker : Tracker := ∅.

(** The prefix of old entries goes. *)
Fixpoint drop_old (cutoff : Time) (es : list providerEntry) : list providerEntry :=
  match es with
  | [] => []
  | e :: es' => if time_Before (ts e) cutoff then drop_old cutoff es' else es
  end.

Definition entries_of (t : Tracker) (p : string) : list providerEntry := default [] (t !! p).

Definition prune (t : Tracker) (p : string) (now : Time) : Tracker :=
  <[p := drop_old (time_Add now (- slidingWindow)) (entries_of t p)]> t.

Definition Record_ (t : Tracker) (p : string) (ok : bool) (now : Time) : Tracker :=
  prune (<[p := entries_of t p ++ [mkEntry now ok]]> t) p now.

Definition failures (es : list providerEntry) : Z := Z.of_nat (length (List.filter (fun e => negb (success e)) es)).

Definition rate (es : list providerEntry) : float64 :=
  match es with
  | [] => f64_0
  | _ => f64_div (f64_of_Z (failures es)) (f64_of_Z (Z.of_nat (length es)))
  end.

Definition ErrorRate (t : Tracker) (p : string) (now : Time) : float64 * Tracker :=
  let t := prune t p now in (rate (entries_of t p), t).

Definition status_of (r : float64) : string :=
  if f64_le (f64_const 5 10) r then "unhealthy"
  else if f64_le (f64_const 1 10) r then "degraded"
  else "ok".

Definition Status (t : Tracker) (p : string) (now : Time) : string * Tracker :=
  let '(r, t) := ErrorRate t p now in (status_of r, t).

(** ** checker.go *)

Record CheckResult := mkCheck { CStatus : string; LatencyMs : Z; CError : string }.

Record OverallStatus := mkOverall {
  OStatus : string;
  Version : string;
  UptimeSeconds : Z;
  OTimestamp : Time;
  Checks : gmap string CheckResult
}.

Record Checker := mkChecker {
  startedAt : Time;
  version : string;
  cached : option OverallStatus;
  cachedAt : Time
}.

Definition cacheTTL : Duration := 5 * Second.

(** One ping: its error if it failed, and how long it took. *)
Record ping := mkPing { ping_err : option string; ping_took : Duration }.

Definition check_dep (p : ping) : CheckResult :=
  let ms := Z.quot (ping_took p) Millisecond in
  match ping_err p with
  | Some m => mkCheck "unhealthy" ms m
  | None => mkCheck "ok" ms ""
  end.

Definition runDepsParallel (db redis : ping) : gmap string CheckResult :=
  <["redis" := check_dep redis]> {["database" := check_dep db]}.

Definition all_ok (cs : gmap string CheckResult) : bool :=
  forallb (fun kv => String.eqb (CStatus kv.2) "ok") (map_to_list cs).

Definition runChecks (c : Checker) (db redis : ping) (now : Time) : OverallStatus :=
  let checks := runDepsParallel db redis in
  mkOverall (if all_ok checks then "ok" else "unhealthy") (version c)
    (f64_to_int64 (f64_div (f64_of_Z (time_Sub now (startedAt c))) (f64_of_Z Second))) now checks.

(** What [Check] returned: the cached object itself, or a copy of it. *)
Inductive handle := Shared (s : OverallStatus) | Copy (s : OverallStatus).
Definition content (h : handle) : OverallStatus := match h with Shared s | Copy s => s end.

Definition Check (c : Checker) (db redis : ping) (now : Time) : handle * Checker :=
  match cached c with
  | Some s =>
      if time_Sub now (cachedAt c) <? cacheTTL then (Copy s, c)
      else let s := runChecks c db redis now in (Shared s, mkChecker (startedAt c) (version c) (Some s) now)
  | None => let s := runChecks c db redis now in (Shared s, mkChecker (startedAt c) (version c) (Some s) now)
  end.

(** Assigning to the status of what [Check] returned. *)
Definition assign_status (h : handle) (st : string) (c : Checker) : OverallStatus * Checker :=
  let s := content h in
  let s' := mkOverall st (Version s) (UptimeSeconds s) (OTimestamp s) (Checks s) in
  match h with
  | Shared _ => (s', mkChecker (startedAt c) (version c) (Some s') (cachedAt c))
  | Copy _ => (s', c)
  end.

(** ** handler/health.go *)

(** The status and error rate of every registered provider. *)
Fixpoint buildProviderStatus (names : list string) (t : Tracker) (now : Time)
  : list (string * (string * float64)) * Tracker :=
  match names with
  | [] => ([], t)
  | n :: names =>
      let '(s, t) := Status t n now in
      let '(r, t) := ErrorRate t n now in
      let '(rest, t) := buildProviderStatus names t now in
      ((n, (s, r)) :: rest, t)
  end.

(** The loop over the providers: any unhealthy or degraded one degrades the whole. *)
Definition any_trouble (ps : list (string * (string * float64))) : bool :=
  existsb (fun p => String.eqb p.2.1 "unhealthy" || String.eqb p.2.1 "degraded") ps.

Definition httpStatusForHealth (status : string) : Z := if String.eqb status "unhealthy" then 503 else 200.

Definition Ready (db redis : ping) : Z * string * list (string * string) :=
  let checks := runDepsParallel db redis in
  let deps := map (fun kv => (kv.1, CStatus kv.2)) (map_to_list checks) in
  if all_ok checks then (200, "ready", deps) else (503, "not_ready", deps).

(** The answer of [Full]: the HTTP status, the overall status, and the providers; and the
    gauge of each provider. *)
Definition Full (c : Checker) (t : Tracker) (names : list string) (db redis : ping) (now : Time)
  : (Z * OverallStatus * list (string * (string * float64))) * Checker * Tracker :=
  let '(h, c) := Check c db redis now in
  let '(ps, t) := buildProviderStatus names t now in
  let '(result, c) :=
    if String.eqb (OStatus (content h)) "ok" && any_trouble ps then assign_status h "degraded" c
    else (content h, c) in
  ((httpStatusForHealth (OStatus result), result, ps), c, t).

Definition gauges (ps : list (string * (string * float64))) : list (string * float64) :=
  map (fun p => (p.1, if String.eqb p.2.1 "ok" then f64_of_Z 1 else f64_0)) ps.

(** ** The tracker refines a log of outcomes *)

(** The outcomes recorded, in order. *)
Record outcome := mkOutcome { o_provider : string; o_ok : bool; o_time : Time }.

Definition run (log : list outcome) : Tracker :=
  foldl (fun t o => Record_ t (o_provider o) (o_ok o) (o_time o)) NewProviderTracker log.

(** The specification: a provider's outcomes of the last minute before [now]. *)
Definition recent (log : list outcome) (p : string) (now : Time) : list providerEntry :=
  map (fun o => mkEntry (o_time o) (o_ok o))
    (List.filter (fun o => String.eqb (o_provider o) p && negb (time_Before (o_time o) (now - slidingWindow))) log).

(** Times do not decrease along the log. *)
Definition clocked (log : list outcome) : Prop := StronglySorted (fun a b => o_time a <= o_time b) log.

Lemma drop_old_filter cutoff es :
  StronglySorted (fun a b => ts a <= ts b) es ->
  drop_old cutoff es = List.filter (fun e => negb (time_Before (ts e) cutoff)) es.
Proof.
  induction 1 as [|e es S IH F]; simpl; [done|]. unfold time_Before in *.
  destruct (Z.ltb_spec (ts e) cutoff); simpl; [exact IH|]. f_equal. symmetry.
  apply forallb_filter_id, forallb_forall. intros x Hx. apply list_elem_of_In in Hx.
  rewrite Forall_forall in F. specialize (F x Hx).
  destruct (Z.ltb_spec (ts x) cutoff); [lia|done].
Qed.

Lemma map_filter_comm {A B} (f : A -> B) (P : B -> bool) l :
  List.filter P (map f l) = map f (List.filter (fun x => P (f x)) l).
Proof. induction l as [|x l IH]; simpl; [done|]. rewrite IH. by destruct (P (f x)). Qed.

Lemma filter_filter {A} (P Q : A -> bool) l :
  List.filter P (List.filter Q l) = List.filter (fun x => Q x && P x) l.
Proof.
  induction l as [|x l IH]; simpl; [done|]. destruct (Q x); simpl; [|exact IH].
  destruct (P x); simpl; by rewrite IH.
Qed.

Lemma SS_map_filter {A B} (R : B -> B -> Prop) (f : A -> B) (P : A -> bool) l :
  StronglySorted (fun a b => R (f a) (f b)) l -> StronglySorted R (map f (List.filter P l)).
Proof.
  induction 1 as [|x l S IH F]; simpl; [constructor|]. destruct (P x); simpl; [|done].
  constructor; [done|]. apply Forall_forall. intros y Hy. apply list_elem_of_fmap in Hy as (z & -> & Hz).
  apply list_elem_of_In, filter_In in Hz as [Hz _]. rewrite Forall_forall in F. by apply F, list_elem_of_In.
Qed.

Lemma recent_sorted log p now :
  clocked log -> StronglySorted (fun a b => ts a <= ts b) (recent log p now).
Proof. intros C. apply (SS_map_filter (fun a b => ts a <= ts b)). exact C. Qed.

Lemma drop_recent log p t now :
  clocked log -> t <= now -> drop_old (now - slidingWindow) (recent log p t) = recent log p now.
Proof.
  intros C L. rewrite drop_old_filter by (by apply recent_sorted).
  unfold recent. rewrite map_filter_comm, filter_filter. f_equal. apply List.filter_ext. intros o. simpl.
  destruct (String.eqb (o_provider o) p); simpl; [|done]. unfold time_Before.
  destruct (Z.ltb_spec (o_time o) (t - slidingWindow)), (Z.ltb_spec (o_time o) (now - slidingWindow));
    simpl; try done; lia.
Qed.

Lemma recent_snoc log o p t :
  recent (log ++ [o]) p t =
  recent log p t ++
  (if String.eqb (o_provider o) p && negb (time_Before (o_time o) (t - slidingWindow))
   then [mkEntry (o_time o) (o_ok o)] else []).
Proof. unfold recent. rewrite List.filter_app, map_app. simpl. by destruct (_ && _). Qed.

Lemma run_snoc log o : run (log ++ [o]) = Record_ (run log) (o_provider o) (o_ok o) (o_time o).
Proof. unfold run. by rewrite foldl_app. Qed.

Lemma entries_Record t q ok now p :
  entries_of (Record_ t q ok now) p =
  if decide (q = p) then drop_old (now - slidingWindow) (entries_of t p ++ [mkEntry now ok]) else entries_of t p.
Proof.
  unfold Record_, prune, entries_of. rewrite lookup_insert. case_decide as D; [subst|].
  - rewrite lookup_insert_eq. simpl.
    by replace (time_Add now (- slidingWindow)) with (now - slidingWindow) by (unfold time_Add; lia).
  - by rewrite lookup_insert_ne.
Qed.

Lemma clocked_snoc log o :
  clocked (log ++ [o]) -> clocked log /\ Forall (fun x => o_time x <= o_time o) log.
Proof.
  unfold clocked. induction log as [|x log IH]; simpl; intros C; [by repeat constructor|].
  inversion C as [|? ? C1 C2]; subst. apply IH in C1 as [C1 C1']. apply Forall_app in C2 as [C2 C2'].
  inversion C2'; subst. split; constructor; done.
Qed.

(** What the tracker holds of a provider is its recent outcomes as of some earlier time. *)
Lemma run_entries log p :
  clocked log -> exists t, entries_of (run log) p = recent log p t /\
    (forall now, log <> [] -> Forall (fun o => o_time o <= now) log -> t <= now).
Proof.
  induction log as [|o log IH] using rev_ind; intros C; [by exists 0|].
  apply clocked_snoc in C as [C L]. destruct (IH C) as (t & E & B).
  rewrite run_snoc, entries_Record. case_decide as D.
  - exists (o_time o). split; [|intros now _ F; by apply Forall_app in F as [_ F]; inversion F].
    rewrite E.
    assert (log = [] \/ t <= o_time o) as [->|T] by (destruct log; [by left|right; by apply B]).
    + rewrite recent_snoc, D, String.eqb_refl. simpl. unfold time_Before.
      destruct (Z.ltb_spec (o_time o) (o_time o - slidingWindow)); [|done].
      unfold slidingWindow, Minute, Second in *; lia.
    + rewrite <- (drop_recent (log ++ [o]) p t (o_time o)); [|by apply StronglySorted_snoc|done].
      rewrite recent_snoc, D, String.eqb_refl. unfold time_Before.
      destruct (Z.ltb_spec (o_time o) (t - slidingWindow)); [|done].
      unfold slidingWindow, Minute, Second in *; lia.
  - exists (if decide (log = []) then o_time o else t). split.
    + rewrite E, recent_snoc. apply String.eqb_neq in D. rewrite D. simpl. rewrite app_nil_r.
      by case_decide; subst.
    + intros now _ F. apply Forall_app in F as [F1 F2]. case_decide; [by inversion F2|by apply B].
Qed.

(** C35. The tracker's error rate is that of the last minute: for any log of outcomes in time
    order and any later moment, the rate it reports for a provider is the fraction of failures
    among exactly the outcomes recorded for that provider in the minute before, 0 when there are
    none, and the reported status follows from that rate. *)
Theorem tracker_refines_log log p now :
  clocked log -> Forall (fun o => o_time o <= now) log ->
  (ErrorRate (run log) p now).1 = rate (recent log p now) /\
  (Status (run log) p now).1 = status_of (rate (recent log p now)).
Proof.
  intros C F. destruct (run_entries log p C) as (t & E & B).
  assert (entries_of (prune (run log) p now) p = recent log p now) as H.
  { unfold prune, entries_of at 1. rewrite lookup_insert_eq. simpl. rewrite E.
    replace (time_Add now (- slidingWindow)) with (now - slidingWindow) by (unfold time_Add; lia).
    destruct log as [|o log]; [done|]. by apply drop_recent, B. }
  unfold Status, ErrorRate. cbn [fst snd]. by rewrite H.
Qed.

Lemma tracker_refines_log_witness :
  (Status (run [mkOutcome "openai" false 0; mkOutcome "openai" true (90 * Second);
    mkOutcome "openai" false (100 * Second)]) "openai" (110 * Second)).1 = "unhealthy".
Proof.
  rewrite (proj2 (tracker_refines_log [mkOutcome "openai" false 0; mkOutcome "openai" true (90 * Second);
    mkOutcome "openai" false (100 * Second)] "openai" (110 * Second) ltac:(repeat constructor; simpl; unfold Second; lia)
    ltac:(repeat constructor; simpl; unfold Second; lia))).
  vm_compute. reflexivity.
Defined.

(** ** The cached object is changed by its first reader

    The first call builds the cached status and marks it degraded while a provider fails; a
    second call within five seconds, after the provider has recovered, still says degraded,
    where a fresh check says ok. *)
Example degraded_sticks_in_cache :
  let ok := mkPing None 0 in
  let c := mkChecker 0 "v1" None 0 in
  let bad := Record_ NewProviderTracker "openai" false 0 in
  let '(r1, c1, _) := Full c bad ["openai"] ok ok 0 in
  let '(r2, _, _) := Full c1 NewProviderTracker ["openai"] ok ok Second in
  let '(r3, _, _) := Full c NewProviderTracker ["openai"] ok ok Second in
  OStatus r1.1.2 = "degraded" /\ OStatus r2.1.2 = "degraded" /\ OStatus r3.1.2 = "ok".
Proof. vm_compute. repeat split; reflexivity. Qed.

Lemma all_ok_spec cs k r : all_ok cs = true -> cs !! k = Some r -> CStatus r = "ok".
Proof.
  unfold all_ok. rewrite forallb_forall. intros A E. apply String.eqb_eq.
  apply (A (k, r)). by apply list_elem_of_In, elem_of_map_to_list.
Qed.

Lemma all_ok_false db redis :
  ping_err db <> None \/ ping_err redis <> None -> all_ok (runDepsParallel db redis) = false.
Proof.
  intros D. apply not_true_iff_false. intros A.
  assert (forall p, CStatus (check_dep p) = "ok" -> ping_err p = None) as P
    by (intros p; unfold check_dep; by destruct (ping_err p)).
  destruct D as [D|D]; apply D, P.
  - apply (all_ok_spec _ "database" _ A). unfold runDepsParallel.
    rewrite lookup_insert_ne by done. by rewrite lookup_singleton_eq.
  - apply (all_ok_spec _ "redis" _ A). unfold runDepsParallel. by rewrite lookup_insert_eq.
Qed.

(** An unhealthy dependency is never masked: the endpoint answers 503. *)
Lemma Full_unhealthy c t names db redis now :
  (cached c = None \/ cacheTTL <= time_Sub now (cachedAt c)) ->
  ping_err db <> None \/ ping_err redis <> None ->
  (Full c t names db redis now).1.1.1.1 = 503.
Proof.
  intros M D. unfold Full.
  assert (Check c db redis now = (Shared (runChecks c db redis now),
    mkChecker (startedAt c) (version c) (Some (runChecks c db redis now)) now)) as ->.
  { unfold Check. destruct (cached c); [|done]. destruct M as [|M]; [done|].
    destruct (Z.ltb_spec (time_Sub now (cachedAt c)) cacheTTL); [lia|done]. }
  destruct (buildProviderStatus names t now) as [ps t'].
  assert (OStatus (runChecks c db redis now) = "unhealthy") as U.
  { unfold runChecks. cbn [OStatus]. rewrite (all_ok_false _ _ D). done. }
  cbn [content]. rewrite U. change (String.eqb "unhealthy" "ok") with false. cbn [andb fst].
  unfold httpStatusForHealth. by rewrite U.
Qed.

End Health.
