(* ===== verification/MLRouter.v ===== *)
(** * The machine-learning router (internal/mlrouter)

    The rule-based classifier of a request's complexity, the scorer that ranks the models of a
    tier, the router around them and the feedback queue. The code sorts in place by swapping;
    it is shown to be the stable sort by descending score. Unicode classes and case mapping are
    arguments. *)

From S2P Require Import Prelude GoStrings Float64 Types LoadBalancer Fallback Cost Health.
Local Open Scope Z_scope.

Module MLRouter.

Definition ComplexitySimple : string := "economy".
Definition ComplexityMedium : string := "medium".
Definition ComplexityComplex : string := "premium".

Definition f1 : float64 := f64_of_Z 1.
Definition hundredths (n : Z) : float64 := f64_const n 100.

Definition clamp (v : float64) : float64 :=
  if f64_lt v f64_0 then f64_0 else if f64_lt f1 v then f1 else v.

Record Features := mkFeatures {
  TokenEstimate : Z;
  MessageCount : Z;
  HasCodeBlocks : bool;
  HasToolCalls : bool;
  TechnicalDensity : float64;
  ComplexityScore : float64;
  Tier : string
}.

(** [len(text) / 4]. *)
Definition estimateTokens (text : string) : Z := Z.quot (Z.of_nat (String.length text)) 4.

(** [strings.Trim] with an ASCII cutset. *)
Definition cutset : string := ".,;:!?" +:+ bytes [34]%nat +:+ "'()[]{}".
Definition in_cutset (c : ascii) : bool := has_char c cutset.

Fixpoint trim_left (s : string) : string :=
  match s with
  | EmptyString => EmptyString
  | String c s' => if in_cutset c then trim_left s' else s
  end.
Fixpoint trim_right (s : string) : string :=
  match s with
  | EmptyString => EmptyString
  | String c s' =>
      match trim_right s' with
      | EmptyString => if in_cutset c then EmptyString else String c EmptyString
      | t => String c t
      end
  end.
Definition Trim (s : string) : string := trim_right (trim_left s).

Definition technicalKeywords : list string :=
  ["function"; "class"; "interface"; "algorithm"; "optimize"; "complexity"; "runtime"; "async";
   "goroutine"; "concurrency"; "distributed"; "kubernetes"; "tensor"; "gradient"; "neural"; "regression";
   "theorem"; "proof"; "calculus"; "differential"; "api"; "sql"; "http"; "json"; "yaml"].

Section Classifier.
(** [strings.ToLower], and the runes of a string with their offsets and classes. *)
Context (ToLower : string -> string) (runes : string -> list (Z * Z)) (IsDigit IsUpper : Z -> bool).

Definition isTechnical (w : string) : bool :=
  let w := ToLower (Trim w) in
  slices_Contains technicalKeywords w
  || existsb (fun r => IsDigit r.2) (runes w)
  || Contains w "_"
  || existsb (fun r => (0 <? r.1) && IsUpper r.2) (runes w).

Definition technicalDensity (text : string) : float64 :=
  match Fields text with
  | [] => f64_0
  | words =>
      let tech := Z.of_nat (length (List.filter isTechnical words)) in
      clamp (f64_mul (f64_div (f64_of_Z tech) (f64_of_Z (Z.of_nat (length words)))) (f64_of_Z 3))
  end.

Definition backticks : string := "```".

(** All message contents, each followed by a space. *)
Definition all_text (msgs : list Message) : string := foldl (fun sb m => sb +:+ Content m +:+ " ") "" msgs.

Definition score_of (tokens msgs : Z) (code tools : bool) (density : float64) : float64 :=
  let score := f64_add f64_0 (f64_mul (clamp (f64_div (f64_of_Z tokens) (f64_of_Z 100))) (hundredths 40)) in
  let score := if code then f64_add score (hundredths 20) else score in
  let score := f64_add score (f64_mul (clamp (f64_div (f64_of_Z msgs) (f64_of_Z 6))) (hundredths 15)) in
  let score := f64_add score (f64_mul density (hundredths 15)) in
  let score := if tools then f64_add score (hundredths 10) else score in
  clamp score.

Definition tier_of (score : float64) : string :=
  if f64_le (hundredths 45) score then ComplexityComplex
  else if f64_le (hundredths 25) score then ComplexityMedium
  else ComplexitySimple.

Definition Classify (req : ChatCompletionRequest) : Features :=
  let text := all_text (Messages req) in
  let tokens := estimateTokens text in
  let msgs := Z.of_nat (length (Messages req)) in
  let tools := 0 <? Z.of_nat (length (Tools req)) in
  let code := Contains text backticks in
  let density := technicalDensity text in
  let score := score_of tokens msgs code tools density in
  mkFeatures tokens msgs code tools density score (tier_of score).

End Classifier.

(** ** scorer.go *)

Record Weights := mkWeights { WCost : float64; WQuality : float64; WLatency : float64; WReliability : float64 }.

Definition DefaultWeights : Weights :=
  mkWeights (hundredths 30) (hundredths 40) (hundredths 20) (hundredths 10).

Record modelEntry := mkME { MEProvider : string; MEModel : string; QualityScore : float64 }.

Record Scorer := mkScorer {
  weights : Weights;
  tiers : gmap string (list modelEntry);
  pricing : Cost.Calculator
}.

Section Scorer.
Context (ToLower : string -> string).
(** The tracker's error rate of a provider at this moment, when there is a tracker. *)
Context (error_rate : option (string -> float64)).

Definition Score (s : Scorer) (e : modelEntry) (inTok outTok : Z) : float64 :=
  let costUSD := Cost.Calculate ToLower (pricing s) (MEModel e) inTok outTok in
  let costScore := f64_sub f1 (clamp (f64_div costUSD (hundredths 10))) in
  let reliability := match error_rate with Some er => f64_sub f1 (er (MEProvider e)) | None => f1 end in
  let w := weights s in
  clamp (f64_add (f64_add (f64_add (f64_mul costScore (WCost w)) (f64_mul (QualityScore e) (WQuality w)))
    (f64_mul reliability (WLatency w))) (f64_mul reliability (WReliability w))).

(** The entries of a tier, or of the medium or the economy tier when it has none. *)
Definition tier_entries (s : Scorer) (tier : string) : list modelEntry :=
  match tiers s !! tier with
  | Some (e :: es) => e :: es
  | other =>
      match tiers s !! ComplexityMedium with
      | Some (e :: es) => e :: es
      | _ => match tiers s !! ComplexitySimple with
             | Some (e :: es) => e :: es
             | _ => default [] other
             end
      end
  end.

(** The in-place sort: [swap_down] moves element [j] left while it scores more than its left
    neighbour, and [sort_from] does this for [i], [i+1], ... *)
Definition swap {A} (l : list A) (i j : nat) : list A :=
  match l !! i, l !! j with
  | Some x, Some y => <[i := y]> (<[j := x]> l)
  | _, _ => l
  end.

Fixpoint swap_down {A} (above : A -> A -> bool) (l : list A) (j : nat) : list A :=
  match j with
  | O => l
  | S j' =>
      match l !! j, l !! j' with
      | Some x, Some y => if above x y then swap_down above (swap l j j') j' else l
      | _, _ => l
      end
  end.

Definition sort_in_place {A} (above : A -> A -> bool) (l : list A) : list A :=
  foldl (swap_down above) l (seq 1 (length l - 1)).

Definition above (a b : modelEntry * float64) : bool := f64_lt b.2 a.2.

Definition RankTier (s : Scorer) (tier : string) (inTok outTok : Z) : Chain :=
  let results := map (fun e => (e, Score s e inTok outTok)) (tier_entries s tier) in
  mkChain ("ml-" +:+ tier)
    (map (fun r => mkTarget (MEProvider r.1) (MEModel r.1) 0) (sort_in_place above results)).

End Scorer.

(** ** router.go *)

Definition ModeShadow : string := "shadow".
Definition ModeLive : string := "live".

Record ModelConfig := mkModelConfig { MCProvider : string; MCModel : string }.
Record TierConfig := mkTierConfig { TCName : string; TCModels : list ModelConfig }.

Definition tier_score (name : string) : float64 :=
  let s := if String.eqb name ComplexitySimple then hundredths 30
           else if String.eqb name ComplexityMedium then hundredths 65
           else if String.eqb name ComplexityComplex then f1 else f64_0 in
  if f64_eq s f64_0 then f64_const 5 10 else s.

Definition BuildTiers (cfg : list TierConfig) : gmap string (list modelEntry) :=
  foldl (fun m t => <[TCName t :=
      map (fun mc => mkME (MCProvider mc) (MCModel mc) (tier_score (TCName t))) (TCModels t)]> m) ∅ cfg.

(** [Resolve]: the chain and whether the handler is to use it. *)
Definition Resolve ToLower runes IsDigit IsUpper (error_rate : option (string -> float64)) (mode : string)
    (s : Scorer) (req : ChatCompletionRequest) : Chain * bool :=
  let f := Classify ToLower runes IsDigit IsUpper req in
  let outputEst := Z.quot (TokenEstimate f) 2 in
  let chain := RankTier ToLower error_rate s (Tier f) (TokenEstimate f) outputEst in
  if String.eqb mode ModeLive then (chain, 0 <? Z.of_nat (length (Targets chain)))
  else (mkChain "" [], false).

(** ** feedback.go: a queue of at most a thousand records; a full queue drops *)

Section Feedback.
Context {R : Type}.
Definition feedbackSize : Z := 1000.

Record Collector := mkCollector { queue : list R; logged : list R }.

Definition Record_ (c : Collector) (r : R) : Collector :=
  if Z.of_nat (length (queue c)) <? feedbackSize then mkCollector (queue c ++ [r]) (logged c) else c.

(** One turn of the drain loop. *)
Definition drain_one (c : Collector) : Collector :=
  match queue c with
  | [] => c
  | r :: q => mkCollector q (logged c ++ [r])
  end.

End Feedback.

(** ** The in-place sort is the stable sort *)

Section Sorting.
Context {A : Type} (ab : A -> A -> bool).

Lemma swap_adjacent (pre : list A) x y rest :
  swap (pre ++ y :: x :: rest) (S (length pre)) (length pre) = pre ++ x :: y :: rest.
Proof.
  unfold swap.
  assert ((pre ++ y :: x :: rest) !! length pre = Some y) as ->
    by (rewrite lookup_app_r, Nat.sub_diag by lia; done).
  assert ((pre ++ y :: x :: rest) !! S (length pre) = Some x) as ->
    by (rewrite lookup_app_r by lia; by replace (S (length pre) - length pre)%nat with 1%nat by lia).
  rewrite insert_app_r_alt, Nat.sub_diag by lia. simpl.
  rewrite insert_app_r_alt by lia. by replace (S (length pre) - length pre)%nat with 1%nat by lia.
Qed.

Lemma swap_down_ins rp x rest :
  swap_down ab (reverse rp ++ x :: rest) (length rp) = reverse (ins_rev ab x rp) ++ rest.
Proof.
  revert rest. induction rp as [|y rp IH]; intros rest; [done|]. cbn [length swap_down ins_rev].
  assert (reverse (y :: rp) ++ x :: rest = reverse rp ++ y :: x :: rest) as E
    by (rewrite reverse_cons; by rewrite <- (assoc_L (++))).
  rewrite E.
  assert (length (reverse rp) = length rp) as L by apply length_reverse.
  assert ((reverse rp ++ y :: x :: rest) !! S (length rp) = Some x) as ->
    by (rewrite lookup_app_r by lia; rewrite L; by replace (S (length rp) - length rp)%nat with 1%nat by lia).
  assert ((reverse rp ++ y :: x :: rest) !! length rp = Some y) as ->
    by (rewrite lookup_app_r by lia; by rewrite L, Nat.sub_diag).
  destruct (ab x y).
  - rewrite <- L, swap_adjacent, L, IH. rewrite reverse_cons. by rewrite <- (assoc_L (++)).
  - rewrite !reverse_cons. by rewrite <- !(assoc_L (++)).
Qed.

Lemma sort_from_spec rest rp :
  foldl (swap_down ab) (reverse rp ++ rest) (seq (length rp) (length rest)) =
  reverse (foldl (fun rp x => ins_rev ab x rp) rp rest).
Proof.
  revert rp. induction rest as [|x rest IH]; intros rp; simpl; [by rewrite app_nil_r|].
  rewrite swap_down_ins.
  assert (length (ins_rev ab x rp) = S (length rp)) as L
    by (rewrite (Permutation_length (ins_rev_perm ab x rp)); done).
  rewrite <- L. apply IH.
Qed.

(** Swapping neighbours in place gives the insertion sort of the specification. *)
Lemma sort_in_place_spec l : sort_in_place ab l = insertionSort ab l.
Proof.
  unfold sort_in_place, insertionSort. destruct l as [|x l]; [done|].
  replace (length (x :: l) - 1)%nat with (length l) by (simpl; lia). cbn [foldl ins_rev].
  exact (sort_from_spec l [x]).
Qed.

End Sorting.

(** Sorting by a key commutes with attaching the key. *)
Lemma ins_rev_map {A B} (f : A -> B) (less : B -> B -> bool) x rp :
  ins_rev less (f x) (map f rp) = map f (ins_rev (fun a b => less (f a) (f b)) x rp).
Proof. induction rp as [|y rp IH]; simpl; [done|]. destruct (less (f x) (f y)); simpl; by rewrite ?IH. Qed.

Lemma insertionSort_map {A B} (f : A -> B) (less : B -> B -> bool) l :
  insertionSort less (map f l) = map f (insertionSort (fun a b => less (f a) (f b)) l).
Proof.
  unfold insertionSort. etrans; [|exact (eq_sym (fmap_reverse f _))]. f_equal.
  enough (forall rp, foldl (fun rp x => ins_rev less x rp) (map f rp) (map f l) =
    map f (foldl (fun rp x => ins_rev (fun a b => less (f a) (f b)) x rp) rp l)) as G by apply (G []).
  induction l as [|x l IH]; intros rp; simpl; [done|]. rewrite ins_rev_map. apply IH.
Qed.

(** Only the comparisons between elements of the list matter. *)
Lemma ins_rev_ext {A} (P : A -> Prop) (l1 l2 : A -> A -> bool) x rp :
  (forall a b, P a -> P b -> l1 a b = l2 a b) -> P x -> Forall P rp -> ins_rev l1 x rp = ins_rev l2 x rp.
Proof.
  intros E Px F. induction F as [|y rp Py F IH]; simpl; [done|]. rewrite (E x y) by done.
  destruct (l2 x y); by rewrite ?IH.
Qed.

Lemma insertionSort_ext {A} (P : A -> Prop) (l1 l2 : A -> A -> bool) l :
  (forall a b, P a -> P b -> l1 a b = l2 a b) -> Forall P l -> insertionSort l1 l = insertionSort l2 l.
Proof.
  intros E F. unfold insertionSort. f_equal.
  enough (forall rp, Forall P rp -> foldl (fun rp x => ins_rev l1 x rp) rp l =
    foldl (fun rp x => ins_rev l2 x rp) rp l) as G by by apply G.
  induction F as [|x l Px F IH]; intros rp Fr; simpl; [done|].
  rewrite (ins_rev_ext P l1 l2) by done. apply IH. rewrite ins_rev_perm. by constructor.
Qed.

(** The in-place ranking of a tier is a stable sort by descending score: when no score is
    NaN, the targets are the tier's models rearranged, none is followed by one that scores more,
    and models that score the same keep the configured order. *)
Theorem RankTier_stable_sort ToLower er s tier inTok outTok :
  let score e := Score ToLower er s e inTok outTok in
  Forall (fun e => f64_is_nan (score e) = false) (tier_entries s tier) ->
  exists ranked,
    Targets (RankTier ToLower er s tier inTok outTok) =
      map (fun e => mkTarget (MEProvider e) (MEModel e) 0) ranked /\
    ranked ≡ₚ tier_entries s tier /\
    StronglySorted (fun a b => f64_lt (score a) (score b) = false) ranked /\
    forall P : modelEntry -> bool, (forall a b, P a = true -> P b = true -> f64_lt (score a) (score b) = false) ->
      List.filter P ranked = List.filter P (tier_entries s tier).
Proof.
  intros score N. exists (insertionSort (fun a b => f64_lt (score b) (score a)) (tier_entries s tier)).
  split_and!.
  - unfold RankTier. cbn [Targets]. rewrite sort_in_place_spec, insertionSort_map, map_map. done.
  - apply insertionSort_perm.
  - set (key e := if f64_is_nan (score e) then f64_0 else score e).
    assert (forall a b, f64_is_nan (score a) = false -> f64_is_nan (score b) = false ->
      f64_lt (score b) (score a) = f64_lt (key b) (key a)) as K
      by (intros a b Ha Hb; unfold key; by rewrite Ha, Hb).
    rewrite (insertionSort_ext _ _ (fun a b => f64_lt (key b) (key a)) _ K N).
    assert (StrictWeak (fun a b => f64_lt (key b) (key a))) as SW.
    { assert (forall a, f64_is_nan (key a) = false) as NK by (intros a; unfold key; by destruct (f64_is_nan (score a)) eqn:?).
      destruct (StrictWeak_f64 key NK) as [I T C]. split.
      - intros x. apply I.
      - intros x y z H1 H2. exact (T z y x H2 H1).
      - intros x y z H1. destruct (C z y x H1); auto. }
    pose proof (insertionSort_sorted _ SW (tier_entries s tier)) as Srt.
    assert (Forall (fun e => f64_is_nan (score e) = false) (insertionSort (fun a b => f64_lt (key b) (key a)) (tier_entries s tier))) as N'
      by (by rewrite insertionSort_perm).
    clear - Srt N' K. induction Srt as [|x l S IH F]; [constructor|].
    inversion N' as [|? ? Nx Nl]; subst. constructor; [by apply IH|].
    rewrite Forall_forall in F, Nl |- *. intros y Hy. rewrite (K y x); [by apply F|by apply Nl|done].
  - intros P HP. apply insertionSort_stable. intros a b Ha Hb. by apply HP.
Qed.

Definition demo_scorer : Scorer :=
  mkScorer DefaultWeights {["medium" := [mkME "a" "m1" f64_0; mkME "b" "m2" f1; mkME "c" "m3" f1]]} (Cost.NewCalculator ∅).

Lemma RankTier_stable_sort_witness :
  exists ranked,
    Targets (RankTier ascii_ToLower None demo_scorer "premium" 100 50) =
      map (fun e => mkTarget (MEProvider e) (MEModel e) 0) ranked /\ ranked ≡ₚ tier_entries demo_scorer "premium".
Proof.
  destruct (RankTier_stable_sort ascii_ToLower None demo_scorer "premium" 100 50) as (r & E & P & _).
  - assert (tier_entries demo_scorer "premium" = [mkME "a" "m1" f64_0; mkME "b" "m2" f1; mkME "c" "m3" f1]) as ->
      by (vm_compute; reflexivity).
    apply Forall_cons; split; [vm_compute; reflexivity|].
    apply Forall_cons; split; [vm_compute; reflexivity|].
    apply Forall_cons; split; [vm_compute; reflexivity|].
    apply Forall_nil_2.
  - exists r. exact (conj E P).
Defined.

Example RankTier_order :
  map LoadBalancer.Provider (Targets (RankTier ascii_ToLower None demo_scorer "premium" 100 50)) = ["b"; "c"; "a"].
Proof. vm_compute. reflexivity. Qed.

(** Shadow mode never takes over routing. *)
Lemma Resolve_shadow low ru di up er s req :
  (Resolve low ru di up er ModeShadow s req).2 = false.
Proof. reflexivity. Qed.

(** In live mode the handler is told to use the chain exactly when it has a target. *)
Lemma Resolve_live low ru di up er s req :
  let '(chain, use) := Resolve low ru di up er ModeLive s req in use = true <-> Targets chain <> [].
Proof.
  unfold Resolve. rewrite String.eqb_refl. destruct (Targets _); simpl; split; done.
Qed.

(** ** The classifier *)

Lemma clamp_range v : f64_is_nan v = false -> f64_le f64_0 (clamp v) = true /\ f64_le (clamp v) f1 = true.
Proof.
  intros N. unfold clamp. destruct (f64_lt v f64_0) eqn:L; [split; vm_compute; reflexivity|].
  destruct (f64_lt f1 v) eqn:U; [split; vm_compute; reflexivity|].
  split; rewrite f64_le_lt by done; by rewrite ?L, ?U.
Qed.

(** A word in camel case is lowered before it is examined: the test for inner capitals, which
    the code documents, can never succeed where lowering leaves no capital. *)
Lemma camel_case_missed low ru di up w :
  (forall s, existsb (fun r => (0 <? r.1) && up r.2) (ru (low s)) = false) ->
  slices_Contains technicalKeywords (low (Trim w)) = false ->
  existsb (fun r => di r.2) (ru (low (Trim w))) = false -> Contains (low (Trim w)) "_" = false ->
  isTechnical low ru di up w = false.
Proof. intros U K D C. unfold isTechnical. by rewrite K, D, C, U. Qed.

(** ** The feedback queue *)

(** The queue never exceeds its size, and what it has accepted is logged in order. *)
Lemma feedback_bounded {R} (c : Collector (R:=R)) r :
  Z.of_nat (length (queue c)) <= feedbackSize -> Z.of_nat (length (queue (Record_ c r))) <= feedbackSize.
Proof.
  unfold Record_. destruct (Z.ltb_spec (Z.of_nat (length (queue c))) feedbackSize); [|done].
  simpl. rewrite length_app. simpl. lia.
Qed.

Lemma drain_order {R} (c : Collector (R:=R)) : logged (drain_one c) ++ queue (drain_one c) = logged c ++ queue c.
Proof. unfold drain_one. destruct (queue c) as [|r q] eqn:E; [by rewrite E|]. simpl. by rewrite <- app_assoc. Qed.

End MLRouter.
