(* ===== verification/Alerting.v ===== *)
(** * Alerting (internal/alerting, handler/admin_alerts.go, buildAlertRouter of cmd/gateway)

    Routing of alert events to channels, the suppression of repeated alerts by keys with a
    lifetime in Redis, the three notifiers and the event bus. Dispatching runs in a goroutine of
    its own, so the notifications of several events interleave: the atomic step is one
    notification, and the theorem is about every sequence of them. HTTP, SMTP, JSON, the
    formatting of times and upper-casing are arguments. *)

From S2P Require Import Prelude GoStrings Types ProviderErrors Adapters.
Local Open Scope Z_scope.

Module Alerting.

Local Open Scope go_scope.

(** ** notifier.go *)

(** [Details] is in the order a range over the map visits it, with the values as [%v] prints
    them. *)
Record Event := mkEvent {
  EventType : string;
  Severity : string;
  Title : string;
  Details : list (string * string);
  Timestamp : Time;
  EntityID : string
}.

(** A channel: its name, and the error of its [k]-th notification, if any. *)
Record Notifier := mkNotifier { NName : string; NSend : nat -> Event -> option string }.

(** ** deduplicator.go *)

Definition NewDeduplicator (window : Duration) : Duration :=
  if window =? 0 then 15 * Minute else window.

(** The keys in Redis with the time each expires. *)
Abbreviation Marks := (gmap string Time).

Definition live (m : Marks) (key : string) (now : Time) : bool :=
  match m !! key with Some expires => now <? expires | None => false end.

(** SETNX with a lifetime. A failed call lets the alert through, whether or not Redis [applied]
    it. *)
Definition ShouldSend (window : Duration) (fault : option bool) (now : Time)
    (eventType entityID : string) (m : Marks) : bool * Marks :=
  let key := "alert:dedup:" +:+ eventType +:+ ":" +:+ entityID in
  let set := if live m key now then m else <[key := now + window]> m in
  match fault with
  | Some applied => (true, if applied then set else m)
  | None => (negb (live m key now), set)
  end.

(** ** router.go *)

Record routeRule := mkRule { events : list string; severity : string; notifiers : list Notifier }.

(** The routing section of the configuration, and the channels it names. *)
Record AlertRoutingConfig := mkRouting { REvents : list string; RSeverity : string; RChannels : list string }.

Definition rule_of (chans : gmap string Notifier) (r : AlertRoutingConfig) : option routeRule :=
  match omap (fun ch => chans !! ch) (RChannels r) with
  | [] => None
  | ns => Some (mkRule (REvents r) (RSeverity r) ns)
  end.

Definition NewRouter (routing : list AlertRoutingConfig) (chans : gmap string Notifier) : list routeRule :=
  omap (rule_of chans) routing.

Definition matchPattern (pattern eventType : string) : bool :=
  if HasSuffix pattern ".*" then HasPrefix eventType (TrimSuffix pattern ".*" +:+ ".")
  else String.eqb pattern eventType.

Definition matchesRule (rule : routeRule) (e : Event) : bool :=
  if negb (String.eqb (severity rule) "") && negb (String.eqb (severity rule) (Severity e)) then false
  else existsb (fun p => matchPattern p (EventType e)) (events rule).

(** What became of a notification, with the status and error the history row gets. *)
Inductive outcome := Deduplicated | Failed (err : string) | Delivered.

Record history_row := mkRow {
  HEventType : string;
  HSeverity : string;
  HChannel : string;
  HStatus : string;
  HError : option string
}.

Definition record (e : Event) (channel : string) (o : outcome) : history_row :=
  let '(status, err) := match o with
                        | Deduplicated => ("deduplicated", None)
                        | Failed m => ("failed", Some m)
                        | Delivered => ("sent", None)
                        end in
  mkRow (EventType e) (Severity e) channel status err.

(** One notification as it happened: when, under which key, and its outcome. *)
Record visit := mkVisit { VAt : Time; VKey : string; VOutcome : outcome }.

Record State := mkState { marks : Marks; history : list history_row; trace : list visit }.

(** What the outside does at the [k]-th notification: the clock, a failing Redis call, and
    whether the history row is inserted ([false] without a database). *)
Record Env := mkEnv { clk : nat -> Time; redis_fault : nat -> option bool; insert_ok : nat -> bool }.

Definition dedup_key (e : Event) (channel : string) : string :=
  "alert:dedup:" +:+ EventType e +:+ ":" +:+ EntityID e +:+ ":" +:+ channel.

Section Dispatch.
Context (dedup : option Duration) (env : Env).

(** The body of the inner loop: one channel of a matching rule. *)
Definition notify (e : Event) (st : State) (n : Notifier) : State :=
  let k := length (trace st) in
  let '(send, m) := match dedup with
                    | Some window => ShouldSend window (redis_fault env k) (clk env k)
                                       (EventType e) (EntityID e +:+ ":" +:+ NName n) (marks st)
                    | None => (true, marks st)
                    end in
  let o := if negb send then Deduplicated
           else match NSend n k e with Some err => Failed err | None => Delivered end in
  mkState m
    (if insert_ok env k then history st ++ [record e (NName n) o] else history st)
    (trace st ++ [mkVisit (clk env k) (dedup_key e (NName n)) o]).

Definition dispatch (rules : list routeRule) (e : Event) (st : State) : State :=
  foldl (fun st rule => if negb (matchesRule rule e) then st
                        else foldl (notify e) st (notifiers rule)) st rules.

(** [Dispatch] completes the event and hands it to a goroutine. *)
Definition complete (now : Time) (e : Event) : Event :=
  mkEvent (EventType e) (Severity e) (Title e) (Details e)
    (if IsZero (Timestamp e) then now else Timestamp e)
    (if String.eqb (EntityID e) "" then "global" else EntityID e).

Definition Dispatch (rules : list routeRule) (now : Time) (e : Event) (st : State) : State :=
  dispatch rules (complete now e) st.

(** Any sequence of notifications, of one event or of several that are dispatched at once. *)
Definition run (calls : list (Event * Notifier)) (st : State) : State :=
  foldl (fun st c => notify c.1 st c.2) st calls.

End Dispatch.

Definition init : State := mkState ∅ [] [].

(** The notifications of an event, in order. *)
Definition targets (rules : list routeRule) (e : Event) : list (Event * Notifier) :=
  flat_map (fun rule => if negb (matchesRule rule e) then [] else map (pair e) (notifiers rule)) rules.

(** ** event_bus.go *)

Section Bus.
Context {S : Type}.

(** A handler acts on the state of the program. *)
Abbreviation Handler := (Event -> S -> S).

Definition Subscribe (h : Handler) (hs : list Handler) : list Handler := hs ++ [h].
Definition Publish (hs : list Handler) (e : Event) (s : S) : S := foldl (fun s h => h e s) s hs.

End Bus.

(** ** webhook.go *)

Record Webhook := mkWebhook { WName : string; WUrl : string; WMethod : string; WRetry : Z }.

Definition NewWebhookNotifier (name url method : string) (retry : Z) : Webhook :=
  mkWebhook name url (if String.eqb method "" then "POST" else method) (if retry =? 0 then 3 else retry).

Section Webhook.
(** At each attempt: whether the context is done while waiting, the error building the request,
    and the response's status or the transport's error. *)
Context (format_int : Z -> string) (ctx_done : Z -> bool) (ctx_err : string)
        (bad_request : option string) (Do : Z -> res string Z).

(** The loop from attempt [attempt] with [n] attempts to go: its result, the attempts made, and
    the waits before them. *)
Fixpoint attempts (n : nat) (attempt : Z) (wait : Duration) (lastErr : option string)
  : option string * list Z * list Duration :=
  match n with
  | O => (lastErr, [], [])
  | S n =>
      if (0 <? attempt) && ctx_done attempt then (Some ctx_err, [], [])
      else
        let waited := if 0 <? attempt then [wait] else [] in
        let wait := if 0 <? attempt then wait *i 2 else wait in
        match bad_request with
        | Some m => (Some ("webhook: build request: " +:+ m), [], waited)
        | None =>
            match Do attempt with
            | Ok status =>
                if (200 <=? status) && (status <? 300) then (None, [attempt], waited)
                else
                  let '(r, made, ws) := attempts n (attempt + 1) wait
                    (Some ("webhook: attempt " +:+ format_int (attempt + 1) +:+ ": status " +:+ format_int status)) in
                  (r, attempt :: made, waited ++ ws)
            | Err m =>
                let '(r, made, ws) := attempts n (attempt + 1) wait
                  (Some ("webhook: attempt " +:+ format_int (attempt + 1) +:+ ": " +:+ m)) in
                (r, attempt :: made, waited ++ ws)
            end
        end
  end.

(** [marshalled] is the encoding of the payload. *)
Definition webhook_Send (marshalled : res string string) (w : Webhook) : option string * list Z * list Duration :=
  match marshalled with
  | Err m => (Some ("webhook: marshal: " +:+ m), [], [])
  | Ok _ => attempts (Z.to_nat (WRetry w + 1)) 0 (500 * Millisecond) None
  end.

End Webhook.

(** ** slack.go *)

Definition severityEmoji (s : string) : string :=
  if String.eqb s "critical" then bytes [240; 159; 154; 168]%nat
  else if String.eqb s "warning" then bytes [226; 154; 160; 239; 184; 143]%nat
  else bytes [226; 132; 185; 239; 184; 143]%nat.

Section Messages.
Context (ToUpper : string -> string) (rfc3339 : Time -> string).

Definition capitalize (s : string) : string :=
  if String.eqb s "" then s else ToUpper (take_str 1 s) +:+ drop_str 1 s.

Definition slack_header (e : Event) : string :=
  severityEmoji (Severity e) +:+ " " +:+ capitalize (Severity e) +:+ " Alert: " +:+ Title e.

Definition slack_fields (e : Event) : list string :=
  map (fun kv => "*" +:+ kv.1 +:+ ":*" +:+ newline +:+ kv.2) (Details e).

Definition slack_context (e : Event) : string :=
  "*Event:* `" +:+ EventType e +:+ "` " +:+ bytes [194; 183]%nat +:+ " *Time:* " +:+ rfc3339 (Timestamp e).

(** The header, the fields and the context line are encoded and posted. *)
Definition slack_Send (format_int : Z -> string)
    (marshal : string -> list string -> string -> res string string) (bad_url : string -> option string)
    (Do : Http.request -> res string Z) (webhookURL : string) (e : Event) : option string :=
  match marshal (slack_header e) (slack_fields e) (slack_context e) with
  | Err m => Some ("slack: marshal: " +:+ m)
  | Ok body =>
      match bad_url webhookURL with
      | Some m => Some ("slack: build request: " +:+ m)
      | None =>
          match Do (Http.mkReq webhookURL [("Content-Type", "application/json")] body) with
          | Err m => Some ("slack: send: " +:+ m)
          | Ok status => if negb (status =? 200) then Some ("slack: unexpected status " +:+ format_int status) else None
          end
      end
  end.

(** ** email.go *)

Definition crlf : string := bytes [13; 10]%nat.

Definition email_subject (e : Event) : string :=
  "[" +:+ ToUpper (Severity e) +:+ "] " +:+ EventType e +:+ " - " +:+ Title e.

Definition email_body (e : Event) : string :=
  "Alert Details:" +:+ newline +:+ newline +:+
  "Event:     " +:+ EventType e +:+ newline +:+
  "Severity:  " +:+ Severity e +:+ newline +:+
  "Timestamp: " +:+ rfc3339 (Timestamp e) +:+ newline +:+
  match Details e with
  | [] => ""
  | ds => newline +:+ "Details:" +:+ newline +:+
          foldr (fun kv t => "  " +:+ kv.1 +:+ ": " +:+ kv.2 +:+ newline +:+ t) "" ds
  end.

Definition email_message (from : string) (to : list string) (e : Event) : string :=
  "From: " +:+ from +:+ crlf +:+ "To: " +:+ Adapters.Join ", " to +:+ crlf +:+
  "Subject: " +:+ email_subject e +:+ crlf +:+ "MIME-Version: 1.0" +:+ crlf +:+
  "Content-Type: text/plain; charset=UTF-8" +:+ crlf +:+ crlf +:+ email_body e.

Definition email_Send (format_int : Z -> string) (SendMail : string -> string -> list string -> string -> option string)
    (smtpHost : string) (smtpPort : Z) (from : string) (to : list string) (e : Event) : option string :=
  match SendMail (smtpHost +:+ ":" +:+ format_int smtpPort) from to (email_message from to e) with
  | Some m => Some ("email: send: " +:+ m)
  | None => None
  end.

End Messages.

(** ** The runtime configuration *)

Record AlertChannelConfig := mkChannel {
  ChName : string;
  ChType : string;
  ChWebhookURL : string;
  ChURL : string;
  ChTo : list string
}.

Inductive channel_config := CSlack (webhook_url : string) | CEmail (addresses : list string) | CWebhook (url : string).

Record RuntimeConfig := mkRuntime { REnabled : bool; RtChannels : gmap string channel_config }.

Definition webhook_url (ch : AlertChannelConfig) : string :=
  if String.eqb (ChURL ch) "" then ChWebhookURL ch else ChURL ch.

Definition add_channel (cs : gmap string channel_config) (ch : AlertChannelConfig) : gmap string channel_config :=
  if String.eqb (ChType ch) "slack" then <["slack" := CSlack (ChWebhookURL ch)]> cs
  else if String.eqb (ChType ch) "email" then <["email" := CEmail (ChTo ch)]> cs
  else if String.eqb (ChType ch) "webhook" then <["webhook" := CWebhook (webhook_url ch)]> cs
  else cs.

Definition runtimeConfigFromYAML (channels : list AlertChannelConfig) : RuntimeConfig :=
  mkRuntime (0 <? Z.of_nat (length channels)) (foldl add_channel ∅ channels).

(** ** admin_alerts.go: the router may be missing *)

Inductive response := Status (code : Z) | Config (c : RuntimeConfig).

Definition admin_GetConfig (router : option RuntimeConfig) : response :=
  Config (default (mkRuntime false ∅) router).

Definition admin_UpdateConfig (router : option RuntimeConfig) (body : option RuntimeConfig)
  : response * option RuntimeConfig :=
  match router, body with
  | None, _ => (Status 503, None)
  | Some c, None => (Status 400, Some c)
  | Some _, Some c => (Config c, Some c)
  end.

Definition history_limit (query : option Z) : Z :=
  match query with
  | Some n => if (0 <? n) && (n <=? 500) then n else 100
  | None => 100
  end.

(** [Test]: [millis] is the clock in base 36. *)
Definition test_event (channel millis : string) (now : Time) : Event :=
  mkEvent "system.test" "info" "Test Alert"
    [("channel", channel); ("requested", "manual test via admin API")] now ("test-" +:+ millis).

Definition admin_Test (dedup : option Duration) (env : Env) (rules : list routeRule) (channel millis : string) (now : Time)
    (st : State) : State :=
  Dispatch dedup env rules now (test_event channel millis now) st.

(** The newest rows first; every row was inserted later than the ones before it. *)
Definition admin_History (query : option Z) (rows : list history_row) : list history_row :=
  take (Z.to_nat (history_limit query)) (reverse rows).

(** ** Routing *)

Lemma HasSuffix_app p s : HasSuffix (s +:+ p) p = true.
Proof.
  induction s as [|c s IH]; cbn [String.append].
  - destruct p; cbn [HasSuffix]; by rewrite String.eqb_refl.
  - cbn [HasSuffix]. by rewrite IH, orb_true_r.
Qed.

Lemma take_str_app a b : take_str (String.length a) (a +:+ b) = a.
Proof. induction a as [|c a IH]; simpl; [by destruct b|]. by rewrite IH. Qed.

(** A pattern that ends in [.*] matches the event types below its prefix, and only those. *)
Lemma matchPattern_wildcard prefix t :
  matchPattern (prefix +:+ ".*") t = true <-> exists rest, t = prefix +:+ "." +:+ rest.
Proof.
  unfold matchPattern, TrimSuffix. rewrite HasSuffix_app.
  rewrite str_length_app.
  replace (String.length prefix + String.length ".*" - String.length ".*")%nat with (String.length prefix) by lia.
  rewrite take_str_app, HasPrefix_spec. split; intros [r ->]; exists r; by rewrite str_app_assoc.
Qed.

(** A dispatch is the sequence of the notifications of its event. *)
Lemma foldl_notify dedup env e ns st :
  foldl (notify dedup env e) st ns = run dedup env (map (pair e) ns) st.
Proof. unfold run. revert st. induction ns as [|n ns IH]; intros st; simpl; [done|]. apply IH. Qed.

Lemma run_app dedup env l1 l2 st : run dedup env (l1 ++ l2) st = run dedup env l2 (run dedup env l1 st).
Proof. apply foldl_app. Qed.

Lemma dispatch_run dedup env rules e st :
  dispatch dedup env rules e st = run dedup env (targets rules e) st.
Proof.
  unfold dispatch, targets. revert st. induction rules as [|r rules IH]; intros st; simpl; [done|].
  rewrite run_app, IH. f_equal. destruct (matchesRule r e); simpl; [apply foldl_notify|done].
Qed.

Lemma elem_of_targets rules e n :
  (e, n) ∈ targets rules e <-> exists r, r ∈ rules /\ matchesRule r e = true /\ n ∈ notifiers r.
Proof.
  unfold targets. rewrite list_elem_of_In, in_flat_map. split.
  - intros (r & Hr & Hn). exists r. rewrite list_elem_of_In. destruct (matchesRule r e); simpl in Hn; [|done].
    split_and!; try done. apply in_map_iff in Hn as (n' & [= ->] & H). by apply list_elem_of_In.
  - intros (r & Hr & M & Hn). exists r. rewrite <- list_elem_of_In. split; [done|].
    rewrite M. simpl. apply in_map. by apply list_elem_of_In.
Qed.

(** ** Suppression *)

Definition attempted (v : visit) : Prop := VOutcome v <> Deduplicated.

(** The latest attempt under a key. *)
Fixpoint last_attempt (key : string) (rtr : list visit) : option Time :=
  match rtr with
  | [] => None
  | v :: rtr => match VOutcome v with
                | Deduplicated => last_attempt key rtr
                | _ => if String.eqb (VKey v) key then Some (VAt v) else last_attempt key rtr
                end
  end.

Section Suppression.
Context (window : Duration) (env : Env).

(** Redis holds exactly the latest attempts, each until its window has passed. *)
Definition marked (st : State) : Prop :=
  forall key, marks st !! key = (fun t => t + window) <$> last_attempt key (reverse (trace st)).

Lemma dedup_key_eq e n : "alert:dedup:" +:+ EventType e +:+ ":" +:+ (EntityID e +:+ ":" +:+ NName n) = dedup_key e (NName n).
Proof. done. Qed.

(** A notification is attempted exactly when no attempt under its key is less than a window
    old. *)
Lemma notify_step e st n :
  redis_fault env (length (trace st)) = None -> marked st ->
  let now := clk env (length (trace st)) in
  let key := dedup_key e (NName n) in
  let st' := notify (Some window) env e st n in
  marked st' /\
  exists o, trace st' = trace st ++ [mkVisit now key o] /\
    (o = Deduplicated <-> exists t, last_attempt key (reverse (trace st)) = Some t /\ now < t + window).
Proof.
  intros F M now key st'. subst st'. unfold notify, ShouldSend. rewrite F, dedup_key_eq. fold now key.
  clearbody now key.
  assert (live (marks st) key now = true <->
    exists t, last_attempt key (reverse (trace st)) = Some t /\ now < t + window) as L.
  { unfold live. rewrite M. destruct (last_attempt key (reverse (trace st))) as [t|]; simpl.
    - rewrite Z.ltb_lt. split; [by exists t|]. by intros (t' & [= <-] & H).
    - split; [done|]. by intros (t' & ? & _). }
  destruct (live (marks st) key now) eqn:E; simpl.
  - split.
    + intros k. simpl. rewrite reverse_snoc. simpl. apply M.
    + exists Deduplicated. split; [done|]. tauto.
  - assert (forall o, o <> Deduplicated -> marked (mkState (<[key:=now + window]> (marks st))
      (if insert_ok env (length (trace st)) then history st ++ [record e (NName n) o] else history st)
      (trace st ++ [mkVisit now key o]))) as G.
    { intros o No k. simpl. rewrite reverse_snoc. simpl.
      destruct (String.eqb_spec key k) as [<-|Nk].
      - rewrite lookup_insert_eq. by destruct o.
      - rewrite lookup_insert_ne by done. rewrite (M k). by destruct o. }
    destruct (NSend n (length (trace st)) e) as [m|]; (split; [by apply G|]); eexists; (split; [done|]);
      (split; [done|]); intros H; apply L in H; done.
Qed.

(** Every attempt comes at least a window after the one before it, and every notification has
    an attempt under its key less than a window before it, or is one. *)
Definition spaced (tr : list visit) : Prop :=
  forall i j v w, (i < j)%nat -> tr !! i = Some v -> tr !! j = Some w -> VKey v = VKey w ->
    attempted v -> attempted w -> VAt v + window <= VAt w.

Definition answered (tr : list visit) : Prop :=
  forall i v, tr !! i = Some v -> exists j w, (j <= i)%nat /\ tr !! j = Some w /\ VKey w = VKey v /\
    attempted w /\ VAt v - window < VAt w <= VAt v.

Lemma last_attempt_spec key tr :
  match last_attempt key (reverse tr) with
  | Some t => exists j w, tr !! j = Some w /\ VKey w = key /\ attempted w /\ VAt w = t /\
      forall i v, tr !! i = Some v -> VKey v = key -> attempted v -> (i <= j)%nat
  | None => forall i v, tr !! i = Some v -> VKey v = key -> ~ attempted v
  end.
Proof.
  induction tr as [|v tr IH] using rev_ind; [done|]. rewrite reverse_snoc. cbn [last_attempt].
  assert (forall i u, (tr ++ [v]) !! i = Some u -> (i < length tr)%nat /\ tr !! i = Some u \/ i = length tr /\ u = v) as Split.
  { intros i u H. apply lookup_snoc_Some in H as [?|[-> <-]]; auto. }
  assert (attempted v /\ VKey v = key -> exists j w, (tr ++ [v]) !! j = Some w /\ VKey w = key /\ attempted w /\
    VAt w = VAt v /\ forall i u, (tr ++ [v]) !! i = Some u -> VKey u = key -> attempted u -> (i <= j)%nat) as New.
  { intros [A K]. exists (length tr), v. split_and!; try done.
    - by apply list_lookup_middle.
    - intros i u H _ _. apply lookup_lt_Some in H. rewrite length_app in H. simpl in H. lia. }
  assert (~ (attempted v /\ VKey v = key) ->
    match last_attempt key (reverse tr) with
    | Some t => exists j w, (tr ++ [v]) !! j = Some w /\ VKey w = key /\ attempted w /\ VAt w = t /\
        forall i u, (tr ++ [v]) !! i = Some u -> VKey u = key -> attempted u -> (i <= j)%nat
    | None => forall i u, (tr ++ [v]) !! i = Some u -> VKey u = key -> ~ attempted u
    end) as Old.
  { intros N. destruct (last_attempt key (reverse tr)) as [t|].
    - destruct IH as (j & w & Hj & K & A & T & L). exists j, w. split_and!; try done.
      + by apply lookup_app_l_Some.
      + intros i u H Ku Au. destruct (Split i u H) as [[_ H']|[-> ->]]; [by eapply L|]. by destruct N.
    - intros i u H Ku Au. destruct (Split i u H) as [[_ H']|[-> ->]]; [by eapply IH|]. by destruct N. }
  destruct (VOutcome v) eqn:O.
  - apply Old. intros [A _]. by apply A.
  - destruct (String.eqb_spec (VKey v) key); [|by apply Old; intros [_ ?]]. apply New. split; [|done].
    intros H. congruence.
  - destruct (String.eqb_spec (VKey v) key); [|by apply Old; intros [_ ?]]. apply New. split; [|done].
    intros H. congruence.
Qed.

Lemma snoc_spaced tr v :
  spaced tr -> (VOutcome v = Deduplicated \/ forall t, last_attempt (VKey v) (reverse tr) = Some t -> t + window <= VAt v) ->
  (forall j w, tr !! j = Some w -> forall i u, (i < j)%nat -> tr !! i = Some u -> VAt u <= VAt w) ->
  spaced (tr ++ [v]).
Proof.
  intros Sp H Mono i j u w Lt Hi Hj K Au Aw.
  apply lookup_snoc_Some in Hj as [[Lj Hj]|[-> <-]].
  - apply lookup_snoc_Some in Hi as [[Li Hi]|[-> _]]; [exact (Sp i j u w Lt Hi Hj K Au Aw)|lia].
  - apply lookup_snoc_Some in Hi as [[Li Hi]|[-> _]]; [|lia].
    destruct H as [H|H]; [by destruct (Aw H)|].
    pose proof (last_attempt_spec (VKey v) tr) as L. destruct (last_attempt _ _) as [t|].
    + specialize (H t eq_refl). destruct L as (j & w & Hj & Kw & Aw' & <- & Max).
      assert (i <= j)%nat as Lij by by eapply Max. destruct (Nat.eq_dec i j) as [->|]; [naive_solver|].
      assert (VAt u <= VAt w) by (eapply (Mono j w); eauto; lia). lia.
    + by destruct (L i u Hi K).
Qed.

Lemma snoc_answered tr v :
  0 < window -> answered tr ->
  (VOutcome v = Deduplicated -> exists t, last_attempt (VKey v) (reverse tr) = Some t /\ VAt v < t + window) ->
  (forall j w, tr !! j = Some w -> VAt w <= VAt v) ->
  answered (tr ++ [v]).
Proof.
  intros W A D Mono i u Hi. apply lookup_snoc_Some in Hi as [[Li Hi]|[-> <-]].
  - destruct (A i u Hi) as (j & w & ? & Hj & ?). exists j, w. split_and!; try naive_solver.
    by apply lookup_app_l_Some.
  - assert ({VOutcome v = Deduplicated} + {VOutcome v <> Deduplicated}) as [E|N] by (destruct (VOutcome v); auto).
    + destruct (D E) as (t & Ht & Lt). pose proof (last_attempt_spec (VKey v) tr) as L. rewrite Ht in L.
      destruct L as (j & w & Hj & Kw & Aw & <- & _). pose proof (lookup_lt_Some _ _ _ Hj).
      exists j, w. split_and!; try done; [lia|by apply lookup_app_l_Some|lia|by eapply Mono].
    + exists (length tr), v. split_and!; try done; try lia. by apply list_lookup_middle.
Qed.

(** The notifications so far are those of the calls, in order. *)
Definition follows (calls : list (Event * Notifier)) (tr : list visit) : Prop :=
  length tr = length calls /\
  forall i v, tr !! i = Some v -> VAt v = clk env i /\
    exists c, calls !! i = Some c /\ VKey v = dedup_key c.1 (NName c.2).

Context (Positive : 0 < window) (Clock : forall i j, (i <= j)%nat -> clk env i <= clk env j)
        (Redis : forall i, redis_fault env i = None).

Lemma run_suppression calls :
  let st := run (Some window) env calls init in
  marked st /\ follows calls (trace st) /\ spaced (trace st) /\ answered (trace st).
Proof.
  induction calls as [|c calls IH] using rev_ind.
  { split_and!; [done..| |]; intros i; intros; by rewrite ?lookup_nil in *. }
  rewrite run_app. cbn [run foldl]. destruct IH as (M & [Len Fl] & Sp & An).
  set (st := run (Some window) env calls init) in *.
  destruct (notify_step c.1 st c.2 (Redis _) M) as (M' & o & T & D).
  assert (forall j w, trace st !! j = Some w -> VAt w <= clk env (length (trace st))) as Mono.
  { intros j w Hj. destruct (Fl j w Hj) as [-> _]. apply Clock. apply lookup_lt_Some in Hj. lia. }
  cbn beta. rewrite T. split; [exact M'|]. split; [split|].
  - rewrite !length_app, Len. done.
  - intros i v Hi. apply lookup_snoc_Some in Hi as [[Li Hi]|[-> <-]].
    + destruct (Fl i v Hi) as (? & c' & ? & ?). split; [done|]. exists c'. split; [by apply lookup_app_l_Some|done].
    + split; [done|]. exists c. split; [rewrite Len; by apply list_lookup_middle|done].
  - split.
    + apply snoc_spaced; [done| |].
      * destruct (last_attempt (dedup_key c.1 (NName c.2)) (reverse (trace st))) as [t|] eqn:E; simpl; rewrite E;
          [|right; by intros ? [=]].
        destruct (Z.lt_ge_cases (clk env (length (trace st))) (t + window)).
        -- left. apply D. eauto.
        -- right. by intros ? [= <-].
      * intros j w Hj i u Lt Hi. destruct (Fl j w Hj) as [-> _], (Fl i u Hi) as [-> _]. apply Clock. lia.
    + apply snoc_answered; [done|done| |exact Mono]. simpl. intros E. by apply D.
Qed.

End Suppression.


Definition demo_event : Event := mkEvent "security.pii" "critical" "leak" [] 0 "team-1".
Definition demo_channel : Notifier := mkNotifier "ops" (fun k _ => if Nat.eqb k 0 then Some "timeout" else None).
Definition demo_env : Env := mkEnv (fun k => Z.of_nat k * (10 * Minute)) (fun _ => None) (fun _ => true).


(** A failed attempt takes the key all the same: the alert that failed is suppressed until its
    window has passed, and then sent. *)
Example failed_alert_suppressed :
  map VOutcome (trace (dispatch (Some (15 * Minute)) demo_env [mkRule ["security.*"] "" [demo_channel]] demo_event
    (run (Some (15 * Minute)) demo_env (replicate 2 (demo_event, demo_channel)) init))) =
  [Failed "timeout"; Deduplicated; Delivered].
Proof. vm_compute. reflexivity. Qed.

(** ** The webhook's attempts *)

Section Webhook_facts.
Context (format_int : Z -> string) (ctx_done : Z -> bool) (ctx_err : string) (Do : Z -> res string Z).

Definition accepted (k : Z) : Prop := exists status, Do k = Ok status /\ 200 <= status < 300.

Lemma attempts_spec n k wait e :
  0 <= k -> let '(r, made, _) := attempts format_int ctx_done ctx_err None Do n k wait e in
  (length made <= n)%nat /\
  match r with
  | None => (exists j, j ∈ made /\ accepted j) \/ n = O /\ e = None
  | Some _ => forall j, j ∈ made -> ~ accepted j
  end.
Proof.
  revert k wait e. induction n as [|n IH]; intros k wait e K; cbn [attempts].
  { split; [simpl; lia|]. destruct e; [|by right]. intros j Hj. by apply elem_of_nil in Hj. }
  destruct ((0 <? k) && ctx_done k).
  { split; [simpl; lia|]. intros j Hj. by apply elem_of_nil in Hj. }
  assert (forall wait' e', (forall s, Do k = Ok s -> ~ (200 <= s < 300)) -> e' <> None ->
    let '(r, made, ws) := attempts format_int ctx_done ctx_err None Do n (k + 1) wait' e' in
    (length (k :: made) <= S n)%nat /\
    match r with
    | None => (exists j, j ∈ k :: made /\ accepted j) \/ S n = O /\ e = None
    | Some _ => forall j, j ∈ k :: made -> ~ accepted j
    end) as Next.
  { intros wait' e' N Ne. specialize (IH (k + 1) wait' e' ltac:(lia)).
    destruct (attempts _ _ _ _ _ n (k + 1) wait' e') as [[r made] ws]. destruct IH as [L H].
    split; [simpl; lia|]. destruct r as [m|].
    - intros j [->|Hj]%elem_of_cons; [|by apply H]. intros (st & E & Rg). by apply (N st).
    - destruct H as [(j & Hj & A)|[_ ?]]; [|done]. left. exists j. split; [by right|done]. }
  destruct (Do k) as [status|m] eqn:E.
  - destruct ((200 <=? status) && (status <? 300)) eqn:Rg.
    + split; [simpl; lia|]. left. exists k. split; [by left|]. exists status. split; [done|].
      apply andb_true_iff in Rg as [?%Z.leb_le ?%Z.ltb_lt]. lia.
    + specialize (Next (if 0 <? k then wrap64 (wait * 2) else wait)
        (Some ("webhook: attempt " +:+ format_int (k + 1) +:+ ": status " +:+ format_int status))).
      destruct (attempts _ _ _ _ _ n (k + 1) _ _) as [[r made] ws]. apply Next; [|done].
      intros s [= <-] [??]. apply andb_false_iff in Rg as [?%Z.leb_gt|?%Z.ltb_ge]; lia.
  - specialize (Next (if 0 <? k then wrap64 (wait * 2) else wait)
      (Some ("webhook: attempt " +:+ format_int (k + 1) +:+ ": " +:+ m))).
    destruct (attempts _ _ _ _ _ n (k + 1) _ _) as [[r made] ws]. apply Next; [by intros|done].
Qed.

(** A webhook is reported as sent only when an attempt was accepted, after at most [retry + 1]
    attempts. *)
Lemma webhook_sent body w :
  0 <= WRetry w ->
  let '(r, made, _) := webhook_Send format_int ctx_done ctx_err None Do (Ok body) w in
  Z.of_nat (length made) <= WRetry w + 1 /\ (r = None -> exists j, j ∈ made /\ accepted j).
Proof.
  intros R. unfold webhook_Send.
  pose proof (attempts_spec (Z.to_nat (WRetry w + 1)) 0 (500 * Millisecond) None ltac:(lia)) as H.
  destruct (attempts _ _ _ _ _ _ _ _ _) as [[r made] ws]. destruct H as [L H]. split; [lia|].
  intros ->. destruct H as [H|[H _]]; [done|lia].
Qed.

End Webhook_facts.

(** A negative retry count makes no attempt at all, and reports success. *)
Example negative_retry_reports_success :
  webhook_Send (fun _ => "") (fun _ => false) "" None (fun _ => Err "down") (Ok "{}")
    (NewWebhookNotifier "ops" "http://x" "" (-1)) = (None, [], []).
Proof. reflexivity. Qed.

(** The waits double from half a second. *)
Example webhook_waits :
  (webhook_Send (fun _ => "") (fun _ => false) "" None (fun _ => Err "down") (Ok "{}")
    (NewWebhookNotifier "ops" "http://x" "" 0)).2 = [500 * Millisecond; 1000 * Millisecond; 2000 * Millisecond].
Proof. vm_compute. reflexivity. Qed.

(** The channel asked for does not choose where a test alert goes: the same rules match. *)
Lemma test_goes_to_all_channels rule channel channel' millis now :
  matchesRule rule (complete now (test_event channel millis now)) =
  matchesRule rule (complete now (test_event channel' millis now)).
Proof. reflexivity. Qed.

(** A test alert that no rule names by its type reaches nobody. *)
Example test_alert_unrouted dedup env st :
  admin_Test dedup env [mkRule ["budget.*"; "provider.*"] "" [mkNotifier "ops" (fun _ _ => None)]] "ops" "k1" 1 st = st.
Proof. reflexivity. Qed.

End Alerting.
