(* ===== verification/Mcp.v ===== *)
(** * MCP hub, policy and proxy (internal/mcp, handler/mcp.go, handler/admin_mcp.go)

    The registry of upstream tool servers, the per-key policy, the proxy that enforces it with a
    cache of tool results and an audit trail, and the handlers. A server is what its transport
    answers, as a function of the number of the call; the transports themselves are
    in [McpTransport]. The order in which concurrent servers deliver their lists is an
    argument. *)

From S2P Require Import Prelude GoStrings Types ABTest.
Local Open Scope Z_scope.

Module Mcp.

Local Open Scope go_scope.

(** ** policy.go *)

Record Policy := mkPolicy {
  AllowedServers : list string;
  AllowedTools : list string;
  BlockedTools : list string;
  RequireApproval : list string;
  MaxResultSize : Z
}.

Definition defaultMaxResultSize : Z := 2 ^ 20.

Definition DefaultPolicy : Policy := mkPolicy [] [] [] [] 0.

(** A nil policy is [None]. *)
Definition EffectiveMaxResultSize (p : option Policy) : Z :=
  match p with
  | None => defaultMaxResultSize
  | Some p => if MaxResultSize p <=? 0 then defaultMaxResultSize else MaxResultSize p
  end.

Definition CanAccessServer (p : option Policy) (server : string) : bool :=
  match p with
  | None => true
  | Some p => match AllowedServers p with [] => true | l => slices_Contains l server end
  end.

Definition CanCallTool (p : option Policy) (server tool : string) : bool :=
  if negb (CanAccessServer p server) then false
  else match p with
       | None => true
       | Some p =>
           if slices_Contains (BlockedTools p) tool then false
           else if (0 <? Z.of_nat (length (AllowedTools p))) && negb (slices_Contains (AllowedTools p) tool) then false
           else true
       end.

Definition NeedsApproval (p : option Policy) (tool : string) : bool :=
  match p with None => false | Some p => slices_Contains (RequireApproval p) tool end.

(** ** types.go *)

(** Tools, resources and prompts: the name the policy looks at, the rest, and the server. *)
Record Tool := mkTool { TName : string; TRest : RawMessage; TServer : string }.
Record Resource := mkResource { RURI : string; RRest : RawMessage; RServer : string }.
Record Prompt := mkPrompt { PName : string; PRest : RawMessage; PServer : string }.

Record ToolContent := mkContent { CType : string; CText : string; CRest : RawMessage }.

(** The encodings of the arguments; a value that cannot be encoded has none. *)
Record ToolCallRequest := mkCall { Server : string; ToolName : string; Arguments : gmap string RawMessage }.

Record ToolCallResponse := mkResp { Content : list ToolContent; IsError : bool; Cached : bool; DurationMS : Z }.

(** ** transport.go: the interface *)

Inductive answer (A : Type) := Answer (a : A) | Fault (m : string).
Arguments Answer {A} a.
Arguments Fault {A} m.

(** The [k]-th call made to any server decides its answer. *)
Record ServerOps := mkServer {
  ListTools_of : nat -> answer (list Tool);
  CallTool_of : nat -> string -> gmap string RawMessage -> answer RawMessage;
  ListResources_of : nat -> answer (list Resource);
  ReadResource_of : nat -> string -> answer RawMessage;
  ListPrompts_of : nat -> answer (list Prompt);
  GetPrompt_of : nat -> string -> gmap string string -> answer RawMessage;
  Health_of : nat -> option string
}.

(** ** hub.go *)

Abbreviation Hub := (gmap string ServerOps).

Definition NewHub : Hub := ∅.
Definition Register (name : string) (s : ServerOps) (h : Hub) : Hub := <[name := s]> h.
Definition ServerNames (h : Hub) : list string := (map_to_list h).*1.

(** What the hub did: the calls to servers, in order. *)
Inductive upcall :=
| UListTools (server : string)
| UCallTool (server tool : string) (args : gmap string RawMessage)
| UListResources (server : string)
| UReadResource (server uri : string)
| UListPrompts (server : string)
| UGetPrompt (server name : string)
| UHealth (server : string).

Definition upcall_server (u : upcall) : string :=
  match u with
  | UListTools s | UCallTool s _ _ | UListResources s | UReadResource s _ | UListPrompts s | UGetPrompt s _ | UHealth s => s
  end.

(** A state with the calls made so far; the number of calls is the next call's number. *)
Abbreviation Up := (list upcall).

Definition with_server {A} (h : Hub) (server : string) (u : upcall) (f : ServerOps -> nat -> answer A) (log : Up)
  : answer A * Up :=
  match h !! server with
  | None => (Fault ("mcp server not found: " +:+ server), log)
  | Some s => (f s (length log), log ++ [u])
  end.

Definition hub_CallTool (h : Hub) (server tool : string) (args : gmap string RawMessage) : Up -> answer RawMessage * Up :=
  with_server h server (UCallTool server tool args) (fun s k => CallTool_of s k tool args).
Definition hub_ReadResource (h : Hub) (server uri : string) : Up -> answer RawMessage * Up :=
  with_server h server (UReadResource server uri) (fun s k => ReadResource_of s k uri).
Definition hub_GetPrompt (h : Hub) (server name : string) (args : gmap string string) : Up -> answer RawMessage * Up :=
  with_server h server (UGetPrompt server name) (fun s k => GetPrompt_of s k name args).

(** Every server is asked; a server that fails contributes nothing. [order] is the order in
    which the servers' goroutines get the lock. *)
Fixpoint list_all {A} (h : Hub) (call : string -> upcall) (f : ServerOps -> nat -> answer (list A))
    (tag : string -> A -> A) (order : list string) (log : Up) : list A * Up :=
  match order with
  | [] => ([], log)
  | name :: order =>
      let '(r, log) := with_server h name (call name) f log in
      let '(rest, log) := list_all h call f tag order log in
      (match r with Answer l => map (tag name) l | Fault _ => [] end ++ rest, log)
  end.

Definition tag_tool (s : string) (t : Tool) : Tool := mkTool (TName t) (TRest t) s.
Definition tag_resource (s : string) (r : Resource) : Resource := mkResource (RURI r) (RRest r) s.
Definition tag_prompt (s : string) (p : Prompt) : Prompt := mkPrompt (PName p) (PRest p) s.

Definition ListAllTools (h : Hub) := list_all h UListTools ListTools_of tag_tool.
Definition ListAllResources (h : Hub) := list_all h UListResources ListResources_of tag_resource.
Definition ListAllPrompts (h : Hub) := list_all h UListPrompts ListPrompts_of tag_prompt.

Fixpoint HealthAll (h : Hub) (order : list string) (log : Up) : gmap string string * Up :=
  match order with
  | [] => (∅, log)
  | name :: order =>
      match h !! name with
      | None => HealthAll h order log
      | Some s =>
          let status := match Health_of s (length log) with Some m => m | None => "ok" end in
          let '(rest, log) := HealthAll h order (log ++ [UHealth name]) in
          (<[name := status]> rest, log)
      end
  end.

(** ** proxy.go: the result cache *)

(** hash/fnv's 64-bit FNV-1a. *)
Fixpoint fnv64_from (h : Z) (s : string) : Z :=
  match s with
  | EmptyString => h
  | String c s => fnv64_from (Z.lxor h (Z.of_nat (Ascii.nat_of_ascii c)) * 1099511628211 mod 2 ^ 64) s
  end.
Definition fnv64a (s : string) : Z := fnv64_from 14695981039346656037 s.

(** The bytes that are hashed: server, tool, and each argument's name and encoding, by name. *)
Definition key_bytes (req : ToolCallRequest) : string :=
  Server req +:+ ABTest.NUL +:+ ToolName req +:+ ABTest.NUL +:+
  foldr (fun kv t => kv.1 +:+ kv.2 +:+ t) ""
    (insertionSort (fun a b => String.ltb a.1 b.1) (map_to_list (Arguments req))).

(** The key is the hash in hexadecimal; the number stands for its text. *)
Definition cache_key (req : ToolCallRequest) : Z := fnv64a (key_bytes req).

Record cacheEntry := mkEntry { content : list ToolContent; expiresAt : Time }.

Abbreviation Cache := (gmap Z cacheEntry).

Definition cache_Get (c : Cache) (req : ToolCallRequest) (now : Time) : option (list ToolContent) :=
  match c !! cache_key req with
  | None => None
  | Some e => if time_After now (expiresAt e) then None else Some (content e)
  end.

Definition cache_Set (ttl : Duration) (c : Cache) (req : ToolCallRequest) (l : list ToolContent) (now : Time) : Cache :=
  <[cache_key req := mkEntry l (time_Add now ttl)]> c.

Definition cleanup (c : Cache) (now : Time) : Cache :=
  filter (fun kv => time_After now (expiresAt kv.2) = false) c.

(** ** proxy.go: the proxy *)

Record ToolCallEvent := mkToolEvent {
  EvServer : string;
  EvTool : string;
  EvResultSize : Z;
  EvError : string;
  EvVirtualKeyID : string;
  EvRequestID : string
}.

(** The cache is missing when the lifetime is not positive. *)
Record State := mkState { cache : option Cache; upstream : Up; audit : list ToolCallEvent }.

Inductive proxy_error :=
| PolicyError (server tool : string)
| ApprovalNeeded (server tool : string)
| CallFailed (server tool : string) (m : string)
| TooLarge (size limit : Z).

Section Proxy.
Context (ttl : Duration) (h : Hub).
(** The decoding of a result: its content unless it fails, and what was stored of [isError]. *)
Context (parse_result : RawMessage -> option (list ToolContent) * bool).

Definition NewProxy : State := mkState (if 0 <? ttl then Some ∅ else None) [] [].

(** The result as it is returned: what was decoded, or the bytes as text. *)
Definition decode_result (raw : RawMessage) : list ToolContent * bool :=
  match parse_result raw with
  | (Some l, isError) => (l, isError)
  | (None, isError) => ([mkContent "text" raw ""], isError)
  end.

(** [start] and [done] are the clock before the call and after it. *)
Definition CallTool (policy : option Policy) (virtualKeyID requestID : string) (start done : Time)
    (req : ToolCallRequest) (st : State) : res proxy_error ToolCallResponse * State :=
  if negb (CanCallTool policy (Server req) (ToolName req)) then (Err (PolicyError (Server req) (ToolName req)), st)
  else if NeedsApproval policy (ToolName req) then (Err (ApprovalNeeded (Server req) (ToolName req)), st)
  else
    match cache st ≫= (fun c => cache_Get c req start) with
    | Some cached => (Ok (mkResp cached false true 0), st)
    | None =>
        let '(r, log) := hub_CallTool h (Server req) (ToolName req) (Arguments req) (upstream st) in
        let ev size err := mkToolEvent (Server req) (ToolName req) size err virtualKeyID requestID in
        match r with
        | Fault m => (Err (CallFailed (Server req) (ToolName req) m), mkState (cache st) log (audit st ++ [ev 0 m]))
        | Answer raw =>
            let size := Z.of_nat (String.length raw) in
            let logged := audit st ++ [ev size ""] in
            if EffectiveMaxResultSize policy <? size
            then (Err (TooLarge size (EffectiveMaxResultSize policy)), mkState (cache st) log logged)
            else
              let '(l, isError) := decode_result raw in
              (Ok (mkResp l isError false (Z.quot (time_Sub done start) Millisecond)),
               mkState (if isError then cache st else (fun c => cache_Set ttl c req l done) <$> cache st) log logged)
        end
    end.

(** A list from one server or from all; what the policy hides is left out. *)
Definition ListTools (policy : option Policy) (serverFilter : string) (order : list string) (log : Up) : list Tool * Up :=
  if negb (String.eqb serverFilter "") then
    let '(r, log) := with_server h serverFilter (UListTools serverFilter) ListTools_of log in
    (match r with
     | Fault _ => []
     | Answer ts => List.filter (fun t => CanCallTool policy serverFilter (TName t)) (map (tag_tool serverFilter) ts)
     end, log)
  else
    let '(all, log) := ListAllTools h order log in
    (List.filter (fun t => CanCallTool policy (TServer t) (TName t)) all, log).

Definition ListResources (policy : option Policy) (serverFilter : string) (order : list string) (log : Up)
  : list Resource * Up :=
  if negb (String.eqb serverFilter "") then
    if negb (CanAccessServer policy serverFilter) then ([], log)
    else
      let '(r, log) := with_server h serverFilter (UListResources serverFilter) ListResources_of log in
      (match r with Fault _ => [] | Answer l => map (tag_resource serverFilter) l end, log)
  else
    let '(all, log) := ListAllResources h order log in
    (List.filter (fun r => CanAccessServer policy (RServer r)) all, log).

Definition ListPrompts (policy : option Policy) (serverFilter : string) (order : list string) (log : Up)
  : list Prompt * Up :=
  if negb (String.eqb serverFilter "") then
    if negb (CanAccessServer policy serverFilter) then ([], log)
    else
      let '(r, log) := with_server h serverFilter (UListPrompts serverFilter) ListPrompts_of log in
      (match r with Fault _ => [] | Answer l => map (tag_prompt serverFilter) l end, log)
  else
    let '(all, log) := ListAllPrompts h order log in
    (List.filter (fun p => CanAccessServer policy (PServer p)) all, log).

Definition ReadResource (policy : option Policy) (server uri : string) (log : Up) : res proxy_error RawMessage * Up :=
  if negb (CanAccessServer policy server) then (Err (PolicyError server ""), log)
  else let '(r, log) := hub_ReadResource h server uri log in
       (match r with Answer a => Ok a | Fault m => Err (CallFailed server "" m) end, log).

Definition GetPrompt (policy : option Policy) (server name : string) (args : gmap string string) (log : Up)
  : res proxy_error RawMessage * Up :=
  if negb (CanAccessServer policy server) then (Err (PolicyError server ""), log)
  else let '(r, log) := hub_GetPrompt h server name args log in
       (match r with Answer a => Ok a | Fault m => Err (CallFailed server "" m) end, log).

(** ** handler/mcp.go *)

(** The policy of the context, or the open one. *)
Definition policyFromCtx (p : option Policy) : option Policy :=
  match p with Some p => Some p | None => Some DefaultPolicy end.

Inductive reply := Json (status : Z) | JsonError (status code : Z) | Called (r : ToolCallResponse) | Raw (m : RawMessage).

Definition error_reply (e : proxy_error) : reply :=
  match e with
  | PolicyError _ _ => JsonError 403 (-32001)
  | _ => JsonError 502 (-32603)
  end.

(** A body that does not decode is [None]. *)
Definition handle_CallTool (ctx : option Policy) (keyID requestID : string) (start done : Time)
    (body : option ToolCallRequest) (st : State) : reply * State :=
  match body with
  | None => (Json 400, st)
  | Some req =>
      if String.eqb (Server req) "" || String.eqb (ToolName req) "" then (Json 400, st)
      else match CallTool (policyFromCtx ctx) keyID requestID start done req st with
           | (Ok r, st) => (Called r, st)
           | (Err e, st) => (error_reply e, st)
           end
  end.

Definition handle_ReadResource (ctx : option Policy) (body : option (string * string)) (log : Up) : reply * Up :=
  match body with
  | None => (Json 400, log)
  | Some (server, uri) =>
      if String.eqb server "" || String.eqb uri "" then (Json 400, log)
      else match ReadResource (policyFromCtx ctx) server uri log with
           | (Ok m, log) => (Raw m, log)
           | (Err e, log) => (error_reply e, log)
           end
  end.

Definition handle_GetPrompt (ctx : option Policy) (body : option (string * string * gmap string string)) (log : Up)
  : reply * Up :=
  match body with
  | None => (Json 400, log)
  | Some (server, name, args) =>
      if String.eqb server "" || String.eqb name "" then (Json 400, log)
      else match GetPrompt (policyFromCtx ctx) server name args log with
           | (Ok m, log) => (Raw m, log)
           | (Err e, log) => (error_reply e, log)
           end
  end.

(** A body that does not decode is an empty request: the lists of all servers. *)
Definition handle_ListTools (ctx : option Policy) (body : option string) (order : list string) (log : Up) : list Tool * Up :=
  ListTools (policyFromCtx ctx) (default "" body) order log.
Definition handle_ListResources (ctx : option Policy) (body : option string) (order : list string) (log : Up)
  : list Resource * Up :=
  ListResources (policyFromCtx ctx) (default "" body) order log.
Definition handle_ListPrompts (ctx : option Policy) (body : option string) (order : list string) (log : Up)
  : list Prompt * Up :=
  ListPrompts (policyFromCtx ctx) (default "" body) order log.

End Proxy.

(** ** handler/admin_mcp.go *)

Record ServerConfig := mkConfig { ScName : string; ScType : string; Command : string; ScURL : string }.

Record Admin := mkAdmin { hub : Hub; cfgs : list ServerConfig }.

(** [connect] is [NewServer] and its [Connect]. *)
Definition RegisterServer (IsAbs : string -> bool) (connect : ServerConfig -> res string ServerOps)
    (body : option ServerConfig) (a : Admin) : reply * Admin :=
  match body with
  | None => (Json 400, a)
  | Some cfg =>
      if String.eqb (ScName cfg) "" || String.eqb (ScType cfg) "" then (Json 400, a)
      else if String.eqb (ScType cfg) "stdio" && (String.eqb (Command cfg) "" || negb (IsAbs (Command cfg)))
      then (Json 400, a)
      else match connect cfg with
           | Err _ => (Json 502, a)
           | Ok s => (Json 201, mkAdmin (Register (ScName cfg) s (hub a)) (cfgs a ++ [cfg]))
           end
  end.

Definition DeleteServer (name : string) (a : Admin) : reply * Admin :=
  match hub a !! name with
  | None => (Json 404, a)
  | Some _ => (Json 200, mkAdmin (hub a) (List.filter (fun c => negb (String.eqb (ScName c) name)) (cfgs a)))
  end.

Definition admin_ListServers (a : Admin) (order : list string) (log : Up) : list (ServerConfig * string) :=
  let health := (HealthAll (hub a) order log).1 in
  map (fun c => (c, match health !! ScName c with
                    | Some s => if String.eqb s "" then "unknown" else s
                    | None => "unknown"
                    end)) (cfgs a).

Definition admin_GetServer (a : Admin) (name : string) (order : list string) (log : Up) : option (ServerConfig * string) :=
  match find (fun c => String.eqb (ScName c) name) (cfgs a) with
  | None => None
  | Some c => Some (c, default "unknown" ((HealthAll (hub a) order log).1 !! name))
  end.

Definition admin_HealthCheck (a : Admin) (name : string) (log : Up) : reply :=
  match hub a !! name with
  | None => Json 404
  | Some s => match Health_of s (length log) with Some _ => Json 503 | None => Json 200 end
  end.

(** The tools of one server as it lists them, without a policy. *)
Definition admin_ListServerTools (a : Admin) (name : string) (log : Up) : res reply (list Tool) :=
  match hub a !! name with
  | None => Err (Json 404)
  | Some s => match ListTools_of s (length log) with Fault _ => Err (Json 502) | Answer ts => Ok ts end
  end.

(** A policy is echoed and kept nowhere. *)
Definition admin_SetPolicy (body : option Policy) (a : Admin) : res reply Policy * Admin :=
  match body with None => (Err (Json 400), a) | Some p => (Ok p, a) end.

(** ** Enforcement of the policy *)

Section Enforcement.
Context (ttl : Duration) (h : Hub) (parse_result : RawMessage -> option (list ToolContent) * bool).

(** The operations of the proxy's clients, each under the policy of its key, and the cache's
    housekeeping. *)
Inductive op :=
| OCall (policy : option Policy) (keyID requestID : string) (start done : Time) (req : ToolCallRequest)
| OListTools (policy : option Policy) (filter : string) (order : list string)
| OListResources (policy : option Policy) (filter : string) (order : list string)
| OListPrompts (policy : option Policy) (filter : string) (order : list string)
| ORead (policy : option Policy) (server uri : string)
| OPrompt (policy : option Policy) (server name : string) (args : gmap string string)
| OCleanup (now : Time).

Inductive output :=
| RCall (r : res proxy_error ToolCallResponse)
| RTools (l : list Tool)
| RResources (l : list Resource)
| RPrompts (l : list Prompt)
| RRaw (r : res proxy_error RawMessage)
| RNone.

Definition set_up (st : State) (log : Up) : State := mkState (cache st) log (audit st).

Definition step (st : State) (o : op) : output * State :=
  match o with
  | OCall p k r start done req =>
      let '(x, st) := CallTool ttl h parse_result p k r start done req st in (RCall x, st)
  | OListTools p f order => let '(x, log) := ListTools h p f order (upstream st) in (RTools x, set_up st log)
  | OListResources p f order => let '(x, log) := ListResources h p f order (upstream st) in (RResources x, set_up st log)
  | OListPrompts p f order => let '(x, log) := ListPrompts h p f order (upstream st) in (RPrompts x, set_up st log)
  | ORead p s u => let '(x, log) := ReadResource h p s u (upstream st) in (RRaw x, set_up st log)
  | OPrompt p s n a => let '(x, log) := GetPrompt h p s n a (upstream st) in (RRaw x, set_up st log)
  | OCleanup now => (RNone, mkState ((fun c => cleanup c now) <$> cache st) (upstream st) (audit st))
  end.

(** The state after a sequence of operations, and what each of them returned. *)
Fixpoint run (st : State) (ops : list op) : list output * State :=
  match ops with
  | [] => ([], st)
  | o :: ops =>
      let '(x, st) := step st o in
      let '(xs, st) := run st ops in
      (x :: xs, st)
  end.

(** An operation may make a server call only for what its policy permits; listing asks every
    server, and hides afterwards. *)
Definition may_call (o : op) (u : upcall) : Prop :=
  match o, u with
  | OCall p _ _ _ _ req, UCallTool s t args =>
      s = Server req /\ t = ToolName req /\ args = Arguments req /\
      CanCallTool p s t = true /\ NeedsApproval p t = false
  | ORead p s _, UReadResource s' _ => s' = s /\ CanAccessServer p s = true
  | OPrompt p s _ _, UGetPrompt s' _ => s' = s /\ CanAccessServer p s = true
  | OListTools _ _ _, UListTools _ => True
  | OListResources p f _, UListResources s => f = "" \/ s = f /\ CanAccessServer p s = true
  | OListPrompts p f _, UListPrompts s => f = "" \/ s = f /\ CanAccessServer p s = true
  | _, _ => False
  end.

(** What an operation may return. *)
Definition may_return (o : op) (x : output) : Prop :=
  match o, x with
  | OCall p _ _ _ _ req, RCall (Ok _) =>
      CanCallTool p (Server req) (ToolName req) = true /\ NeedsApproval p (ToolName req) = false
  | OListTools p _ _, RTools l => Forall (fun t => CanCallTool p (TServer t) (TName t) = true) l
  | OListResources p _ _, RResources l => Forall (fun r => CanAccessServer p (RServer r) = true) l
  | OListPrompts p _ _, RPrompts l => Forall (fun t => CanAccessServer p (PServer t) = true) l
  | ORead p s _, RRaw (Ok _) => CanAccessServer p s = true
  | OPrompt p s _ _, RRaw (Ok _) => CanAccessServer p s = true
  | _, _ => True
  end.

(** The tool calls of a log, as the audit trail names them. *)
Definition tool_calls (log : Up) : list (string * string) :=
  omap (fun u => match u with UCallTool s t _ => Some (s, t) | _ => None end) log.

(** The events of an audit trail about servers that exist: a call to an unknown server is
    audited too, but reaches none. *)
Definition reached (evs : list ToolCallEvent) : list (string * string) :=
  map (fun ev => (EvServer ev, EvTool ev)) (List.filter (fun ev => bool_decide (is_Some (h !! EvServer ev))) evs).

Lemma reached_app l1 l2 : reached (l1 ++ l2) = reached l1 ++ reached l2.
Proof. unfold reached. by rewrite List.filter_app, map_app. Qed.

Lemma tool_calls_app l1 l2 : tool_calls (l1 ++ l2) = tool_calls l1 ++ tool_calls l2.
Proof. apply omap_app. Qed.

(** Calling through the registry adds the call to the log, or nothing. *)
Lemma with_server_log {A} server u (f : ServerOps -> nat -> answer A) log :
  exists l, (with_server h server u f log).2 = log ++ l /\ (l = [] \/ l = [u]).
Proof.
  unfold with_server. destruct (h !! server).
  - exists [u]. auto.
  - exists []. rewrite app_nil_r. auto.
Qed.

Lemma list_all_log {A} call f (tag : string -> A -> A) order log :
  exists l, (list_all h call f tag order log).2 = log ++ l /\ forall u, u ∈ l -> exists s, u = call s.
Proof.
  revert log. induction order as [|name order IH]; intros log; cbn [list_all].
  { exists []. rewrite app_nil_r. split; [done|]. intros u Hu. by apply elem_of_nil in Hu. }
  destruct (with_server_log name (call name) f log) as (l & E & C).
  destruct (with_server h name (call name) f log) as [r log1]. simpl in E. subst log1.
  destruct (IH (log ++ l)) as (l2 & E2 & C2). destruct (list_all h call f tag order (log ++ l)) as [rest log2].
  simpl in E2 |- *. subst log2. exists (l ++ l2). split; [by rewrite app_assoc|].
  intros u [Hu|Hu]%elem_of_app; [|by apply C2].
  destruct C as [->| ->]; [by apply elem_of_nil in Hu|]. apply list_elem_of_singleton in Hu as ->. by exists name.
Qed.

(** What one operation adds to the log and the audit trail. *)
Definition step_ok (st : State) (o : op) : Prop :=
  let '(x, st') := step st o in
  may_return o x /\
  exists l evs, upstream st' = upstream st ++ l /\ audit st' = audit st ++ evs /\
    Forall (may_call o) l /\ reached evs = tool_calls l.

Lemma list_filter_Forall {A} (P : A -> bool) l : Forall (fun x => P x = true) (List.filter P l).
Proof. apply Forall_forall. intros x Hx%list_elem_of_In. by apply filter_In in Hx as [_ ?]. Qed.

(** A call that was made and only logged. *)
Lemma logged_only st o x log' u :
  may_return o x -> (exists l, log' = upstream st ++ l /\ (l = [] \/ l = [u])) ->
  may_call o u -> tool_calls [u] = [] ->
  may_return o x /\ exists l evs, log' = upstream st ++ l /\ audit st = audit st ++ evs /\
    Forall (may_call o) l /\ reached evs = tool_calls l.
Proof.
  intros R (l & -> & L) C T. split; [done|]. exists l, []. rewrite app_nil_r.
  destruct L as [->| ->]; split_and!; try done; by repeat constructor.
Qed.

Lemma step_none st o x : may_return o x ->
  may_return o x /\ exists l evs, upstream st = upstream st ++ l /\ audit st = audit st ++ evs /\
    Forall (may_call o) l /\ reached evs = tool_calls l.
Proof. intros R. split; [done|]. exists [], []. by rewrite !app_nil_r. Qed.

Lemma step_call p k r start done req st : step_ok st (OCall p k r start done req).
Proof.
  unfold step_ok. cbn [step]. unfold CallTool.
  destruct (CanCallTool p (Server req) (ToolName req)) eqn:C; cbn [negb]; [|by apply step_none].
  destruct (NeedsApproval p (ToolName req)) eqn:N; [by apply step_none|].
  destruct (cache st ≫= _) as [l|]; [by apply step_none|].
  unfold hub_CallTool, with_server.
  destruct (h !! Server req) as [s|] eqn:Hs; cbn [fst snd].
  2:{ split; [done|]. eexists [], [_]. rewrite app_nil_r. split_and!; try done.
      unfold reached. cbn [List.filter EvServer]. rewrite bool_decide_false; [done|].
      rewrite Hs. by intros [? ?]. }
  assert (forall size err, reached [mkToolEvent (Server req) (ToolName req) size err k r] =
    tool_calls [UCallTool (Server req) (ToolName req) (Arguments req)]) as Rc.
  { intros size err. unfold reached. cbn [List.filter EvServer]. by rewrite bool_decide_true by eauto. }
  assert (may_call (OCall p k r start done req) (UCallTool (Server req) (ToolName req) (Arguments req))) as M
    by by split_and!.
  destruct (CallTool_of s _ _ _) as [raw|m].
  - destruct (EffectiveMaxResultSize p <? _).
    + split; [done|]. eexists [_], [_]. split_and!; [done|done|by repeat constructor|apply Rc].
    + destruct (decode_result parse_result raw) as [l e].
      split; [done|]. eexists [_], [_]. split_and!; [done|done|by repeat constructor|apply Rc].
  - split; [done|]. eexists [_], [_]. split_and!; [done|done|by repeat constructor|apply Rc].
Qed.

(** Listing all servers. *)
Lemma step_list_all {A} st o x call f (tag : string -> A -> A) order :
  may_return o x -> (forall s, may_call o (call s) /\ tool_calls [call s] = []) ->
  may_return o x /\ exists l evs, (list_all h call f tag order (upstream st)).2 = upstream st ++ l /\
    audit st = audit st ++ evs /\ Forall (may_call o) l /\ reached evs = tool_calls l.
Proof.
  intros R M. split; [done|].
  destruct (list_all_log call f tag order (upstream st)) as (l & -> & L). exists l, []. rewrite app_nil_r.
  split_and!; try done.
  - apply Forall_forall. intros u Hu. destruct (L u Hu) as [s ->]. apply M.
  - clear - L M. induction l as [|u l IH]; [done|].
    destruct (L u ltac:(by left)) as [s ->]. change (tool_calls (call s :: l)) with (tool_calls ([call s] ++ l)).
    rewrite tool_calls_app, (proj2 (M s)). apply IH. intros u Hu. apply L. by right.
Qed.

Lemma tagged_Forall {A} (P : A -> bool) (tag : string -> A -> A) s l :
  (forall a, P (tag s a) = true) -> Forall (fun a => P a = true) (map (tag s) l).
Proof. intros H. induction l; constructor; auto. Qed.

Lemma step_respects_policy st o : step_ok st o.
Proof.
  destruct o as [p k r start done req|p f order|p f order|p f order|p s u|p s n a|now];
    [apply step_call|..]; unfold step_ok; cbn [step].
  - unfold ListTools. destruct (String.eqb_spec f "") as [->|Nf]; cbn [negb].
    + pose proof (step_list_all st (OListTools p "" order)
        (RTools (List.filter (fun t => CanCallTool p (TServer t) (TName t)) (ListAllTools h order (upstream st)).1))
        UListTools ListTools_of tag_tool order (list_filter_Forall _ _) ltac:(done)) as G.
      unfold ListAllTools in *. by destruct (list_all h UListTools ListTools_of tag_tool order (upstream st)).
    + pose proof (with_server_log f (UListTools f) ListTools_of (upstream st)) as L.
      destruct (with_server h f (UListTools f) ListTools_of (upstream st)) as [x log].
      cbn [set_up upstream audit]; eapply (logged_only st); [|exact L|done|done]. destruct x as [ts|m]; [|constructor]. cbn [may_return].
      pose proof (list_filter_Forall (fun t => CanCallTool p f (TName t)) (map (tag_tool f) ts)) as F.
      apply Forall_forall. intros t Ht. pose proof Ht as Ht2. rewrite Forall_forall in F. apply F in Ht.
      apply list_elem_of_In, filter_In, proj1, in_map_iff in Ht2 as (t' & <- & _). done.
  - unfold ListResources. destruct (String.eqb_spec f "") as [->|Nf]; cbn [negb].
    + pose proof (step_list_all st (OListResources p "" order)
        (RResources (List.filter (fun t => CanAccessServer p (RServer t)) (ListAllResources h order (upstream st)).1))
        UListResources ListResources_of tag_resource order (list_filter_Forall _ _) ltac:(intros; split; [by left|done])) as G.
      unfold ListAllResources in *. by destruct (list_all h UListResources ListResources_of tag_resource order (upstream st)).
    + destruct (CanAccessServer p f) eqn:C; cbn [negb]; [|apply (step_none st); constructor].
      pose proof (with_server_log f (UListResources f) ListResources_of (upstream st)) as L.
      destruct (with_server h f (UListResources f) ListResources_of (upstream st)) as [x log].
      cbn [set_up upstream audit]; eapply (logged_only st); [|exact L|by right|done]. destruct x as [ts|m]; [|constructor]. by apply tagged_Forall.
  - unfold ListPrompts. destruct (String.eqb_spec f "") as [->|Nf]; cbn [negb].
    + pose proof (step_list_all st (OListPrompts p "" order)
        (RPrompts (List.filter (fun t => CanAccessServer p (PServer t)) (ListAllPrompts h order (upstream st)).1))
        UListPrompts ListPrompts_of tag_prompt order (list_filter_Forall _ _) ltac:(intros; split; [by left|done])) as G.
      unfold ListAllPrompts in *. by destruct (list_all h UListPrompts ListPrompts_of tag_prompt order (upstream st)).
    + destruct (CanAccessServer p f) eqn:C; cbn [negb]; [|apply (step_none st); constructor].
      pose proof (with_server_log f (UListPrompts f) ListPrompts_of (upstream st)) as L.
      destruct (with_server h f (UListPrompts f) ListPrompts_of (upstream st)) as [x log].
      cbn [set_up upstream audit]; eapply (logged_only st); [|exact L|by right|done]. destruct x as [ts|m]; [|constructor]. by apply tagged_Forall.
  - unfold ReadResource. destruct (CanAccessServer p s) eqn:C; cbn [negb]; [|apply (step_none st); constructor].
    pose proof (with_server_log s (UReadResource s u) (fun s k => ReadResource_of s k u) (upstream st)) as L.
    unfold hub_ReadResource. destruct (with_server h s _ _ (upstream st)) as [x log].
    cbn [set_up upstream audit]; eapply (logged_only st); [|exact L|done|done]. by destruct x.
  - unfold GetPrompt. destruct (CanAccessServer p s) eqn:C; cbn [negb]; [|apply (step_none st); constructor].
    pose proof (with_server_log s (UGetPrompt s n) (fun s k => GetPrompt_of s k n a) (upstream st)) as L.
    unfold hub_GetPrompt. destruct (with_server h s _ _ (upstream st)) as [x log].
    cbn [set_up upstream audit]; eapply (logged_only st); [|exact L|done|done]. by destruct x.
  - by apply (step_none st).
Qed.

Lemma run_respects_policy ops st :
  let '(xs, st') := run st ops in
  Forall2 may_return ops xs /\
  exists l evs, upstream st' = upstream st ++ l /\ audit st' = audit st ++ evs /\
    Forall (fun u => exists o, o ∈ ops /\ may_call o u) l /\ reached evs = tool_calls l.
Proof.
  revert st. induction ops as [|o ops IH]; intros st; cbn [run].
  { split; [constructor|]. exists [], []. by rewrite !app_nil_r. }
  pose proof (step_respects_policy st o) as S. unfold step_ok in S. destruct (step st o) as [x st1].
  destruct S as (R & l1 & e1 & U1 & A1 & C1 & T1). specialize (IH st1). destruct (run st1 ops) as [xs st2].
  destruct IH as (Rs & l2 & e2 & U2 & A2 & C2 & T2). split; [by constructor|].
  exists (l1 ++ l2), (e1 ++ e2). rewrite U2, U1, A2, A1, !app_assoc, reached_app, tool_calls_app, T1, T2.
  split_and!; try done. apply Forall_app. split; (eapply Forall_impl; [eassumption|]); simpl.
  - intros u M. exists o. split; [by left|done].
  - intros u (o' & ? & ?). exists o'. split; [by right|done].
Qed.

(** C20. The policies of the keys are enforced: whatever the clients of the proxy do, in any
    order, a tool is called on a server only for a request whose policy allows that tool and
    asks for no approval, a resource or prompt is read only from a server the policy allows,
    no operation returns a tool, resource or prompt its policy hides, and the audit trail has,
    in order, exactly one event for each tool call that reached a server. *)
Theorem policy_enforced ops :
  let '(xs, st) := run (NewProxy ttl) ops in
  Forall2 may_return ops xs /\
  (forall u, u ∈ upstream st -> exists o, o ∈ ops /\ may_call o u) /\
  reached (audit st) = tool_calls (upstream st).
Proof.
  pose proof (run_respects_policy ops (NewProxy ttl)) as G. destruct (run (NewProxy ttl) ops) as [xs st].
  destruct G as (R & l & evs & U & A & C & T). simpl in U, A.
  rewrite U, A. split_and!; [done| |done]. by rewrite Forall_forall in C.
Qed.

(** ** The cache of tool results *)

(** An operation that asked a server and got the content [l], and when it was stored. *)
Definition fetched (key : Z) (l : list ToolContent) (stored : Time) (ox : op * output) : Prop :=
  exists p k r start req ms,
    ox = (OCall p k r start stored req, RCall (Ok (mkResp l false false ms))) /\ cache_key req = key.

(** Every entry of the cache was fetched by an operation of the history. *)
Definition backed (hist : list (op * output)) (c : option Cache) : Prop :=
  forall m key e, c = Some m -> m !! key = Some e ->
    exists ox t, ox ∈ hist /\ fetched key (content e) t ox /\ expiresAt e = time_Add t ttl.

Lemma backed_mono hist hist' c : backed hist c -> (forall x, x ∈ hist -> x ∈ hist') -> backed hist' c.
Proof. intros B H m key e E L. destruct (B m key e E L) as (ox & t & ? & ? & ?). exists ox, t. auto. Qed.

Lemma step_backed hist st o :
  backed hist (cache st) -> let '(x, st') := step st o in backed (hist ++ [(o, x)]) (cache st').
Proof.
  intros B.
  assert (forall x, backed (hist ++ [(o, x)]) (cache st)) as Same
    by (intros x; eapply backed_mono; [exact B|]; intros; apply elem_of_app; by left).
  destruct o as [p k r start done req|p f order|p f order|p f order|p s u|p s n a|now]; cbn [step].
  - unfold CallTool. destruct (negb _); [apply Same|]. destruct (NeedsApproval _ _); [apply Same|].
    destruct (cache st ≫= _) as [l|]; [apply Same|].
    destruct (hub_CallTool _ _ _ _ _) as [[raw|m] log]; [|apply Same].
    destruct (_ <? _); [apply Same|]. destruct (decode_result parse_result raw) as [l [|]]; [apply Same|].
    intros m key e E L. cbn [cache] in E. destruct (cache st) as [c|] eqn:Ec; [|done]. injection E as <-.
    unfold cache_Set in L. destruct (decide (key = cache_key req)) as [->|N].
    + rewrite lookup_insert_eq in L. injection L as <-. eexists (_, _), done. split_and!.
      * apply elem_of_app. right. apply list_elem_of_singleton. reflexivity.
      * by repeat eexists.
      * done.
    + rewrite lookup_insert_ne in L by done. by eapply (Same _ c).
  - destruct (ListTools h p f order (upstream st)). apply Same.
  - destruct (ListResources h p f order (upstream st)). apply Same.
  - destruct (ListPrompts h p f order (upstream st)). apply Same.
  - destruct (ReadResource h p s u (upstream st)). apply Same.
  - destruct (GetPrompt h p s n a (upstream st)). apply Same.
  - intros m key e E L. cbn [cache] in E. destruct (cache st) as [c|] eqn:Ec; [|done]. injection E as <-.
    unfold cleanup in L. apply map_lookup_filter_Some in L as [L _]. by eapply (Same _ c).
Qed.

(** A cached response is an entry that has not expired. *)
Lemma step_cached hist st p k r start done req resp st' :
  backed hist (cache st) -> step st (OCall p k r start done req) = (RCall (Ok resp), st') -> Cached resp = true ->
  exists ox t, ox ∈ hist /\ fetched (cache_key req) (Content resp) t ox /\ start <= time_Add t ttl.
Proof.
  intros B. cbn [step]. unfold CallTool. destruct (negb _); [by intros [=]|].
  destruct (NeedsApproval _ _); [by intros [=]|].
  destruct (cache st ≫= _) as [l|] eqn:Ec.
  - intros E _. injection E as <- <-. cbn [Content]. destruct (cache st) as [c|] eqn:Es; [|done].
    simpl in Ec. unfold cache_Get in Ec. destruct (c !! cache_key req) as [e|] eqn:L; [|done].
    destruct (time_After start (expiresAt e)) eqn:A; [done|]. injection Ec as <-.
    destruct (B c (cache_key req) e eq_refl L) as (ox & t & ? & ? & X). exists ox, t. split_and!; try done.
    rewrite <- X. unfold time_After in A. by apply Z.ltb_ge in A.
  - destruct (hub_CallTool _ _ _ _ _) as [[raw|m] log]; [|by intros [=]].
    destruct (_ <? _); [by intros [=]|]. destruct (decode_result parse_result raw) as [l e].
    intros E. injection E as <- <-. done.
Qed.

Lemma run_cached ops hist st :
  backed hist (cache st) ->
  let '(xs, _) := run st ops in
  forall i p k r start done req resp,
    ops !! i = Some (OCall p k r start done req) -> xs !! i = Some (RCall (Ok resp)) -> Cached resp = true ->
    exists ox t, ox ∈ hist ++ zip (take i ops) (take i xs) /\
      fetched (cache_key req) (Content resp) t ox /\ start <= time_Add t ttl.
Proof.
  revert hist st. induction ops as [|o ops IH]; intros hist st B; cbn [run]; [by intros i|].
  pose proof (step_backed hist st o B) as B1. destruct (step st o) as [x st1] eqn:S.
  specialize (IH _ st1 B1). destruct (run st1 ops) as [xs st2].
  intros [|i] p k r start done req resp Ho Hx C; simpl in Ho, Hx.
  - injection Ho as ->. injection Hx as ->.
    destruct (step_cached hist st _ _ _ _ _ _ _ _ B S C) as (ox & t & ? & ? & ?).
    exists ox, t. split_and!; try done. apply elem_of_app. by left.
  - destruct (IH i p k r start done req resp Ho Hx C) as (ox & t & Hin & ? & ?). exists ox, t.
    split_and!; try done. simpl. by rewrite <- app_assoc in Hin.
Qed.

(** A cached tool result is a recent one: when a call is answered from the cache, an
    earlier operation got that very content from a server, under the same cache key and at
    most a cache lifetime before. *)
Theorem cached_tool_result ops i p k r start done req resp :
  let xs := (run (NewProxy ttl) ops).1 in
    ops !! i = Some (OCall p k r start done req) -> xs !! i = Some (RCall (Ok resp)) -> Cached resp = true ->
    exists j ox t, (j < i)%nat /\ zip ops xs !! j = Some ox /\
      fetched (cache_key req) (Content resp) t ox /\ start <= time_Add t ttl.
Proof.
  assert (backed [] (cache (NewProxy ttl))) as B.
  { intros m key e E L. cbn [NewProxy cache] in E. destruct (0 <? ttl); [|done]. injection E as <-.
    by rewrite lookup_empty in L. }
  pose proof (run_cached ops [] (NewProxy ttl) B) as G. destruct (run (NewProxy ttl) ops) as [xs st].
  cbn [fst]. intros Ho Hx C.
  destruct (G i p k r start done req resp Ho Hx C) as (ox & t & Hin & F & T). rewrite app_nil_l in Hin.
  apply list_elem_of_lookup in Hin as [j Hj]. exists j, ox, t. split_and!; try done.
  - apply lookup_lt_Some in Hj. rewrite length_zip_with, !length_take in Hj. lia.
  - apply lookup_zip_with_Some in Hj as (a & b & -> & Ha & Hb).
    apply lookup_take_Some in Ha as [Ha _]. apply lookup_take_Some in Hb as [Hb _].
    apply lookup_zip_with_Some. eauto.
Qed.

End Enforcement.

Definition echo_server : ServerOps :=
  mkServer (fun _ => Answer [mkTool "read" "" ""; mkTool "write" "" ""]) (fun _ t _ => Answer ("done: " +:+ t))
    (fun _ => Answer []) (fun _ _ => Fault "none") (fun _ => Answer []) (fun _ _ _ => Fault "none") (fun _ => None).
Definition demo_hub : Hub := {["files" := echo_server]}.
Definition read_only : Policy := mkPolicy ["files"] [] ["write"] [] 0.
Definition demo_call (tool : string) (start : Time) : op :=
  OCall (Some read_only) "vk" "r" start (start + 1) (mkCall "files" tool ∅).
Definition demo_ops : list op := [demo_call "read" 0; demo_call "write" 5; demo_call "read" 60].

Lemma cached_tool_result_witness :
  exists j ox t, (j < 2)%nat /\ zip demo_ops (run 100 demo_hub (fun _ => (None, false)) (NewProxy 100) demo_ops).1 !! j = Some ox /\
    fetched (cache_key (mkCall "files" "read" ∅)) [mkContent "text" "done: read" ""] t ox /\ 60 <= time_Add t 100.
Proof.
  apply (cached_tool_result 100 demo_hub (fun _ => (None, false)) demo_ops 2%nat (Some read_only) "vk" "r" 60 61
    (mkCall "files" "read" ∅) (mkResp [mkContent "text" "done: read" ""] false true 0));
    vm_compute; reflexivity.
Defined.

(** The listing hides a blocked tool and the call is refused before any server is asked. *)
Example blocked_tool :
  let '(xs, st) := run 100 demo_hub (fun _ => (None, false)) (NewProxy 100)
    [OListTools (Some read_only) "" ["files"]; demo_call "write" 0] in
  xs = [RTools [mkTool "read" "" "files"]; RCall (Err (PolicyError "files" "write"))] /\
  upstream st = [UListTools "files"].
Proof. vm_compute. done. Qed.

(** The cache is keyed by the request alone: a result that a generous policy let in is served
    to a key whose limit it exceeds. *)
Example cached_result_exceeds_limit :
  let small := mkPolicy [] [] [] [] 4 in
  let call p := OCall (Some p) "vk" "r" 0 1 (mkCall "files" "read" ∅) in
  (run 100 demo_hub (fun _ => (None, false)) (NewProxy 100) [call small; call DefaultPolicy; call small]).1 =
  [RCall (Err (TooLarge 10 4)); RCall (Ok (mkResp [mkContent "text" "done: read" ""] false false 0));
   RCall (Ok (mkResp [mkContent "text" "done: read" ""] false true 0))].
Proof. vm_compute. reflexivity. Qed.

(** Names and encodings of the arguments are hashed without a separator: different arguments
    have the same key. *)
Example argument_keys_collide :
  cache_key (mkCall "files" "read" {["a" := "1"; "b" := "2"]}) =
  cache_key (mkCall "files" "read" {["a1b" := "2"]}).
Proof. vm_compute. reflexivity. Qed.

(** Deleting a server takes it off the list but leaves it in the hub, where calls still reach
    it. *)
Lemma deleted_server_still_called name a :
  is_Some (hub a !! name) -> hub (DeleteServer name a).2 !! name = hub a !! name.
Proof. intros [s E]. unfold DeleteServer. by rewrite E. Qed.

End Mcp.
