(* ===== verification/Prompts.v ===== *)
(** * Prompts (internal/prompt, store/postgres/prompt_store.go, handler/admin_prompts.go)

    Templates with placeholders, their rendering, the tables of prompts and versions, the
    service that publishes and rolls back versions, and the handlers. Every database call can
    fail; the order in which a query without ORDER BY returns rows is an argument, and so is
    the JSON encoding of variable definitions. *)

From S2P Require Import Prelude GoStrings Float64 Types.
Local Open Scope Z_scope.

Module Prompts.

Local Open Scope go_scope.

(** ** renderer.go *)

Record VariableDef := mkVar {
  VName : string;
  VType : string;
  Required : bool;
  Default : string;
  VValues : list string
}.

(** The word characters of the pattern. *)
Definition is_word (c : ascii) : bool :=
  let n := Ascii.nat_of_ascii c in
  ((48 <=? n) && (n <=? 57) || (65 <=? n) && (n <=? 90) || (97 <=? n) && (n <=? 122) || (n =? 95))%nat.

Fixpoint span_word (s : string) : string * string :=
  match s with
  | EmptyString => (EmptyString, EmptyString)
  | String c s' => if is_word c then let '(w, r) := span_word s' in (String c w, r) else (EmptyString, s)
  end.

(** A match of the pattern at the head of a string: the name in it and what follows. *)
Definition match_var (s : string) : option (string * string) :=
  if HasPrefix s "{{" then
    let '(name, rest) := span_word (drop_str 2 s) in
    if negb (String.eqb name "") && HasPrefix rest "}}" then Some (name, drop_str 2 rest) else None
  else None.

Definition placeholder (name : string) : string := "{{" +:+ name +:+ "}}".

Section Rendering.
Context (defs : gmap string VariableDef) (values : gmap string string).

(** What replaces a match, and the name if it is missing. *)
Definition replacement (name : string) : string * list string :=
  match values !! name with
  | Some v => (v, [])
  | None =>
      match defs !! name with
      | Some d =>
          if negb (String.eqb (Default d) "") then (Default d, [])
          else (placeholder name, if Required d then [name] else [])
      | None => (placeholder name, [])
      end
  end.

(** The leftmost matches, one after the other. *)
Fixpoint replace_all (fuel : nat) (s : string) : string * list string :=
  match fuel with
  | O => (s, [])
  | S fuel =>
      match match_var s with
      | Some (name, rest) =>
          let '(v, m) := replacement name in
          let '(r, ms) := replace_all fuel rest in
          (v +:+ r, m ++ ms)
      | None =>
          match s with
          | EmptyString => (EmptyString, [])
          | String c s' => let '(r, ms) := replace_all fuel s' in (String c r, ms)
          end
      end
  end.

End Rendering.

(** A later definition of a name replaces an earlier one. *)
Definition defs_of (variables : list VariableDef) : gmap string VariableDef :=
  foldl (fun m v => <[VName v := v]> m) ∅ variables.

(** The missing names, or the text. Each pass takes a byte at least, so the length is enough
    fuel. *)
Definition Render (template : string) (variables : list VariableDef) (values : gmap string string)
  : res (list string) string :=
  match replace_all (defs_of variables) values (S (String.length template)) template with
  | (r, []) => Ok r
  | (_, missing) => Err missing
  end.

Definition CountTokens (text : string) : Z :=
  let words := Z.of_nat (length (Fields text)) in
  let tokens := f64_to_int64 (f64_div (f64_of_Z words) (f64_const 3 4)) in
  if (tokens <? 1) && (0 <? Z.of_nat (String.length text)) then 1 else tokens.

(** ** prompt_store.go *)

Record PromptRow := mkPromptRow {
  PID : string;
  Slug : string;
  PName : string;
  Description : string;
  TeamID : option string;
  Visibility : string;
  PCreatedBy : option string;
  PCreatedAt : Time
}.

Record PromptVersionRow := mkVersionRow {
  VID : string;
  VPromptID : string;
  Version : string;
  VStatus : string;
  Template : string;
  Variables : RawMessage;
  Parameters : RawMessage;
  VModel : string;
  Changelog : string;
  VCreatedBy : option string;
  VCreatedAt : Time
}.

(** The tables, in the order of insertion. *)
Record DB := mkDB { prompts : list PromptRow; versions : list PromptVersionRow }.

(** What the database does with a call: the identifiers and time it gives new rows, and its
    error, if it fails. *)
Record dbcall := mkDbCall { new_id : string; db_now : Time; db_err : option string }.

Definition same_team (a b : option string) : bool :=
  let nil := "00000000-0000-0000-0000-000000000000" in String.eqb (default nil a) (default nil b).

Section Store.
(** The order of the rows of a query that does not ask for one. *)
Context (scan : list PromptRow -> list PromptRow).

Definition store_CreatePrompt (c : dbcall) (slug name description visibility : string)
    (teamID createdBy : option string) (db : DB) : res string PromptRow * DB :=
  match db_err c with
  | Some m => (Err m, db)
  | None =>
      if existsb (fun p => String.eqb (Slug p) slug && same_team (TeamID p) teamID) (prompts db)
      then (Err "unique violation", db)
      else
        let row := mkPromptRow (new_id c) slug name description teamID visibility createdBy (db_now c) in
        (Ok row, mkDB (prompts db ++ [row]) (versions db))
  end.

Definition store_GetPromptBySlug (c : dbcall) (slug : string) (db : DB) : res string PromptRow :=
  match db_err c with
  | Some m => Err m
  | None =>
      match scan (List.filter (fun p => String.eqb (Slug p) slug) (prompts db)) with
      | [] => Err "no rows in result set"
      | p :: _ => Ok p
      end
  end.

Definition in_team (teamID : option string) (p : PromptRow) : bool :=
  match teamID with
  | None => true
  | Some t => match TeamID p with Some t' => String.eqb t' t | None => false end
  end.

(** ORDER BY created_at DESC. *)
Definition newest_first {A} (at_ : A -> Time) : list A -> list A := insertionSort (fun a b => at_ b <? at_ a).

Definition store_ListPrompts (teamID : option string) (db : DB) : list PromptRow :=
  newest_first PCreatedAt (List.filter (in_team teamID) (prompts db)).

(** A negative OFFSET is an error. *)
Definition store_ListPromptsPage (teamID : option string) (limit offset : Z) (db : DB) : res string (list PromptRow) :=
  if offset <? 0 then Err "OFFSET must not be negative"
  else Ok (take (Z.to_nat limit) (drop (Z.to_nat offset) (store_ListPrompts teamID db))).

Definition store_CountPrompts (teamID : option string) (db : DB) : Z :=
  Z.of_nat (length (List.filter (in_team teamID) (prompts db))).

Definition store_CreateVersion (c : dbcall) (promptID version status template model changelog : string)
    (variables parameters : RawMessage) (createdBy : option string) (db : DB) : res string PromptVersionRow * DB :=
  match db_err c with
  | Some m => (Err m, db)
  | None =>
      if negb (existsb (fun p => String.eqb (PID p) promptID) (prompts db)) then (Err "foreign key violation", db)
      else if existsb (fun v => String.eqb (VPromptID v) promptID && String.eqb (Version v) version) (versions db)
      then (Err "unique violation", db)
      else
        let row := mkVersionRow (new_id c) promptID version status template variables parameters model
          changelog createdBy (db_now c) in
        (Ok row, mkDB (prompts db) (versions db ++ [row]))
  end.

Definition is_active (promptID : string) (v : PromptVersionRow) : bool :=
  String.eqb (VPromptID v) promptID && String.eqb (VStatus v) "active".

Definition store_GetActiveVersion (c : dbcall) (promptID : string) (db : DB) : res string PromptVersionRow :=
  match db_err c with
  | Some m => Err m
  | None =>
      match newest_first VCreatedAt (List.filter (is_active promptID) (versions db)) with
      | [] => Err "no rows in result set"
      | v :: _ => Ok v
      end
  end.

Definition is_version (promptID version : string) (v : PromptVersionRow) : bool :=
  String.eqb (VPromptID v) promptID && String.eqb (Version v) version.

Definition store_GetVersion (c : dbcall) (promptID version : string) (db : DB) : res string PromptVersionRow :=
  match db_err c with
  | Some m => Err m
  | None =>
      match find (is_version promptID version) (versions db) with
      | Some v => Ok v
      | None => Err "no rows in result set"
      end
  end.

Definition store_ListVersions (promptID : string) (db : DB) : list PromptVersionRow :=
  newest_first VCreatedAt (List.filter (fun v => String.eqb (VPromptID v) promptID) (versions db)).

Definition set_status (status : string) (v : PromptVersionRow) : PromptVersionRow :=
  mkVersionRow (VID v) (VPromptID v) (Version v) status (Template v) (Variables v) (Parameters v)
    (VModel v) (Changelog v) (VCreatedBy v) (VCreatedAt v).

(** The two updates of the transaction. *)
Definition deprecate_others (promptID version : string) (v : PromptVersionRow) : PromptVersionRow :=
  if is_active promptID v && negb (String.eqb (Version v) version) then set_status "deprecated" v else v.
Definition mark (promptID version status : string) (v : PromptVersionRow) : PromptVersionRow :=
  if is_version promptID version v then set_status status v else v.

(** A failure at any point rolls the transaction back. *)
Definition store_SetVersionStatus (c : dbcall) (promptID version status : string) (db : DB) : res string unit * DB :=
  match db_err c with
  | Some m => (Err m, db)
  | None =>
      let vs := if String.eqb status "active" then map (deprecate_others promptID version) (versions db)
                else versions db in
      (Ok tt, mkDB (prompts db) (map (mark promptID version status) vs))
  end.

(** ** service.go *)

(** The encoding of definitions, and what decoding stores; a failure stores nothing. *)
Context (marshal_vars : list VariableDef -> RawMessage) (parse_vars : RawMessage -> list VariableDef).

Definition orDefault (s def : string) : string := if String.eqb s "" then def else s.

Record CreatePromptRequest := mkCreate {
  CSlug : string;
  CName : string;
  CDescription : string;
  CTeamID : option string;
  CVisibility : string;
  CTemplate : string;
  CVariables : list VariableDef;
  CParameters : RawMessage;
  CModel : string;
  CVersion : string;
  CChangelog : string;
  CCreatedBy : option string
}.

Record PublishVersionRequest := mkPublish {
  PVersion : string;
  PTemplate : string;
  PVariables : list VariableDef;
  PParameters : RawMessage;
  PModel : string;
  PChangelog : string;
  PubBy : option string
}.

(** The database's behaviour at each call of an operation. *)
Abbreviation Calls := (nat -> dbcall).

Definition CreatePrompt (c : Calls) (req : CreatePromptRequest) (db : DB)
  : res string (PromptRow * PromptVersionRow) * DB :=
  match store_CreatePrompt (c 0%nat) (CSlug req) (CName req) (CDescription req) (orDefault (CVisibility req) "team")
          (CTeamID req) (CCreatedBy req) db with
  | (Err m, db) => (Err ("create prompt: " +:+ m), db)
  | (Ok p, db) =>
      match store_CreateVersion (c 1%nat) (PID p) (orDefault (CVersion req) "1.0.0") "active" (CTemplate req)
              (CModel req) (CChangelog req) (marshal_vars (CVariables req)) (CParameters req) (CCreatedBy req) db with
      | (Err m, db) => (Err ("create prompt version: " +:+ m), db)
      | (Ok v, db) => (Ok (p, v), db)
      end
  end.

Definition PublishVersion (c : Calls) (slug : string) (req : PublishVersionRequest) (db : DB)
  : res string PromptVersionRow * DB :=
  match store_GetPromptBySlug (c 0%nat) slug db with
  | Err m => (Err ("prompt not found: " +:+ m), db)
  | Ok p =>
      match store_CreateVersion (c 1%nat) (PID p) (PVersion req) "active" (PTemplate req) (PModel req)
              (PChangelog req) (marshal_vars (PVariables req)) (PParameters req) (PubBy req) db with
      | (Err m, db) => (Err ("publish version: " +:+ m), db)
      | (Ok v, db) =>
          match store_SetVersionStatus (c 2%nat) (PID p) (Version v) "active" db with
          | (Err m, db) => (Err ("activate version: " +:+ m), db)
          | (Ok _, db) => (Ok v, db)
          end
      end
  end.

Definition Rollback (c : Calls) (slug version : string) (db : DB) : res string unit * DB :=
  match store_GetPromptBySlug (c 0%nat) slug db with
  | Err m => (Err ("prompt not found: " +:+ m), db)
  | Ok p => store_SetVersionStatus (c 1%nat) (PID p) version "active" db
  end.

Definition GetActive (c : Calls) (slug : string) (db : DB) : res string (PromptRow * PromptVersionRow) :=
  let* p := store_GetPromptBySlug (c 0%nat) slug db in
  let* v := store_GetActiveVersion (c 1%nat) (PID p) db in
  Ok (p, v).

Inductive render_error := Lookup (m : string) | Missing (names : list string).

Definition RenderActive (c : Calls) (slug : string) (values : gmap string string) (db : DB)
  : res render_error (string * Z) :=
  match GetActive c slug db with
  | Err m => Err (Lookup m)
  | Ok (_, v) =>
      match Render (Template v) (parse_vars (Variables v)) values with
      | Err names => Err (Missing names)
      | Ok text => Ok (text, CountTokens text)
      end
  end.

Definition Diff (c : Calls) (slug fromVer toVer : string) (db : DB) : res string (string * string) :=
  match store_GetPromptBySlug (c 0%nat) slug db with
  | Err m => Err ("prompt not found: " +:+ m)
  | Ok p =>
      match store_GetVersion (c 1%nat) (PID p) fromVer db with
      | Err m => Err ("from version: " +:+ m)
      | Ok fv =>
          match store_GetVersion (c 2%nat) (PID p) toVer db with
          | Err m => Err ("to version: " +:+ m)
          | Ok tv => Ok (Template fv, Template tv)
          end
      end
  end.

(** ** admin_prompts.go *)

Inductive response :=
| RError (status : Z)
| RPrompts (l : list PromptRow)
| RPage (l : list PromptRow) (total page limit : Z)
| RCreated (p : PromptRow) (v : PromptVersionRow)
| RVersion (status : Z) (v : PromptVersionRow)
| RActive (p : PromptRow) (v : PromptVersionRow)
| RVersions (l : list PromptVersionRow)
| RRendered (text : string) (tokens : Z)
| RDiff (from to : string)
| RMessage (m : string).

(** A query parameter: absent, or what [strconv.Atoi] makes of it. *)
Inductive param := Absent | Bad | Number (n : Z).

Definition page_limit (p : param) : option Z :=
  match p with
  | Absent => Some 100
  | Number n => if (n <? 1) || (1000 <? n) then None else Some n
  | Bad => None
  end.

Definition page_number (p : param) : option Z :=
  match p with
  | Absent => Some 1
  | Number n => if n <? 1 then None else Some n
  | Bad => None
  end.

(** The page and the limit of a request, and its rows. *)
Definition admin_List (count_ok list_ok : bool) (teamID : string) (page limit : param) (db : DB) : response :=
  let teamID := if String.eqb teamID "" then None else Some teamID in
  match page, limit with
  | Absent, Absent => if list_ok then RPrompts (store_ListPrompts teamID db) else RError 500
  | _, _ =>
      match page_limit limit with
      | None => RError 400
      | Some limit =>
          match page_number page with
          | None => RError 400
          | Some page =>
              if negb count_ok then RError 500
              else if negb list_ok then RError 500
              else match store_ListPromptsPage teamID limit ((page -i 1) *i limit) db with
                   | Err _ => RError 500
                   | Ok rows => RPage rows (store_CountPrompts teamID db) page limit
                   end
          end
      end
  end.

Definition admin_Create (c : Calls) (body : option CreatePromptRequest) (db : DB) : response * DB :=
  match body with
  | None => (RError 400, db)
  | Some req =>
      if String.eqb (CSlug req) "" || String.eqb (CName req) "" || String.eqb (CTemplate req) "" then (RError 400, db)
      else match CreatePrompt c req db with
           | (Err _, db) => (RError 500, db)
           | (Ok (p, v), db) => (RCreated p v, db)
           end
  end.

Definition admin_Get (c : Calls) (slug : string) (db : DB) : response :=
  match GetActive c slug db with Err _ => RError 404 | Ok (p, v) => RActive p v end.

Definition admin_ListVersions (c : Calls) (slug : string) (db : DB) : response :=
  match store_GetPromptBySlug (c 0%nat) slug db with
  | Err _ => RError 404
  | Ok p => match db_err (c 1%nat) with Some _ => RError 500 | None => RVersions (store_ListVersions (PID p) db) end
  end.

Definition admin_PublishVersion (c : Calls) (slug : string) (body : option PublishVersionRequest) (db : DB) : response * DB :=
  match body with
  | None => (RError 400, db)
  | Some req =>
      if String.eqb (PVersion req) "" || String.eqb (PTemplate req) "" then (RError 400, db)
      else match PublishVersion c slug req db with
           | (Err _, db) => (RError 500, db)
           | (Ok v, db) => (RVersion 201 v, db)
           end
  end.

Definition admin_GetVersion (c : Calls) (slug version : string) (db : DB) : response :=
  match store_GetPromptBySlug (c 0%nat) slug db with
  | Err _ => RError 404
  | Ok p => match store_GetVersion (c 1%nat) (PID p) version db with Err _ => RError 404 | Ok v => RVersion 200 v end
  end.

Definition admin_Rollback (c : Calls) (slug version : string) (db : DB) : response * DB :=
  match Rollback c slug version db with
  | (Err _, db) => (RError 500, db)
  | (Ok _, db) => (RMessage ("rolled back to " +:+ version), db)
  end.

Definition admin_Render (c : Calls) (slug : string) (body : option (gmap string string)) (db : DB) : response :=
  match body with
  | None => RError 400
  | Some values =>
      match RenderActive c slug values db with
      | Err _ => RError 422
      | Ok (text, tokens) => RRendered text tokens
      end
  end.

Definition admin_Diff (c : Calls) (slug from to : string) (db : DB) : response :=
  if String.eqb from "" || String.eqb to "" then RError 400
  else match Diff c slug from to db with Err _ => RError 404 | Ok (f, t) => RDiff f t end.

End Store.

(** ** Rendering *)

(** A template as its author thinks of it: text and variables. *)
Inductive segment := Lit (text : string) | Var (name : string).

Definition unparse (segs : list segment) : string :=
  foldr (fun g t => match g with Lit s => s +:+ t | Var n => placeholder n +:+ t end) "" segs.

(** Text in which no placeholder can begin, and names of word characters. *)
Definition segment_ok (g : segment) : Prop :=
  match g with
  | Lit s => Contains s "{{" = false /\ HasSuffix s "{" = false
  | Var n => n <> "" /\ span_word n = (n, "")
  end.

(** What each segment stands for, and the names that are missing. *)
Definition segment_text (defs : gmap string VariableDef) (values : gmap string string) (g : segment) : string :=
  match g with Lit s => s | Var n => (replacement defs values n).1 end.
Definition segment_missing (defs : gmap string VariableDef) (values : gmap string string) (g : segment) : list string :=
  match g with Lit _ => [] | Var n => (replacement defs values n).2 end.

Lemma span_word_app n t : span_word n = (n, "") -> span_word (n +:+ "}}" +:+ t) = (n, "}}" +:+ t).
Proof.
  induction n as [|c n IH]; intros E; [done|]. cbn [span_word String.append] in *.
  destruct (is_word c); [|done]. destruct (span_word n) as [w r]. injection E as -> ->. by rewrite IH.
Qed.

Lemma match_var_placeholder n t : n <> "" -> span_word n = (n, "") -> match_var (placeholder n +:+ t) = Some (n, t).
Proof.
  intros N W. unfold match_var, placeholder. rewrite !str_app_assoc, HasPrefix_app.
  change 2%nat with (String.length "{{") at 1. rewrite drop_str_app, span_word_app by done.
  rewrite HasPrefix_app. rewrite (proj2 (String.eqb_neq n "") N). cbn [negb andb].
  change 2%nat with (String.length "}}"). by rewrite drop_str_app.
Qed.

(** No match begins in the text of a literal. *)
Lemma match_var_literal c s t :
  Contains (String c s) "{{" = false -> HasSuffix (String c s) "{" = false -> match_var (String c (s +:+ t)) = None.
Proof.
  intros C S. unfold match_var. destruct (HasPrefix (String c (s +:+ t)) "{{") eqn:P; [|done]. exfalso.
  cbn [HasPrefix] in P. destruct (Ascii.eqb_spec "{" c) as [<-|]; [|done].
  destruct s as [|d s]; [done|]. cbn [HasPrefix String.append] in P.
  destruct (Ascii.eqb_spec "{" d) as [<-|]; [|done].
  destruct s; discriminate C.
Qed.

Lemma literal_tail c s :
  Contains (String c s) "{{" = false -> HasSuffix (String c s) "{" = false ->
  Contains s "{{" = false /\ HasSuffix s "{" = false.
Proof.
  intros C S. rewrite Contains_unfold, orb_false_iff in C. cbn [HasSuffix] in S.
  rewrite orb_false_iff in S. tauto.
Qed.

Lemma replace_all_literal defs values s t fuel r ms :
  Contains s "{{" = false -> HasSuffix s "{" = false ->
  replace_all defs values fuel t = (r, ms) ->
  replace_all defs values (String.length s + fuel) (s +:+ t) = (s +:+ r, ms).
Proof.
  induction s as [|c s IH]; intros C S E; [done|]. cbn [String.length Nat.add replace_all String.append].
  rewrite (match_var_literal c s t) by done. destruct (literal_tail c s C S) as [C' S'].
  by rewrite (IH C' S' E).
Qed.

(** More fuel than the text is long changes nothing. *)
Lemma replace_all_fuel defs values segs fuel :
  Forall segment_ok segs -> (String.length (unparse segs) < fuel)%nat ->
  replace_all defs values fuel (unparse segs) =
  (foldr (fun g t => segment_text defs values g +:+ t) "" segs, flat_map (segment_missing defs values) segs).
Proof.
  intros F. revert fuel. induction F as [|g segs G F IH]; intros fuel L.
  { destruct fuel as [|fuel]; [simpl in L; lia|done]. }
  destruct g as [s|n]; cbn [unparse foldr] in *; fold (unparse segs) in *.
  - destruct G as [C S]. rewrite str_length_app in L.
    replace fuel with (String.length s + (fuel - String.length s))%nat by lia.
    apply replace_all_literal; [done|done|]. apply IH. lia.
  - destruct G as [N W]. destruct fuel as [|fuel]; [lia|]. cbn [replace_all].
    rewrite match_var_placeholder by done. cbn [segment_text segment_missing flat_map].
    destruct (replacement defs values n) as [v m]. rewrite IH; [done|].
    unfold placeholder in L. rewrite !str_length_app in L. simpl in L. lia.
Qed.

(** Rendering replaces every placeholder and nothing else: for a template made of text and
    variables, the result is the text with each variable's given value, else its default, else
    the placeholder itself, in order and without looking into the values again; it fails
    exactly when a required variable has neither, naming those variables in order. *)
Theorem Render_template segs variables values :
  Forall segment_ok segs ->
  let defs := defs_of variables in
  Render (unparse segs) variables values =
  match flat_map (segment_missing defs values) segs with
  | [] => Ok (foldr (fun g t => segment_text defs values g +:+ t) "" segs)
  | missing => Err missing
  end.
Proof.
  intros F defs. unfold Render. rewrite replace_all_fuel by (done || lia). fold defs.
  by destruct (flat_map (segment_missing defs values) segs).
Qed.

Definition demo_template : list segment :=
  [Lit "{ Dear "; Var "name"; Lit ", your "; Var "plan"; Lit " ends { soon"].

Lemma Render_template_witness :
  Render (unparse demo_template) [mkVar "plan" "string" true "trial" []] {["name" := "{{plan}}"]} =
  Ok "{ Dear {{plan}}, your trial ends { soon".
Proof.
  rewrite (Render_template demo_template); [vm_compute; reflexivity|].
  repeat constructor; vm_compute; try reflexivity; discriminate.
Defined.

(** ** Versions *)

(** A version's name is used once in a prompt. *)
Definition unique_versions (db : DB) : Prop :=
  NoDup (map (fun v => (VPromptID v, Version v)) (versions db)).

Definition activate (pid ver : string) (v : PromptVersionRow) : PromptVersionRow :=
  mark pid ver "active" (deprecate_others pid ver v).

Lemma activate_key pid ver v : (VPromptID (activate pid ver v), Version (activate pid ver v)) = (VPromptID v, Version v).
Proof. unfold activate, mark, deprecate_others. by repeat case_match. Qed.

Lemma activate_active pid ver v :
  is_active pid (activate pid ver v) = is_version pid ver v /\
  (is_version pid ver v = true -> activate pid ver v = set_status "active" v).
Proof.
  unfold activate, mark, deprecate_others, is_active, is_version.
  destruct (String.eqb_spec (VPromptID v) pid) as [E|N], (String.eqb_spec (Version v) ver) as [E'|N'],
    (String.eqb_spec (VStatus v) "active") as [E2|N2]; simpl;
    repeat (rewrite ?(proj2 (String.eqb_eq _ _) E), ?(proj2 (String.eqb_neq _ _) N), ?(proj2 (String.eqb_eq _ _) E'),
      ?(proj2 (String.eqb_neq _ _) N'), ?(proj2 (String.eqb_eq _ _) E2), ?(proj2 (String.eqb_neq _ _) N2); simpl); done.
Qed.

Lemma filter_activate pid ver vs :
  List.filter (is_active pid) (map (activate pid ver) vs) =
  map (set_status "active") (List.filter (is_version pid ver) vs).
Proof.
  induction vs as [|v vs IH]; [done|]. cbn [map List.filter]. destruct (activate_active pid ver v) as [-> E].
  destruct (is_version pid ver v); [|done]. cbn [map]. by rewrite IH, E.
Qed.

Lemma filter_version pid ver vs v :
  NoDup (map (fun v => (VPromptID v, Version v)) vs) -> find (is_version pid ver) vs = Some v ->
  List.filter (is_version pid ver) vs = [v].
Proof.
  induction vs as [|u vs IH]; cbn [map find List.filter]; intros N F; [done|].
  apply NoDup_cons in N as [Nin N].
  destruct (is_version pid ver u) eqn:U; [|by apply IH]. injection F as <-. f_equal.
  apply andb_true_iff in U as [Ep%String.eqb_eq Ev%String.eqb_eq].
  assert (forall w, w ∈ vs -> is_version pid ver w = false) as No.
  { intros w Hw. destruct (is_version pid ver w) eqn:W; [|done].
    apply andb_true_iff in W as [Ep'%String.eqb_eq Ev'%String.eqb_eq]. destruct Nin.
    rewrite Ep, Ev, <- Ep', <- Ev'. by apply (list_elem_of_fmap_2 (fun v => (VPromptID v, Version v))). }
  clear - No. induction vs as [|w vs IH]; [done|]. simpl. rewrite (No w) by by left. apply IH.
  intros w' H. apply No. by right.
Qed.

(** Activating a version that exists leaves it the only active one. *)
Lemma SetVersionStatus_active c pid ver db db' v :
  unique_versions db -> find (is_version pid ver) (versions db) = Some v ->
  store_SetVersionStatus c pid ver "active" db = (Ok tt, db') ->
  prompts db' = prompts db /\ List.filter (is_active pid) (versions db') = [set_status "active" v].
Proof.
  intros U F. unfold store_SetVersionStatus. destruct (db_err c); [by intros [=]|]. rewrite String.eqb_refl.
  intros E. injection E as <-. cbn [prompts versions]. split; [done|].
  rewrite map_map. change (map (fun x => mark pid ver "active" (deprecate_others pid ver x)) (versions db))
    with (map (activate pid ver) (versions db)). by rewrite filter_activate, (filter_version pid ver _ v).
Qed.

Section Versioning.
Context (scan : list PromptRow -> list PromptRow) (Scan : forall l, scan l ≡ₚ l).
Context (marshal_vars : list VariableDef -> RawMessage) (parse_vars : RawMessage -> list VariableDef).
Context (Json : forall vs, parse_vars (marshal_vars vs) = vs).

Lemma scan_one p : scan [p] = [p].
Proof. apply Permutation_singleton_r. apply Scan. Qed.

(** Whether a slug names one prompt. *)
Definition names (slug : string) (p : PromptRow) (db : DB) : Prop :=
  List.filter (fun q => String.eqb (Slug q) slug) (prompts db) = [p].

Lemma GetPromptBySlug_one c slug p db :
  names slug p db -> store_GetPromptBySlug scan c slug db = match db_err c with Some m => Err m | None => Ok p end.
Proof. intros N. unfold store_GetPromptBySlug. by rewrite N, scan_one. Qed.

Lemma GetActive_one c slug p db v :
  names slug p db -> List.filter (is_active (PID p)) (versions db) = [v] ->
  db_err (c 0%nat) = None -> db_err (c 1%nat) = None -> GetActive scan c slug db = Ok (p, v).
Proof.
  intros N A E0 E1. unfold GetActive. rewrite (GetPromptBySlug_one _ slug p) by done. rewrite E0. cbn.
  unfold store_GetActiveVersion. by rewrite E1, A.
Qed.

Lemma CreateVersion_ok c pid ver status tmpl model log vars params by_ db v db' :
  unique_versions db -> store_CreateVersion c pid ver status tmpl model log vars params by_ db = (Ok v, db') ->
  unique_versions db' /\ prompts db' = prompts db /\ versions db' = versions db ++ [v] /\
  v = mkVersionRow (new_id c) pid ver status tmpl vars params model log by_ (db_now c) /\
  find (is_version pid ver) (versions db') = Some v.
Proof.
  intros U. unfold store_CreateVersion. destruct (db_err c); [by intros [=]|]. destruct (negb _); [by intros [=]|].
  destruct (existsb _ (versions db)) eqn:X; [by intros [=]|]. intros E. injection E as <- <-. cbn [prompts versions].
  assert (forall w, w ∈ versions db -> is_version pid ver w = false) as No.
  { intros w Hw. destruct (is_version pid ver w) eqn:W; [|done]. rewrite <- X. symmetry.
    apply existsb_exists. exists w. split; [by apply list_elem_of_In|done]. }
  split_and!; try done.
  - unfold unique_versions. cbn [versions]. rewrite map_app. apply NoDup_app. split_and!; [done| |].
    + intros x Hx Hy. apply list_elem_of_singleton in Hy as ->.
      apply list_elem_of_In, in_map_iff in Hx as (w & Ew & Hw). injection Ew as Ep Ev.
      apply list_elem_of_In in Hw. apply No in Hw. unfold is_version in Hw. by rewrite Ep, Ev, !String.eqb_refl in Hw.
    + apply NoDup_singleton.
  - clear X U. induction (versions db) as [|w vs IH]; simpl.
    + unfold is_version; simpl; by rewrite !String.eqb_refl.
    + rewrite (No w) by by left. apply IH. intros w' H. apply No. by right.
Qed.

(** Publishing and rolling back switch the active version: after a version is published
    it is the prompt's only active one, and what is rendered for the slug is the published
    template with its own variables; after a rollback to a version that exists, that version is
    the only active one. The slug must name one prompt. *)
Theorem active_version_switched slug p db :
  unique_versions db -> names slug p db ->
  (forall c req v db', PublishVersion scan marshal_vars c slug req db = (Ok v, db') ->
     unique_versions db' /\ names slug p db' /\
     (exists w, List.filter (is_active (PID p)) (versions db') = [w] /\ Version w = PVersion req) /\
     forall c' values, db_err (c' 0%nat) = None -> db_err (c' 1%nat) = None ->
       RenderActive scan parse_vars c' slug values db' =
       match Render (PTemplate req) (PVariables req) values with
       | Ok text => Ok (text, CountTokens text)
       | Err missing => Err (Missing missing)
       end) /\
  (forall c ver v db', find (is_version (PID p) ver) (versions db) = Some v ->
     Rollback scan c slug ver db = (Ok tt, db') ->
     List.filter (is_active (PID p)) (versions db') = [set_status "active" v] /\
     forall c', db_err (c' 0%nat) = None -> db_err (c' 1%nat) = None ->
       GetActive scan c' slug db' = Ok (p, set_status "active" v)).
Proof.
  intros U N. split.
  - intros c req v db'. unfold PublishVersion. rewrite (GetPromptBySlug_one _ slug p) by done.
    destruct (db_err (c 0%nat)); [by intros [=]|].
    destruct (store_CreateVersion _ _ _ _ _ _ _ _ _ _ db) as [[v1|m] db1] eqn:C; [|by intros [=]].
    destruct (CreateVersion_ok _ _ _ _ _ _ _ _ _ _ _ _ _ U C) as (U1 & P1 & _ & V1 & F1).
    destruct (store_SetVersionStatus _ _ _ _ db1) as [[[]|m] db2] eqn:S; [|by intros [=]].
    intros E. injection E as <- <-. rewrite V1 in S. cbn [Version] in S.
    destruct (SetVersionStatus_active _ _ _ _ _ v1 U1 F1 S) as [P2 A].
    assert (names slug p db2) as N2 by (unfold names; by rewrite P2, P1).
    split_and!; [|done| |].
    + unfold store_SetVersionStatus in S. destruct (db_err (c 2%nat)); [done|]. rewrite String.eqb_refl in S.
      injection S as <-. unfold unique_versions. cbn [versions]. rewrite map_map, map_map.
      erewrite map_ext; [exact U1|]. intros w. exact (activate_key (PID p) (PVersion req) w).
    + exists (set_status "active" v1). split; [done|]. by rewrite V1.
    + intros c' values E0 E1. unfold RenderActive.
      rewrite (GetActive_one c' slug p db2 (set_status "active" v1)) by done. rewrite V1. cbn [set_status Template Variables].
      by rewrite Json.
  - intros c ver v db' F. unfold Rollback. rewrite (GetPromptBySlug_one _ slug p) by done.
    destruct (db_err (c 0%nat)); [by intros [=]|]. intros S.
    destruct (SetVersionStatus_active _ _ _ _ _ v U F S) as [P A]. split; [done|].
    intros c' E0 E1. apply GetActive_one; try done. unfold names. by rewrite P.
Qed.

End Versioning.

(** Codecs for definitions. *)
#[local] Instance VariableDef_eq_dec : EqDecision VariableDef.
Proof. solve_decision. Defined.
#[local] Instance VariableDef_countable : Countable VariableDef :=
  inj_countable' (fun v => (VName v, VType v, Required v, Default v, VValues v))
    (fun t => let '(n, ty, r, d, vs) := t in mkVar n ty r d vs) ltac:(by intros []).

Definition demo_calls : nat -> dbcall := fun k => mkDbCall "v-2" (10 + Z.of_nat k) None.
Definition demo_row (id ver status template : string) : PromptVersionRow :=
  mkVersionRow id "p" ver status template (text_of ([] : list VariableDef)) "" "" "" None 1.
Definition demo_prompt : PromptRow := mkPromptRow "p" "greet" "Greeting" "" None "team" None 0.
Definition demo_db : DB := mkDB [demo_prompt] [demo_row "v-1" "1.0.0" "active" "Hi {{name}}"].
Definition demo_publish : PublishVersionRequest :=
  mkPublish "1.1.0" "Hello {{name}}" [mkVar "name" "string" true "" []] "" "" "" None.
Definition decode_vars (s : RawMessage) : list VariableDef := default [] (of_text s).

Lemma active_version_switched_witness :
  RenderActive (fun l => l) decode_vars demo_calls "greet" {["name" := "Ada"]}
    (PublishVersion (fun l => l) text_of demo_calls "greet" demo_publish demo_db).2 = Ok ("Hello Ada", 2).
Proof.
  destruct (active_version_switched (fun l => l) (fun l => Permutation_refl l) (text_of (A:=list VariableDef)) decode_vars
    (fun vs => f_equal (default []) (of_text_of vs)) "greet" demo_prompt demo_db) as [H _].
  - apply NoDup_singleton.
  - vm_compute. reflexivity.
  - destruct (PublishVersion (fun l => l) text_of demo_calls "greet" demo_publish demo_db) as [r db'] eqn:E.
    assert (r = (PublishVersion (fun l => l) text_of demo_calls "greet" demo_publish demo_db).1) as Er by by rewrite E.
    destruct r as [v|m]; [|exfalso; revert Er; vm_compute; discriminate].
    destruct (H demo_calls demo_publish v db' E) as (_ & _ & _ & R).
    cbn [snd]. rewrite R by reflexivity. vm_compute. reflexivity.
Defined.

(** A rollback to a version that does not exist succeeds, and leaves the prompt without an
    active version. *)
Example rollback_to_nowhere :
  let '(r, db) := admin_Rollback (fun l => l) demo_calls "greet" "9.9.9" demo_db in
  r = RMessage "rolled back to 9.9.9" /\ admin_Get (fun l => l) demo_calls "greet" db = RError 404.
Proof. vm_compute. done. Qed.

(** A slug is unique in a team only, and looked up without the team: of two teams' prompts the
    first one found is served to both. *)
Example slug_of_another_team :
  let other := mkPromptRow "q" "greet" "Other" "" (Some "team-2") "team" None 1 in
  match admin_Get (fun l => l) demo_calls "greet" (mkDB [other; demo_prompt]
    [demo_row "v-1" "1.0.0" "active" "Hi"; mkVersionRow "w" "q" "1.0.0" "active" "Secret" "" "" "" "" None 0]) with
  | RActive p v => PID p = "q" /\ Template v = "Secret"
  | _ => False
  end.
Proof. vm_compute. done. Qed.

(** ** Pages *)

Lemma take_pages {A} (l : list A) (k n : nat) :
  mjoin (map (fun i => take k (drop (i * k) l)) (seq 0 n)) = take (n * k) l.
Proof.
  induction n as [|n IH]; [done|]. rewrite seq_S, map_app, join_app, IH. cbn [map mjoin list_join].
  rewrite app_nil_r. replace (S n * k)%nat with (n * k + k)%nat by lia.
  rewrite Nat.add_0_l. apply take_take_drop.
Qed.

(** The pages of a listing, one after the other, are the listing: no prompt is skipped or
    shown twice. *)
Lemma pages_tile teamID limit (n : nat) db :
  0 < limit -> Z.of_nat n * limit <= int64_max ->
  mjoin (map (fun page => match store_ListPromptsPage teamID limit ((Z.of_nat page -i 1) *i limit) db with
                          | Ok rows => rows
                          | Err _ => []
                          end) (seq 1 n)) =
  take (n * Z.to_nat limit) (store_ListPrompts teamID db).
Proof.
  intros L B. rewrite <- take_pages. f_equal. rewrite <- seq_shift, map_map. apply map_ext_in.
  intros i Hi%in_seq. unfold store_ListPromptsPage.
  assert (0 <= Z.of_nat i * limit <= int64_max) as Rg by nia.
  rewrite (wrap64_id (Z.of_nat (S i) - 1)) by (unfold in_int64, int64_min, int64_max in *; nia).
  replace (Z.of_nat (S i) - 1) with (Z.of_nat i) by lia.
  rewrite wrap64_id by (unfold in_int64, int64_min in *; lia).
  destruct (Z.ltb_spec (Z.of_nat i * limit) 0); [lia|].
  by rewrite Z2Nat.inj_mul, Nat2Z.id by lia.
Qed.

End Prompts.
