(* ===== verification/Endpoints.v ===== *)
(** * The other public endpoints (handler/completions.go, handler/embeddings.go, handler/models.go)

    Legacy text completions, which are answered through the fallback router as chats,
    embeddings with their cache, and the listing of models. *)

From S2P Require Import Prelude Float64 Types ProviderErrors LoadBalancer Fallback Cost.
From S2P Require Import Access ExactCache Chat Adapters.
Local Open Scope Z_scope.
Import PErr.

(** ** completions.go *)

Module Completions.

Local Open Scope go_scope.

Record CompletionRequest := mkCompletion {
  CmModel : string;
  Prompt : RawMessage;
  CmMaxTokens : option Z;
  CmTemperature : option float64;
  CmStream : bool;
  CmUser : string
}.

Record CompletionChoice := mkCmChoice { CmIndex : Z; CmText : string; CmFinish : string }.

Record CompletionResponse := mkCmResponse {
  CmRespID : string;
  CmObject : string;
  CmCreated : Z;
  CmRespModel : string;
  CmChoices : list CompletionChoice;
  CmUsage : option Usage
}.

Section Handler.
Context {W : Type} `{World W}.
(** JSON: a string, a list of strings, and a whole body. *)
Context (Quote : string -> string) (err_text : goerror -> string)
        (parse_str : RawMessage -> option string) (parse_strs : RawMessage -> option (list string))
        (Unmarshal : string -> res string CompletionRequest).

Definition promptToMessages (raw : RawMessage) : res string (list Message) :=
  match parse_str raw with
  | Some s => if String.eqb s "" then Err "prompt must not be empty" else Ok [mkMessage "user" s]
  | None =>
      match parse_strs raw with
      | Some ss =>
          match ss with
          | [] => Err "prompt must not be empty"
          | s :: _ => if String.eqb s "" then Err "prompt must not be empty" else Ok [mkMessage "user" s]
          end
      | None => Err "prompt must be a string or array of strings"
      end
  end.

Definition chatToCmplResponse (chat : ChatCompletionResponse) (model : string) : CompletionResponse :=
  mkCmResponse (RespID chat) "text_completion" (RespCreated chat) model
    (map (fun c => mkCmChoice (ChoiceIndex c) (Types.Content (ChoiceMessage c)) (FinishReason c)) (Choices chat))
    (RespUsage chat).

Definition chat_request (req : CompletionRequest) (msgs : list Message) : ChatCompletionRequest := {|
  Model := CmModel req; Messages := msgs; Temperature := CmTemperature req; MaxTokens := CmMaxTokens req;
  TopP := None; ReqN := None; Stream := CmStream req; ReqStreamOptions := None; Stop := "";
  PresencePenalty := None; FrequencyPenalty := None; User := CmUser req; Tools := [];
  Metadata := ∅; PromptSlug := ""; PromptVariables := ∅ |}.

(** The checks in the order they are made. *)
Definition validate (req : CompletionRequest) : res string (list Message) :=
  if String.eqb (CmModel req) "" then Err "model is required"
  else if String.eqb (Prompt req) "" then Err "prompt is required"
  else match CmMaxTokens req with
       | Some n => if n <=? 0 then Err "max_tokens must be a positive integer" else promptToMessages (Prompt req)
       | None => promptToMessages (Prompt req)
       end.

Inductive response :=
| HError (status : Z) (msg errType : string)
| HJson (resp : CompletionResponse)
| HStream (out : list Sse.output)
| HPanic.

(** The error answer of a chain that failed, and what is logged. *)
Definition failed (label : string) (e : goerror) (l : Telemetry.RequestLogContext)
  : response * Telemetry.RequestLogContext :=
  match errors_As_gateway e with
  | Some g => (HError (HTTPStatus g) (GMessage g) (code_string (Code g)),
               Telemetry.SetError (code_string (Code g)) (GMessage g) l)
  | None => (HError 502 (err_text e) "api_error", Telemetry.SetError label (err_text e) l)
  end.

Definition Handle (fr : Fallback.Router W) (body : option string)
    (schedule : list StreamChunk -> list Sse.input) (id : string) (created : Z)
    (l : Telemetry.RequestLogContext) (w : W) : response * Telemetry.RequestLogContext * W :=
  match body with
  | None => (HError 400 "failed to read request body" "invalid_request_error", l, w)
  | Some body =>
  match Unmarshal body with
  | Err m => (HError 400 ("invalid JSON: " +:+ m) "invalid_request_error", l, w)
  | Ok req =>
  match validate req with
  | Err m => (HError 400 m "invalid_request_error", l, w)
  | Ok msgs =>
      let parsed := Chat.parseModel (CmModel req) in
      let chain := SingleTarget (ParsedProvider parsed) (ParsedModelName parsed) in
      let chatReq := chat_request req msgs in
      let l := Telemetry.SetModel (CmModel req) (ParsedProvider parsed) l in
      if CmStream req then
        let l := Telemetry.SetStreaming l in
        match Fallback.ExecuteStream Quote fr chain chatReq body w with
        | (Err (e, _), w) => let '(r, l) := failed "stream_error" e l in (r, l, w)
        | (Ok (ch, used), w) =>
            let l := Telemetry.SetModel (CmModel req) (Provider used) l in
            let '(out, l) := Sse.StreamTextChannelToClient err_text id created (CmModel req) (schedule ch) l in
            (HStream out, l, w)
        end
      else
        match Fallback.Execute Quote fr chain chatReq body w with
        | (Err (e, _), w) => let '(r, l) := failed "api_error" e l in (r, l, w)
        | (Ok (None, _), w) => (HPanic, l, w)
        | (Ok (Some resp, used), w) =>
            let l := if negb (String.eqb (Provider used) (ParsedProvider parsed))
                     then Telemetry.SetModel (CmModel req) (Provider used) l else l in
            let l := match RespUsage resp with
                     | Some u => Telemetry.SetTokens (PromptTokens u) (CompletionTokens u) (TotalTokens u) l
                     | None => l
                     end in
            let cmpl := chatToCmplResponse resp (CmModel req) in
            let l := match CmChoices cmpl with c :: _ => Telemetry.SetFinishReason (CmFinish c) l | [] => l end in
            (HJson cmpl, l, w)
        end
  end
  end
  end.

End Handler.

(** What a valid request asks for: the prompt, or the first of several. *)
Definition asks parse_str parse_strs (req : CompletionRequest) (s : string) : Prop :=
  CmModel req <> "" /\ Prompt req <> "" /\ (forall n, CmMaxTokens req = Some n -> 0 < n) /\ s <> "" /\
  (parse_str (Prompt req) = Some s \/
   parse_str (Prompt req) = None /\ exists ss, parse_strs (Prompt req) = Some (s :: ss)).

Lemma validate_ok parse_str parse_strs req msgs :
  validate parse_str parse_strs req = Ok msgs ->
  exists s, asks parse_str parse_strs req s /\ msgs = [mkMessage "user" s].
Proof.
  unfold validate, asks. destruct (String.eqb_spec (CmModel req) "") as [|Nm]; [done|].
  destruct (String.eqb_spec (Prompt req) "") as [|Np]; [done|].
  assert (promptToMessages parse_str parse_strs (Prompt req) = Ok msgs ->
    exists s, s <> "" /\ (parse_str (Prompt req) = Some s \/
      parse_str (Prompt req) = None /\ exists ss, parse_strs (Prompt req) = Some (s :: ss)) /\
      msgs = [mkMessage "user" s]) as P.
  { unfold promptToMessages. destruct (parse_str (Prompt req)) as [s|].
    - destruct (String.eqb_spec s ""); [done|]. intros [= <-]. exists s. auto.
    - destruct (parse_strs (Prompt req)) as [[|s ss]|]; [done| |done].
      destruct (String.eqb_spec s ""); [done|]. intros [= <-]. exists s. eauto 8. }
  destruct (CmMaxTokens req) as [n|].
  - destruct (Z.leb_spec n 0); [done|]. intros (s & ? & ? & ->)%P. exists s.
    split_and!; try done. by intros ? [= <-].
  - intros (s & ? & ? & ->)%P. exists s. by split_and!.
Qed.

(** The completions handler never dereferences a nil response; it refuses a request with
    400 without calling any provider, or the request is valid and it runs the fallback router,
    as a stream exactly when asked to, on the single provider the model names, with the prompt
    (the first one of a list) as the only message; an answer that is not streamed has the
    text, index and finish reason of every choice, in order, under the model that was asked
    for. *)
Theorem Completions_Handle_spec {W} `{World W} Quote err_text parse_str parse_strs Unmarshal
    (fr : Fallback.Router W) body schedule id created l (w : W) :
  (forall sort, Fallback.lb fr = Some sort -> LoadBalancer sort) ->
  let '(r, _, w') := Handle Quote err_text parse_str parse_strs Unmarshal fr body schedule id created l w in
  r <> HPanic /\
  ((w' = w /\ exists m ty, r = HError 400 m ty) \/
   exists raw req s, body = Some raw /\ Unmarshal raw = Ok req /\ asks parse_str parse_strs req s /\
     let parsed := Chat.parseModel (CmModel req) in
     let chain := SingleTarget (ParsedProvider parsed) (ParsedModelName parsed) in
     let chat := chat_request req [mkMessage "user" s] in
     if CmStream req then w' = (Fallback.ExecuteStream Quote fr chain chat raw w).2
     else w' = (Fallback.Execute Quote fr chain chat raw w).2 /\
       forall resp, r = HJson resp ->
         exists answer used, (Fallback.Execute Quote fr chain chat raw w).1 = Ok (Some answer, used) /\
           CmRespModel resp = CmModel req /\
           map (fun c => (CmIndex c, CmText c, CmFinish c)) (CmChoices resp) =
           map (fun c => (ChoiceIndex c, Types.Content (ChoiceMessage c), FinishReason c)) (Choices answer)).
Proof.
  intros HL. unfold Handle.
  destruct body as [raw|]; [|by split; [|left; eauto]].
  destruct (Unmarshal raw) as [req|m] eqn:U; [|by split; [|left; eauto]].
  destruct (validate parse_str parse_strs req) as [msgs|m] eqn:V; [|by split; [|left; eauto]].
  apply validate_ok in V as (s & A & ->).
  set (chain := SingleTarget _ _). set (chat := chat_request req _).
  destruct (CmStream req) eqn:S.
  - destruct (Fallback.ExecuteStream Quote fr chain chat raw w) as [[[ch used]|[e t]] w'] eqn:X.
    + destruct (Sse.StreamTextChannelToClient _ _ _ _ _ _) as [out l']. split; [done|]. right.
      exists raw, req, s. rewrite S. fold chain chat. by rewrite X.
    + unfold failed. destruct (errors_As_gateway e); (split; [done|]); right; exists raw, req, s;
        rewrite S; fold chain chat; by rewrite X.
  - destruct (Fallback.Execute Quote fr chain chat raw w) as [[[resp used]|[e t]] w'] eqn:X.
    + assert (is_Some resp) as [a ->] by (by eapply Fallback.Execute_resp_some).
      split; [done|]. right. exists raw, req, s. rewrite S. fold chain chat. rewrite X.
      split; [done|]. split; [done|]. split; [done|]. split; [done|].
      intros resp [= <-]. exists a, used. split; [done|]. split; [done|]. cbn [CmChoices chatToCmplResponse].
      by rewrite map_map.
    + unfold failed. destruct (errors_As_gateway e); (split; [done|]); right; exists raw, req, s;
        rewrite S; fold chain chat; rewrite X; split_and!; done.
Qed.

#[local] Existing Instance Fallback.sim_world.

Definition demo_completion : CompletionRequest := mkCompletion "b/m" "p" None None false "".

Lemma Completions_Handle_spec_witness :
  let run := Handle id (fun _ => "") (fun _ => Some "hi") (fun _ => None) (fun _ => Ok demo_completion)
    Fallback.sim_router (Some "{}") (fun _ => []) "id" 0 Telemetry.empty_log (Fallback.sim_start 5) in
  run.1.1 <> HPanic.
Proof.
  intros run.
  pose proof (Completions_Handle_spec id (fun _ => "") (fun _ => Some "hi") (fun _ => None) (fun _ => Ok demo_completion)
    Fallback.sim_router (Some "{}") (fun _ => []) "id" 0 Telemetry.empty_log (Fallback.sim_start 5)
    ltac:(intros sort [=])) as G.
  fold run in G. destruct run as [[r l] w]. exact (proj1 G).
Defined.

(** The raw body of a completion is handed to the adapters, and the OpenAI-style ones send it
    on: what they send has no messages when the client's body has none. *)
Lemma completion_body_has_no_messages `{Json} `{!JsonLaws} model raw sent body :
  parse_object raw = Ok body -> body !! "messages" = None ->
  Adapters.openai_BuildRequest model raw = Ok sent ->
  exists body', parse_object sent = Ok body' /\ body' !! "messages" = None.
Proof.
  intros P N. unfold Adapters.openai_BuildRequest, json_err. rewrite P. cbn.
  destruct (marshal_object _) as [s|m] eqn:M; cbn; [|done]. intros [= <-].
  eexists. split; [by eapply json_roundtrip|]. by rewrite lookup_insert_ne.
Qed.

End Completions.

(** ** embeddings.go *)

Module Embeddings.

Local Open Scope go_scope.

(** The keys of the exact cache in Redis, with their expiry. *)
Abbreviation Redis := (gmap string (string * option Time)).

Section Handler.
Context {W : Type} `{Exact.Codec}.
(** The embedding operation of the providers that have one, the decoding of a body, and the
    providers' registry. *)
Context (Embed : string -> option (string -> Exact.EmbeddingRequest -> W -> res goerror Exact.EmbeddingResponse * W))
        (Unmarshal : string -> res string Exact.EmbeddingRequest).

Record EmbeddingsHandler := mkHandler {
  registry : Registry.Registry_ W;
  cache : option Exact.Cache;
  costCalc : option Cost.Calculator
}.

Inductive response :=
| HError (status : Z) (msg errType code : string)
| HHit (resp : Exact.EmbeddingResponse)
| HJson (resp : Exact.EmbeddingResponse).

(** The key a request is cached under, empty for none. *)
Definition cache_key (h : EmbeddingsHandler) (headers : gmap string string) (req : Exact.EmbeddingRequest) : string :=
  match cache h with
  | Some _ => if Exact.IsEmbeddingCacheable headers then Exact.BuildEmbeddingKey req else ""
  | None => ""
  end.

Definition cached (st : Redis) (key : string) (get_ok : bool) (now : Time) : option Exact.EmbeddingResponse :=
  if String.eqb key "" then None
  else match Exact.GetEmbedding st key get_ok now with
       | Ok (Some e) => Some (Exact.XResponse e)
       | _ => None
       end.

(** [Handle] on a provider that embeds; [now] and [later] are the clock at the lookup and at
    the store. *)
Definition serve (ToLower : string -> string) (h : EmbeddingsHandler) (headers : gmap string string)
    (req : Exact.EmbeddingRequest) (parsed : ParsedModel)
    (ep : string -> Exact.EmbeddingRequest -> W -> res goerror Exact.EmbeddingResponse * W)
    (get_ok set_ok : bool) (now later : Time) (l : Telemetry.RequestLogContext) (st : Redis) (w : W)
  : response * Telemetry.RequestLogContext * Redis * W :=
  let key := cache_key h headers req in
  match cached st key get_ok now with
  | Some resp =>
      (HHit resp, Telemetry.SetModel (Exact.EmbModel req) (ParsedProvider parsed) (Telemetry.SetCacheResult "hit" l), st, w)
  | None =>
      match ep (ParsedModelName parsed) req w with
      | (Err e, w) =>
          match errors_As_gateway e with
          | Some g => (HError (HTTPStatus g) (GMessage g) (code_string (Code g)) "", l, st, w)
          | None => (HError 502 "upstream network error" "api_error" "", l, st, w)
          end
      | (Ok resp, w) =>
          let costUSD := match costCalc h, Exact.ERUsage resp with
                         | Some c, Some u => Cost.Calculate ToLower c (Exact.EmbModel req) (TotalTokens u) 0
                         | _, _ => f64_0
                         end in
          let st := match cache h with
                    | Some c => if String.eqb key "" then st
                                else (Exact.StoreEmbedding c st key resp costUSD 0 set_ok later).2
                    | None => st
                    end in
          let l := Telemetry.SetModel (Exact.EmbModel req) (ParsedProvider parsed) l in
          let l := match Exact.ERUsage resp with
                   | Some u => Telemetry.SetTokens (TotalTokens u) 0 (TotalTokens u) l
                   | None => l
                   end in
          (HJson resp, l, st, w)
      end
  end.

Definition Handle (ToLower : string -> string) (h : EmbeddingsHandler) (body : option string)
    (headers : gmap string string) (get_ok set_ok : bool) (now later : Time)
    (l : Telemetry.RequestLogContext) (st : Redis) (w : W)
  : response * Telemetry.RequestLogContext * Redis * W :=
  match body with
  | None => (HError 400 "failed to read request body" "invalid_request_error" "", l, st, w)
  | Some body =>
  match Unmarshal body with
  | Err m => (HError 400 ("invalid JSON: " +:+ m) "invalid_request_error" "", l, st, w)
  | Ok req =>
      if String.eqb (Exact.EmbModel req) "" then (HError 400 "model is required" "invalid_request_error" "", l, st, w)
      else if String.eqb (Exact.EmbInput req) "" then (HError 400 "input is required" "invalid_request_error" "", l, st, w)
      else
        let parsed := Chat.parseModel (Exact.EmbModel req) in
        match Registry.Get (registry h) (ParsedProvider parsed) with
        | None => (HError 400 ("Invalid model: " +:+ Exact.EmbModel req) "invalid_request_error" "model_not_found", l, st, w)
        | Some _ =>
            match Embed (ParsedProvider parsed) with
            | None => (HError 400 ("provider " +:+ ParsedProvider parsed +:+ " does not support embeddings")
                         "invalid_request_error" "", l, st, w)
            | Some ep => serve ToLower h headers req parsed ep get_ok set_ok now later l st w
            end
        end
  end
  end.

(** The provider's answer is what the client gets, whatever the cache does, and a cached answer
    is given without calling the provider. *)
Lemma serve_spec ToLower h headers req parsed ep get_ok set_ok now later l st w :
  let '(r, _, st', w') := serve ToLower h headers req parsed ep get_ok set_ok now later l st w in
  (exists resp, cached st (cache_key h headers req) get_ok now = Some resp /\ r = HHit resp /\ st' = st /\ w' = w) \/
  (cached st (cache_key h headers req) get_ok now = None /\ w' = (ep (ParsedModelName parsed) req w).2 /\
   match (ep (ParsedModelName parsed) req w).1 with
   | Ok resp => r = HJson resp
   | Err _ => st' = st /\ exists s m ty, r = HError s m ty ""
   end).
Proof.
  unfold serve. destruct (cached st (cache_key h headers req) get_ok now) as [resp|]; [left; by exists resp|].
  destruct (ep (ParsedModelName parsed) req w) as [[resp|e] w'].
  - right. done.
  - destruct (errors_As_gateway e); right; cbn; eauto 10.
Qed.

End Handler.

End Embeddings.

(** ** models.go *)

Module ModelsHandler.

Section Handler.
Context {W : Type}.

Inductive response := MList (data : list ModelInfo) | MModel (m : ModelInfo) | MError (status : Z) (code : string).

Definition List_ (r : Registry.Registry_ W) : response := MList (Registry.AllModels r).

Definition Get (r : Registry.Registry_ W) (modelID : string) : response :=
  if String.eqb modelID "" then MError 400 ""
  else match find (fun m => String.eqb (ModelInfoID m) modelID) (Registry.AllModels r) with
       | Some m => MModel m
       | None => MError 404 "model_not_found"
       end.

End Handler.

(** Every listed model can be fetched under its identifier, and nothing else can. *)
Lemma Get_listed {W} (r : Registry.Registry_ W) id :
  id <> "" ->
  match Get r id with
  | MModel m => m ∈ Registry.AllModels r /\ ModelInfoID m = id
  | MError s _ => s = 404 /\ forall m, m ∈ Registry.AllModels r -> ModelInfoID m <> id
  | MList _ => False
  end.
Proof.
  intros N. unfold Get. rewrite (proj2 (String.eqb_neq _ _) N).
  destruct (find _ (Registry.AllModels r)) as [m|] eqn:F.
  - apply find_some in F as [F%list_elem_of_In E%String.eqb_eq]. done.
  - split; [done|]. intros m Hm E. apply list_elem_of_In in Hm.
    pose proof (find_none _ _ F m Hm) as X. simpl in X. by rewrite E, String.eqb_refl in X.
Qed.

End ModelsHandler.
