(* ===== verification/Sessions.v ===== *)
(** * Sessions, login and roles (auth/session, auth/oauth/provider.go, auth/jwt.go, AdminAuth of
    auth/middleware.go, handler/auth.go, handler/admin_auth.go, store/postgres/role_store.go and
    admin_credential_store.go)

    Browser sessions in Redis, created by an OAuth callback and renewed by the requests that
    use them, the state tokens of the login flow, the provisioning of users and the assignment
    of roles, and the administrator's password and tokens. Lifetimes are positive. JSON, random tokens, the OAuth
    exchange, bcrypt and the JWT library are arguments. *)

From stdpp Require Import pretty.
From S2P Require Import Prelude GoStrings Types VirtualKey Calendar RateLimit Access.
Local Open Scope Z_scope.

Module Session.

Local Open Scope go_scope.

(** ** session.go *)

Definition DefaultTTL : Duration := 24 * Hour.
Definition RenewThreshold : Duration := Hour.

Record Session := mkSession {
  SID : string;
  UserID : UUID;
  SProvider : string;
  CreatedAt : Time;
  ExpiresAt : Time
}.

Definition IsExpired (s : Session) (now : Time) : bool := time_After now (ExpiresAt s).
Definition NeedsRenewal (s : Session) (now : Time) : bool := time_Sub (ExpiresAt s) now <? RenewThreshold.

Definition NewStore (ttl : Duration) : Duration := if ttl =? 0 then DefaultTTL else ttl.

(** Keys with a lifetime: the value and when it expires. *)
Abbreviation Redis := (gmap string (string * Time)).

Definition redis_get (r : Redis) (key : string) (now : Time) : option string :=
  match r !! key with
  | Some (v, expires) => if now <? expires then Some v else None
  | None => None
  end.

Definition redis_set (r : Redis) (key v : string) (ttl : Duration) (now : Time) : Redis :=
  <[key := (v, time_Add now ttl)]> r.

Definition redisKey (id : string) : string := "session:" +:+ id.
Definition stateKey (state : string) : string := "oauth:state:" +:+ state.

(** JSON of a session, which loses nothing. *)
Class SessionCodec := {
  marshal : Session -> string;
  unmarshal : string -> option Session;
  session_roundtrip : forall s, unmarshal (marshal s) = Some s
}.

Section Store.
Context `{SessionCodec} (ttl : Duration).

(** [id] is the random identifier, [None] when none can be drawn; [ok] says whether Redis
    answers. *)
Definition Create (id : option string) (userID : UUID) (provider : string) (ok : bool) (now : Time) (r : Redis)
  : res string Session * Redis :=
  match id with
  | None => (Err "generate session id", r)
  | Some id =>
      let sess := mkSession id userID provider now (time_Add now ttl) in
      if ok then (Ok sess, redis_set r (redisKey id) (marshal sess) ttl now) else (Err "store session", r)
  end.

(** [Ok None] when there is no such session. *)
Definition Get (id : string) (ok : bool) (now : Time) (r : Redis) : res string (option Session) :=
  if negb ok then Err "get session"
  else match redis_get r (redisKey id) now with
       | None => Ok None
       | Some data => match unmarshal data with Some s => Ok (Some s) | None => Err "unmarshal session" end
       end.

(** The write of a renewal, which comes after its read. *)
Definition renew_set (id : string) (sess : Session) (ok : bool) (now : Time) (r : Redis)
  : res string (option Session) * Redis :=
  let sess := mkSession (SID sess) (UserID sess) (SProvider sess) (CreatedAt sess) (time_Add now ttl) in
  if ok then (Ok (Some sess), redis_set r (redisKey id) (marshal sess) ttl now) else (Err "set", r).

Definition Renew (id : string) (get_ok set_ok : bool) (now : Time) (r : Redis) : res string (option Session) * Redis :=
  match Get id get_ok now r with
  | Err m => (Err m, r)
  | Ok None => (Ok None, r)
  | Ok (Some sess) =>
      if negb (NeedsRenewal sess now) then (Ok (Some sess), r)
      else renew_set id sess set_ok now r
  end.

Definition Delete (id : string) (ok : bool) (r : Redis) : Redis := if ok then delete (redisKey id) r else r.

Definition StoreState (state provider : string) (ok : bool) (now : Time) (r : Redis) : bool * Redis :=
  if ok then (true, redis_set r (stateKey state) provider (10 * Minute) now) else (false, r).

(** GETDEL: what was there, and it is gone. *)
Definition VerifyState (state : string) (ok : bool) (now : Time) (r : Redis) : res string string * Redis :=
  if negb ok then (Err "verify state", r)
  else match redis_get r (stateKey state) now with
       | None => (Err "invalid or expired oauth state", delete (stateKey state) r)
       | Some p => (Ok p, delete (stateKey state) r)
       end.

(** ** handler/auth.go *)

Record User := mkUser { UsrID : UUID; UsrEmail : string }.

(** What the outside does during a callback: the answers of the provider, of the user table and
    of Redis, and the random identifiers. [lookup_err] is an error other than not found. *)
Record callback_env := mkCbEnv {
  verify_ok : bool;
  exchange : string -> string -> res string string;
  lookup_err : bool;
  create_err : bool;
  new_user : UUID;
  new_sid : option string;
  set_ok : bool
}.

(** [findOrCreateUser]; the table is keyed by email. The default role that is assigned to a new
    user cannot change the outcome. *)
Definition findOrCreateUser (e : callback_env) (email : string) (users : gmap string User)
  : option User * gmap string User :=
  if lookup_err e then (None, users)
  else match users !! email with
       | Some u => (Some u, users)
       | None =>
           if create_err e then (None, users)
           else let u := mkUser (new_user e) email in (Some u, <[email := u]> users)
       end.

Record State := mkState { redis : Redis; users : gmap string User }.

Inductive reply :=
| Error (code : Z)
| Redirect (state : string)
| LoggedIn (sess : Session)
| Served (user : option UUID) (renewed : option Session)
| LoggedOut.

(** [providers] are the configured ones; [token] is the random state. *)
Definition Login (providers : list string) (provider : string) (token : option string) (ok : bool) (now : Time)
    (st : State) : reply * State :=
  let provider := if String.eqb provider "" then "google" else provider in
  if negb (slices_Contains providers provider) then (Error 400, st)
  else match token with
       | None => (Error 500, st)
       | Some token =>
           match StoreState token provider ok now (redis st) with
           | (false, r) => (Error 500, mkState r (users st))
           | (true, r) => (Redirect token, mkState r (users st))
           end
       end.

Definition Callback (providers : list string) (e : callback_env) (state code providerParam : string) (now : Time)
    (st : State) : reply * State :=
  if String.eqb state "" || String.eqb code "" then (Error 400, st)
  else match VerifyState state (verify_ok e) now (redis st) with
       | (Err _, r) => (Error 400, mkState r (users st))
       | (Ok provider, r) =>
           let provider := if negb (String.eqb providerParam "") then providerParam else provider in
           if negb (slices_Contains providers provider) then (Error 400, mkState r (users st))
           else match exchange e provider code with
                | Err _ => (Error 401, mkState r (users st))
                | Ok email =>
                    match findOrCreateUser e email (users st) with
                    | (None, us) => (Error 500, mkState r us)
                    | (Some u, us) =>
                        match Create (new_sid e) (UsrID u) provider (set_ok e) now r with
                        | (Err _, r) => (Error 500, mkState r us)
                        | (Ok sess, r) => (LoggedIn sess, mkState r us)
                        end
                    end
                end
       end.

Definition Logout (cookie : option string) (ok : bool) (st : State) : reply * State :=
  (LoggedOut, match cookie with
              | None => st
              | Some id => mkState (Delete id ok (redis st)) (users st)
              end).

(** Whether Redis answers the reads and the write of a request, and whether the roles of the
    user can be loaded. *)
Record request_env := mkReqEnv { get_ok : bool; renew_get_ok : bool; renew_set_ok : bool; info_ok : bool }.

(** The user a request is served for, and the session whose cookie is refreshed. *)
Definition SessionMiddleware (e : request_env) (cookie : option string) (now : Time) (st : State) : reply * State :=
  match cookie with
  | None => (Served None None, st)
  | Some id =>
      match Get id (get_ok e) now (redis st) with
      | Ok (Some sess) =>
          if IsExpired sess now then (Served None None, st)
          else
            let '(renewed, r) :=
              if NeedsRenewal sess now then
                match Renew (SID sess) (renew_get_ok e) (renew_set_ok e) now (redis st) with
                | (Ok (Some s), r) => (Some s, r)
                | (_, r) => (None, r)
                end
              else (None, redis st) in
            let sess := default sess renewed in
            (Served (if info_ok e then Some (UserID sess) else None) renewed, mkState r (users st))
      | _ => (Served None None, st)
      end
  end.

(** ** The log of what happened *)

(** The operations on the gateway, in the order Redis sees them. *)
Inductive op :=
| OLogin (provider : string) (token : option string) (ok : bool) (now : Time)
| OCallback (e : callback_env) (state code param : string) (now : Time)
| ORequest (e : request_env) (cookie : option string) (now : Time)
| OLogout (cookie : option string) (ok : bool).

Context (providers : list string).

Definition step (o : op) (st : State) : reply * State :=
  match o with
  | OLogin p token ok now => Login providers p token ok now st
  | OCallback e s c p now => Callback providers e s c p now st
  | ORequest e cookie now => SessionMiddleware e cookie now st
  | OLogout cookie ok => Logout cookie ok st
  end.

Definition init : State := mkState ∅ ∅.

(** The state after some operations, with what each one answered, the latest last. *)
Definition run (ops : list op) : list (op * reply) * State :=
  foldl (fun ls o => let '(log, st) := ls in let '(x, st) := step o st in (log ++ [(o, x)], st)) ([], init) ops.

(** The sessions of a log: the user each one was made for, and when it was made or last
    renewed. *)
Definition log_session (m : gmap string (UUID * Time)) (ox : op * reply) : gmap string (UUID * Time) :=
  match ox with
  | (OCallback _ _ _ _ now, LoggedIn s) => <[SID s := (UserID s, now)]> m
  | (ORequest _ (Some c) now, Served _ (Some s)) => <[c := (UserID s, now)]> m
  | (OLogout (Some c) true, _) => delete c m
  | _ => m
  end.
Definition sessions_of (log : list (op * reply)) : gmap string (UUID * Time) := foldl log_session ∅ log.

(** The state tokens that were handed out and not used since, with when they were. *)
Definition log_state (m : gmap string Time) (ox : op * reply) : gmap string Time :=
  match ox with
  | (OLogin _ _ _ now, Redirect t) => <[t := now]> m
  | (OCallback e state code _ _, _) =>
      if negb (String.eqb state "") && negb (String.eqb code "") && verify_ok e then delete state m else m
  | _ => m
  end.
Definition pending (log : list (op * reply)) : gmap string Time := foldl log_state ∅ log.

(** What Redis holds, for the sessions and the state tokens of a log. *)
Definition holds (sessions : gmap string (UUID * Time)) (tokens : gmap string Time) (r : Redis) : Prop :=
  (forall id, match sessions !! id with
              | Some (u, t) => exists s, UserID s = u /\ SID s = id /\ ExpiresAt s = time_Add t ttl /\
                  r !! redisKey id = Some (marshal s, time_Add t ttl)
              | None => r !! redisKey id = None
              end) /\
  (forall token, match tokens !! token with
                 | Some t => exists p, r !! stateKey token = Some (p, time_Add t (10 * Minute))
                 | None => r !! stateKey token = None
                 end).

Definition explains (log : list (op * reply)) (r : Redis) : Prop := holds (sessions_of log) (pending log) r.

Lemma redisKey_inj a b : redisKey a = redisKey b -> a = b.
Proof. apply str_app_inj_l. Qed.
Lemma stateKey_inj a b : stateKey a = stateKey b -> a = b.
Proof. apply str_app_inj_l. Qed.
Lemma keys_apart a b : redisKey a <> stateKey b.
Proof. done. Qed.

(** Each kind of write to Redis. *)
Lemma holds_session m p r s now :
  holds m p r -> ExpiresAt s = time_Add now ttl ->
  holds (<[SID s := (UserID s, now)]> m) p (redis_set r (redisKey (SID s)) (marshal s) ttl now).
Proof.
  intros [S P] X. split; unfold redis_set.
  - intros id. destruct (decide (id = SID s)) as [->|N].
    + rewrite !lookup_insert_eq. exists s. by split_and!.
    + rewrite !lookup_insert_ne; [apply S| |done]. intros E%redisKey_inj. done.
  - intros token. rewrite lookup_insert_ne by apply keys_apart. apply P.
Qed.

Lemma holds_state m p r token prov now :
  holds m p r -> holds m (<[token := now]> p) (redis_set r (stateKey token) prov (10 * Minute) now).
Proof.
  intros [S P]. split; unfold redis_set.
  - intros id. rewrite lookup_insert_ne; [apply S|]. intros E. by symmetry in E.
  - intros t. destruct (decide (t = token)) as [->|N].
    + rewrite !lookup_insert_eq. by exists prov.
    + rewrite !lookup_insert_ne; [apply P| |done]. intros E%stateKey_inj. done.
Qed.

Lemma holds_logout m p r c : holds m p r -> holds (delete c m) p (delete (redisKey c) r).
Proof.
  intros [S P]. split.
  - intros id. destruct (decide (id = c)) as [->|N].
    + by rewrite !lookup_delete_eq.
    + rewrite !lookup_delete_ne; [apply S| |done]. intros E%redisKey_inj. done.
  - intros token. rewrite lookup_delete_ne by apply keys_apart. apply P.
Qed.

Lemma holds_used m p r state : holds m p r -> holds m (delete state p) (delete (stateKey state) r).
Proof.
  intros [S P]. split.
  - intros id. rewrite lookup_delete_ne; [apply S|]. intros E. by symmetry in E.
  - intros t. destruct (decide (t = state)) as [->|N].
    + by rewrite !lookup_delete_eq.
    + rewrite !lookup_delete_ne; [apply P| |done]. intros E%stateKey_inj. done.
Qed.

(** What a request finds under its cookie. *)
Lemma Get_holds m p r c now :
  holds m p r ->
  match Get c true now r with
  | Ok (Some s) => exists t, m !! c = Some (UserID s, t) /\ SID s = c /\ ExpiresAt s = time_Add t ttl /\
      now < time_Add t ttl
  | Ok None => forall u t, m !! c = Some (u, t) -> time_Add t ttl <= now
  | Err _ => False
  end.
Proof.
  intros [S _]. specialize (S c). unfold Get, redis_get. cbn [negb].
  destruct (m !! c) as [[u t]|].
  - destruct S as (s & <- & I & X & ->). destruct (Z.ltb_spec now (time_Add t ttl)).
    + rewrite session_roundtrip. by exists t.
    + by intros u' t' [= <- <-].
  - rewrite S. done.
Qed.

(** What a callback finds under its state token. *)
Lemma VerifyState_holds m p r state now prov r' :
  holds m p r -> VerifyState state true now r = (Ok prov, r') ->
  exists t, p !! state = Some t /\ now < time_Add t (10 * Minute).
Proof.
  intros [_ P]. specialize (P state). unfold VerifyState, redis_get. cbn [negb].
  destruct (p !! state) as [t|]; [|by rewrite P].
  destruct P as [q ->]. destruct (Z.ltb_spec now (time_Add t (10 * Minute))); [|done]. intros _. by exists t.
Qed.

(** The renewal of a session that was just found to need it. *)
Lemma Renew_due id g k now r s :
  Get id true now r = Ok (Some s) -> NeedsRenewal s now = true ->
  Renew id g k now r = if g then renew_set id s k now r else (Err "get session", r).
Proof. intros G N. unfold Renew. destruct g; [|done]. by rewrite G, N. Qed.

(** ** The log and Redis stay in step *)

Lemma sessions_of_snoc log ox : sessions_of (log ++ [ox]) = log_session (sessions_of log) ox.
Proof. apply foldl_snoc. Qed.
Lemma pending_snoc log ox : pending (log ++ [ox]) = log_state (pending log) ox.
Proof. apply foldl_snoc. Qed.

Definition steps_hold (o : op) : Prop :=
  forall m p st, holds m p (redis st) ->
  holds (log_session m (o, (step o st).1)) (log_state p (o, (step o st).1)) (redis (step o st).2).

Lemma Login_holds prov token ok now : steps_hold (OLogin prov token ok now).
Proof.
  intros m p st Hr. cbn [step]. unfold Login. cbv zeta. case_match; [done|].
  destruct token as [token|]; [|done]. destruct ok; [|done]. by apply holds_state.
Qed.

Lemma Logout_holds cookie ok : steps_hold (OLogout cookie ok).
Proof. intros m p st Hr. destruct cookie as [c|], ok; try done. by apply holds_logout. Qed.

Lemma Callback_holds e state code param now : steps_hold (OCallback e state code param now).
Proof.
  intros m p st Hr. cbn [step]. unfold Callback.
  destruct (String.eqb state "") eqn:E1; [cbn; by rewrite E1|].
  destruct (String.eqb code "") eqn:E2; [cbn; by rewrite E1, E2|]. cbn [orb].
  unfold VerifyState. destruct (verify_ok e) eqn:E3; cbn [negb]; [|cbn; by rewrite E1, E2, E3].
  pose proof (holds_used m p _ state Hr) as U.
  destruct (redis_get _ _ _) as [prov|]; [|cbn; by rewrite E1, E2, E3]. cbv zeta.
  case_match; [cbn; by rewrite E1, E2, E3|].
  destruct (exchange e _ code) as [email|]; [|cbn; by rewrite E1, E2, E3].
  destruct (findOrCreateUser e email (users st)) as [[u|] us]; [|cbn; by rewrite E1, E2, E3].
  unfold Create. destruct (new_sid e) as [id|]; [|cbn; by rewrite E1, E2, E3].
  destruct (set_ok e); cbn [fst snd redis log_session log_state]; rewrite E1, E2, E3; [|done].
  by apply (holds_session m (delete state p) _ (mkSession id (UsrID u) _ now (time_Add now ttl)) now).
Qed.

Lemma SessionMiddleware_holds e cookie now : steps_hold (ORequest e cookie now).
Proof.
  intros m p st Hr. cbn [step]. unfold SessionMiddleware. destruct cookie as [c|]; [|done].
  destruct (get_ok e); [|done]. pose proof (Get_holds m p _ c now Hr) as G.
  destruct (Get c true now (redis st)) as [[s|]|] eqn:E; [|done..]. destruct G as (t & L & I & X & B).
  destruct (IsExpired s now); [done|]. destruct (NeedsRenewal s now) eqn:N; [|done].
  rewrite I, (Renew_due c _ _ now (redis st) s E N). destruct (renew_get_ok e); [|done].
  unfold renew_set. destruct (renew_set_ok e); [|done]. rewrite I.
  exact (holds_session m p _ (mkSession c (UserID s) (SProvider s) (CreatedAt s) (time_Add now ttl)) now Hr eq_refl).
Qed.

Lemma step_holds o : steps_hold o.
Proof.
  destruct o; auto using Login_holds, Callback_holds, SessionMiddleware_holds, Logout_holds.
Qed.

(** Redis is what the log says, after any operations. *)
Lemma run_ops_snoc ops o : run (ops ++ [o]) =
  ((run ops).1 ++ [(o, (step o (run ops).2).1)], (step o (run ops).2).2).
Proof. unfold run. rewrite foldl_snoc. destruct (foldl _ _ ops) as [log st]. cbn. by destruct (step o st). Qed.

Lemma run_explained ops : explains (run ops).1 (redis (run ops).2).
Proof.
  induction ops as [|o ops IH] using rev_ind; [by split|]. rewrite run_ops_snoc. unfold explains. cbn [fst snd].
  rewrite sessions_of_snoc, pending_snoc. by apply step_holds.
Qed.

(** The user a request is served for. *)
Definition served_user (x : reply) : option UUID := match x with Served u _ => u | _ => None end.

Lemma served_user_holds m p st e c now u :
  holds m p (redis st) ->
  served_user (SessionMiddleware e (Some c) now st).1 = Some u <->
  get_ok e = true /\ info_ok e = true /\ exists t, m !! c = Some (u, t) /\ now < time_Add t ttl.
Proof.
  intros Hr. unfold SessionMiddleware. destruct (get_ok e); [|split; [done|by intros (? & _)]].
  pose proof (Get_holds m p _ c now Hr) as G.
  destruct (Get c true now (redis st)) as [[s|]|] eqn:E; [| |done].
  - destruct G as (t & L & I & X & B). unfold IsExpired, time_After. rewrite X, (proj2 (Z.ltb_ge _ _)) by lia.
    enough (served_user (Served (if info_ok e then Some (UserID s) else None) None) = Some u <->
      true = true /\ info_ok e = true /\ exists t, m !! c = Some (u, t) /\ now < time_Add t ttl) as K.
    { destruct (NeedsRenewal s now) eqn:N; [|done]. rewrite I, (Renew_due c _ _ now (redis st) s E N).
      destruct (renew_get_ok e); [|done]. unfold renew_set. by destruct (renew_set_ok e). }
    cbn [served_user]. destruct (info_ok e); [|split; [done|by intros (_ & ? & _)]]. split.
    + intros [= <-]. split_and!; [done..|]. by exists t.
    + intros (_ & _ & t' & L' & _). congruence.
  - split; [done|]. intros (_ & _ & t & L & B). specialize (G u t L). lia.
Qed.

(** C12. A session cookie stands for exactly what was logged in: after any sequence of logins,
    callbacks, requests and logouts, a request with a cookie is served for a user if and only if
    Redis and the role lookup answer and, by the log of what happened, that user has a session
    under that identifier, made or last renewed less than a lifetime ago and not deleted by a
    logout since. A callback logs in only with a state token that was handed out less than ten minutes
    ago and not used since. *)
Theorem sessions_refine_log ops :
  let '(log, st) := run ops in
  (forall e c now u, served_user (SessionMiddleware e (Some c) now st).1 = Some u <->
    get_ok e = true /\ info_ok e = true /\
    exists t, sessions_of log !! c = Some (u, t) /\ now < time_Add t ttl) /\
  (forall e state code param now sess, (Callback providers e state code param now st).1 = LoggedIn sess ->
    exists t, pending log !! state = Some t /\ now < time_Add t (10 * Minute)).
Proof.
  pose proof (run_explained ops) as Hr. destruct (run ops) as [log st]. cbn [fst snd] in Hr. split.
  - intros e c now u. by apply (served_user_holds _ (pending log)).
  - intros e state code param now sess. unfold Callback. case_match; [done|].
    destruct (VerifyState state (verify_ok e) now (redis st)) as [[prov|m] r'] eqn:E; [|done]. intros _.
    destruct (verify_ok e); [|done]. by apply (VerifyState_holds _ _ _ _ _ _ _ Hr E).
Qed.

End Store.

(** ** Witnesses *)

#[local] Instance session_eq_dec : EqDecision Session.
Proof. solve_decision. Defined.
#[local] Program Instance session_countable : Countable Session :=
  inj_countable' (fun s => (SID s, UserID s, SProvider s, CreatedAt s, ExpiresAt s))
    (fun '(a, b, c, d, e) => mkSession a b c d e) _.
Next Obligation. by intros []. Qed.
#[local] Instance text_codec : SessionCodec :=
  {| marshal := text_of; unmarshal := of_text; session_roundtrip := of_text_of |}.

Definition demo_cb : callback_env := mkCbEnv true (fun _ _ => Ok "ada@example.org") false false "u1" (Some "s1") true.
Definition demo_req : request_env := mkReqEnv true true true true.
Definition demo_ops : list op :=
  [OLogin "google" (Some "tok") true 0; OCallback demo_cb "tok" "code" "" Minute].

(** A login, a request of the session, and a second use of the state token. *)
Lemma sessions_refine_log_witness :
  let '(log, st) := run DefaultTTL ["google"] demo_ops in
  served_user (SessionMiddleware DefaultTTL demo_req (Some "s1") Hour st).1 = Some "u1" /\
  (Callback DefaultTTL ["google"] demo_cb "tok" "code" "" (2 * Minute) st).1 = Error 400.
Proof.
  pose proof (sessions_refine_log DefaultTTL ["google"] demo_ops) as H.
  destruct (run DefaultTTL ["google"] demo_ops) as [log st] eqn:E. destruct H as [H _].
  assert ((log, st) = run DefaultTTL ["google"] demo_ops) as F by (symmetry; exact E). clear E. split.
  - apply H. split; [reflexivity|]. split; [reflexivity|]. exists Minute.
    replace log with (run DefaultTTL ["google"] demo_ops).1 by (rewrite <- F; reflexivity).
    split; vm_compute; reflexivity.
  - replace st with (run DefaultTTL ["google"] demo_ops).2 by (rewrite <- F; reflexivity).
    vm_compute. reflexivity.
Defined.

(** A renewal reads the session and writes it back; a logout in between is undone. *)
Example renewal_undoes_logout :
  let '(_, st) := run DefaultTTL ["google"] demo_ops in
  let late := time_Add Minute (DefaultTTL - Minute) in
  match Get "s1" true late (redis st) with
  | Ok (Some s) =>
      let st := (Logout (Some "s1") true st).2 in
      let st := mkState (renew_set DefaultTTL "s1" s true late (redis st)).2 (users st) in
      served_user (SessionMiddleware DefaultTTL demo_req (Some "s1") late st).1 = Some "u1"
  | _ => False
  end.
Proof. vm_compute. reflexivity. Qed.

(** A logout that Redis does not take is reported as one, and the session lives on. *)
Example failed_logout_keeps_session :
  let '(_, st) := run DefaultTTL ["google"] demo_ops in
  let '(x, st) := Logout (Some "s1") false st in
  x = LoggedOut /\ served_user (SessionMiddleware DefaultTTL demo_req (Some "s1") Hour st).1 = Some "u1".
Proof. vm_compute. split; reflexivity. Qed.

End Session.

Module OAuth.

Local Open Scope go_scope.

(** ** auth/oauth *)

Record UserProfile := mkProfile {
  ProviderID : string;
  PEmail : string;
  PName : string;
  Groups : list string
}.

(** What GitHub answers to a request for the user and for the emails: nothing, a body that is
    not JSON, or its fields. The status of the answer is not looked at. *)
Record github_user := mkGitHub { GID : Z; GLogin : string; GName : string; GEmail : string }.

Inductive answer (A : Type) := NoAnswer | NotJSON | Body (a : A).
Arguments NoAnswer {A}.
Arguments NotJSON {A}.
Arguments Body {A} _.

Fixpoint primary_email (emails : list (string * bool)) : option string :=
  match emails with
  | [] => None
  | (e, primary) :: emails => if primary : bool then Some e else primary_email emails
  end.

Definition fetchPrimaryEmail (emails : answer (list (string * bool))) : res string string :=
  match emails with
  | NoAnswer => Err "get"
  | NotJSON => Err "decode"
  | Body es => match primary_email es with Some e => Ok e | None => Err "no primary email found" end
  end.

(** [token_ok] says whether the code is exchanged for a token. *)
Definition github_Exchange (token_ok : bool) (user : answer github_user) (emails : answer (list (string * bool)))
  : res string UserProfile :=
  if negb token_ok then Err "github token exchange"
  else match user with
       | NoAnswer => Err "github user api"
       | NotJSON => Err "decode github user"
       | Body u =>
           let email :=
             if String.eqb (GEmail u) "" then
               match fetchPrimaryEmail emails with
               | Err _ => GLogin u +:+ "@users.noreply.github.com"
               | Ok e => e
               end
             else GEmail u in
           Ok (mkProfile (pretty (GID u)) email (GName u) [])
       end.

(** [status] is Google's; the fields are [sub], [email] and [name]. *)
Definition google_Exchange (token_ok : bool) (status : Z) (info : answer (string * string * string))
  : res string UserProfile :=
  if negb token_ok then Err "google token exchange"
  else match info with
       | NoAnswer => Err "google userinfo"
       | _ =>
           if negb (status =? 200) then Err "google userinfo status"
           else match info with
                | Body (sub, email, name) => Ok (mkProfile sub email name [])
                | _ => Err "decode google userinfo"
                end
       end.

(** The identity token of the answer, if there is one, the verifier's verdict on it and the
    claims it holds. *)
Definition oidc_Exchange (token_ok : bool) (id_token : option string) (verify : string -> option (option UserProfile))
  : res string UserProfile :=
  if negb token_ok then Err "oidc token exchange"
  else match id_token with
       | None => Err "oidc: no id_token in response"
       | Some raw =>
           match verify raw with
           | None => Err "oidc verify id_token"
           | Some None => Err "oidc parse claims"
           | Some (Some claims) => Ok claims
           end
       end.

(** [range] over the set yields its members in some order. *)
Definition MapGroupsToRoles (groups : list string) (mapping : gmap string string) : list string :=
  elements (list_to_set (omap (fun g => mapping !! g) groups) : gset string).

Lemma MapGroupsToRoles_spec groups mapping role :
  role ∈ MapGroupsToRoles groups mapping <-> exists g, g ∈ groups /\ mapping !! g = Some role.
Proof.
  unfold MapGroupsToRoles. rewrite elem_of_elements, elem_of_list_to_set, list_elem_of_omap. done.
Qed.

(** Two users whose profile GitHub refuses to show (an error object has none of the fields) are
    given the same address, hence the same account. *)
Example github_error_body_logs_in :
  github_Exchange true (Body (mkGitHub 0 "" "" "")) NotJSON =
  Ok (mkProfile "0" "@users.noreply.github.com" "" []).
Proof. reflexivity. Qed.

End OAuth.

Module Roles.

(** ** store/postgres/role_store.go *)

Record RoleRecord := mkRole {
  RID : UUID;
  ROrgID : option UUID;
  RName : string;
  RDescription : string;
  RIsSystem : bool;
  RPermissions : list Rbac.Permission;
  RCreatedAt : Time
}.

(** The roles, and the team of each assignment by its primary key: user, role and organisation,
    none of which can be null. *)
Record DB := mkDB { roles : list RoleRecord; user_roles : gmap (UUID * UUID * UUID) (option UUID) }.

Definition find_role (db : DB) (id : UUID) : option RoleRecord :=
  List.find (fun r => String.eqb (RID r) id) (roles db).

(** The assignments of a user, joined with their roles. *)
Definition GetUserRoles (db : DB) (userID : UUID) : list Rbac.UserRole :=
  omap (fun '((u, rid, org), team) =>
          if String.eqb u userID then
            match find_role db rid with
            | Some r => Some (Rbac.mkUserRole (RName r) org (default "" team) (RPermissions r))
            | None => None
            end
          else None)
       (map_to_list (user_roles db)).

(** [refs_ok] says whether the database answers and the rows referred to exist. *)
Definition store_AssignRole (db : DB) (userID roleID : UUID) (orgID teamID : option UUID) (refs_ok : bool)
  : bool * DB :=
  match orgID with
  | None => (false, db)
  | Some org =>
      if negb refs_ok then (false, db)
      else match user_roles db !! (userID, roleID, org) with
           | Some _ => (true, db)
           | None => (true, mkDB (roles db) (<[(userID, roleID, org) := teamID]> (user_roles db)))
           end
  end.

(** [org_id = NULL] holds of no row. *)
Definition RevokeRole (db : DB) (userID roleID : UUID) (orgID : option UUID) : DB :=
  match orgID with
  | None => db
  | Some org => mkDB (roles db) (delete (userID, roleID, org) (user_roles db))
  end.

Definition for_org (orgID : option UUID) (r : RoleRecord) : bool :=
  match ROrgID r, orgID with Some a, Some b => String.eqb a b | _, _ => false end.
Definition is_global (r : RoleRecord) : bool := match ROrgID r with None => true | _ => false end.

(** A role of the organisation comes before one of no organisation. *)
Definition GetRoleByName (db : DB) (name : string) (orgID : option UUID) : option RoleRecord :=
  let named := List.filter (fun r => String.eqb (RName r) name) (roles db) in
  match List.find (for_org orgID) named with
  | Some r => Some r
  | None => List.find is_global named
  end.

(** [order] is ORDER BY is_system DESC, name. *)
Definition ListRoles (order : list RoleRecord -> list RoleRecord) (db : DB) (orgID : option UUID) : list RoleRecord :=
  order (List.filter (fun r => is_global r || for_org orgID r) (roles db)).

(** [UNIQUE (org_id, name)]. *)
Definition CreateCustomRole (db : DB) (orgID : UUID) (name description : string) (perms : list Rbac.Permission)
    (id : UUID) (org_exists : bool) (now : Time) : option RoleRecord * DB :=
  if negb org_exists || existsb (fun r => for_org (Some orgID) r && String.eqb (RName r) name) (roles db)
  then (None, db)
  else let rec := mkRole id (Some orgID) name description false perms now in
       (Some rec, mkDB (roles db ++ [rec]) (user_roles db)).

(** ** AdminRolesHandler of handler/auth.go *)

Record AssignRequest := mkAssign { ARole : string; AOrgID : string; ATeamID : string }.

Inductive reply := Panic | Replied (code : Z).

Section Handler.
(** [uuid.Parse]. *)
Context (uuid_Parse : string -> option UUID).

Definition optional_id (s : string) : option UUID := if String.eqb s "" then None else uuid_Parse s.

(** The permissions only a super administrator may hand out. *)
Definition privileged (p : Rbac.Permission) : bool :=
  String.eqb p Rbac.PermAll || String.eqb p Rbac.PermManageSystem || String.eqb p Rbac.PermManageProviders.

(** [caller] is the user of the request's context; the method call on no user is a nil
    dereference. [lookup_ok] is whether the role can be read. *)
Definition AssignRole (caller : option Rbac.UserInfo) (path : string) (body : option AssignRequest)
    (lookup_ok refs_ok cache_ok : bool) (db : DB) (c : Rbac.RoleCache) : reply * DB * Rbac.RoleCache :=
  match uuid_Parse (TrimSuffix (TrimPrefix path "/admin/users/") "/roles") with
  | None => (Replied 400, db, c)
  | Some userID =>
      match body with
      | None => (Replied 400, db, c)
      | Some req =>
          let orgID := optional_id (AOrgID req) in
          let teamID := optional_id (ATeamID req) in
          match (if lookup_ok then GetRoleByName db (ARole req) orgID else None) with
          | None => (Replied 404, db, c)
          | Some role =>
              match caller with
              | None => (Panic, db, c)
              | Some ui =>
                  if negb (Rbac.HasPermission ui Rbac.PermAll "" "") && existsb privileged (RPermissions role)
                  then (Replied 403, db, c)
                  else match store_AssignRole db userID (RID role) orgID teamID refs_ok with
                       | (false, db) => (Replied 500, db, c)
                       | (true, db) => (Replied 200, db, Rbac.InvalidateCache c userID cache_ok)
                       end
              end
          end
      end
  end.

End Handler.

(** ** Theorems *)

Lemma elem_GetUserRoles db u ur :
  ur ∈ GetUserRoles db u <-> exists rid org team r, user_roles db !! (u, rid, org) = Some team /\
    find_role db rid = Some r /\ ur = Rbac.mkUserRole (RName r) org (default "" team) (RPermissions r).
Proof.
  unfold GetUserRoles. rewrite list_elem_of_omap. split.
  - intros ([[[u' rid] org] team] & I & E). apply elem_of_map_to_list in I.
    destruct (String.eqb_spec u' u) as [->|]; [|done]. destruct (find_role db rid) as [r|] eqn:F; [|done].
    injection E as <-. by exists rid, org, team, r.
  - intros (rid & org & team & r & L & F & ->). exists ((u, rid, org), team).
    split; [by apply elem_of_map_to_list|]. by rewrite String.eqb_refl, F.
Qed.

Lemma GetRoleByName_In db name org r : GetRoleByName db name org = Some r -> In r (roles db) /\ RName r = name.
Proof.
  unfold GetRoleByName. set (named := List.filter _ _).
  assert (forall r, In r named -> In r (roles db) /\ RName r = name) as N.
  { intros x [I E]%filter_In. by apply String.eqb_eq in E. }
  destruct (List.find (for_org org) named) as [x|] eqn:F.
  - intros [= <-]. by apply find_some in F as [I _]; apply N.
  - intros [I _]%find_some. by apply N.
Qed.

Lemma find_role_In db r : NoDup (RID <$> roles db) -> In r (roles db) -> find_role db (RID r) = Some r.
Proof.
  unfold find_role. intros D I. induction (roles db) as [|x l IH]; [done|]. cbn in *.
  apply NoDup_cons in D as [N D]. destruct (String.eqb_spec (RID x) (RID r)) as [E|E].
  - destruct I as [->|I]; [done|]. exfalso. apply N. rewrite E. apply list_elem_of_fmap.
    exists r. split; [done|]. by apply list_elem_of_In.
  - destruct I as [->|I]; [done|]. auto.
Qed.

Section Assigned.
Context (uuid_Parse : string -> option UUID) (caller : option Rbac.UserInfo) (path : string)
  (body : option AssignRequest) (lookup_ok refs_ok cache_ok : bool) (db : DB) (c : Rbac.RoleCache).

Local Abbreviation assign := (AssignRole uuid_Parse caller path body lookup_ok refs_ok cache_ok db c).

(** The one way to a changed table or cache. *)
Lemma AssignRole_done rep db' c' :
  assign = (rep, db', c') ->
  (db' = db /\ c' = c /\ rep <> Replied 200) \/
  rep = Replied 200 /\ exists u req role org ui, body = Some req /\
    uuid_Parse (TrimSuffix (TrimPrefix path "/admin/users/") "/roles") = Some u /\ caller = Some ui /\
    optional_id uuid_Parse (AOrgID req) = Some org /\ GetRoleByName db (ARole req) (Some org) = Some role /\
    (Rbac.HasPermission ui Rbac.PermAll "" "" = true \/ existsb privileged (RPermissions role) = false) /\
    c' = Rbac.InvalidateCache c u cache_ok /\ roles db' = roles db /\
    exists team, user_roles db' = <[(u, RID role, org) := team]> (user_roles db).
Proof.
  unfold AssignRole. destruct (uuid_Parse (TrimSuffix _ _)) as [u|]; [|intros [= <- <- <-]; by left].
  destruct body as [req|]; [|intros [= <- <- <-]; by left].
  destruct lookup_ok; [|intros [= <- <- <-]; by left].
  destruct (GetRoleByName db (ARole req) _) as [role|] eqn:G; [|intros [= <- <- <-]; by left].
  destruct caller as [ui|]; [|intros [= <- <- <-]; by left].
  destruct (Rbac.HasPermission ui Rbac.PermAll "" "") eqn:P, (existsb privileged (RPermissions role)) eqn:V;
    cbn [negb andb]; [| |intros [= <- <- <-]; by left|];
    unfold store_AssignRole; (destruct (optional_id uuid_Parse (AOrgID req)) as [org|] eqn:O; [|intros [= <- <- <-]; by left]);
    (destruct refs_ok; [|intros [= <- <- <-]; by left]); cbn [negb];
    destruct (user_roles db !! (u, RID role, org)) as [team|] eqn:L; intros [= <- <- <-]; right;
    (split; [done|]); exists u, req, role, org, ui; (split_and!; try done; try (by left); try (by right));
    try (exists team; by rewrite insert_id); by eexists.
Qed.

(** C26. Handing out roles gives no more than the caller may give: after an assignment, whatever
    the request was, every role a user has is one they had, or one assigned by a caller of the
    request's context who is a super administrator or which carries none of the wildcard,
    system and provider permissions. *)
Theorem assigned_roles_not_escalated rep db' c' u ur :
  NoDup (RID <$> roles db) -> assign = (rep, db', c') -> ur ∈ GetUserRoles db' u ->
  ur ∈ GetUserRoles db u \/
  rep = Replied 200 /\ exists ui, caller = Some ui /\
    (Rbac.HasPermission ui Rbac.PermAll "" "" = true \/ Forall (fun p => privileged p = false) (Rbac.Permissions ur)).
Proof.
  intros D A I. destruct (AssignRole_done rep db' c' A) as [(-> & _)|(-> & v & req & role & org & ui & _ & _ & C & _ & G & P & _ & R & team & U)];
    [by left|].
  apply elem_GetUserRoles in I as (rid & org' & team' & r & L & F & ->). rewrite U in L.
  assert (find_role db rid = Some r) as F' by (unfold find_role in *; by rewrite <- R).
  destruct (decide ((u, rid, org') = (v, RID role, org))) as [[= -> -> ->]|N].
  - right. split; [done|]. exists ui. split; [done|]. apply GetRoleByName_In in G as [I _].
    rewrite (find_role_In db role D I) in F'. injection F' as <-. destruct P as [P|P]; [by left|right].
    cbn. apply Forall_forall. intros p J%list_elem_of_In. destruct (privileged p) eqn:X; [|done].
    exfalso. apply not_true_iff_false in P. apply P, existsb_exists. by exists p.
  - left. rewrite lookup_insert_ne in L by done. apply elem_GetUserRoles. by exists rid, org', team', r.
Qed.

(** An assignment that is answered with 200 is in force at the next request of the user: the role
    cache holds nothing of them, so what is loaded is the table's, with the role in it. *)
Lemma assigned_role_in_force db' c' req u :
  NoDup (RID <$> roles db) -> cache_ok = true -> assign = (Replied 200, db', c') -> body = Some req ->
  uuid_Parse (TrimSuffix (TrimPrefix path "/admin/users/") "/roles") = Some u ->
  (forall get_ok set_ok now, (Rbac.GetUserInfo c' (Some (GetUserRoles db' u)) u get_ok set_ok now).1 =
     Some (Rbac.mkUserInfo u "" (GetUserRoles db' u))) /\
  exists ur, ur ∈ GetUserRoles db' u /\ Rbac.URole ur = ARole req.
Proof.
  intros D K A B E. destruct (AssignRole_done _ db' c' A)
    as [(_ & _ & N)|(_ & v & q & role & org & ui & B' & E' & _ & _ & G & _ & C & R & team & U)]; [done|].
  simplify_eq. split.
  - intros g s now. unfold Rbac.GetUserInfo, Rbac.fromCache, Rbac.InvalidateCache.
    destruct c as [m|]; [|done]. rewrite lookup_delete_eq. by destruct g.
  - apply GetRoleByName_In in G as [I <-]. exists (Rbac.mkUserRole (RName role) org (default "" team) (RPermissions role)).
    split; [|done]. apply elem_GetUserRoles. exists (RID role), org, team, role. rewrite U, lookup_insert_eq.
    split_and!; try done. unfold find_role. rewrite R. by apply find_role_In.
Qed.

End Assigned.

(** An assignment without an organisation is refused by the table, so the default role of a new
    user is never theirs. *)
Lemma unscoped_never_assigned db u rid team ok : store_AssignRole db u rid None team ok = (false, db).
Proof. done. Qed.

(** ** Witnesses *)

Definition demo_db : DB :=
  mkDB [mkRole "r1" None "super_admin" "" true [Rbac.PermAll] 0;
        mkRole "r2" None "viewer" "" true [Rbac.PermReadUsage] 0] ∅.
Definition demo_admin : Rbac.UserInfo :=
  Rbac.mkUserInfo "u1" "" [Rbac.mkUserRole "org_admin" "" "" [Rbac.PermManageUsers]].

(** A user administrator may make a viewer and not a super administrator. *)
Lemma assigned_roles_not_escalated_witness :
  (AssignRole Some (Some demo_admin) "/admin/users/u2/roles" (Some (mkAssign "super_admin" "o1" "")) true true true
     demo_db None).1.1 = Replied 403 /\
  exists ui, Some demo_admin = Some ui /\
    (Rbac.HasPermission ui Rbac.PermAll "" "" = true \/ Forall (fun p => privileged p = false) [Rbac.PermReadUsage]).
Proof.
  split; [vm_compute; reflexivity|].
  destruct (assigned_roles_not_escalated Some (Some demo_admin) "/admin/users/u2/roles" (Some (mkAssign "viewer" "o1" ""))
    true true true demo_db None (Replied 200)
    (mkDB (roles demo_db) (<[("u2", "r2", "o1") := None]> ∅)) None "u2"
    (Rbac.mkUserRole "viewer" "o1" "" [Rbac.PermReadUsage])) as [H|[_ H]].
  - apply (bool_decide_unpack _). vm_compute. exact I.
  - vm_compute. reflexivity.
  - vm_compute. constructor.
  - exfalso. apply elem_GetUserRoles in H as (? & ? & ? & ? & L & _). discriminate L.
  - exact H.
Defined.

End Roles.

Module AdminAuth.

Local Open Scope go_scope.

(** ** store/postgres/admin_credential_store.go *)

Record AdminCredential := mkCred {
  CID : UUID;
  CUsername : string;
  PasswordHash : string;
  PasswordChanged : bool;
  CCreatedAt : Time;
  CUpdatedAt : Time
}.

Abbreviation Table := (gmap string AdminCredential).

Inductive StoreErr := ErrAdminCredNotFound | ErrDB.

Definition GetByUsername (db : Table) (username : string) (ok : bool) : res StoreErr AdminCredential :=
  if negb ok then Err ErrDB
  else match db !! username with Some c => Ok c | None => Err ErrAdminCredNotFound end.

Definition UpsertDefault (db : Table) (username hash : string) (id : UUID) (ok : bool) (now : Time) : bool * Table :=
  if negb ok then (false, db)
  else match db !! username with
       | Some _ => (true, db)
       | None => (true, <[username := mkCred id username hash false now now]> db)
       end.

Definition UpdatePassword (db : Table) (username newHash : string) (ok : bool) (now : Time) : res StoreErr unit * Table :=
  if negb ok then (Err ErrDB, db)
  else match db !! username with
       | None => (Err ErrAdminCredNotFound, db)
       | Some c => (Ok tt, <[username := mkCred (CID c) (CUsername c) newHash true (CCreatedAt c) now]> db)
       end.

(** ** auth/jwt.go *)

Record AdminClaims := mkClaims { IssuedAt : Time; ExpiresAt : Time; Username : string; ClPasswordChanged : bool }.

(** The JWT library with the service's key and HS256: what it signs is accepted until it
    expires. *)
Class JWTLib := {
  SignedString : AdminClaims -> option string;
  ParseWithClaims : string -> Time -> option AdminClaims;
  signed_accepted : forall c t now, SignedString c = Some t ->
    ParseWithClaims t now = if now <? ExpiresAt c then Some c else None
}.

(** bcrypt: a hash accepts the password it was made of. *)
Class Bcrypt := {
  GenerateFromPassword : string -> string -> option string;
  CompareHashAndPassword : string -> string -> bool;
  hash_accepts : forall salt p h, GenerateFromPassword salt p = Some h -> CompareHashAndPassword h p = true
}.

Section Handlers.
Context `{JWTLib} `{Bcrypt} (expiry : Duration).

(** [jwt.NewNumericDate]: to the second. *)
Definition NewNumericDate (t : Time) : Time := t / Second * Second.

Definition GenerateToken (username : string) (passwordChanged : bool) (now : Time) : option string :=
  SignedString (mkClaims (NewNumericDate now) (NewNumericDate (time_Add now expiry)) username passwordChanged).

Definition ValidateToken (token : string) (now : Time) : option AdminClaims := ParseWithClaims token now.

(** ** AdminAuth of auth/middleware.go *)

(** The claims put into the context, [None] for the answer 401. *)
Definition AdminAuth (header : string) (now : Time) : option AdminClaims := ValidateToken (VK.bearerToken header) now.

(** ** handler/admin_auth.go *)

(** The credentials, and the Redis of the rate limiter, if there is one. *)
Record State := mkState { creds : Table; limiter : option RL.Redis }.

Inductive reply := AError (code : Z) | AToken (token : string) (changed : bool) | AMe (username : string) (changed : bool).

(** [body] is the decoded password, [None] for a body that is not JSON or too long. *)
Definition checkPassword (body : option string) (db_ok : bool) (now : Time) (db : Table) : reply :=
  match body with
  | None => AError 400
  | Some password =>
      if String.eqb password "" then AError 400
      else match GetByUsername db "admin" db_ok with
           | Err ErrAdminCredNotFound => AError 401
           | Err ErrDB => AError 500
           | Ok cred =>
               if negb (CompareHashAndPassword (PasswordHash cred) password) then AError 401
               else match GenerateToken (CUsername cred) (PasswordChanged cred) now with
                    | None => AError 500
                    | Some token => AToken token (PasswordChanged cred)
                    end
           end
  end.

Definition Login (body : option string) (redis_ok db_ok : bool) (now : Time) (st : State) : reply * State :=
  match limiter st with
  | None => (checkPassword body db_ok now (creds st), st)
  | Some r =>
      match RL.Allow r "admin_login:admin" 10 1 (15 * Minute) redis_ok now with
      | (None, r) => (checkPassword body db_ok now (creds st), mkState (creds st) (Some r))
      | (Some res, r) =>
          (if negb (RL.Allowed res) then AError 429 else checkPassword body db_ok now (creds st),
           mkState (creds st) (Some r))
      end
  end.

(** [get_ok] and [set_ok] say whether the database answers the read and the write. *)
Definition ChangePassword (claims : option AdminClaims) (body : option (string * string)) (salt : string)
    (get_ok set_ok : bool) (now : Time) (st : State) : reply * State :=
  match claims with
  | None => (AError 401, st)
  | Some claims =>
      match body with
      | None => (AError 400, st)
      | Some (current, new) =>
          if Z.of_nat (String.length new) <? 8 then (AError 400, st)
          else match GetByUsername (creds st) (Username claims) get_ok with
               | Err _ => (AError 500, st)
               | Ok cred =>
                   if negb (CompareHashAndPassword (PasswordHash cred) current) then (AError 401, st)
                   else match GenerateFromPassword salt new with
                        | None => (AError 500, st)
                        | Some newHash =>
                            match UpdatePassword (creds st) (Username claims) newHash set_ok now with
                            | (Err _, db) => (AError 500, mkState db (limiter st))
                            | (Ok _, db) =>
                                (match GenerateToken (Username claims) true now with
                                 | None => AError 500
                                 | Some token => AToken token true
                                 end, mkState db (limiter st))
                            end
                        end
               end
      end
  end.

Definition Me (claims : option AdminClaims) : reply :=
  match claims with
  | None => AError 401
  | Some claims => AMe (Username claims) (ClPasswordChanged claims)
  end.

(** ** Theorems *)

(** A token is accepted for the lifetime it was issued for, less the rounding to the second. *)
Lemma token_accepted username changed now token t :
  GenerateToken username changed now = Some token ->
  AdminAuth ("Bearer " +:+ token) t =
  if t <? NewNumericDate (time_Add now expiry)
  then Some (mkClaims (NewNumericDate now) (NewNumericDate (time_Add now expiry)) username changed) else None.
Proof.
  intros G. unfold AdminAuth, ValidateToken, VK.bearerToken. rewrite HasPrefix_app, TrimPrefix_app.
  by rewrite (signed_accepted _ _ t G).
Qed.

(** A changed password is the password: after a change that was answered with a token, the new
    password logs in, whatever bcrypt refuses for the new hash does not, and nothing else of the
    table moves. *)
Lemma changed_password_in_force claims current new salt g k now st token changed st' :
  ChangePassword (Some claims) (Some (current, new)) salt g k now st = (AToken token changed, st') ->
  Username claims = "admin" ->
  changed = true /\ limiter st' = limiter st /\
  (exists h, GenerateFromPassword salt new = Some h /\
    (forall p t, p <> "" -> CompareHashAndPassword h p = false -> checkPassword (Some p) true t (creds st') = AError 401) /\
    (forall t, match checkPassword (Some new) true t (creds st') with
               | AToken _ c => c = true
               | AError code => code = 500 /\ GenerateToken (default "" (CUsername <$> creds st' !! "admin")) true t = None
               | AMe _ _ => False
               end)) /\
  (forall u, u <> "admin" -> creds st' !! u = creds st !! u).
Proof.
  intros C U. unfold ChangePassword in C. rewrite U in C.
  destruct (Z.of_nat (String.length new) <? 8) eqn:Len; [done|].
  unfold GetByUsername in C. destruct g; [|done]. cbn [negb] in C.
  destruct (creds st !! "admin") as [cred|] eqn:L; [|done].
  destruct (CompareHashAndPassword (PasswordHash cred) current); [|done]. cbn [negb] in C.
  destruct (GenerateFromPassword salt new) as [h|] eqn:G; [|done].
  unfold UpdatePassword in C. destruct k; [|done]. rewrite L in C. cbn [negb] in C.
  destruct (GenerateToken "admin" true now); [|done]. injection C as <- <- <-. cbn [creds limiter].
  split_and!; [done..| |intros u N; by rewrite lookup_insert_ne].
  exists h. split; [done|]. unfold checkPassword, GetByUsername. cbn [negb]. rewrite lookup_insert_eq.
  cbn [PasswordHash CUsername PasswordChanged fmap option_fmap option_map default]. split.
  - intros p t N R. destruct (String.eqb_spec p ""); [done|]. by rewrite R.
  - intros t. destruct (String.eqb_spec new "") as [->|]; [by vm_compute in Len|].
    rewrite (hash_accepts salt new h G). cbn [negb]. destruct (GenerateToken (CUsername cred) true t) eqn:GT; [done|]. split; [done|exact GT].
Qed.

(** Attempts to log in, one after another. *)
Record attempt := mkAttempt { a_body : option string; a_db_ok : bool; a_now : Time }.

Fixpoint login_run (st : State) (l : list attempt) : list reply :=
  match l with
  | [] => []
  | a :: l => let '(x, st) := Login (a_body a) true (a_db_ok a) (a_now a) st in x :: login_run st l
  end.

(** The milliseconds at which a password was looked at. *)
Definition checked (l : list attempt) (xs : list reply) : list Z :=
  omap (fun '(a, x) => match x with AError 429 => None | _ => Some (Calendar.UnixMilli (a_now a)) end) (zip l xs).

Lemma checkPassword_429 body ok now db : checkPassword body ok now db <> AError 429.
Proof. unfold checkPassword. by repeat case_match. Qed.

(** The attempts that pass are those the sliding window of the limiter admits. *)
Lemma login_run_window st r log now l :
  limiter st = Some r -> RL.tracks_key r "admin_login:admin" log 900000 now -> 0 <= now ->
  StronglySorted Z.le (now :: ((fun a => Calendar.UnixMilli (a_now a)) <$> l)) ->
  rev (checked l (login_run st l)) ++ log =
  (RL.window_spec 10 900000 log ((fun a => Calendar.UnixMilli (a_now a)) <$> l)).2.
Proof.
  revert st r log now. induction l as [|a l IH]; intros st r log now E T N S; [done|].
  cbn [fmap list_fmap] in S. inversion S as [|? ? S' F]; subst. inversion F; subst.
  destruct (RL.Allow_refines r "admin_login:admin" log 10 (15 * Minute) now (a_now a) T) as (res & A & K & T' & _);
    [done|lia|vm_compute; discriminate|].
  change (Z.quot (15 * Minute) Millisecond) with 900000 in *.
  cbn [login_run fmap list_fmap RL.window_spec]. unfold Login. rewrite E.
  destruct (RL.Allow r "admin_login:admin" 10 1 (15 * Minute) true (a_now a)) as [o r'] eqn:G.
  cbn [fst snd] in A, T'. subst o.
  specialize (IH (mkState (creds st) (Some r')) r' _ _ eq_refl T' ltac:(lia) S').
  rewrite K. destruct (_ <=? 10); cbn [negb]; unfold checked in *; cbn [zip zip_with omap list_omap].
  - assert (match checkPassword (a_body a) (a_db_ok a) (a_now a) (creds st) with
            | AError 429 => None | _ => Some (Calendar.UnixMilli (a_now a)) end = Some (Calendar.UnixMilli (a_now a))) as ->.
    { pose proof (checkPassword_429 (a_body a) (a_db_ok a) (a_now a) (creds st)) as N4. by repeat case_match. }
    cbn [rev]. rewrite <- app_assoc. cbn [app].
    destruct (RL.window_spec 10 900000 (Calendar.UnixMilli (a_now a) :: log) _). exact IH.
  - destruct (RL.window_spec 10 900000 log _). exact IH.
Qed.

(** C30. Password guessing is throttled: with the limiter in place and Redis answering, of any
    sequence of attempts to log in as the administrator, at most ten in any fifteen minutes have
    their password looked at; the others are answered 429. *)
Theorem login_attempts_bounded db l t0 :
  0 <= Calendar.UnixMilli t0 -> StronglySorted Z.le (t0 :: (a_now <$> l)) ->
  RL.bounded 10 900000 (rev (checked l (login_run (mkState db (Some ∅)) l))).
Proof.
  intros N S. assert (StronglySorted Z.le (Calendar.UnixMilli t0 :: ((fun a => Calendar.UnixMilli (a_now a)) <$> l))) as S'.
  { pose proof (RL.UnixMilli_sorted _ S) as M. cbn [fmap list_fmap] in M. by rewrite <- list_fmap_compose in M. }
  pose proof (login_run_window (mkState db (Some ∅)) ∅ [] _ l eq_refl (RL.tracks_empty _ _) N S') as W.
  rewrite app_nil_r in W. rewrite W. apply (RL.window_spec_bounded 10 900000 [] _ (Calendar.UnixMilli t0)); [|constructor|done].
  intros T. cbn. lia.
Qed.

End Handlers.

(** ** Witnesses *)

(** Tokens that carry their claims, and hashes that are the password. *)
#[local] Instance claims_eq_dec : EqDecision AdminClaims.
Proof. solve_decision. Defined.
#[local] Program Instance claims_countable : Countable AdminClaims :=
  inj_countable' (fun c => (IssuedAt c, ExpiresAt c, Username c, ClPasswordChanged c))
    (fun '(a, b, c, d) => mkClaims a b c d) _.
Next Obligation. by intros []. Qed.

#[local] Program Instance plain_jwt : JWTLib := {
  SignedString c := Some (text_of c);
  ParseWithClaims t now := match of_text t with
                           | Some c => if now <? ExpiresAt c then Some c else None
                           | None => None
                           end
}.
Next Obligation. intros c t now [= <-]. by rewrite of_text_of. Qed.

#[local] Program Instance plain_bcrypt : Bcrypt := {
  GenerateFromPassword _ p := Some p;
  CompareHashAndPassword := String.eqb
}.
Next Obligation. intros _ p h [= <-]. apply String.eqb_refl. Qed.

(** The eleventh guess of a quarter of an hour is refused, also when it is right. *)
Lemma login_attempts_bounded_witness :
  let db := {[ "admin" := mkCred "1" "admin" "secret-pw" false 0 0 ]} in
  let l := (fun i => mkAttempt (Some "wrong") true (RL.at_ms i)) <$> [0; 1; 2; 3; 4; 5; 6; 7; 8; 9] in
  let l := l ++ [mkAttempt (Some "secret-pw") true (RL.at_ms 10)] in
  login_run (24 * Hour) (mkState db (Some ∅)) l = repeat (AError 401) 10 ++ [AError 429] /\
  RL.bounded 10 900000 (rev (checked l (login_run (24 * Hour) (mkState db (Some ∅)) l))).
Proof.
  intros db l l'. split; [vm_compute; reflexivity|].
  apply (login_attempts_bounded (24 * Hour) db l' RL.demo_t0).
  - vm_compute. discriminate.
  - repeat constructor; vm_compute; discriminate.
Defined.

End AdminAuth.
