(* ===== verification/Logs.v ===== *)
(** * Request logs and usage (internal/telemetry/log_writer.go, middleware/logging.go,
    store/postgres/log_store.go and usage_store.go, handler/admin_logs.go, admin_usage.go)

    What is recorded of a request, the writer that hands the entries to the database in batches,
    the tables of requests and of daily usage, and the queries over them. Rows are lists in the
    order of their insertion and maps from a primary key; a batch of statements is one
    transaction. Amounts of the usage table are in units of 10^-8 dollars. *)

From S2P Require Import Prelude Float64 Types Calendar LoadBalancer Fallback Cost Chat.
Local Open Scope Z_scope.
Local Open Scope go_scope.

Module LogWriter.

(** ** LogEntry of telemetry/request_log.go *)

Record LogEntry := mkLog {
  RequestID : string;
  Timestamp : Time;
  Model : string;
  Provider : string;
  VirtualKeyID : option UUID;
  UserID : option UUID;
  TeamID : option UUID;
  OrgID : option UUID;
  PromptTokens : Z;
  CompletionTokens : Z;
  TotalTokens : Z;
  CostUSD : float64;
  LatencyMs : Z;
  TTFTMs : option Z;
  StatusCode : Z;
  FinishReason : string;
  CacheHit : bool;
  IsStreaming : bool;
  ErrorCode : string;
  ErrorMessage : string;
  Metadata : gmap string string
}.

(** ** middleware/logging.go *)

(** What a handler does to the response: headers with a status, or a part of the body. *)
Inductive response_event := WriteHeader (code : Z) | Write_ (body : string).

(** The code of a [statusWriter] after an event: the first one stands. *)
Definition sw_event (code : Z) (e : response_event) : Z :=
  match e with
  | WriteHeader c => if code =? 0 then c else code
  | Write_ _ => if code =? 0 then 200 else code
  end.

Definition sw_status (es : list response_event) : Z :=
  let code := foldl sw_event 0 es in if code =? 0 then 200 else code.

(** [Duration.Milliseconds]. *)
Definition Milliseconds (d : Duration) : Z := Z.quot d Millisecond.

(** The entry of a request that started at [start] and was served at [done], and what the health
    tracker is told; [None] when no handler named a model. *)
Definition RequestLogger (reqID : string) (start done : Time) (lc : Telemetry.RequestLogContext)
    (es : list response_event) : option LogEntry * option (string * bool) :=
  if String.eqb (Telemetry.LModel lc) "" then (None, None)
  else
    let statusCode := sw_status es in
    let ttft := if Telemetry.LTTFTAt lc =? 0 then None
                else Some (Milliseconds (time_Sub (Telemetry.LTTFTAt lc) start)) in
    (Some (mkLog reqID start (Telemetry.LModel lc) (Telemetry.LProvider lc)
             (Telemetry.LVirtualKeyID lc) (Telemetry.LUserID lc) (Telemetry.LTeamID lc) (Telemetry.LOrgID lc)
             (Telemetry.LPromptTokens lc) (Telemetry.LCompletionTokens lc) (Telemetry.LTotalTokens lc)
             (Telemetry.LCostUSD lc) (Milliseconds (time_Sub done start)) ttft statusCode
             (Telemetry.LFinishReason lc) false (Telemetry.LIsStreaming lc)
             (Telemetry.LErrorCode lc) (Telemetry.LErrorMessage lc) ∅),
     if String.eqb (Telemetry.LProvider lc) "" then None
     else Some (Telemetry.LProvider lc, statusCode <? 500)).

(** ** log_writer.go *)

Definition channelSize : nat := N.to_nat 10000.
Definition batchSize : nat := N.to_nat 500.
Definition flushInterval : Duration := Second.

(** What the worker is doing: the outer loop, the loop that drains the channel, or nothing any
    more. *)
Inductive phase := Running | Draining | Finished.

(** The channel, the worker's buffer, the batches handed to the store with the store's answer,
    the counter of dropped entries, whether the writer was closed, and the worker. *)
Record Writer := mkWriter {
  ch : list LogEntry;
  buf : list LogEntry;
  batches : list (list LogEntry * bool);
  dropped : Z;
  stop : bool;
  worker : phase
}.

Definition NewLogWriter : Writer := mkWriter [] [] [] 0 false Running.

Definition Write (e : LogEntry) (w : Writer) : Writer :=
  if decide (length (ch w) < channelSize)%nat
  then mkWriter (ch w ++ [e]) (buf w) (batches w) (dropped w) (stop w) (worker w)
  else mkWriter (ch w) (buf w) (batches w) (dropped w + 1) (stop w) (worker w).

(** Closing a closed channel panics. *)
Definition Close (w : Writer) : option Writer :=
  if stop w then None else Some (mkWriter (ch w) (buf w) (batches w) (dropped w) true (worker w)).

(** [ok] is the store's answer; the buffer is emptied either way. *)
Definition flush (ok : bool) (w : Writer) : Writer :=
  match buf w with
  | [] => w
  | es => mkWriter (ch w) [] (batches w ++ [(es, ok)]) (dropped w) (stop w) (worker w)
  end.

(** An entry taken from the channel. *)
Definition receive (ok : bool) (w : Writer) : option Writer :=
  match ch w with
  | [] => None
  | e :: rest =>
      let w := mkWriter rest (buf w ++ [e]) (batches w) (dropped w) (stop w) (worker w) in
      Some (if decide (batchSize <= length (buf w))%nat then flush ok w else w)
  end.

Definition set_worker (p : phase) (w : Writer) : Writer :=
  mkWriter (ch w) (buf w) (batches w) (dropped w) (stop w) p.

(** One event: a request writes an entry, the writer is closed, or one of the cases of the
    worker's loops. *)
Inductive event :=
| EWrite (e : LogEntry)
| EClose
| EStop
| ETick (ok : bool)
| EReceive (ok : bool)
| EDrained (ok : bool).

(** What can happen, and what then holds. When several cases of a [select] are ready, any of
    them may be taken; the default of the inner loop is taken only on an empty channel. *)
Inductive step : Writer -> event -> Writer -> Prop :=
| step_write w e : step w (EWrite e) (Write e w)
| step_close w w' : Close w = Some w' -> step w EClose w'
| step_stop w : worker w = Running -> stop w = true -> step w EStop (set_worker Draining w)
| step_tick w ok : worker w = Running -> step w (ETick ok) (flush ok w)
| step_receive w ok w' : worker w <> Finished -> receive ok w = Some w' -> step w (EReceive ok) w'
| step_drained w ok : worker w = Draining -> ch w = [] -> step w (EDrained ok) (set_worker Finished (flush ok w)).

Inductive steps : Writer -> list event -> Writer -> Prop :=
| steps_nil w : steps w [] w
| steps_snoc w es w1 e w2 : steps w es w1 -> step w1 e w2 -> steps w (es ++ [e]) w2.

(** The entries written, in order. *)
Definition written (es : list event) : list LogEntry :=
  omap (fun e => match e with EWrite x => Some x | _ => None end) es.

(** Those the channel took. *)
Definition taken (w : Writer) : list LogEntry := concat (batches w).*1 ++ buf w ++ ch w.

(** ** Nothing that was taken is lost, repeated or put out of order *)

Record well_formed (w : Writer) : Prop := {
  wf_channel : (length (ch w) <= channelSize)%nat;
  wf_buffer : (length (buf w) < batchSize)%nat;
  wf_batches : Forall (fun b => b.1 <> [] /\ (length b.1 <= batchSize)%nat) (batches w);
  wf_finished : worker w = Finished -> buf w = [] /\ stop w = true;
  wf_draining : worker w = Draining -> stop w = true
}.

Lemma batchSize_pos : (0 < batchSize)%nat.
Proof. apply Nat.ltb_lt. reflexivity. Qed.

Lemma flush_taken ok w : taken (flush ok w) = taken w.
Proof.
  unfold flush. destruct (buf w) as [|e es] eqn:B; [done|]. unfold taken. cbn [batches buf ch]. rewrite B.
  rewrite fmap_app, concat_app. cbn [fmap list_fmap fst concat]. by rewrite app_nil_r, <- app_assoc.
Qed.

Lemma flush_wf ok w :
  (length (ch w) <= channelSize)%nat -> (length (buf w) <= batchSize)%nat ->
  Forall (fun b => b.1 <> [] /\ (length b.1 <= batchSize)%nat) (batches w) ->
  (worker w = Finished -> buf w = [] /\ stop w = true) -> (worker w = Draining -> stop w = true) ->
  well_formed (flush ok w).
Proof.
  intros C B F D E. unfold flush. destruct (buf w) as [|e es] eqn:G.
  - split; [done| |done| |done]; rewrite G; [apply batchSize_pos|done].
  - split; cbn [ch buf batches worker stop].
    + done.
    + apply batchSize_pos.
    + apply Forall_app. split; [done|]. constructor; [split; [done|by cbn [fst]]|done].
    + intros X. by destruct (D X).
    + done.
Qed.

Lemma receive_spec ok w w' :
  well_formed w -> worker w <> Finished -> receive ok w = Some w' -> well_formed w' /\ taken w' = taken w /\
  worker w' = worker w /\ stop w' = stop w /\ dropped w' = dropped w.
Proof.
  intros [C B F D E] N. unfold receive. destruct (ch w) as [|e rest] eqn:G; [done|].
  set (w1 := mkWriter rest _ _ _ _ _).
  assert (taken w1 = taken w) as T.
  { unfold taken. cbn [batches buf ch w1]. by rewrite G, <- app_assoc. }
  assert (length (buf w1) <= batchSize)%nat as L by (cbn [buf w1]; rewrite length_app; cbn [length]; lia).
  assert (length (ch w1) <= channelSize)%nat as L' by (cbn [ch w1]; cbn [length] in C; lia).
  intros [= <-]. case_decide as Q.
  - split_and!; [by apply flush_wf|by rewrite flush_taken|unfold flush; by destruct (buf w1)..].
  - split_and!; [|done..]. split; [done|subst w1; cbn [buf] in *; lia|done|done|done].
Qed.

(** The entries that were dropped are those written to a full channel. *)
Lemma Write_taken e w :
  (taken (Write e w) = taken w ++ [e] /\ dropped (Write e w) = dropped w) \/
  (taken (Write e w) = taken w /\ dropped (Write e w) = dropped w + 1 /\ length (ch w) = channelSize \/
   (channelSize < length (ch w))%nat).
Proof.
  unfold Write. case_decide as D.
  - left. split; [|done]. unfold taken. cbn [batches buf ch]. by rewrite !app_assoc.
  - right. destruct (decide (length (ch w) = channelSize)); [left; by split_and!|right; lia].
Qed.

Lemma log_step_wf w e w' : well_formed w -> step w e w' -> well_formed w'.
Proof.
  intros Wf S. pose proof Wf as [C B F D E]. destruct S as [w e|w w' K|w R S|w ok R|w ok w' R K|w ok R K].
  - unfold Write. case_decide; [|by split]. split; try done. cbn [ch]. rewrite length_app. cbn [length]. lia.
  - unfold Close in K. destruct (stop w) eqn:G; [done|]. injection K as <-. split; try done. intros X. by destruct (D X).
  - by split.
  - apply flush_wf; try done. lia.
  - by eapply receive_spec.
  - destruct (flush_wf ok w C ltac:(lia) F D E) as [C' B' F' D' E']. split; try done.
    intros _. unfold flush in *. cbn [set_worker buf stop]. destruct (buf w) eqn:G; cbn [buf stop]; [|by rewrite E].
    by rewrite E.
Qed.

Lemma log_step_taken w e w' :
  well_formed w -> step w e w' ->
  (exists l, taken w' = taken w ++ l /\ l `sublist_of` written [e] /\
    Z.of_nat (length (written [e])) = Z.of_nat (length l) + (dropped w' - dropped w)).
Proof.
  intros Wf S. destruct S as [w e|w w' K|w R S|w ok R|w ok w' R K|w ok R K]; cbn [written omap list_omap length].
  - destruct (Write_taken e w) as [[T D]|[(T & D & _)|L]].
    + exists [e]. split_and!; [done|reflexivity|cbn [length]; lia].
    + exists []. rewrite app_nil_r. split_and!; [done|apply sublist_nil_l|cbn [length]; lia].
    + pose proof (wf_channel w Wf). lia.
  - exists []. unfold Close in K. destruct (stop w); [done|]. injection K as <-.
    split_and!; [by rewrite app_nil_r|done|cbn; lia].
  - exists []. split_and!; [by rewrite app_nil_r|done|cbn; lia].
  - exists []. rewrite flush_taken, app_nil_r. split_and!; [done..|].
    unfold flush. destruct (buf w); cbn [dropped length]; lia.
  - exists []. destruct (receive_spec ok w w' Wf R K) as (_ & T & _ & _ & D). rewrite T, D, app_nil_r.
    split_and!; [done..|cbn [length]; lia].
  - exists []. rewrite app_nil_r. split_and!; [|done|].
    + change (taken (set_worker Finished (flush ok w))) with (taken (flush ok w)). by rewrite flush_taken.
    + unfold flush. destruct (buf w); cbn [dropped length set_worker]; lia.
Qed.

Lemma new_wf : well_formed NewLogWriter.
Proof. split; try done; [apply Nat.le_0_l|apply batchSize_pos]. Qed.

Lemma steps_wf es w : steps NewLogWriter es w -> well_formed w.
Proof.
  intros S. remember NewLogWriter as w0. induction S as [w|w es w1 e w2 S IH T]; [subst; apply new_wf|].
  eapply log_step_wf; [|exact T]. by apply IH.
Qed.

Lemma written_snoc es e : written (es ++ [e]) = written es ++ written [e].
Proof. apply omap_app. Qed.

Lemma steps_taken es w :
  steps NewLogWriter es w ->
  taken w `sublist_of` written es /\ Z.of_nat (length (written es)) = Z.of_nat (length (taken w)) + dropped w.
Proof.
  intros S. remember NewLogWriter as w0. induction S as [w|w es w1 e w2 S IH T]; [by subst|].
  subst. destruct (IH eq_refl) as [Sub Len].
  destruct (log_step_taken w1 e w2 (steps_wf es w1 S) T) as (l & -> & Sl & Ll).
  rewrite written_snoc, !length_app. split; [by apply sublist_app|lia].
Qed.

(** ** Closing *)

(** What the worker does, as opposed to the requests and whoever closes the writer. *)
Definition of_worker (e : event) : bool := match e with EWrite _ | EClose => false | _ => true end.

(** What is left to do once the channel is being drained. *)
Definition remaining (w : Writer) : nat :=
  match worker w with Finished => 0 | _ => S (length (ch w)) end.

Lemma drain_step w e w' :
  worker w <> Running -> step w e w' -> of_worker e = true ->
  worker w' <> Running /\ (remaining w' < remaining w)%nat /\ (worker w' = Finished -> ch w' = []).
Proof.
  intros N S O. destruct S as [w e|w w' K|w R S|w ok R|w ok w' R K|w ok R K]; try done.
  - unfold receive in K. destruct (ch w) as [|e rest] eqn:G; [done|]. injection K as <-.
    assert (forall x, ch x = rest -> worker x = worker w ->
      worker x <> Running /\ (remaining x < remaining w)%nat /\ (worker x = Finished -> ch x = [])) as X.
    { intros x Cx Wx. unfold remaining. rewrite Cx, Wx, G. cbn [length]. destruct (worker w); [done| |done].
      split_and!; [done|lia|done]. }
    case_decide; [|by apply X]. apply X; unfold flush; by destruct (buf w ++ [e]).
  - unfold remaining. cbn [set_worker worker ch]. rewrite R. split_and!; [done|lia|]. intros _. unfold flush. by destruct (buf w).
Qed.

Lemma drain_progress w : worker w = Draining -> exists e w', step w e w' /\ of_worker e = true.
Proof.
  intros D. destruct (ch w) as [|e rest] eqn:C.
  - exists (EDrained true), (set_worker Finished (flush true w)). split; [by apply step_drained|done].
  - destruct (receive true w) as [w'|] eqn:R; [|unfold receive in R; by rewrite C in R].
    exists (EReceive true), w'. split; [|done]. apply step_receive; [by rewrite D|done].
Qed.

(** The steps of the worker alone. *)
Lemma drain_steps w es w' :
  well_formed w -> worker w <> Running -> steps w es w' -> Forall (fun e => of_worker e = true) es ->
  (worker w = Finished -> ch w = []) ->
  well_formed w' /\ worker w' <> Running /\ taken w' = taken w /\ (length es + remaining w' <= remaining w)%nat /\
  (worker w' = Finished -> ch w' = []).
Proof.
  intros Wf D S F C. induction S as [w|w es w1 e w2 S IH T]; [by split_and!; try lia|].
  apply Forall_app in F as [F [Fe _]%Forall_cons]. destruct (IH Wf D F C) as (Wf1 & D1 & T1 & R1 & _).
  destruct (drain_step w1 e w2 D1 T Fe) as (D2 & R2 & C2).
  destruct (log_step_taken w1 e w2 Wf1 T) as (l & T2 & Sl & _).
  assert (l = []) as ->. { destruct e; try done; by apply sublist_nil_r in Sl. }
  split_and!; [by eapply log_step_wf|done|by rewrite T2, app_nil_r|rewrite length_app; cbn [length]; lia|done].
Qed.

(** C27. The log loses nothing in silence. Whatever the interleaving of requests, ticks, the
    worker and the closing, what the writer has taken (the batches handed to the store, its
    buffer and the channel, in this order) is a subsequence of what was written, and the counter
    says how many entries are missing; batches are not empty and hold at most 500 entries. Once
    the writer is closed and drains its channel, the worker alone stops after at most one step
    for each entry in the channel and one more, and then every entry that was taken is in a
    batch. *)
Theorem log_writer_delivers es w :
  steps NewLogWriter es w ->
  taken w `sublist_of` written es /\
  Z.of_nat (length (written es)) = Z.of_nat (length (taken w)) + dropped w /\
  Forall (fun b => b.1 <> [] /\ (length b.1 <= batchSize)%nat) (batches w) /\
  (worker w = Draining -> forall ds w', steps w ds w' -> Forall (fun e => of_worker e = true) ds ->
     (length ds <= S (length (ch w)))%nat /\
     ((forall e w'', of_worker e = true -> ~ step w' e w'') -> worker w' = Finished /\ concat (batches w').*1 = taken w)).
Proof.
  intros S. destruct (steps_taken es w S) as [T L]. pose proof (steps_wf es w S) as Wf.
  split_and!; [done|done|apply Wf|]. intros D ds w' S' F.
  destruct (drain_steps w ds w' Wf ltac:(by rewrite D) S' F ltac:(by rewrite D)) as (Wf' & D' & T' & R & C).
  split; [unfold remaining in R at 2; rewrite D in R; lia|]. intros Stuck.
  destruct (worker w') eqn:P; [done| |].
  - destruct (drain_progress w' P) as (e & w'' & St & O). by destruct (Stuck e w'' O).
  - split; [done|]. rewrite <- T'. unfold taken. destruct (wf_finished w' Wf' P) as [-> _].
    by rewrite (C eq_refl), app_nil_r.
Qed.

(** ** Witness *)

Definition demo_entry (id : string) (t : Time) : LogEntry :=
  mkLog id t "gpt-4o" "openai" (Some "k1") None (Some "t1") None 10 5 15 f64_0 7 None 200 "stop" false false "" "" ∅.

(** An entry is written, the writer is closed, and a second entry is written while it drains. *)
Definition demo_events : list event :=
  [EWrite (demo_entry "a" 1); EClose; EStop; EWrite (demo_entry "b" 2)].
Definition demo_writer : Writer :=
  mkWriter [demo_entry "a" 1; demo_entry "b" 2] [] [] 0 true Draining.

Lemma demo_steps : steps NewLogWriter demo_events demo_writer.
Proof.
  apply (steps_snoc _ [EWrite (demo_entry "a" 1); EClose; EStop] (mkWriter [demo_entry "a" 1] [] [] 0 true Draining));
    [|exact (step_write (mkWriter [demo_entry "a" 1] [] [] 0 true Draining) (demo_entry "b" 2))].
  apply (steps_snoc _ [EWrite (demo_entry "a" 1); EClose] (mkWriter [demo_entry "a" 1] [] [] 0 true Running));
    [|by apply (step_stop (mkWriter _ _ _ _ _ _))].
  apply (steps_snoc _ [EWrite (demo_entry "a" 1)] (mkWriter [demo_entry "a" 1] [] [] 0 false Running));
    [|by apply step_close].
  apply (steps_snoc _ [] NewLogWriter); [constructor|apply step_write].
Qed.

Lemma log_writer_delivers_witness :
  taken demo_writer = written demo_events /\
  forall ds w', steps demo_writer ds w' -> Forall (fun e => of_worker e = true) ds -> (length ds <= 3)%nat.
Proof.
  split; [reflexivity|]. intros ds w' S F.
  destruct (log_writer_delivers demo_events demo_writer demo_steps) as (_ & _ & _ & H).
  exact (proj1 (H eq_refl ds w' S F)).
Defined.

End LogWriter.

Module LogStore.
Import LogWriter.

(** ** store/postgres/log_store.go *)

Record counts := mkCounts { c_requests : Z; c_prompt : Z; c_completion : Z; c_total : Z; c_errors : Z }.

Definition no_counts : counts := mkCounts 0 0 0 0 0.
Definition counts_add (a b : counts) : counts :=
  mkCounts (c_requests a + c_requests b) (c_prompt a + c_prompt b) (c_completion a + c_completion b)
    (c_total a + c_total b) (c_errors a + c_errors b).

(** What an entry adds to the counts of its day. *)
Definition entry_counts (e : LogEntry) : counts :=
  mkCounts 1 (PromptTokens e) (CompletionTokens e) (TotalTokens e)
    (if (500 <=? StatusCode e) || negb (String.eqb (ErrorCode e) "") then 1 else 0).

(** The primary key of the usage table: day, model, provider and virtual key. *)
Abbreviation usage_key := (Z * string * string * UUID)%type.
Definition key_day (k : usage_key) : Z := k.1.1.1.
Definition key_model (k : usage_key) : string := k.1.1.2.
Definition key_provider (k : usage_key) : string := k.1.2.
Definition key_id (k : usage_key) : UUID := k.2.

Definition sentinelKeyID : UUID := zero_uuid.

Definition key_of (e : LogEntry) : usage_key :=
  (Calendar.dayOf (Timestamp e), Model e, Provider e, default sentinelKeyID (VirtualKeyID e)).

Record owner := mkOwner { o_user : option UUID; o_team : option UUID; o_org : option UUID }.

(** What a batch holds of one key. *)
Record agg := mkAgg { a_owner : owner; a_counts : counts; a_cost : float64 }.

Definition group_entry (g : gmap usage_key agg) (e : LogEntry) : gmap usage_key agg :=
  if String.eqb (Model e) "" then g
  else
    let a := default (mkAgg (mkOwner (UserID e) (TeamID e) (OrgID e)) no_counts f64_0) (g !! key_of e) in
    <[key_of e := mkAgg (a_owner a) (counts_add (a_counts a) (entry_counts e)) (f64_add (a_cost a) (CostUSD e))]> g.

Definition grouped (entries : list LogEntry) : gmap usage_key agg := foldl group_entry ∅ entries.

(** A row of daily_usage; its cost is a decimal number. *)
Record usage_row := mkRow { u_owner : owner; u_counts : counts; u_cost : Z }.

Record DB := mkDB { logs : list LogEntry; usage : gmap usage_key usage_row }.

Section Store.
(** How the database reads an amount, and gives it back. *)
Context (decimal : float64 -> Z) (to_float : Z -> float64).

(** INSERT ... ON CONFLICT DO UPDATE: the counts and the cost add up, the owner stays. *)
Definition upsert (u : gmap usage_key usage_row) (ka : usage_key * agg) : gmap usage_key usage_row :=
  let '(k, a) := ka in
  <[k := match u !! k with
         | None => mkRow (a_owner a) (a_counts a) (decimal (a_cost a))
         | Some r => mkRow (u_owner r) (counts_add (u_counts r) (a_counts a)) (u_cost r + decimal (a_cost a))
         end]> u.

(** The widths of the columns of request_logs (migrations/004). *)
Definition fits (e : LogEntry) : bool :=
  (Cost.rune_count (RequestID e) <=? 36)%nat && (Cost.rune_count (Model e) <=? 200)%nat && (Cost.rune_count (Provider e) <=? 50)%nat &&
  (Cost.rune_count (FinishReason e) <=? 20)%nat && (Cost.rune_count (ErrorCode e) <=? 50)%nat.

(** [ok] says whether the statements succeed; a failure is ignored. *)
Definition upsertDailyUsage (ok : bool) (entries : list LogEntry) (u : gmap usage_key usage_row)
  : gmap usage_key usage_row :=
  if ok then foldl upsert u (map_to_list (grouped entries)) else u.

(** A value that is too long fails its statement, and with it the batch. *)
Definition BatchInsert (insert_ok usage_ok : bool) (entries : list LogEntry) (db : DB) : bool * DB :=
  match entries with
  | [] => (true, db)
  | _ =>
      if negb (insert_ok && forallb fits entries) then (false, db)
      else (true, mkDB (logs db ++ entries) (upsertDailyUsage usage_ok entries (usage db)))
  end.

(** The row of a request; the table has no unique key on it. *)
Definition GetByRequestID (db : DB) (id : string) : option LogEntry :=
  List.find (fun e => String.eqb (RequestID e) id) (logs db).

Definition in_range (from to : Time) (e : LogEntry) : bool := (from <=? Timestamp e) && (Timestamp e <=? to).

Definition CacheStats (db : DB) (from to : Time) : Z * Z :=
  let rows := List.filter (in_range from to) (logs db) in
  (Z.of_nat (length rows), Z.of_nat (length (List.filter CacheHit rows))).

(** Zero times and limits are absent. *)
Record LogFilter := mkFilter { FKey : option UUID; From : Time; To : Time; Limit : Z; Offset : Z }.

Definition matches (f : LogFilter) (now : Time) (e : LogEntry) : bool :=
  in_range (if From f =? 0 then Calendar.AddDays now (-7) else From f) (if To f =? 0 then now else To f) e &&
  match FKey f with
  | None => true
  | Some id => match VirtualKeyID e with Some k => String.eqb k id | None => false end
  end.

(** [order] is ORDER BY timestamp DESC, with equal times in any order; a negative OFFSET is an
    error. *)
Definition List_ (order : list LogEntry -> list LogEntry) (db : DB) (f : LogFilter) (now : Time) : option (list LogEntry) :=
  let limit := if (Limit f <=? 0) || (1000 <? Limit f) then 100 else Limit f in
  if Offset f <? 0 then None
  else Some (take (Z.to_nat limit) (drop (Z.to_nat (Offset f)) (order (List.filter (matches f now) (logs db))))).

Definition Count (db : DB) (f : LogFilter) (now : Time) : Z :=
  Z.of_nat (length (List.filter (matches f now) (logs db))).

(** ** Stats of handler/admin_cache.go *)

(** The hits of today in percent, if there was a request. *)
Definition cache_Stats (db : DB) (ok : bool) (now : Time) : option (Z * Z * option float64) :=
  let dayStart := Calendar.Date (Calendar.Year now) (Calendar.Month now) (Calendar.DayOfMonth now) 0 0 0 in
  if negb ok then None
  else
    let '(total, hits) := CacheStats db dayStart now in
    Some (total, hits,
          if 0 <? total then Some (f64_mul (f64_div (f64_of_Z hits) (f64_of_Z total)) (f64_of_Z 100)) else None).

(** ** store/postgres/usage_store.go *)

Record dailyUsageRow := mkDaily { DKey : usage_key; DOwner : owner; DCounts : counts; DCost : float64 }.

Definition BatchUpsert (ok : bool) (rows : list dailyUsageRow) (u : gmap usage_key usage_row)
  : bool * gmap usage_key usage_row :=
  match rows with
  | [] => (true, u)
  | _ =>
      if negb ok then (false, u)
      else (true, foldl (fun u r => upsert u (DKey r, mkAgg (DOwner r) (DCounts r) (DCost r))) u rows)
  end.

Record UsageSummary := mkSummary {
  STotalRequests : Z;
  STotalTokens : Z;
  STotalCostUSD : float64;
  SPromptTokens : Z;
  SCompletionTokens : Z;
  SErrorCount : Z
}.

(** SUM over the rows a condition selects. *)
Definition sum_rows {A} (P : usage_key -> A -> bool) (f : A -> Z) (m : gmap usage_key A) : Z :=
  map_fold (fun k r acc => if P k r then f r + acc else acc) 0 m.

(** The rows of an entity; [None] for an unsupported kind of entity. *)
Definition of_entity (entityType : string) (id : UUID) : option (usage_key -> usage_row -> bool) :=
  if String.eqb entityType "key" then Some (fun k _ => String.eqb (key_id k) id)
  else if String.eqb entityType "team" then
    Some (fun _ r => match o_team (u_owner r) with Some t => String.eqb t id | None => false end)
  else None.

(** A date column compared with a time is compared with its date. *)
Definition in_days (from to : Time) (k : usage_key) : bool :=
  (Calendar.dayOf from <=? key_day k) && (key_day k <=? Calendar.dayOf to).

Definition GetSummary (u : gmap usage_key usage_row) (entityType : string) (id : UUID) (from to : Time)
  : option UsageSummary :=
  match of_entity entityType id with
  | None => None
  | Some P =>
      let sum (f : usage_row -> Z) := sum_rows (fun k r => P k r && in_days from to k) f u in
      Some (mkSummary (sum (fun r => c_requests (u_counts r))) (sum (fun r => c_total (u_counts r)))
              (to_float (sum u_cost)) (sum (fun r => c_prompt (u_counts r)))
              (sum (fun r => c_completion (u_counts r))) (sum (fun r => c_errors (u_counts r))))
  end.

Record ModelBreakdown := mkModel {
  MModel : string; MProvider : string; MRequests : Z; MPrompt : Z; MCompletion : Z; MTotal : Z; MCost : Z
}.
Record TopSpender := mkSpender { TKey : UUID; TRequests : Z; TTokens : Z; TCost : Z }.

(** GROUP BY: the groups that occur in the selected rows, and the sum of a column over one of
    them. *)
Definition groups {A B} `{Countable B} (P : usage_key -> A -> bool) (g : usage_key -> A -> B) (u : gmap usage_key A)
  : list B :=
  elements (list_to_set (omap (fun '(k, r) => if P k r then Some (g k r) else None) (map_to_list u)) : gset B).

Definition group_sum {A B} `{EqDecision B} (P : usage_key -> A -> bool) (g : usage_key -> A -> B) (u : gmap usage_key A)
    (b : B) (f : A -> Z) : Z :=
  sum_rows (fun k r => P k r && bool_decide (g k r = b)) f u.

(** [order] is ORDER BY SUM(cost_usd) DESC. *)
Definition GetByModel (order : list ModelBreakdown -> list ModelBreakdown) (u : gmap usage_key usage_row)
    (entityType : string) (id : UUID) (from to : Time) : option (list ModelBreakdown) :=
  match of_entity entityType id with
  | None => None
  | Some P =>
      let sel k r := P k r && in_days from to k in
      let g k (_ : usage_row) := (key_model k, key_provider k) in
      Some (order ((fun mp =>
        let sum := group_sum sel g u mp in
        mkModel mp.1 mp.2 (sum (fun r => c_requests (u_counts r))) (sum (fun r => c_prompt (u_counts r)))
          (sum (fun r => c_completion (u_counts r))) (sum (fun r => c_total (u_counts r))) (sum u_cost))
        <$> groups sel g u))
  end.

Definition TopSpenders (order : list TopSpender -> list TopSpender) (u : gmap usage_key usage_row)
    (from to : Time) (limit : Z) : list TopSpender :=
  let limit := if (limit <=? 0) || (100 <? limit) then 10 else limit in
  let sel k (_ : usage_row) := in_days from to k && negb (String.eqb (key_id k) sentinelKeyID) in
  let g k (_ : usage_row) := key_id k in
  take (Z.to_nat limit) (order ((fun id =>
    let sum := group_sum sel g u id in
    mkSpender id (sum (fun r => c_requests (u_counts r))) (sum (fun r => c_total (u_counts r))) (sum u_cost))
    <$> groups sel g u)).

(** ** handler/admin_usage.go *)

Definition periodRange (period : string) (now : Time) : Time * Time :=
  let midnight t := Calendar.Date (Calendar.Year t) (Calendar.Month t) (Calendar.DayOfMonth t) 0 0 0 in
  if String.eqb period "daily" then
    let from := midnight now in (from, time_Add (Calendar.AddDays from 1) (- Second))
  else if String.eqb period "weekly" then
    let weekday := Calendar.Weekday now in
    let weekday := if weekday =? 0 then 7 else weekday in
    let monday := Calendar.AddDays now (- (weekday - 1)) in
    let from := midnight monday in (from, time_Add (Calendar.AddDays from 7) (- Second))
  else if String.eqb period "monthly" then
    let from := Calendar.Date (Calendar.Year now) (Calendar.Month now) 1 0 0 0 in
    (from, time_Add (Calendar.AddMonths from 1) (- Second))
  else (midnight now, now).

Inductive summary_reply := SumError (code : Z) | SumOk (from to : Time) (s : UsageSummary) (byModel : list ModelBreakdown).

(** [entityID] is what [uuid.Parse] makes of the parameter; [sum_ok] and [model_ok] say whether
    the database answers. *)
Definition Summary (order : list ModelBreakdown -> list ModelBreakdown) (entityType entityIDStr : string)
    (entityID : option UUID) (period : string) (sum_ok model_ok : bool) (now : Time) (u : gmap usage_key usage_row)
  : summary_reply :=
  if String.eqb entityType "" || String.eqb entityIDStr "" then SumError 400
  else match entityID with
       | None => SumError 400
       | Some id =>
           let '(from, to) := periodRange period now in
           match (if sum_ok then GetSummary u entityType id from to else None) with
           | None => SumError 500
           | Some s =>
               SumOk from to s (default [] (if model_ok then GetByModel order u entityType id from to else None))
           end
       end.

(** A query parameter that [strconv.Atoi] reads, if it does. *)
Definition spenders_limit (param : option (option Z)) : Z :=
  match param with
  | Some (Some n) => if (0 <? n) && (n <=? 100) then n else 10
  | _ => 10
  end.

Definition admin_TopSpenders (order : list TopSpender -> list TopSpender) (period : string) (limit : option (option Z))
    (ok : bool) (now : Time) (u : gmap usage_key usage_row) : option (Time * Time * list TopSpender) :=
  let '(from, to) := periodRange period now in
  if ok then Some (from, to, TopSpenders order u from to (spenders_limit limit)) else None.

(** ** handler/admin_logs.go *)

(** A query parameter: absent, unreadable, or its value. *)
Inductive param (A : Type) := Absent | Malformed | Value (a : A).
Arguments Absent {A}.
Arguments Malformed {A}.
Arguments Value {A} _.

Inductive logs_reply := LogsError (code : Z) | LogsPage (data : list LogEntry) (total page limit : Z).

(** The filter and the page a request asks for; [None] is answered 400. *)
Definition logs_filter (key : param UUID) (from to : param Time) (limit page offset : param Z) : option (LogFilter * Z) :=
  match key, from, to with
  | Malformed, _, _ | _, Malformed, _ | _, _, Malformed => None
  | _, _, _ =>
      let get {A} (d : A) (p : param A) := match p with Value a => a | _ => d end in
      let f l o := mkFilter (match key with Value k => Some k | _ => None end) (get 0 from) (get 0 to) l o in
      match limit with
      | Malformed => None
      | _ =>
          let l := get 0 limit in
          if match limit with Value n => (n <? 1) || (1000 <? n) | _ => false end then None
          else match page with
               | Malformed => None
               | Value n =>
                   if n <? 1 then None
                   else Some (f l (wrap64 ((n - 1) * (if l <=? 0 then 100 else l))), n)
               | Absent =>
                   match offset with
                   | Malformed => None
                   | Value n => if n <? 0 then None else Some (f l n, 1)
                   | Absent => Some (f l 0, 1)
                   end
               end
      end
  end.

Definition admin_List (order : list LogEntry -> list LogEntry) (key : param UUID) (from to : param Time)
    (limit page offset : param Z) (count_ok list_ok : bool) (now now' : Time) (db : DB) : logs_reply :=
  match logs_filter key from to limit page offset with
  | None => LogsError 400
  | Some (f, page) =>
      if negb count_ok then LogsError 500
      else match (if list_ok then List_ order db f now' else None) with
           | None => LogsError 500
           | Some data => LogsPage data (Count db f now) page (if Limit f <=? 0 then 100 else Limit f)
           end
  end.

Inductive log_reply := LogError (code : Z) | LogFound (e : LogEntry).

Definition admin_Get (id : string) (ok : bool) (db : DB) : log_reply :=
  if String.eqb id "" then LogError 400
  else if negb ok then LogError 500
  else match GetByRequestID db id with None => LogError 404 | Some e => LogFound e end.

(** ** The usage table counts the log *)

Section Sums.
Context {A : Type} (P : usage_key -> bool) (f : A -> Z).

Local Abbreviation total := (sum_rows (fun k _ => P k) f).

Lemma sum_insert_new m k a : m !! k = None -> total (<[k := a]> m) = (if P k then f a else 0) + total m.
Proof.
  intros N. unfold sum_rows. rewrite map_fold_insert_L; [by destruct (P k)| |done].
  intros. repeat case_match; lia.
Qed.

Lemma sum_insert m k a :
  total (<[k := a]> m) = total m + (if P k then f a - from_option f 0 (m !! k) else 0).
Proof.
  destruct (m !! k) as [b|] eqn:L; cbn [from_option].
  - rewrite <- (insert_delete_id m k b L) at 2. rewrite <- insert_delete_eq.
    rewrite !sum_insert_new by apply lookup_delete_eq. destruct (P k); lia.
  - rewrite sum_insert_new by done. destruct (P k); lia.
Qed.

End Sums.

(** The sums over the groups are the sum over the rows. *)
Lemma sum_list_sel {A} (P : usage_key -> A -> bool) (f : A -> Z) m :
  sum_rows P f m = foldr Z.add 0 ((fun '(k, a) => if P k a then f a else 0) <$> map_to_list m).
Proof.
  unfold sum_rows. rewrite map_fold_foldr. induction (map_to_list m) as [|[k a] l IH]; [done|].
  cbn. rewrite IH. by destruct (P k a).
Qed.

Lemma sum_once {B} `{EqDecision B} (bs : list B) (b : B) (z : Z) :
  NoDup bs -> foldr Z.add 0 ((fun b' => if bool_decide (b = b') then z else 0) <$> bs) =
  if decide (b ∈ bs) then z else 0.
Proof using Type.
  clear decimal to_float.
  induction 1 as [|x bs N D IH]; cbn [fmap list_fmap foldr].
  - rewrite decide_False; [done|]. apply not_elem_of_nil.
  - rewrite IH. case_bool_decide as E; [subst|].
    + rewrite decide_False by done. rewrite decide_True by set_solver. lia.
    + destruct (decide (b ∈ bs)); [rewrite decide_True by set_solver|rewrite decide_False by set_solver]; lia.
Qed.

Lemma group_sums {A B} `{Countable B} (P : usage_key -> A -> bool) (g : usage_key -> A -> B) m f :
  foldr Z.add 0 ((fun b => group_sum P g m b f) <$> groups P g m) = sum_rows P f m.
Proof.
  unfold group_sum, groups. set (bs := elements _).
  assert (NoDup bs) as D by apply NoDup_elements.
  assert (forall k a, (k, a) ∈ map_to_list m -> P k a = true -> g k a ∈ bs) as I.
  { intros k a M E. apply elem_of_elements, elem_of_list_to_set, list_elem_of_omap. exists (k, a). by rewrite E. }
  clearbody bs. rewrite sum_list_sel.
  transitivity (foldr Z.add 0 ((fun b => foldr Z.add 0 ((fun '(k, a) => if P k a && bool_decide (g k a = b) then f a else 0)
    <$> map_to_list m)) <$> bs)).
  { f_equal. apply list_fmap_ext. intros i b _. apply sum_list_sel. }
  induction (map_to_list m) as [|[k a] l IH].
  - clear. induction bs as [|b bs IH]; [done|]. cbn in *. lia.
  - cbn [fmap list_fmap foldr]. rewrite <- IH by (intros k' a' M; apply I; by right).
    assert ((if P k a then f a else 0) =
      foldr Z.add 0 ((fun b => if P k a && bool_decide (g k a = b) then f a else 0) <$> bs)) as ->.
    { destruct (P k a) eqn:E; cbn [andb].
      - rewrite sum_once by done. rewrite decide_True; [done|]. apply I; [by left|done].
      - clear. induction bs as [|b bs IH]; [done|]. cbn in *. lia. }
    clear. induction bs as [|b bs IH]; [done|]. cbn [fmap list_fmap foldr] in *. lia.
Qed.

(** A measure of the counts that adds up: one of the columns. *)
Definition additive (f : counts -> Z) : Prop := forall a b, f (counts_add a b) = f a + f b.

Lemma additive_no_counts f : additive f -> f no_counts = 0.
Proof. intros A. specialize (A no_counts no_counts). change (counts_add no_counts no_counts) with no_counts in A. lia. Qed.

(** What the entries with a model add, of those whose key is selected. *)
Definition measure (P : usage_key -> bool) (f : counts -> Z) (es : list LogEntry) : Z :=
  foldr Z.add 0 ((fun e => if negb (String.eqb (Model e) "") && P (key_of e) then f (entry_counts e) else 0) <$> es).

Lemma measure_app P f es es' : measure P f (es ++ es') = measure P f es + measure P f es'.
Proof. unfold measure. rewrite fmap_app. induction es as [|e es IH]; [done|]. cbn. rewrite IH. lia. Qed.

Lemma sum_grouped P f es :
  additive f -> sum_rows (fun k _ => P k) (fun a => f (a_counts a)) (grouped es) = measure P f es.
Proof.
  intros Ad. unfold grouped. induction es as [|e es IH] using rev_ind; [done|].
  rewrite foldl_snoc, measure_app. set (g := foldl group_entry ∅ es) in *. unfold group_entry.
  unfold measure at 2. cbn [fmap list_fmap foldr]. destruct (String.eqb (Model e) ""); cbn [negb andb]; [lia|].
  rewrite sum_insert, IH. cbn [a_counts]. rewrite Ad.
  destruct (P (key_of e)); [|lia]. destruct (g !! key_of e) as [a|]; cbn [default from_option a_counts id]; [lia|].
  rewrite (additive_no_counts f Ad). lia.
Qed.

Lemma sum_upsert P f u l :
  additive f ->
  sum_rows (fun k _ => P k) (fun r => f (u_counts r)) (foldl upsert u l) =
  sum_rows (fun k _ => P k) (fun r => f (u_counts r)) u +
  foldr Z.add 0 ((fun '(k, a) => if P k then f (a_counts a) else 0) <$> l).
Proof.
  intros Ad. revert u. induction l as [|[k a] l IH]; intros u; cbn [foldl fmap list_fmap foldr]; [lia|].
  rewrite IH. unfold upsert at 1. rewrite sum_insert. destruct (P k); [|lia].
  destruct (u !! k) as [r|]; cbn [from_option u_counts]; [rewrite Ad; lia|lia].
Qed.

Lemma sum_upsertDailyUsage P f u es :
  additive f ->
  sum_rows (fun k _ => P k) (fun r => f (u_counts r)) (upsertDailyUsage true es u) =
  sum_rows (fun k _ => P k) (fun r => f (u_counts r)) u + measure P f es.
Proof.
  intros Ad. unfold upsertDailyUsage. rewrite sum_upsert by done.
  rewrite <- (sum_list_sel (fun k _ => P k) (fun a => f (a_counts a))).
  by rewrite sum_grouped.
Qed.

(** The batches a store was given, with whether the database took each, and what is in the table
    of them. *)
Definition insert_all (bs : list (list LogEntry * bool)) (db : DB) : DB :=
  foldl (fun db b => (BatchInsert b.2 true b.1 db).2) db bs.

Definition inserted (bs : list (list LogEntry * bool)) : list LogEntry :=
  concat ((fun b => if b.2 && forallb fits b.1 then b.1 else []) <$> bs).

Lemma insert_all_sound P f bs :
  additive f ->
  logs (insert_all bs (mkDB [] ∅)) = inserted bs /\
  sum_rows (fun k _ => P k) (fun r => f (u_counts r)) (usage (insert_all bs (mkDB [] ∅))) = measure P f (inserted bs).
Proof.
  intros Ad. induction bs as [|[b ok] bs [IL IU]] using rev_ind; [done|].
  unfold insert_all, inserted in *. rewrite foldl_snoc, fmap_app, concat_app. cbn [fmap list_fmap concat fst snd].
  rewrite app_nil_r. set (db := foldl _ _ bs) in *. rewrite measure_app.
  unfold BatchInsert. destruct b as [|e b]; [rewrite andb_comm; destruct ok; cbn; rewrite app_nil_r, Z.add_0_r; done|].
  destruct (ok && forallb fits (e :: b)); cbn [negb snd logs usage].
  - split; [by rewrite IL|]. by rewrite sum_upsertDailyUsage, IU.
  - rewrite app_nil_r. cbn. by rewrite Z.add_0_r.
Qed.

(** The range of a period in the usage reports is the budget's period. *)
Lemma periodRange_spec period now :
  period ∈ ["daily"; "weekly"; "monthly"] ->
  exists i j, Calendar.PeriodStart period now = Ok (i * Calendar.Day) /\
    Calendar.PeriodEnd period now = Ok (j * Calendar.Day) /\
    periodRange period now = (i * Calendar.Day, j * Calendar.Day - Second).
Proof.
  rewrite !elem_of_cons. intros [->|[->|[->|H]]]; [..|by apply elem_of_nil in H].
  - exists (Calendar.dayOf now), (Calendar.dayOf now + 1).
    rewrite (Calendar.tl_start _ _ _ Calendar.daily_tiles), (Calendar.tl_end _ _ _ Calendar.daily_tiles).
    split_and!; [done..|]. unfold periodRange. cbn [String.eqb Ascii.eqb Bool.eqb]. cbv zeta. rewrite Calendar.Date_civil0.
    unfold Calendar.AddDays, time_Add. f_equal; lia.
  - exists (7 * (Calendar.dayOf now / 7)), (7 * (Calendar.dayOf now / 7 + 1)).
    rewrite (Calendar.tl_start _ _ _ Calendar.weekly_tiles), (Calendar.tl_end _ _ _ Calendar.weekly_tiles).
    split_and!; [done..|]. unfold periodRange. cbn [String.eqb Ascii.eqb Bool.eqb].
    fold (Calendar.mondayOf now). cbv zeta. rewrite Calendar.Date_civil0, Calendar.dayOf_monday.
    unfold Calendar.AddDays, time_Add. f_equal; lia.
  - exists (Calendar.monthStart (Calendar.monthIndex now)), (Calendar.monthStart (Calendar.monthIndex now + 1)).
    rewrite (Calendar.tl_start _ _ _ Calendar.monthly_tiles), (Calendar.tl_end _ _ _ Calendar.monthly_tiles).
    split_and!; [done..|]. unfold periodRange. cbn [String.eqb Ascii.eqb Bool.eqb]. cbv zeta.
    rewrite <- (Z.add_0_r (Calendar.Month now)), Calendar.Date_month, Z.add_0_r, Calendar.AddMonths_start. done.
Qed.

Lemma in_days_range i j e :
  in_days (i * Calendar.Day) (j * Calendar.Day - Second) (key_of e) =
  (i * Calendar.Day <=? Timestamp e) && (Timestamp e <? j * Calendar.Day).
Proof.
  unfold in_days, key_of, key_day. cbn [fst snd]. pose proof (Calendar.dayOf_bounds (Timestamp e)) as B.
  assert (Calendar.dayOf (i * Calendar.Day) = i) as -> by (unfold Calendar.dayOf; by rewrite Z.div_mul).
  assert (Calendar.dayOf (j * Calendar.Day - Second) = j - 1) as ->.
  { unfold Calendar.dayOf. symmetry. apply (Z.div_unique _ _ _ (Calendar.Day - Second)); unfold Calendar.Day, Hour, Minute, Second; lia. }
  assert (0 < Calendar.Day) by done.
  destruct (Z.leb_spec i (Calendar.dayOf (Timestamp e))), (Z.leb_spec (i * Calendar.Day) (Timestamp e)),
    (Z.leb_spec (Calendar.dayOf (Timestamp e)) (j - 1)), (Z.ltb_spec (Timestamp e) (j * Calendar.Day));
    try reflexivity; exfalso; nia.
Qed.

(** The entries of a key in a period, of those that were inserted with a model. *)
Definition selected (id : UUID) (s e : Time) (es : list LogEntry) : list LogEntry :=
  List.filter (fun x => negb (String.eqb (Model x) "") && (String.eqb (default sentinelKeyID (VirtualKeyID x)) id &&
    ((s <=? Timestamp x) && (Timestamp x <? e)))) es.

Lemma measure_selected f id i j es :
  measure (fun k => String.eqb (key_id k) id && in_days (i * Calendar.Day) (j * Calendar.Day - Second) k) f es =
  foldr Z.add 0 ((fun e => f (entry_counts e)) <$> selected id (i * Calendar.Day) (j * Calendar.Day) es).
Proof.
  unfold measure, selected. induction es as [|e es IH]; [done|]. cbn [fmap list_fmap foldr List.filter].
  rewrite IH, in_days_range. change (key_id (key_of e)) with (default sentinelKeyID (VirtualKeyID e)).
  by destruct (negb _ && _).
Qed.

Lemma sum_ones (l : list LogEntry) : foldr Z.add 0 ((fun _ => 1) <$> l) = Z.of_nat (length l).
Proof. induction l as [|x l IH]; [done|]. cbn [fmap list_fmap foldr length]. rewrite IH. lia. Qed.


(** No entry the middleware writes is marked as a cache hit, so the statistics show none. *)
Lemma cache_hits_never_counted db from to :
  Forall (fun e => exists id s d lc es, RequestLogger id s d lc es = (Some e, (RequestLogger id s d lc es).2)) (logs db) ->
  (CacheStats db from to).2 = 0.
Proof.
  intros F. unfold CacheStats. cbn [snd]. induction F as [|e l (id & s & d & lc & es & R) F IH]; [done|].
  cbn [List.filter]. destruct (in_range from to e); [|done]. cbn [List.filter].
  assert (CacheHit e = false) as ->; [|done].
  unfold RequestLogger in R. destruct (String.eqb _ ""); [done|]. by injection R as <-.
Qed.

End Store.

(** ** Witness *)

(** Two requests of a key today and one of yesterday, in two batches. *)
Definition demo_now : Time := Calendar.Date 2026 3 4 12 0 0.
Definition demo_batches : list (list LogEntry * bool) :=
  [([demo_entry "a" demo_now; demo_entry "b" (Calendar.AddDays demo_now (-1))], true);
   ([demo_entry "c" (time_Add demo_now Hour)], true)].

(** The request identifier is the client's, if it sends one, and one that is too long takes the
    entries of other requests with it. *)
Example long_request_id_loses_batch :
  let long := demo_entry "0123456789012345678901234567890123456789" demo_now in
  (BatchInsert (fun _ => 0) true true [demo_entry "a" demo_now; long] (mkDB [] ∅)).1 = false.
Proof. vm_compute. reflexivity. Qed.


End LogStore.
