(* ===== verification/Rows.v ===== *)
(** * Rows of the database (the insert parameters and scan functions of
    internal/store/postgres: virtual_key_store.go, provider_store.go, model_store.go,
    provider_key_store.go, log_store.go, abtest_store.go, budget_store.go)

    The other files keep the records of a table as they are given. Here a record goes through the
    columns of its table: the parameters of the INSERT, the types of the columns (migrations/) and
    the function that scans a row. A value a column does not take makes the statement fail; what a
    column takes it may round. Each table is an instance of the class [RowCodec], and the theorem
    says when a record comes back as it was and that what was read once stays as it is. The last
    part is the table of virtual keys itself, which refines the one of [VirtualKey]. The database's
    own conversions are the class [Pg]. *)

From S2P Require Import Prelude GoStrings Float64 Types Cost VirtualKey Budget ExactCache ProviderKeys Catalog ABTest Logs.
Local Open Scope Z_scope.

Module Rows.

(** ** Columns *)

(** What the database makes of a value: a VARCHAR of a length or, for zero, TEXT; a DECIMAL of a
    precision and a scale, in units of its last digit, and the float pgtype makes of it; a JSONB
    text; the UUID a text stands for. [None] is a value that is refused. *)
Class Pg := {
  varchar : Z -> string -> option string;
  numeric : Z -> Z -> float64 -> option Z;
  float_of : Z -> Z -> float64;
  jsonb : string -> option string;
  uuid_text : string -> option UUID
}.

(** What a column holds it would take again as it is; a text that stands for a UUID has 36
    characters, or 32 without the dashes. *)
Class PgLaws `{Pg} : Prop := {
  varchar_kept : forall n s t, varchar n s = Some t -> varchar n t = Some t;
  numeric_kept : forall p s f z, numeric p s f = Some z -> numeric p s (float_of s z) = Some z;
  jsonb_kept : forall s t, jsonb s = Some t -> jsonb t = Some t;
  jsonb_nonempty : forall s t, jsonb s = Some t -> t <> "";
  uuid_length : forall s u, uuid_text s = Some u -> String.length s = 36%nat \/ String.length s = 32%nat
}.

(** INTEGER and SMALLINT: the driver refuses what does not fit. *)
Definition int4 (z : Z) : option Z := if (-2147483648 <=? z) && (z <=? 2147483647) then Some z else None.
Definition int2 (z : Z) : option Z := if (-32768 <=? z) && (z <=? 32767) then Some z else None.

(** TIMESTAMPTZ has microseconds. *)
Definition timestamptz (t : Time) : Time := t / 1000 * 1000.

(** A column that may be NULL. *)
Definition nullable {A B} (f : A -> option B) (o : option A) : option (option B) :=
  match o with None => Some None | Some a => Some <$> f a end.

Definition nullableString (s : string) : option string := if String.eqb s "" then None else Some s.
Definition nullableBytes (b : string) : option string := if String.eqb b "" then None else Some b.

(** [uuidPtrToParam]. *)
Definition uuidPtrToParam (id : option UUID) : option UUID := id.

(** A table: how a record is written and how a row is read; which records the columns keep. *)
Class RowCodec (A R : Type) := {
  write : A -> option R;
  scan : R -> res string A;
  keeps : A -> Prop
}.

Section Tables.
Context `{Pg}.

(** A DECIMAL column keeps a number that is the float of one of its values. *)
Definition keeps_numeric (p s : Z) (f : float64) : Prop := exists z, numeric p s f = Some z /\ float_of s z = f.
Definition keeps_opt {A} (P : A -> Prop) (o : option A) : Prop := match o with Some a => P a | None => True end.
Definition keeps_text (n : Z) (s : string) : Prop := varchar n s = Some s.
Definition keeps_int4 (z : Z) : Prop := int4 z = Some z.
Definition keeps_time (t : Time) : Prop := timestamptz t = t.

(** ** virtual_keys *)

Record VKRow := mkVKRow {
  vr_id : UUID; vr_hash : string; vr_prefix : string; vr_name : option string;
  vr_user : option UUID; vr_team : option UUID; vr_org : option UUID;
  vr_expires : option Time; vr_budget : option Z; vr_rpm : option Z; vr_tpm : option Z;
  vr_allowed : list string; vr_blocked : list string; vr_metadata : string;
  vr_active : bool; vr_created : Time; vr_updated : Time; vr_last : option Time
}.

(** The parameters of the INSERT, in their columns. *)
Definition virtualKeyRow (k : VK.VirtualKey) : option VKRow :=
  h ← varchar 64 (VK.KeyHash k);
  p ← varchar 10 (VK.KeyPrefix k);
  n ← varchar 255 (VK.Name k);
  b ← nullable (numeric 12 4) (VK.BudgetUSD k);
  rpm ← nullable int4 (VK.RPMLimit k);
  tpm ← nullable int4 (VK.TPMLimit k);
  al ← mapM (varchar 0) (VK.AllowedModels k);
  bl ← mapM (varchar 0) (VK.BlockedModels k);
  md ← jsonb (VK.default_metadata (VK.VMetadata k));
  Some (mkVKRow (VK.ID k) h p (Some n) (uuidPtrToParam (VK.UserID k)) (uuidPtrToParam (VK.TeamID k))
    (uuidPtrToParam (VK.OrgID k)) (timestamptz <$> VK.ExpiresAt k) b rpm tpm al bl md (VK.IsActive k)
    (timestamptz (VK.CreatedAt k)) (timestamptz (VK.UpdatedAt k)) (timestamptz <$> VK.LastUsedAt k)).

(** A NULL name cannot be scanned into a string. *)
Definition scanVirtualKey (r : VKRow) : res string VK.VirtualKey :=
  match vr_name r with
  | None => Err "cannot scan NULL into *string"
  | Some n =>
      Ok (VK.mkVK (vr_id r) (vr_hash r) (vr_prefix r) n (vr_user r) (vr_team r) (vr_org r) (vr_expires r)
        (float_of 4 <$> vr_budget r) (vr_rpm r) (vr_tpm r) (vr_allowed r) (vr_blocked r) (vr_metadata r)
        (vr_active r) (vr_created r) (vr_updated r) (vr_last r))
  end.

#[export] Instance virtual_keys : RowCodec VK.VirtualKey VKRow := {
  write := virtualKeyRow;
  scan := scanVirtualKey;
  keeps k :=
    keeps_text 64 (VK.KeyHash k) /\ keeps_text 10 (VK.KeyPrefix k) /\ keeps_text 255 (VK.Name k) /\
    keeps_opt (keeps_numeric 12 4) (VK.BudgetUSD k) /\ keeps_opt keeps_int4 (VK.RPMLimit k) /\
    keeps_opt keeps_int4 (VK.TPMLimit k) /\ Forall (keeps_text 0) (VK.AllowedModels k) /\
    Forall (keeps_text 0) (VK.BlockedModels k) /\ jsonb (VK.VMetadata k) = Some (VK.VMetadata k) /\
    VK.VMetadata k <> "" /\ keeps_opt keeps_time (VK.ExpiresAt k) /\ keeps_time (VK.CreatedAt k) /\
    keeps_time (VK.UpdatedAt k) /\ keeps_opt keeps_time (VK.LastUsedAt k)
}.

(** ** providers *)

Record ProviderRow := mkProviderRow {
  pr_id : UUID; pr_name : string; pr_adapter : string; pr_display : string; pr_base : option string;
  pr_enabled : bool; pr_config : option string; pr_sort : option Z; pr_created : option Time; pr_updated : option Time
}.

Definition providerRow (r : Catalog.ProviderRecord) : option ProviderRow :=
  n ← varchar 50 (Catalog.PRName r);
  a ← varchar 50 (Catalog.AdapterType r);
  d ← varchar 100 (Catalog.PRDisplayName r);
  u ← nullable (varchar 0) (nullableString (Catalog.BaseURL r));
  c ← nullable jsonb (nullableBytes (Catalog.ConfigJSON r));
  s ← int4 (Catalog.PRSortOrder r);
  Some (mkProviderRow (Catalog.PRID r) n a d u (Catalog.PREnabled r) c (Some s)
    (Some (timestamptz (Catalog.PRCreatedAt r))) (Some (timestamptz (Catalog.PRUpdatedAt r)))).

(** The zero time and an empty string stand for NULL; a NULL order cannot be scanned. *)
Definition scanProvider (r : ProviderRow) : res string Catalog.ProviderRecord :=
  match pr_sort r with
  | None => Err "cannot scan NULL into *int"
  | Some s =>
      Ok (Catalog.mkProv (pr_id r) (pr_name r) (pr_adapter r) (pr_display r) (default "" (pr_base r))
        (pr_enabled r) (default "" (pr_config r)) s (default 0 (pr_created r)) (default 0 (pr_updated r)))
  end.

#[export] Instance providers : RowCodec Catalog.ProviderRecord ProviderRow := {
  write := providerRow;
  scan := scanProvider;
  keeps r :=
    keeps_text 50 (Catalog.PRName r) /\ keeps_text 50 (Catalog.AdapterType r) /\
    keeps_text 100 (Catalog.PRDisplayName r) /\ keeps_opt (keeps_text 0) (nullableString (Catalog.BaseURL r)) /\
    keeps_opt (fun c => jsonb c = Some c) (nullableBytes (Catalog.ConfigJSON r)) /\
    keeps_int4 (Catalog.PRSortOrder r) /\ keeps_time (Catalog.PRCreatedAt r) /\ keeps_time (Catalog.PRUpdatedAt r)
}.

(** ** models *)

Record ModelRow := mkModelRow {
  mr_id : UUID; mr_provider : UUID; mr_model : string; mr_name : string; mr_display : option string;
  mr_enabled : bool; mr_input : option Z; mr_output : option Z; mr_window : option Z; mr_max : option Z;
  mr_streaming : option bool; mr_tools : option bool; mr_vision : option bool; mr_tags : list string;
  mr_sort : option Z; mr_created : option Time; mr_updated : option Time
}.

Definition modelRow (r : Catalog.ModelRecord) : option ModelRow :=
  m ← varchar 200 (Catalog.MRModelID r);
  n ← varchar 200 (Catalog.MRModelName r);
  d ← varchar 200 (Catalog.MRDisplayName r);
  i ← numeric 12 6 (Catalog.MRInput r);
  o ← numeric 12 6 (Catalog.MROutput r);
  w ← nullable int4 (Catalog.ContextWindow r);
  x ← nullable int4 (Catalog.MaxOutputTokens r);
  t ← mapM (varchar 0) (Catalog.MRTags r);
  s ← int4 (Catalog.MRSortOrder r);
  Some (mkModelRow (Catalog.MRID r) (Catalog.MRProviderID r) m n (Some d) (Catalog.MREnabled r) (Some i) (Some o) w x
    (Some (Catalog.SupportsStreaming r)) (Some (Catalog.SupportsTools r)) (Some (Catalog.SupportsVision r)) t (Some s)
    (Some (timestamptz (Catalog.MRCreatedAt r))) (Some (timestamptz (Catalog.MRUpdatedAt r)))).

Definition scanModel (r : ModelRow) : res string Catalog.ModelRecord :=
  match mr_streaming r, mr_tools r, mr_vision r, mr_sort r with
  | Some st, Some tl, Some vi, Some s =>
      Ok (Catalog.mkModel (mr_id r) (mr_provider r) (mr_model r) (mr_name r) (default "" (mr_display r)) (mr_enabled r)
        (default f64_0 (float_of 6 <$> mr_input r)) (default f64_0 (float_of 6 <$> mr_output r)) (mr_window r) (mr_max r)
        st tl vi (mr_tags r) s (default 0 (mr_created r)) (default 0 (mr_updated r)))
  | _, _, _, _ => Err "cannot scan NULL"
  end.

(** [queryModels]: the first row that cannot be scanned fails the query. *)
Fixpoint queryModels (rows : list ModelRow) : res string (list Catalog.ModelRecord) :=
  match rows with
  | [] => Ok []
  | r :: rows =>
      match scanModel r with
      | Err e => Err ("scan model: " +:+ e)
      | Ok m => match queryModels rows with Err e => Err e | Ok ms => Ok (m :: ms) end
      end
  end.

#[export] Instance models : RowCodec Catalog.ModelRecord ModelRow := {
  write := modelRow;
  scan := scanModel;
  keeps r :=
    keeps_text 200 (Catalog.MRModelID r) /\ keeps_text 200 (Catalog.MRModelName r) /\ keeps_text 200 (Catalog.MRDisplayName r) /\
    keeps_numeric 12 6 (Catalog.MRInput r) /\ keeps_numeric 12 6 (Catalog.MROutput r) /\
    keeps_opt keeps_int4 (Catalog.ContextWindow r) /\ keeps_opt keeps_int4 (Catalog.MaxOutputTokens r) /\
    Forall (keeps_text 0) (Catalog.MRTags r) /\ keeps_int4 (Catalog.MRSortOrder r) /\
    keeps_time (Catalog.MRCreatedAt r) /\ keeps_time (Catalog.MRUpdatedAt r)
}.

(** ** provider_keys *)

Record ProviderKeyRow := mkPKRow {
  kr_id : UUID; kr_provider : string; kr_alias : string; kr_key : string; kr_preview : option string;
  kr_group : option string; kr_tags : list string; kr_active : option bool; kr_weight : option Z;
  kr_budget : option Z; kr_spend : option Z; kr_created : option Time; kr_updated : option Time;
  kr_last : option Time; kr_uses : option Z
}.

Definition providerKeyRow (r : Keys.ProviderKeyRecord) : option ProviderKeyRow :=
  p ← varchar 50 (Keys.PKProvider r);
  a ← varchar 100 (Keys.KeyAlias r);
  v ← varchar 20 (Keys.KeyPreview r);
  g ← nullable (varchar 100) (nullableString (Keys.GroupName r));
  t ← mapM (varchar 0) (Keys.PKTags r);
  w ← int4 (Keys.PKWeight r);
  b ← nullable (numeric 12 4) (Keys.MonthlyBudgetUSD r);
  s ← numeric 12 4 (Keys.CurrentMonthSpend r);
  Some (mkPKRow (Keys.PKID r) p a (Keys.EncryptedKey r) (Some v) g t (Some (Keys.PKActive r)) (Some w) b (Some s)
    (Some (timestamptz (Keys.PKCreatedAt r))) (Some (timestamptz (Keys.PKUpdatedAt r)))
    (timestamptz <$> Keys.PKLastUsedAt r) (Some (Keys.UseCount r))).

Definition scanProviderKey (r : ProviderKeyRow) : res string Keys.ProviderKeyRecord :=
  match kr_preview r, kr_active r, kr_weight r, kr_uses r with
  | Some v, Some a, Some w, Some u =>
      Ok (Keys.mkPK (kr_id r) (kr_provider r) (kr_alias r) (kr_key r) v (default "" (kr_group r)) (kr_tags r) w a
        (float_of 4 <$> kr_budget r) (default f64_0 (float_of 4 <$> kr_spend r)) (default 0 (kr_created r))
        (default 0 (kr_updated r)) (kr_last r) u)
  | _, _, _, _ => Err "cannot scan NULL"
  end.

#[export] Instance provider_keys : RowCodec Keys.ProviderKeyRecord ProviderKeyRow := {
  write := providerKeyRow;
  scan := scanProviderKey;
  keeps r :=
    keeps_text 50 (Keys.PKProvider r) /\ keeps_text 100 (Keys.KeyAlias r) /\ keeps_text 20 (Keys.KeyPreview r) /\
    keeps_opt (keeps_text 100) (nullableString (Keys.GroupName r)) /\ Forall (keeps_text 0) (Keys.PKTags r) /\
    keeps_int4 (Keys.PKWeight r) /\ keeps_opt (keeps_numeric 12 4) (Keys.MonthlyBudgetUSD r) /\
    keeps_numeric 12 4 (Keys.CurrentMonthSpend r) /\ keeps_time (Keys.PKCreatedAt r) /\ keeps_time (Keys.PKUpdatedAt r) /\
    keeps_opt keeps_time (Keys.PKLastUsedAt r)
}.

(** ** budgets *)

Record BudgetRow := mkBudgetRow {
  br_id : UUID; br_type : string; br_entity : UUID; br_period : string;
  br_soft : option Z; br_hard : option Z; br_spend : Z; br_start : Time; br_end : Time
}.

Definition budgetRow (b : Budget.Budget) : option BudgetRow :=
  t ← varchar 20 (Budget.EntityType b);
  p ← varchar 10 (Budget.Period b);
  s ← nullable (numeric 12 4) (Budget.SoftLimitUSD b);
  h ← nullable (numeric 12 4) (Budget.HardLimitUSD b);
  c ← numeric 12 8 (Budget.CurrentSpend b);
  Some (mkBudgetRow (Budget.BID b) t (Budget.EntityID b) p s h c (timestamptz (Budget.PStart b)) (timestamptz (Budget.PEnd b))).

Definition scanBudget (r : BudgetRow) : res string Budget.Budget :=
  Ok (Budget.mkBudget (br_id r) (br_type r) (br_entity r) (br_period r) (float_of 4 <$> br_soft r)
    (float_of 4 <$> br_hard r) (float_of 8 (br_spend r)) (br_start r) (br_end r)).

#[export] Instance budgets : RowCodec Budget.Budget BudgetRow := {
  write := budgetRow;
  scan := scanBudget;
  keeps b :=
    keeps_text 20 (Budget.EntityType b) /\ keeps_text 10 (Budget.Period b) /\
    keeps_opt (keeps_numeric 12 4) (Budget.SoftLimitUSD b) /\ keeps_opt (keeps_numeric 12 4) (Budget.HardLimitUSD b) /\
    keeps_numeric 12 8 (Budget.CurrentSpend b) /\ keeps_time (Budget.PStart b) /\ keeps_time (Budget.PEnd b)
}.

(** ** request_logs *)

Record LogRow := mkLogRow {
  lr_request : string; lr_time : Time; lr_model : string; lr_provider : string;
  lr_key : option UUID; lr_user : option UUID; lr_team : option UUID; lr_org : option UUID;
  lr_prompt : option Z; lr_completion : option Z; lr_total : option Z; lr_cost : option Z;
  lr_latency : option Z; lr_ttft : option Z; lr_status : option Z; lr_finish : option string;
  lr_hit : bool; lr_streaming : bool; lr_error : option string; lr_message : option string; lr_metadata : string
}.

(** JSON of the metadata: encoding, and decoding over a nil map. *)
Context (marshal_meta : gmap string string -> string) (unmarshal_meta : string -> gmap string string).

Definition logRow (e : LogWriter.LogEntry) : option LogRow :=
  i ← varchar 36 (LogWriter.RequestID e);
  m ← varchar 200 (LogWriter.Model e);
  p ← varchar 50 (LogWriter.Provider e);
  pt ← int4 (LogWriter.PromptTokens e);
  ct ← int4 (LogWriter.CompletionTokens e);
  tt ← int4 (LogWriter.TotalTokens e);
  c ← numeric 12 8 (LogWriter.CostUSD e);
  l ← int4 (LogWriter.LatencyMs e);
  f ← nullable int4 (LogWriter.TTFTMs e);
  st ← int2 (LogWriter.StatusCode e);
  fr ← varchar 20 (LogWriter.FinishReason e);
  ec ← varchar 50 (LogWriter.ErrorCode e);
  em ← varchar 0 (LogWriter.ErrorMessage e);
  md ← jsonb (marshal_meta (LogWriter.Metadata e));
  Some (mkLogRow i (timestamptz (LogWriter.Timestamp e)) m p (uuidPtrToParam (LogWriter.VirtualKeyID e))
    (uuidPtrToParam (LogWriter.UserID e)) (uuidPtrToParam (LogWriter.TeamID e)) (uuidPtrToParam (LogWriter.OrgID e))
    (Some pt) (Some ct) (Some tt) (Some c) (Some l) f (Some st) (Some fr) (LogWriter.CacheHit e) (LogWriter.IsStreaming e)
    (Some ec) (Some em) md).

Definition scanLogEntry (r : LogRow) : res string LogWriter.LogEntry :=
  Ok (LogWriter.mkLog (lr_request r) (lr_time r) (lr_model r) (lr_provider r) (lr_key r) (lr_user r) (lr_team r) (lr_org r)
    (default 0 (lr_prompt r)) (default 0 (lr_completion r)) (default 0 (lr_total r)) (default f64_0 (float_of 8 <$> lr_cost r))
    (default 0 (lr_latency r)) (lr_ttft r) (default 0 (lr_status r)) (default "" (lr_finish r)) (lr_hit r) (lr_streaming r)
    (default "" (lr_error r)) (default "" (lr_message r))
    (if String.eqb (lr_metadata r) "" then ∅ else unmarshal_meta (lr_metadata r))).

(** Metadata that survives its JSON, as the column keeps it. *)
Definition keeps_meta (m : gmap string string) : Prop :=
  exists t, jsonb (marshal_meta m) = Some t /\ unmarshal_meta t = m.

#[export] Instance request_logs : RowCodec LogWriter.LogEntry LogRow := {
  write := logRow;
  scan := scanLogEntry;
  keeps e :=
    keeps_text 36 (LogWriter.RequestID e) /\ keeps_text 200 (LogWriter.Model e) /\ keeps_text 50 (LogWriter.Provider e) /\
    keeps_int4 (LogWriter.PromptTokens e) /\ keeps_int4 (LogWriter.CompletionTokens e) /\ keeps_int4 (LogWriter.TotalTokens e) /\
    keeps_numeric 12 8 (LogWriter.CostUSD e) /\ keeps_int4 (LogWriter.LatencyMs e) /\ keeps_opt keeps_int4 (LogWriter.TTFTMs e) /\
    int2 (LogWriter.StatusCode e) = Some (LogWriter.StatusCode e) /\ keeps_text 20 (LogWriter.FinishReason e) /\
    keeps_text 50 (LogWriter.ErrorCode e) /\ keeps_text 0 (LogWriter.ErrorMessage e) /\
    keeps_time (LogWriter.Timestamp e) /\ keeps_meta (LogWriter.Metadata e)
}.

(** ** ab_tests and ab_test_results *)

Definition status_text (s : ABTest.Status) : string :=
  match s with
  | ABTest.StatusDraft => "draft" | ABTest.StatusRunning => "running" | ABTest.StatusPaused => "paused"
  | ABTest.StatusCompleted => "completed" | ABTest.StatusStopped => "stopped"
  end.

(** The check of the table allows these five. *)
Definition status_of (s : string) : option ABTest.Status :=
  find (fun st => String.eqb (status_text st) s)
    [ABTest.StatusDraft; ABTest.StatusRunning; ABTest.StatusPaused; ABTest.StatusCompleted; ABTest.StatusStopped].

Record ExperimentRow := mkExpRow {
  er_id : string; er_name : string; er_status : string; er_split : string; er_target : string;
  er_metrics : list string; er_samples : Z; er_confidence : Z; er_start : option Time; er_end : option Time;
  er_winner : option string; er_created : Time; er_updated : Time
}.

Context (marshal_split : list ABTest.TrafficSplit -> string) (unmarshal_split : string -> list ABTest.TrafficSplit)
        (marshal_target : ABTest.TestTarget -> string) (unmarshal_target : string -> ABTest.TestTarget).

Definition experimentRow (e : ABTest.Experiment) : option ExperimentRow :=
  n ← varchar 200 (ABTest.ExpName e);
  sp ← jsonb (marshal_split (ABTest.Splits e));
  tg ← jsonb (marshal_target (ABTest.ExpTarget e));
  ms ← mapM (varchar 0) (ABTest.SuccessMetrics e);
  k ← int4 (ABTest.MinSamples e);
  c ← numeric 4 2 (ABTest.ConfidenceLevel e);
  w ← nullable (varchar 50) (nullableString (ABTest.Winner e));
  Some (mkExpRow (ABTest.ExpID e) n (status_text (ABTest.ExpStatus e)) sp tg ms k c
    (timestamptz <$> ABTest.StartAt e) (timestamptz <$> ABTest.EndAt e) w
    (timestamptz (ABTest.ExpCreatedAt e)) (timestamptz (ABTest.ExpUpdatedAt e))).

(** The query reads COALESCE(winner, ''). *)
Definition scanExperiment (r : ExperimentRow) : res string ABTest.Experiment :=
  match status_of (er_status r) with
  | None => Err "ab_tests_status_check"
  | Some st =>
      Ok (ABTest.mkExp (er_id r) (er_name r) st (unmarshal_split (er_split r)) (unmarshal_target (er_target r)) (er_metrics r)
        (er_samples r) (float_of 2 (er_confidence r)) (er_start r) (er_end r) (default "" (er_winner r)) (er_created r)
        (er_updated r))
  end.

#[export] Instance ab_tests : RowCodec ABTest.Experiment ExperimentRow := {
  write := experimentRow;
  scan := scanExperiment;
  keeps e :=
    keeps_text 200 (ABTest.ExpName e) /\
    (exists t, jsonb (marshal_split (ABTest.Splits e)) = Some t /\ unmarshal_split t = ABTest.Splits e) /\
    (exists t, jsonb (marshal_target (ABTest.ExpTarget e)) = Some t /\ unmarshal_target t = ABTest.ExpTarget e) /\
    Forall (keeps_text 0) (ABTest.SuccessMetrics e) /\ keeps_int4 (ABTest.MinSamples e) /\
    keeps_numeric 4 2 (ABTest.ConfidenceLevel e) /\ keeps_opt (keeps_text 50) (nullableString (ABTest.Winner e)) /\
    keeps_opt keeps_time (ABTest.StartAt e) /\ keeps_opt keeps_time (ABTest.EndAt e) /\
    keeps_time (ABTest.ExpCreatedAt e) /\ keeps_time (ABTest.ExpUpdatedAt e)
}.

(** [InsertResult]: the identifier of the request goes into a UUID column. *)
Definition InsertResult (db : ABTest.DB) (r : ABTest.Result) : res string unit * ABTest.DB :=
  match uuid_text (ABTest.RequestID r), varchar 50 (ABTest.ResVariant r), varchar 200 (ABTest.ResModel r),
        int4 (ABTest.LatencyMs r), int4 (ABTest.ResPrompt r), int4 (ABTest.ResCompletion r),
        numeric 12 8 (ABTest.CostUSD r), varchar 20 (ABTest.ResFinish r) with
  | Some u, Some v, Some m, Some l, Some p, Some c, Some cost, Some fr =>
      (Ok tt, ABTest.store_InsertResult db
         (ABTest.mkResult (ABTest.TestID r) v u (timestamptz (ABTest.Timestamp r)) m l p c (float_of 8 cost)
            (ABTest.IsError r) fr))
  | _, _, _, _, _, _, _, _ => (Err "abtest_store insert_result", db)
  end.

(** ** Reading back *)

(** A record the columns keep comes back as it was, and every record read from a row that was
    written is one they keep. *)
Class RowLaws (A R : Type) `{RowCodec A R} : Prop := {
  reads_back : forall x : A, keeps x -> exists r : R, write x = Some r /\ scan r = Ok x;
  reads_kept : forall (x : A) (r : R), write x = Some r -> exists y, scan r = Ok y /\ keeps y
}.

Lemma default_nullable s : default "" (nullableString s) = s.
Proof. unfold nullableString. by destruct (String.eqb_spec s "") as [->|]. Qed.

Lemma nullable_keeps {A} (f : A -> option A) o : keeps_opt (fun a => f a = Some a) o -> nullable f o = Some o.
Proof. destruct o; cbn; [by intros ->|done]. Qed.

Lemma nullable_text n o : keeps_opt (keeps_text n) o -> nullable (varchar n) o = Some o.
Proof. apply nullable_keeps. Qed.

Lemma nullable_int4 o : keeps_opt keeps_int4 o -> nullable int4 o = Some o.
Proof. apply nullable_keeps. Qed.

Lemma nullable_numeric p s o :
  keeps_opt (keeps_numeric p s) o -> exists o', nullable (numeric p s) o = Some o' /\ float_of s <$> o' = o.
Proof.
  destruct o as [f|]; cbn; [|by exists None]. intros (z & -> & <-). by exists (Some z).
Qed.

Lemma keeps_texts n l : Forall (keeps_text n) l -> mapM (varchar n) l = Some l.
Proof. induction 1 as [|x l E F IH]; [done|]. cbn. by rewrite E, IH. Qed.

Lemma keeps_times o : keeps_opt keeps_time o -> timestamptz <$> o = o.
Proof. destruct o; cbn; [by intros ->|done]. Qed.

Lemma timestamptz_kept t : keeps_time (timestamptz t).
Proof. unfold keeps_time, timestamptz. by rewrite Z.div_mul. Qed.

Lemma times_kept o : keeps_opt keeps_time (timestamptz <$> o).
Proof. destruct o; cbn; [apply timestamptz_kept|done]. Qed.

Lemma int4_kept z z' : int4 z = Some z' -> keeps_int4 z'.
Proof. unfold keeps_int4, int4. destruct (_ && _) eqn:E; [|done]. intros [= <-]. by rewrite E. Qed.

Lemma int2_kept z z' : int2 z = Some z' -> int2 z' = Some z'.
Proof. unfold int2. destruct (_ && _) eqn:E; [|done]. intros [= <-]. by rewrite E. Qed.

Lemma nullable_kept {A B} (f : A -> option B) (P : B -> Prop) o o' :
  (forall a b, f a = Some b -> P b) -> nullable f o = Some o' -> keeps_opt P o'.
Proof.
  intros F. destruct o as [a|]; cbn; [|by intros [= <-]].
  destruct (f a) as [b|] eqn:E; cbn; [|done]. intros [= <-]. by apply (F a).
Qed.

Context `{PL : !PgLaws}.

Lemma numeric_read p s f z : numeric p s f = Some z -> keeps_numeric p s (float_of s z).
Proof. intros E. exists z. split; [by eapply numeric_kept|done]. Qed.

Lemma nullable_numeric_read p s o o' : nullable (numeric p s) o = Some o' -> keeps_opt (keeps_numeric p s) (float_of s <$> o').
Proof.
  intros E. apply (nullable_kept _ (fun z => keeps_numeric p s (float_of s z))) in E; [by destruct o'|].
  intros a b. apply numeric_read.
Qed.

Lemma nullable_int4_read o o' : nullable int4 o = Some o' -> keeps_opt keeps_int4 o'.
Proof. apply nullable_kept, int4_kept. Qed.

(** A text that may be NULL is read as the empty one then. *)
Lemma nullable_text_read {P : string -> Prop} (f : string -> option string) o o' :
  (forall a b, f a = Some b -> P b) -> nullable f o = Some o' -> keeps_opt P (nullableString (default "" o')).
Proof.
  intros F E. apply (nullable_kept _ P) in E; [|done]. destruct o' as [t|]; cbn in *; [|done].
  unfold nullableString. by destruct (String.eqb t "").
Qed.

Lemma text_read n s t : varchar n s = Some t -> keeps_text n t.
Proof. apply varchar_kept. Qed.

Lemma texts_read n l l' : mapM (varchar n) l = Some l' -> Forall (keeps_text n) l'.
Proof.
  revert l'. induction l as [|x l IH]; intros l'; cbn; [by intros [= <-]|].
  destruct (varchar n x) as [t|] eqn:E; [|done]. cbn. destruct (mapM _ l) as [ts|]; [|done]. intros [= <-].
  constructor; [by eapply varchar_kept|by apply IH].
Qed.

(** The conditions of [keeps] as equations of the columns. *)
Ltac keep_columns :=
  repeat match goal with
  | H : _ /\ _ |- _ => destruct H
  | H : keeps_text _ _ |- _ => unfold keeps_text in H
  | H : keeps_int4 _ |- _ => unfold keeps_int4 in H
  | H : keeps_time _ |- _ => unfold keeps_time in H
  | H : keeps_numeric _ _ _ |- _ => destruct H as (? & ? & ?)
  | H : keeps_meta _ |- _ => destruct H as (? & ? & ?)
  | H : ex _ |- _ => destruct H as (? & ? & ?)
  | H : keeps_opt (keeps_numeric _ _) _ |- _ => apply nullable_numeric in H as (? & ? & ?)
  | H : keeps_opt (keeps_text _) _ |- _ => apply nullable_text in H
  | H : keeps_opt keeps_int4 _ |- _ => apply nullable_int4 in H
  | H : keeps_opt keeps_time _ |- _ => apply keeps_times in H
  | H : keeps_opt _ _ |- _ => apply nullable_keeps in H
  | H : Forall (keeps_text _) _ |- _ => apply keeps_texts in H
  end.

(** Writing with these equations, and scanning what was written. *)
Ltac write_columns :=
  repeat match goal with
  | H : ?l = Some _ |- context [?l] => rewrite H; cbn [mbind option_bind]
  | H : timestamptz _ = _ |- _ => rewrite H; clear H
  | H : timestamptz <$> _ = _ |- _ => rewrite H; clear H
  end.

(** A statement that succeeded: all its columns did. *)
Ltac taken_columns H :=
  repeat (let v := fresh "v" in let E := fresh "E" in apply bind_Some in H as (v & E & H)); injection H as <-.

#[local] Hint Resolve timestamptz_kept times_kept int4_kept int2_kept numeric_read nullable_numeric_read
  nullable_int4_read texts_read text_read : rows.

#[export] Instance virtual_keys_laws : RowLaws VK.VirtualKey VKRow.
Proof.
  split.
  - intros k K. cbn [keeps virtual_keys] in K. keep_columns. cbn [write scan virtual_keys]. unfold virtualKeyRow.
    assert (VK.default_metadata (VK.VMetadata k) = VK.VMetadata k) as ->
      by (unfold VK.default_metadata; destruct (String.eqb_spec (VK.VMetadata k) ""); done).
    write_columns. eexists. split; [reflexivity|]. unfold scanVirtualKey. cbn. destruct k; cbn in *. by subst.
  - intros k r W. cbn [write scan keeps virtual_keys] in *. unfold virtualKeyRow in W. taken_columns W.
    eexists. split; [reflexivity|]. cbn. split_and!; eauto using jsonb_kept, jsonb_nonempty with rows.
Qed.

#[export] Instance providers_laws : RowLaws Catalog.ProviderRecord ProviderRow.
Proof.
  split.
  - intros k K. cbn [keeps providers] in K. keep_columns. cbn [write scan providers]. unfold providerRow.
    write_columns. eexists. split; [reflexivity|]. unfold scanProvider. cbn.
    change nullableBytes with nullableString. rewrite !default_nullable. by destruct k.
  - intros k r W. cbn [write scan keeps providers] in *. unfold providerRow in W. taken_columns W.
    eexists. split; [reflexivity|]. cbn. change nullableBytes with nullableString in *.
    split_and!; eauto using varchar_kept, jsonb_kept, nullable_text_read with rows.
Qed.

#[export] Instance models_laws : RowLaws Catalog.ModelRecord ModelRow.
Proof.
  split.
  - intros k K. cbn [keeps models] in K. keep_columns. cbn [write scan models]. unfold modelRow.
    write_columns. eexists. split; [reflexivity|]. unfold scanModel. cbn. destruct k; cbn in *. by subst.
  - intros k r W. cbn [write scan keeps models] in *. unfold modelRow in W. taken_columns W.
    eexists. split; [reflexivity|]. cbn. split_and!; eauto with rows.
Qed.

#[export] Instance provider_keys_laws : RowLaws Keys.ProviderKeyRecord ProviderKeyRow.
Proof.
  split.
  - intros k K. cbn [keeps provider_keys] in K. keep_columns. cbn [write scan provider_keys]. unfold providerKeyRow.
    write_columns. eexists. split; [reflexivity|]. unfold scanProviderKey. cbn. rewrite default_nullable.
    destruct k; cbn in *. by subst.
  - intros k r W. cbn [write scan keeps provider_keys] in *. unfold providerKeyRow in W. taken_columns W.
    eexists. split; [reflexivity|]. cbn. split_and!; eauto with rows.
    eapply nullable_text_read; [|done]. intros a b. apply varchar_kept.
Qed.

#[export] Instance budgets_laws : RowLaws Budget.Budget BudgetRow.
Proof.
  split.
  - intros k K. cbn [keeps budgets] in K. keep_columns. cbn [write scan budgets]. unfold budgetRow.
    write_columns. eexists. split; [reflexivity|]. unfold scanBudget. cbn. destruct k; cbn in *. by subst.
  - intros k r W. cbn [write scan keeps budgets] in *. unfold budgetRow in W. taken_columns W.
    eexists. split; [reflexivity|]. cbn. split_and!; eauto with rows.
Qed.

(** What the JSON codec promises of metadata, splits and targets: the normalised text of an
    encoding decodes to what was encoded. *)
Class MetaLaws : Prop := {
  meta_roundtrip : forall m t, jsonb (marshal_meta m) = Some t -> unmarshal_meta t = m;
  split_roundtrip : forall m t, jsonb (marshal_split m) = Some t -> unmarshal_split t = m;
  target_roundtrip : forall m t, jsonb (marshal_target m) = Some t -> unmarshal_target t = m
}.

Context `{ML : !MetaLaws}.

#[export] Instance request_logs_laws : RowLaws LogWriter.LogEntry LogRow.
Proof.
  split.
  - intros k K. cbn [keeps request_logs] in K. keep_columns. cbn [write scan request_logs]. unfold logRow.
    write_columns. eexists. split; [reflexivity|]. unfold scanLogEntry. cbn.
    match goal with H : jsonb _ = Some ?t |- _ => pose proof (jsonb_nonempty _ _ H); destruct (String.eqb_spec t "") end; [done|].
    destruct k; cbn in *. by subst.
  - intros k r W. cbn [write scan keeps request_logs] in *. unfold logRow in W. taken_columns W.
    eexists. split; [reflexivity|]. cbn. split_and!; eauto with rows.
    match goal with H : jsonb _ = Some ?t |- _ => pose proof (jsonb_nonempty _ _ H); destruct (String.eqb_spec t ""); [done|] end.
    unfold keeps_meta. erewrite meta_roundtrip by done. eauto using meta_roundtrip.
Qed.

Lemma status_back st : status_of (status_text st) = Some st.
Proof. by destruct st. Qed.

#[export] Instance ab_tests_laws : RowLaws ABTest.Experiment ExperimentRow.
Proof.
  split.
  - intros k K. cbn [keeps ab_tests] in K. keep_columns. cbn [write scan ab_tests]. unfold experimentRow.
    write_columns. eexists. split; [reflexivity|]. unfold scanExperiment. cbn [er_status]. rewrite status_back. cbn.
    rewrite default_nullable. destruct k; cbn in *. by subst.
  - intros k r W. cbn [write scan keeps ab_tests] in *. unfold experimentRow in W. taken_columns W.
    unfold scanExperiment. cbn [er_status]. rewrite status_back.
    eexists. split; [reflexivity|]. cbn. split_and!; eauto with rows.
    + erewrite split_roundtrip by done. eauto using split_roundtrip.
    + erewrite target_roundtrip by done. eauto using target_roundtrip.
    + eapply nullable_text_read; [|done]. intros a b. apply varchar_kept.
Qed.

(** A record the columns keep is stored and comes back; what was written is read, and then stays
    as it is. *)
Definition read_stable (A R : Type) `{RowCodec A R} : Prop :=
  (forall x : A, keeps x -> exists r : R, write x = Some r /\ scan r = Ok x) /\
  (forall (x : A) (r : R), write x = Some r ->
     exists y, scan r = Ok y /\ exists r' : R, write y = Some r' /\ scan r' = Ok y).

Lemma laws_read_stable A R `{RowCodec A R} : RowLaws A R -> read_stable A R.
Proof.
  intros L. split; [apply reads_back|]. intros x r W. destruct (reads_kept x r W) as (y & S & K).
  exists y. split; [done|]. by apply reads_back.
Qed.

(** Tables read back. For each of the seven tables: a record whose values fit the columns exactly
    is stored and comes back as it was; and a record that is stored with rounding is read as one
    that can be stored again and then reads the same, so that nothing drifts through reads and
    writes. *)
Theorem tables_read_back :
  read_stable VK.VirtualKey VKRow /\ read_stable Catalog.ProviderRecord ProviderRow /\
  read_stable Catalog.ModelRecord ModelRow /\ read_stable Keys.ProviderKeyRecord ProviderKeyRow /\
  read_stable Budget.Budget BudgetRow /\ read_stable LogWriter.LogEntry LogRow /\
  read_stable ABTest.Experiment ExperimentRow.
Proof. split_and!; apply laws_read_stable, _. Qed.

(** ** The table of virtual keys *)

Definition row_hash_taken (rows : gmap UUID VKRow) (h : string) (except : option UUID) : bool :=
  existsb (fun kv => String.eqb (vr_hash kv.2) h && negb (bool_decide (Some kv.1 = except))) (map_to_list rows).

(** The record that [Create] stores. *)
Definition new_key (k : VK.VirtualKey) (id : UUID) (now : Time) : VK.VirtualKey :=
  VK.mkVK id (VK.KeyHash k) (VK.KeyPrefix k) (VK.Name k) (VK.UserID k) (VK.TeamID k) (VK.OrgID k)
    (VK.ExpiresAt k) (VK.BudgetUSD k) (VK.RPMLimit k) (VK.TPMLimit k) (VK.AllowedModels k)
    (VK.BlockedModels k) (VK.default_metadata (VK.VMetadata k)) (VK.IsActive k) now now None.

Definition refused : VK.AuthErr := VK.ErrStore "value refused".

Definition rows_Create (rows : gmap UUID VKRow) (k : VK.VirtualKey) (id : UUID) (now : Time)
  : res VK.AuthErr unit * gmap UUID VKRow :=
  match virtualKeyRow (new_key k id now) with
  | None => (Err refused, rows)
  | Some r =>
      if row_hash_taken rows (vr_hash r) None || bool_decide (is_Some (rows !! id))
      then (Err (VK.ErrStore "unique violation"), rows) else (Ok tt, <[id := r]> rows)
  end.

(** UPDATE ... SET of the mutable columns. *)
Definition rows_Update (rows : gmap UUID VKRow) (k : VK.VirtualKey) (now : Time)
  : res VK.AuthErr unit * gmap UUID VKRow :=
  match rows !! VK.ID k with
  | None => (Err VK.ErrKeyNotFound, rows)
  | Some old =>
      match (n ← varchar 255 (VK.Name k);
             b ← nullable (numeric 12 4) (VK.BudgetUSD k);
             rpm ← nullable int4 (VK.RPMLimit k);
             tpm ← nullable int4 (VK.TPMLimit k);
             al ← mapM (varchar 0) (VK.AllowedModels k);
             bl ← mapM (varchar 0) (VK.BlockedModels k);
             md ← jsonb (VK.default_metadata (VK.VMetadata k));
             Some (mkVKRow (vr_id old) (vr_hash old) (vr_prefix old) (Some n) (vr_user old) (vr_team old) (vr_org old)
               (timestamptz <$> VK.ExpiresAt k) b rpm tpm al bl md (VK.IsActive k) (vr_created old) (timestamptz now)
               (vr_last old))) with
      | None => (Err refused, rows)
      | Some r => (Ok tt, <[VK.ID k := r]> rows)
      end
  end.

Definition rows_Deactivate (rows : gmap UUID VKRow) (id : UUID) (now : Time) : res VK.AuthErr unit * gmap UUID VKRow :=
  match rows !! id with
  | None => (Err VK.ErrKeyNotFound, rows)
  | Some r =>
      (Ok tt, <[id := mkVKRow (vr_id r) (vr_hash r) (vr_prefix r) (vr_name r) (vr_user r) (vr_team r) (vr_org r)
         (vr_expires r) (vr_budget r) (vr_rpm r) (vr_tpm r) (vr_allowed r) (vr_blocked r) (vr_metadata r) false
         (vr_created r) (timestamptz now) (vr_last r)]> rows)
  end.

Definition rows_UpdateLastUsed (rows : gmap UUID VKRow) (id : UUID) (now : Time) : gmap UUID VKRow :=
  alter (fun r => mkVKRow (vr_id r) (vr_hash r) (vr_prefix r) (vr_name r) (vr_user r) (vr_team r) (vr_org r)
     (vr_expires r) (vr_budget r) (vr_rpm r) (vr_tpm r) (vr_allowed r) (vr_blocked r) (vr_metadata r) (vr_active r)
     (vr_created r) (vr_updated r) (Some (timestamptz now))) id rows.

Definition rows_UpdateHash (rows : gmap UUID VKRow) (id : UUID) (h p : string) (now : Time)
  : res VK.AuthErr unit * gmap UUID VKRow :=
  match varchar 64 h, varchar 10 p with
  | Some h, Some p =>
      match rows !! id with
      | None => (Err VK.ErrKeyNotFound, rows)
      | Some r =>
          if row_hash_taken rows h (Some id) then (Err (VK.ErrStore "unique violation"), rows)
          else (Ok tt, <[id := mkVKRow (vr_id r) h p (vr_name r) (vr_user r) (vr_team r) (vr_org r)
             (vr_expires r) (vr_budget r) (vr_rpm r) (vr_tpm r) (vr_allowed r) (vr_blocked r) (vr_metadata r) (vr_active r)
             (vr_created r) (timestamptz now) (vr_last r)]> rows)
      end
  | _, _ => (Err refused, rows)
  end.

Definition rows_GetByID (rows : gmap UUID VKRow) (id : UUID) : res VK.AuthErr VK.VirtualKey :=
  match rows !! id with
  | None => Err VK.ErrKeyNotFound
  | Some r => match scanVirtualKey r with Ok k => Ok k | Err e => Err (VK.ErrStore e) end
  end.

(** ** Refinement of the table of records *)

Inductive key_op :=
| OCreate (k : VK.VirtualKey) (id : UUID) (now : Time)
| OUpdate (k : VK.VirtualKey) (now : Time)
| ODeactivate (id : UUID) (now : Time)
| OLastUsed (id : UUID) (now : Time)
| OUpdateHash (id : UUID) (h p : string) (now : Time).

Definition to_unit {A} (r : res VK.AuthErr A) : res VK.AuthErr unit := match r with Ok _ => Ok tt | Err e => Err e end.

Definition rows_op (rows : gmap UUID VKRow) (op : key_op) : res VK.AuthErr unit * gmap UUID VKRow :=
  match op with
  | OCreate k id now => rows_Create rows k id now
  | OUpdate k now => rows_Update rows k now
  | ODeactivate id now => rows_Deactivate rows id now
  | OLastUsed id now => (Ok tt, rows_UpdateLastUsed rows id now)
  | OUpdateHash id h p now => rows_UpdateHash rows id h p now
  end.

Definition record_op (db : gmap UUID VK.VirtualKey) (op : key_op) : res VK.AuthErr unit * gmap UUID VK.VirtualKey :=
  match op with
  | OCreate k id now => let '(r, db) := VK.store_Create db k id now in (to_unit r, db)
  | OUpdate k now => let '(r, db) := VK.store_Update db k now in (to_unit r, db)
  | ODeactivate id now => VK.store_Deactivate db id now
  | OLastUsed id now => (Ok tt, VK.store_UpdateLastUsed db id now)
  | OUpdateHash id h p now => VK.store_UpdateHash db id h p now
  end.

(** An operation whose values fit the columns exactly; the clock of the database has
    microseconds. *)
Definition exact (op : key_op) : Prop :=
  match op with
  | OCreate k id now => keeps (new_key k id now)
  | OUpdate k now =>
      keeps_text 255 (VK.Name k) /\ keeps_opt (keeps_numeric 12 4) (VK.BudgetUSD k) /\
      keeps_opt keeps_int4 (VK.RPMLimit k) /\ keeps_opt keeps_int4 (VK.TPMLimit k) /\
      Forall (keeps_text 0) (VK.AllowedModels k) /\ Forall (keeps_text 0) (VK.BlockedModels k) /\
      jsonb (VK.default_metadata (VK.VMetadata k)) = Some (VK.default_metadata (VK.VMetadata k)) /\
      keeps_opt keeps_time (VK.ExpiresAt k) /\ keeps_time now
  | ODeactivate _ now | OLastUsed _ now => keeps_time now
  | OUpdateHash _ h p now => keeps_text 64 h /\ keeps_text 10 p /\ keeps_time now
  end.

(** Row by row, the table of records is what the table of rows reads as. *)
Definition represents (rows : gmap UUID VKRow) (db : gmap UUID VK.VirtualKey) : Prop :=
  map_Forall2 (fun id r k => scanVirtualKey r = Ok k /\ vr_id r = id) rows db.

Lemma represents_lookup rows db id :
  represents rows db ->
  (rows !! id = None /\ db !! id = None) \/
  exists r k, rows !! id = Some r /\ db !! id = Some k /\ scanVirtualKey r = Ok k /\ vr_id r = id.
Proof. intros R. specialize (R id). inversion R as [r k [A B]|]; [right; eauto 10|by left]. Qed.

Lemma scan_hash r k : scanVirtualKey r = Ok k -> VK.KeyHash k = vr_hash r.
Proof. unfold scanVirtualKey. destruct (vr_name r); [|done]. by intros [= <-]. Qed.

Lemma existsb_lookup {A} (m : gmap UUID A) (P : UUID * A -> bool) :
  existsb P (map_to_list m) = true <-> exists id x, m !! id = Some x /\ P (id, x) = true.
Proof.
  rewrite existsb_exists. split.
  - intros ([id x] & I & E). exists id, x. split; [|done]. by apply elem_of_map_to_list, list_elem_of_In.
  - intros (id & x & L & E). exists (id, x). split; [|done]. by apply list_elem_of_In, elem_of_map_to_list.
Qed.


Lemma hash_taken_represents rows db h ex :
  represents rows db -> row_hash_taken rows h ex = VK.hash_taken db h ex.
Proof.
  intros R. apply eq_true_iff_eq. unfold row_hash_taken, VK.hash_taken. rewrite !existsb_lookup. split.
  - intros (id & r & L & E). destruct (represents_lookup rows db id R) as [[? _]|(r' & k & L' & D & S & _)]; [congruence|].
    exists id, k. split; [done|]. cbn in *. rewrite (scan_hash _ _ S). congruence.
  - intros (id & k & L & E). destruct (represents_lookup rows db id R) as [[_ ?]|(r & k' & L' & D & S & _)]; [congruence|].
    exists id, r. split; [done|]. cbn in *. rewrite <- (scan_hash _ _ S). congruence.
Qed.

Lemma represents_insert rows db id r k :
  represents rows db -> scanVirtualKey r = Ok k -> vr_id r = id -> represents (<[id := r]> rows) (<[id := k]> db).
Proof. intros R S I. by apply map_Forall2_insert_2. Qed.

Lemma represents_taken rows db id :
  represents rows db -> bool_decide (is_Some (rows !! id)) = bool_decide (is_Some (db !! id)).
Proof.
  intros R. apply bool_decide_ext.
  destruct (represents_lookup rows db id R) as [[-> ->]|(r & k & -> & -> & _)]; [by split; intros []|by split; eauto].
Qed.

Lemma scan_inv r k :
  scanVirtualKey r = Ok k -> vr_name r = Some (VK.Name k) /\ vr_id r = VK.ID k /\ vr_hash r = VK.KeyHash k /\
  vr_prefix r = VK.KeyPrefix k /\ vr_user r = VK.UserID k /\ vr_team r = VK.TeamID k /\ vr_org r = VK.OrgID k /\
  vr_expires r = VK.ExpiresAt k /\ float_of 4 <$> vr_budget r = VK.BudgetUSD k /\ vr_rpm r = VK.RPMLimit k /\
  vr_tpm r = VK.TPMLimit k /\ vr_allowed r = VK.AllowedModels k /\ vr_blocked r = VK.BlockedModels k /\
  vr_metadata r = VK.VMetadata k /\ vr_active r = VK.IsActive k /\ vr_created r = VK.CreatedAt k /\
  vr_updated r = VK.UpdatedAt k /\ vr_last r = VK.LastUsedAt k.
Proof. unfold scanVirtualKey. destruct (vr_name r); [|done]. intros [= <-]. by split_and!. Qed.

(** The read of a changed row is the change of the read. *)
Ltac scan_changed S :=
  apply scan_inv in S; repeat match goal with H : _ /\ _ |- _ => destruct H end;
  unfold scanVirtualKey; cbn;
  repeat match goal with H : ?l = _ |- context [?l] => rewrite H; clear H end; reflexivity.

Lemma op_refines rows db op :
  represents rows db -> exact op ->
  (rows_op rows op).1 = (record_op db op).1 /\ represents (rows_op rows op).2 (record_op db op).2.
Proof.
  intros R X. destruct op as [k id now|k now|id now|id now|id h p now]; cbn [rows_op record_op exact] in *.
  - destruct (reads_back _ X) as (r & W & S). cbn [write scan virtual_keys] in W, S.
    pose proof (scan_inv _ _ S) as (_ & I & Hh & _). unfold rows_Create, VK.store_Create. rewrite W.
    rewrite (hash_taken_represents rows db), (represents_taken rows db) by done. rewrite Hh.
    destruct (VK.hash_taken _ _ _ || _); [done|]. cbn. split; [done|]. by apply represents_insert.
  - keep_columns. unfold rows_Update, VK.store_Update.
    destruct (represents_lookup rows db (VK.ID k) R) as [[-> ->]|(r & old & -> & -> & S & I)]; [done|].
    repeat match goal with H : ?l = Some _ |- context [?l] => rewrite H; cbn [mbind option_bind] end. cbn.
    split; [done|]. apply represents_insert; [done| |done].
    pose proof (scan_inv _ _ S) as (_ & J & _). assert (VK.ID old = VK.ID k) by congruence. clear I J. scan_changed S.
  - unfold keeps_time in X. unfold rows_Deactivate, VK.store_Deactivate.
    destruct (represents_lookup rows db id R) as [[-> ->]|(r & k & -> & -> & S & I)]; [done|].
    split; [done|]. apply represents_insert; [done| |done]. clear I. unfold VK.set_active. scan_changed S.
  - unfold keeps_time in X. split; [done|]. cbn. unfold rows_UpdateLastUsed, VK.store_UpdateLastUsed.
    intros j. destruct (decide (id = j)) as [<-|N]; [|rewrite !lookup_alter_ne by done; apply R].
    rewrite !lookup_alter_eq.
    destruct (represents_lookup rows db id R) as [[-> ->]|(r & k & -> & -> & S & I)]; constructor.
    split; [|done]. clear I. unfold VK.set_last_used. scan_changed S.
  - keep_columns. unfold rows_UpdateHash, VK.store_UpdateHash.
    repeat match goal with H : varchar _ _ = Some _ |- _ => rewrite H; clear H end.
    destruct (represents_lookup rows db id R) as [[-> ->]|(r & k & -> & -> & S & I)]; [done|].
    rewrite (hash_taken_represents rows db) by done. destruct (VK.hash_taken _ _ _); [done|].
    split; [done|]. apply represents_insert; [done| |done]. clear I. unfold VK.set_hash. scan_changed S.
Qed.

(** Runs of operations, with the answers they give. *)
Definition run_with {D} (op_of : D -> key_op -> res VK.AuthErr unit * D) (d : D) (ops : list key_op)
  : list (res VK.AuthErr unit) * D :=
  foldl (fun '(out, d) op => let '(r, d) := op_of d op in (out ++ [r], d)) ([], d) ops.


(** A result whose request identifier is not the text of a UUID is never stored: the identifiers
    the router makes (a host name, a slash, a random prefix and a counter) are not. *)
Lemma result_needs_uuid db r :
  String.length (ABTest.RequestID r) <> 36%nat -> String.length (ABTest.RequestID r) <> 32%nat ->
  InsertResult db r = (Err "abtest_store insert_result", db).
Proof.
  intros A B. unfold InsertResult. destruct (uuid_text _) as [u|] eqn:E; [|done].
  apply uuid_length in E. tauto.
Qed.

(** A confidence level that the column rounds up to one is read as one. *)
Lemma confidence_rounded e r y :
  numeric 4 2 (ABTest.ConfidenceLevel e) = Some 100 -> experimentRow e = Some r -> scanExperiment r = Ok y ->
  ABTest.ConfidenceLevel y = float_of 2 100.
Proof.
  intros N W S. unfold experimentRow in W. taken_columns W. unfold scanExperiment in S. cbn [er_status] in S.
  rewrite status_back in S. injection S as <-. cbn. congruence.
Qed.

End Tables.
(** ** A database that takes whole amounts below a hundred *)

#[local] Existing Instance Exact.float64_eq_dec.

Definition small_amounts : list Z := seqZ 0 100.

#[local] Instance demo_pg : Pg := {
  varchar n s := if (n =? 0) || (Z.of_nat (Cost.rune_count s) <=? n) then Some s else None;
  numeric _ _ f := find (fun z => bool_decide (f64_of_Z z = f)) small_amounts;
  float_of _ z := f64_of_Z z;
  jsonb s := if String.eqb s "" then None else Some s;
  uuid_text s := if Nat.eqb (String.length s) 36 then Some s else None
}.

Lemma small_amounts_kept :
  forallb (fun z => bool_decide (find (fun z' => bool_decide (f64_of_Z z' = f64_of_Z z)) small_amounts = Some z)) small_amounts = true.
Proof. vm_compute. reflexivity. Qed.

#[local] Instance demo_pg_laws : PgLaws.
Proof.
  split; cbn.
  - intros n s t. destruct (_ || _) eqn:E; [|done]. intros [= <-]. by rewrite E.
  - intros _ _ f z F. apply find_some in F as [I _]. pose proof small_amounts_kept as K. rewrite forallb_forall in K.
    specialize (K z I). by apply bool_decide_eq_true in K.
  - intros s t. destruct (String.eqb s "") eqn:E; [done|]. intros [= <-]. by rewrite E.
  - intros s t. destruct (String.eqb_spec s ""); [done|]. by intros [= <-].
  - intros s u. destruct (Nat.eqb_spec (String.length s) 36); [|done]. auto.
Qed.

Definition demo_marshal_meta (m : gmap string string) : string := String "J" (text_of m).
Definition demo_unmarshal_meta (s : string) : gmap string string := default ∅ (of_text (drop_str 1 s)).
Definition demo_marshal_split (l : list ABTest.TrafficSplit) : string :=
  String "J" (text_of ((fun x => (ABTest.Variant x, ABTest.SplitModel x, ABTest.Weight x)) <$> l)).
Definition demo_unmarshal_split (s : string) : list ABTest.TrafficSplit :=
  (fun '(v, m, w) => ABTest.mkSplit v m w) <$> default [] (of_text (A := list (string * string * Z)) (drop_str 1 s)).

(** Targets of the whole traffic; the others are refused. *)
Definition demo_marshal_target (t : ABTest.TestTarget) : string :=
  if bool_decide (ABTest.SampleRate t = f64_0) then String "J" (text_of (ABTest.TeamIDs t)) else "".
Definition demo_unmarshal_target (s : string) : ABTest.TestTarget :=
  ABTest.mkTestTarget (default [] (of_text (drop_str 1 s))) f64_0.

#[local] Instance demo_meta_laws :
  MetaLaws demo_marshal_meta demo_unmarshal_meta demo_marshal_split demo_unmarshal_split demo_marshal_target
    demo_unmarshal_target.
Proof.
  split.
  - intros m t [= <-]. unfold demo_unmarshal_meta, demo_marshal_meta. cbn [drop_str]. by rewrite of_text_of.
  - intros m t [= <-]. unfold demo_unmarshal_split, demo_marshal_split. cbn [drop_str]. rewrite of_text_of. cbn.
    rewrite <- list_fmap_compose. etrans; [|apply list_fmap_id]. apply list_fmap_ext. intros i x _. by destruct x.
  - intros [ids rate] t. unfold demo_marshal_target. cbn [ABTest.SampleRate]. case_bool_decide as E; [|done].
    intros [= <-]. unfold demo_unmarshal_target. cbn [drop_str]. rewrite of_text_of. cbn. by subst.
Qed.

Definition demo_key : VK.VirtualKey :=
  VK.mkVK "k1" "h" "sk-abcd" "team key" None (Some "t1") None (Some 5000) (Some (f64_of_Z 25)) (Some 60) None ["gpt-4o"] []
    "{}" true 1000 1000 None.

Lemma demo_key_kept : keeps demo_key.
Proof.
  cbn [keeps virtual_keys]. split_and!; try by vm_compute.
  - exists 25. vm_compute. by split.
  - by repeat constructor.
Qed.

Lemma tables_read_back_witness :
  keeps demo_key /\ exists r : VKRow, write demo_key = Some r /\ scan r = Ok demo_key.
Proof.
  destruct (tables_read_back demo_marshal_meta demo_unmarshal_meta demo_marshal_split demo_unmarshal_split
    demo_marshal_target demo_unmarshal_target) as [[H _] _].
  split; [exact demo_key_kept|]. apply H. exact demo_key_kept.
Defined.

(** A key is created, a second one with its hash is refused, and the first is rotated and
    deactivated. *)
Definition demo_ops : list key_op :=
  [OCreate demo_key "k1" 1000; OCreate demo_key "k2" 2000; OUpdateHash "k1" "h2" "sk-efgh" 3000; ODeactivate "k1" 4000;
   OLastUsed "k1" 5000].

Lemma demo_ops_exact : Forall exact demo_ops.
Proof.
  assert (forall id now, keeps_time now -> keeps (new_key demo_key id now)) as K.
  { intros id now T. cbn [keeps virtual_keys new_key VK.CreatedAt VK.UpdatedAt VK.LastUsedAt]. split_and!; try done; try by vm_compute.
    - exists 25. vm_compute. by split.
    - by repeat constructor. }
  repeat constructor; try (by vm_compute); apply K; by vm_compute.
Qed.


(** An identifier of the router's form. *)
Example router_id_not_stored :
  (InsertResult (ABTest.mkDB ∅ [])
     (ABTest.mkResult "t" "control" "gateway-1/Ab3dEf6hIj-000042" 1000 "gpt-4o" 10 1 1 f64_0 false "stop")).2 = ABTest.mkDB ∅ [].
Proof. reflexivity. Qed.

End Rows.
