(* ===== verification/Csv.v ===== *)
(** * Comma-separated records (the parts of package encoding/csv the exports use)

    The writer with its default settings, a reader of the format of RFC 4180 as the reference,
    and that what is written reads back. *)

From S2P Require Import Prelude GoStrings.
Local Open Scope Z_scope.

Module Csv.

Definition comma : ascii := ",".
Definition quote : ascii := Ascii.ascii_of_nat 34.
Definition lf : ascii := Ascii.ascii_of_nat 10.
Definition cr : ascii := Ascii.ascii_of_nat 13.

(** ** Writer *)

Definition special (c : ascii) : bool :=
  Ascii.eqb c lf || Ascii.eqb c cr || Ascii.eqb c quote || Ascii.eqb c comma.

Fixpoint has_special (s : string) : bool :=
  match s with EmptyString => false | String c s => special c || has_special s end.

Definition fieldNeedsQuotes (field : string) : bool :=
  if String.eqb field "" then false
  else if String.eqb field "\." then true
  else if has_special field then true
  else match space_len field with O => false | S _ => true end.

Fixpoint escape (s : string) : string :=
  match s with
  | EmptyString => EmptyString
  | String c s => if Ascii.eqb c quote then String quote (String quote (escape s)) else String c (escape s)
  end.

Definition write_field (field : string) : string :=
  if fieldNeedsQuotes field then String quote (escape field +:+ String quote "") else field.

Fixpoint write_fields (fields : list string) : string :=
  match fields with
  | [] => ""
  | [f] => write_field f
  | f :: fs => write_field f +:+ String comma (write_fields fs)
  end.

(** [Writer.Write]. *)
Definition write (record : list string) : string := write_fields record +:+ String lf "".

Definition write_all (records : list (list string)) : string := foldr (fun r s => write r +:+ s) "" records.

(** ** Reader *)

(** Where the reader is: before a field, in a bare field, in a quoted field, or after a quote in
    one. *)
Inductive mode := AtStart | Bare | Quoted | Closing.

Record reader := mkReader { md : mode; cur : string; row : list string; out : list (list string) }.

Definition push (r : reader) : reader := mkReader AtStart "" (row r ++ [cur r]) (out r).
Definition end_row (r : reader) : reader := mkReader AtStart "" [] (out r ++ [row r ++ [cur r]]).
Definition add_char (m : mode) (c : ascii) (r : reader) : reader :=
  mkReader m (cur r +:+ String c "") (row r) (out r).

Definition read_char (r : reader) (c : ascii) : option reader :=
  match md r with
  | AtStart =>
      if Ascii.eqb c quote then Some (mkReader Quoted (cur r) (row r) (out r))
      else if Ascii.eqb c comma then Some (push r)
      else if Ascii.eqb c lf then Some (end_row r)
      else Some (add_char Bare c r)
  | Bare =>
      if Ascii.eqb c comma then Some (push r)
      else if Ascii.eqb c lf then Some (end_row r)
      else if Ascii.eqb c quote then None
      else Some (add_char Bare c r)
  | Quoted => if Ascii.eqb c quote then Some (mkReader Closing (cur r) (row r) (out r)) else Some (add_char Quoted c r)
  | Closing =>
      if Ascii.eqb c quote then Some (add_char Quoted c r)
      else if Ascii.eqb c comma then Some (push r)
      else if Ascii.eqb c lf then Some (end_row r)
      else None
  end.

Fixpoint read_from (r : reader) (s : string) : option reader :=
  match s with
  | EmptyString => Some r
  | String c s => match read_char r c with Some r => read_from r s | None => None end
  end.

(** The records of a text in which every record is ended by a line feed. *)
Definition read (s : string) : option (list (list string)) :=
  match read_from (mkReader AtStart "" [] []) s with
  | Some (mkReader AtStart _ [] rows) => Some rows
  | _ => None
  end.

(** ** What is written reads back *)

Lemma read_from_app r s t : read_from r (s +:+ t) = match read_from r s with Some r => read_from r t | None => None end.
Proof.
  revert r. induction s as [|c s IH]; intros r; [done|].
  change ((String c s +:+ t)) with (String c (s +:+ t)). cbn [read_from].
  destruct (read_char r c); [apply IH|done].
Qed.

Lemma snoc_app (p : string) c s : (p +:+ String c "") +:+ s = p +:+ String c s.
Proof. apply str_app_assoc. Qed.

(** The text of a quoted field. *)
Lemma read_escaped p rw o s :
  read_from (mkReader Quoted p rw o) (escape s) = Some (mkReader Quoted (p +:+ s) rw o).
Proof.
  revert p. induction s as [|c s IH]; intros p; [by rewrite str_app_nil_r|]. cbn [escape].
  destruct (Ascii.eqb_spec c quote) as [->|N].
  - cbn [read_from read_char md]. rewrite Ascii.eqb_refl. cbn [read_from read_char md]. rewrite Ascii.eqb_refl.
    unfold add_char. cbn [cur row out]. by rewrite IH, snoc_app.
  - cbn [read_from read_char md]. rewrite (proj2 (Ascii.eqb_neq c quote) N). unfold add_char. cbn [cur row out].
    by rewrite IH, snoc_app.
Qed.

(** The text of a bare field, from its second character on. *)
Lemma read_bare p rw o s :
  has_special s = false -> read_from (mkReader Bare p rw o) s = Some (mkReader Bare (p +:+ s) rw o).
Proof.
  revert p. induction s as [|c s IH]; intros p; [by rewrite str_app_nil_r|]. cbn [has_special].
  intros [Sp Hs]%orb_false_iff. unfold special in Sp.
  apply orb_false_iff in Sp as [Sp Cm]. apply orb_false_iff in Sp as [Sp Qu]. apply orb_false_iff in Sp as [Lf _].
  cbn [read_from read_char md]. rewrite Cm, Lf, Qu. unfold add_char. cbn [cur row out]. by rewrite IH, snoc_app.
Qed.

(** A reader that has a whole field. *)
Definition complete (r : reader) (f : string) (rw : list string) (o : list (list string)) : Prop :=
  cur r = f /\ row r = rw /\ out r = o /\ md r <> Quoted.

Lemma read_field f rw o :
  exists r, read_from (mkReader AtStart "" rw o) (write_field f) = Some r /\ complete r f rw o.
Proof.
  unfold write_field. destruct (fieldNeedsQuotes f) eqn:Q.
  - cbn [read_from read_char md]. rewrite Ascii.eqb_refl. cbn [cur row out]. rewrite read_from_app, read_escaped.
    cbn [read_from read_char md]. rewrite Ascii.eqb_refl. eexists. split; [reflexivity|]. by split_and!.
  - destruct f as [|c f]; [eexists; split; [reflexivity|by split_and!]|].
    unfold fieldNeedsQuotes in Q. change (String.eqb (String c f) "") with false in Q. cbv iota in Q.
    destruct (String.eqb (String c f) "\."); [done|]. destruct (has_special (String c f)) eqn:Hs; [done|].
    cbn [has_special] in Hs. apply orb_false_iff in Hs as [Sp Hs]. unfold special in Sp.
    apply orb_false_iff in Sp as [Sp Cm]. apply orb_false_iff in Sp as [Sp Qu]. apply orb_false_iff in Sp as [Lf _].
    cbn [read_from read_char md]. rewrite Qu, Cm, Lf. unfold add_char. cbn [cur row out].
    rewrite (read_bare _ _ _ _ Hs). eexists. split; [reflexivity|]. by split_and!.
Qed.

Lemma read_comma r f rw o : complete r f rw o -> read_char r comma = Some (mkReader AtStart "" (rw ++ [f]) o).
Proof. intros (<- & <- & <- & N). destruct r as [[] ? ? ?]; try done. Qed.

Lemma read_lf r f rw o : complete r f rw o -> read_char r lf = Some (mkReader AtStart "" [] (o ++ [rw ++ [f]])).
Proof. intros (<- & <- & <- & N). destruct r as [[] ? ? ?]; try done. Qed.

Lemma read_record fs rw o :
  fs <> [] -> read_from (mkReader AtStart "" rw o) (write fs) = Some (mkReader AtStart "" [] (o ++ [rw ++ fs])).
Proof.
  unfold write. revert rw. induction fs as [|f fs IH]; intros rw N; [done|].
  destruct (read_field f rw o) as (r & R & C). destruct fs as [|g fs].
  - cbn [write_fields]. rewrite read_from_app, R. cbn [read_from]. by rewrite (read_lf r f rw o C).
  - change (write_fields (f :: g :: fs)) with (write_field f +:+ String comma (write_fields (g :: fs))).
    rewrite str_app_assoc, read_from_app, R.
    change (String comma (write_fields (g :: fs)) +:+ String lf "")
      with (String comma (write_fields (g :: fs) +:+ String lf "")). cbn [read_from].
    rewrite (read_comma r f rw o C), IH by done. by rewrite <- app_assoc.
Qed.

(** Records that are not empty read back, whatever their fields hold. *)
Lemma read_write_all records : Forall (fun r => r <> []) records -> read (write_all records) = Some records.
Proof.
  intros F. unfold read.
  enough (forall o, read_from (mkReader AtStart "" [] o) (write_all records) = Some (mkReader AtStart "" [] (o ++ records))) as ->; [done|].
  induction F as [|r rs N F IH]; intros o; [by rewrite app_nil_r|].
  change (write_all (r :: rs)) with (write r +:+ write_all rs). rewrite read_from_app, read_record by done.
  cbn [app]. rewrite IH. by rewrite <- app_assoc.
Qed.

End Csv.
