(* ===== verification/Billing.v ===== *)
(** * Billing (internal/billing, store/postgres/billing_store.go, handler/admin_reports.go and
    billing.go)

    Markups, the chargeback and showback reports over the usage of teams, their export, the
    monthly scheduler and the handlers. The reports are written against the interface of the
    billing store; the store is implemented over the tables of usage and of requests. Number
    formats and the reading of amounts by the database are arguments. *)

From stdpp Require Import pretty.
From S2P Require Import Prelude Float64 Types Calendar Logs Csv.
Import LogWriter LogStore.
Local Open Scope Z_scope.
Local Open Scope go_scope.

Module Billing.

(** ** markup.go *)

Record MarkupConfig := mkMarkup {
  MID : string;
  MTeamID : option string;
  Percentage : float64;
  FixedUSD : float64;
  CapUSD : float64
}.

Definition Apply (m : MarkupConfig) (baseCost : float64) : float64 :=
  let markup := f64_div (f64_mul baseCost (Percentage m)) (f64_of_Z 100) in
  let markup := if f64_lt f64_0 (CapUSD m) && f64_lt (CapUSD m) markup then CapUSD m else markup in
  f64_add (f64_add baseCost markup) (FixedUSD m).

(** ** chargeback.go *)

Record TeamUsage := mkTU { TUTeamID : string; TUTeamName : string; TUCost : float64; TUTokens : Z; TURequests : Z }.
Record ModelCost := mkMC { MCModel : string; MCCost : float64; MCTokens : Z }.
Record TagCost := mkTag { TagName : string; TagCostUSD : float64 }.

(** The store the reports need; [None] is an error. *)
Record Store := mkStore {
  GetMarkupConfig : option string -> option MarkupConfig;
  GetTeamUsage : Time -> Time -> option (list TeamUsage);
  GetModelBreakdown : string -> Time -> Time -> option (list ModelCost);
  GetTagBreakdown : string -> Time -> Time -> option (list TagCost)
}.

Record TeamChargebackEntry := mkEntry {
  ETeamID : string;
  ETeamName : string;
  ECost : float64;
  EMarkup : float64;
  ETotalCharged : float64;
  ETokens : Z;
  ERequests : Z;
  EByModel : list ModelCost;
  EByProject : list TagCost
}.

Record ChargebackSummary := mkSum { TotalCostUSD : float64; TotalTokens : Z; TotalRequests : Z }.

Record ChargebackReport := mkReport {
  Period : string;
  GeneratedAt : Time;
  Currency : string;
  Summary : ChargebackSummary;
  ByTeam : list TeamChargebackEntry
}.

(** The markup of a team, or the global one. *)
Definition team_markup (s : Store) (teamID : string) : option MarkupConfig :=
  match GetMarkupConfig s (Some teamID) with
  | Some m => Some m
  | None => GetMarkupConfig s None
  end.

Definition team_entry (s : Store) (from to : Time) (tu : TeamUsage) : TeamChargebackEntry :=
  let '(chargedUSD, markupUSD) :=
    match team_markup s (TUTeamID tu) with
    | Some m => let charged := Apply m (TUCost tu) in (charged, f64_sub charged (TUCost tu))
    | None => (TUCost tu, f64_0)
    end in
  mkEntry (TUTeamID tu) (TUTeamName tu) (TUCost tu) markupUSD chargedUSD (TUTokens tu) (TURequests tu)
    (default [] (GetModelBreakdown s (TUTeamID tu) from to)) (default [] (GetTagBreakdown s (TUTeamID tu) from to)).

Definition add_team (sum : ChargebackSummary) (tu : TeamUsage) : ChargebackSummary :=
  mkSum (f64_add (TotalCostUSD sum) (TUCost tu)) (TotalTokens sum +i TUTokens tu) (TotalRequests sum +i TURequests tu).

Definition BuildReport (s : Store) (from to now : Time) : option ChargebackReport :=
  match GetTeamUsage s from to with
  | None => None
  | Some teams =>
      Some (mkReport (Calendar.FormatMonth from) now "USD" (foldl add_team (mkSum f64_0 0 0) teams)
              (team_entry s from to <$> teams))
  end.

Record Showback := mkShowback {
  SPeriod : string;
  SGeneratedAt : Time;
  STeamID : string;
  STeamName : string;
  SCost : float64;
  STokens : Z;
  SRequests : Z;
  SByModel : list ModelCost;
  SByProject : list TagCost
}.

Definition ShowbackReport (s : Store) (teamID : string) (from to now : Time) : option Showback :=
  match GetTeamUsage s from to with
  | None => None
  | Some teams =>
      let tu := default (mkTU teamID "" f64_0 0 0) (List.find (fun t => String.eqb (TUTeamID t) teamID) teams) in
      Some (mkShowback (Calendar.FormatMonth from) now teamID (TUTeamName tu) (TUCost tu) (TUTokens tu) (TURequests tu)
              (default [] (GetModelBreakdown s teamID from to)) (default [] (GetTagBreakdown s teamID from to)))
  end.

(** ** report.go *)

(** [fmt8] is the format %.8f. *)
Definition csv_header : list string :=
  ["period"; "team_id"; "team_name"; "cost_usd"; "markup_usd"; "total_charged_usd"; "tokens"; "requests"].

Definition csv_row (fmt8 : float64 -> string) (r : ChargebackReport) (e : TeamChargebackEntry) : list string :=
  [Period r; ETeamID e; ETeamName e; fmt8 (ECost e); fmt8 (EMarkup e); fmt8 (ETotalCharged e);
   pretty (ETokens e); pretty (ERequests e)].

Definition ToCSV (fmt8 : float64 -> string) (r : ChargebackReport) : string :=
  Csv.write_all (csv_header :: (csv_row fmt8 r <$> ByTeam r)).

(** ** scheduler.go *)

Definition nextMonthStart (now : Time) : Time := Calendar.Date (Calendar.Year now) (Calendar.Month now + 1) 1 0 0 0.

(** The months a report covers, when the timer fires at [t] and the local clock is [zone] ahead
    of UTC: the timer gives the local time. *)
Definition report_range (zone : Duration) (t : Time) : Time * Time :=
  let now := time_Add t zone in
  let firstOfMonth := Calendar.Date (Calendar.Year now) (Calendar.Month now) 1 0 0 0 in
  (Calendar.AddMonths firstOfMonth (-1), firstOfMonth).

(** The report, if one is made; whether it is sent does not matter to the scheduler. *)
Definition generate (s : Store) (zone : Duration) (t done : Time) : option ChargebackReport :=
  let '(from, to) := report_range zone t in BuildReport s from to done.

(** The loop: each round waits for the next start of a month, as seen at [now], and the timer
    fires at [fire]. *)
Record round := mkRound { r_now : Time; r_fire : Time }.

Definition run (zone : Duration) (rounds : list round) : list (Time * Time) :=
  (fun r => report_range zone (r_fire r)) <$> rounds.

(** ** store/postgres/billing_store.go *)

(** The columns of a markup; a cap of zero is stored as null. *)
Record markup_row := mkMRow { mr_id : string; mr_percentage : float64; mr_fixed : float64; mr_cap : option float64 }.

(** The markups of the teams, and the global one, whose row the migration inserts. *)
Record Markups := mkMarkups { by_team : gmap string markup_row; global : option markup_row }.

Definition markup_of (team : option string) (r : markup_row) : MarkupConfig :=
  mkMarkup (mr_id r) team (mr_percentage r) (mr_fixed r) (default f64_0 (mr_cap r)).

Definition store_GetMarkupConfig (ok : bool) (m : Markups) (team : option string) : option MarkupConfig :=
  if negb ok then None
  else markup_of team <$> match team with None => global m | Some t => by_team m !! t end.

Definition nullif0 (x : float64) : option float64 := if f64_eq x f64_0 then None else Some x.

(** [id] is the identifier a new row gets. *)
Definition UpsertMarkupConfig (ok : bool) (id : string) (cfg : MarkupConfig) (m : Markups) : bool * Markups :=
  if negb ok then (false, m)
  else
    let row i := mkMRow i (Percentage cfg) (FixedUSD cfg) (nullif0 (CapUSD cfg)) in
    match MTeamID cfg with
    | None => (true, mkMarkups (by_team m) ((fun r => row (mr_id r)) <$> global m))
    | Some t =>
        let i := match by_team m !! t with Some r => mr_id r | None => id end in
        (true, mkMarkups (<[t := row i]> (by_team m)) (global m))
    end.

Section Queries.
Context (to_float : Z -> float64) (decimal : float64 -> Z) (team_names : gmap string string).

Definition team_of (_ : usage_key) (r : usage_row) : option UUID := o_team (u_owner r).

(** date >= from AND date < to. *)
Definition in_month (from to : Time) (k : usage_key) : bool :=
  (Calendar.dayOf from <=? key_day k) && (key_day k <? Calendar.dayOf to).

Definition team_rows (from to : Time) (k : usage_key) (r : usage_row) : bool :=
  in_month from to k && match team_of k r with Some _ => true | None => false end.

(** [order] is ORDER BY cost_usd DESC. *)
Definition store_GetTeamUsage (order : list TeamUsage -> list TeamUsage) (u : gmap usage_key usage_row) (from to : Time)
  : list TeamUsage :=
  order ((fun t =>
    let sum := group_sum (team_rows from to) team_of u t in
    mkTU (default "" t) (default "unknown" (match t with Some t => team_names !! t | None => None end))
      (to_float (sum u_cost)) (sum (fun r => c_total (u_counts r))) (sum (fun r => c_requests (u_counts r))))
    <$> groups (team_rows from to) team_of u).

Definition model_rows (team : UUID) (from to : Time) (k : usage_key) (r : usage_row) : bool :=
  in_month from to k && match team_of k r with Some t => String.eqb t team | None => false end.

Definition store_GetModelBreakdown (order : list ModelCost -> list ModelCost) (u : gmap usage_key usage_row)
    (team : UUID) (from to : Time) : list ModelCost :=
  order ((fun m =>
    let sum := group_sum (model_rows team from to) (fun k _ => key_model k) u m in
    mkMC m (to_float (sum u_cost)) (sum (fun r => c_total (u_counts r))))
    <$> groups (model_rows team from to) (fun k _ => key_model k) u).

Definition tag_of (e : LogEntry) : string := default "untagged" (Metadata e !! "project").

Definition store_GetTagBreakdown (order : list TagCost -> list TagCost) (rows : list LogEntry) (team : UUID)
    (from to : Time) : list TagCost :=
  let sel := List.filter (fun e => match TeamID e with Some t => String.eqb t team | None => false end &&
    ((from <=? Timestamp e) && (Timestamp e <? to))) rows in
  take 50 (order ((fun tag =>
    mkTag tag (to_float (foldr Z.add 0 ((fun e => decimal (CostUSD e)) <$> List.filter (fun e => String.eqb (tag_of e) tag) sel))))
    <$> elements (list_to_set (tag_of <$> sel) : gset string))).

Record BillingUsageItem := mkItem {
  ITeamID : string;
  IPeriodStart : string;
  IPeriodEnd : string;
  ITokens : Z;
  IUnitPrice : float64;
  IAmount : float64;
  IMetadata : gmap string string
}.

Definition unitPrice : float64 := f64_const 1 100000.

Definition GetBillingUsageItems (order : list TeamUsage -> list TeamUsage) (u : gmap usage_key usage_row) (from to : Time)
  : list BillingUsageItem :=
  (fun tu => mkItem (TUTeamID tu) (Calendar.FormatDay from) (Calendar.FormatDay to) (TUTokens tu) unitPrice (TUCost tu)
               {[ "team_name" := TUTeamName tu ]})
  <$> store_GetTeamUsage order u from to.

(** The store over the tables. The [ok]s say whether the queries are answered. *)
Definition pg_store (usage_order : list TeamUsage -> list TeamUsage) (model_order : list ModelCost -> list ModelCost)
    (tag_order : list TagCost -> list TagCost) (markup_ok usage_ok model_ok tag_ok : bool) (m : Markups) (db : DB) : Store :=
  mkStore (store_GetMarkupConfig markup_ok m)
    (fun from to => if usage_ok then Some (store_GetTeamUsage usage_order (usage db) from to) else None)
    (fun team from to => if model_ok then Some (store_GetModelBreakdown model_order (usage db) team from to) else None)
    (fun team from to => if tag_ok then Some (store_GetTagBreakdown tag_order (logs db) team from to) else None).

End Queries.

(** ** handler/admin_reports.go, handler/billing.go *)

(** A month parameter: absent, or what [time.Parse] makes of it. *)
Definition parsePeriodParam (period : option (option Time)) (now : Time) : option (Time * Time) :=
  match (match period with None => Some now | Some t => t end) with
  | None => None
  | Some t => let from := Calendar.Date (Calendar.Year t) (Calendar.Month t) 1 0 0 0 in Some (from, Calendar.AddMonths from 1)
  end.

Inductive reply := RError (code : Z) | RCSV (filename text : string) | RReport (r : ChargebackReport) | RShow (r : Showback)
| RMarkup (m : MarkupConfig) | ROk | RItems (l : list BillingUsageItem).

Definition Chargeback (fmt8 : float64 -> string) (s : Store) (period : option (option Time)) (format : string)
    (now done : Time) : reply :=
  match parsePeriodParam period now with
  | None => RError 400
  | Some (from, to) =>
      match BuildReport s from to done with
      | None => RError 500
      | Some r =>
          if String.eqb format "csv" then RCSV ("chargeback-" +:+ Period r +:+ ".csv") (ToCSV fmt8 r) else RReport r
      end
  end.

Definition ShowbackHandler (s : Store) (period : option (option Time)) (teamID : string) (now done : Time) : reply :=
  match parsePeriodParam period now with
  | None => RError 400
  | Some (from, to) =>
      if String.eqb teamID "" then RError 400
      else match ShowbackReport s teamID from to done with None => RError 500 | Some r => RShow r end
  end.

Definition GetMarkup (s : Store) (teamID : string) : reply :=
  match GetMarkupConfig s (if String.eqb teamID "" then None else Some teamID) with
  | None => RError 500
  | Some m => RMarkup m
  end.

Definition UpsertMarkup (ok : bool) (id : string) (body : option MarkupConfig) (m : Markups) : reply * Markups :=
  match body with
  | None => (RError 400, m)
  | Some cfg => match UpsertMarkupConfig ok id cfg m with (false, m) => (RError 500, m) | (true, m) => (ROk, m) end
  end.

(** The dates are what [time.Parse] makes of them; both must be given. *)
Definition BillingUsage (items : Time -> Time -> option (list BillingUsageItem)) (from to : option (option Time)) (now : Time) : reply :=
  let range :=
    match from, to with
    | Some f, Some t => match f, t with Some f, Some t => Some (f, t) | _, _ => None end
    | _, _ =>
        let from := Calendar.Date (Calendar.Year now) (Calendar.Month now) 1 0 0 0 in Some (from, Calendar.AddMonths from 1)
    end in
  match range with
  | None => RError 400
  | Some (from, to) => match items from to with None => RError 500 | Some l => RItems l end
  end.

(** ** Theorems *)

(** What a sum of 64-bit additions gives. *)
Lemma wrap64_add_l a b : wrap64 (wrap64 a + b) = wrap64 (a + b).
Proof.
  unfold wrap64. f_equal. rewrite <- (Zplus_mod_idemp_l (_ - _ + b)), <- (Zplus_mod_idemp_l (a + b)).
  f_equal. f_equal.
  replace ((a + 2 ^ 63) mod 2 ^ 64 - 2 ^ 63 + b) with ((a + 2 ^ 63) mod 2 ^ 64 + (b - 2 ^ 63)) by lia.
  rewrite Zplus_mod_idemp_l. f_equal. lia.
Qed.

Lemma wrap_sum {A} (f : A -> Z) l a :
  foldl (fun a x => a +i f x) (wrap64 a) l = wrap64 (a + foldr Z.add 0 (f <$> l)).
Proof.
  revert a. induction l as [|x l IH]; intros a; cbn [foldl fmap list_fmap foldr]; [by rewrite Z.add_0_r|].
  rewrite wrap64_add_l, IH. f_equal. lia.
Qed.

(** The totals of a report, in 64 bits. *)
Lemma add_teams_totals teams :
  let s := foldl add_team (mkSum f64_0 0 0) teams in
  TotalTokens s = wrap64 (foldr Z.add 0 (TUTokens <$> teams)) /\
  TotalRequests s = wrap64 (foldr Z.add 0 (TURequests <$> teams)).
Proof.
  cbv zeta. pose proof (wrap_sum TUTokens teams 0) as A. pose proof (wrap_sum TURequests teams 0) as B.
  rewrite Z.add_0_l in A, B. rewrite <- A, <- B. clear A B.
  change (wrap64 0) with (TotalTokens (mkSum f64_0 0 0)) at 1. change (wrap64 0) with (TotalRequests (mkSum f64_0 0 0)).
  generalize (mkSum f64_0 0 0). induction teams as [|t teams IH]; intros s; [done|]. cbn [foldl]. apply IH.
Qed.

Lemma sum_perm (l l' : list Z) : Permutation l l' -> foldr Z.add 0 l = foldr Z.add 0 l'.
Proof. induction 1; cbn in *; lia. Qed.

Section Accounts.
Context (to_float : Z -> float64) (decimal : float64 -> Z) (names : gmap string string).
Context (usage_order : list TeamUsage -> list TeamUsage) (model_order : list ModelCost -> list ModelCost)
  (tag_order : list TagCost -> list TagCost).
Hypothesis usage_order_perm : forall l, Permutation (usage_order l) l.
Hypothesis model_order_perm : forall l, Permutation (model_order l) l.

Lemma fmap_usage_sum (f : usage_row -> Z) (g : TeamUsage -> Z) u from to :
  (forall t, g (mkTU (default "" t) (default "unknown" (match t with Some t => names !! t | None => None end))
      (to_float (group_sum (team_rows from to) team_of u t u_cost))
      (group_sum (team_rows from to) team_of u t (fun r => c_total (u_counts r)))
      (group_sum (team_rows from to) team_of u t (fun r => c_requests (u_counts r)))) =
    group_sum (team_rows from to) team_of u t f) ->
  foldr Z.add 0 (g <$> store_GetTeamUsage to_float names usage_order u from to) = sum_rows (team_rows from to) f u.
Proof.
  intros G. unfold store_GetTeamUsage. rewrite (sum_perm _ _ (fmap_Permutation g _ _ (usage_order_perm _))).
  rewrite <- list_fmap_compose, <- (group_sums (team_rows from to) team_of u f). f_equal.
  apply list_fmap_ext. intros i t _. apply G.
Qed.

(** The rows of a team, by model. *)
Lemma model_rows_sum team u from to :
  foldr Z.add 0 (MCTokens <$> store_GetModelBreakdown to_float model_order u team from to) =
  group_sum (team_rows from to) team_of u (Some team) (fun r => c_total (u_counts r)).
Proof.
  unfold store_GetModelBreakdown. rewrite (sum_perm _ _ (fmap_Permutation MCTokens _ _ (model_order_perm _))).
  rewrite <- list_fmap_compose. etransitivity; [apply (group_sums (model_rows team from to) (fun k _ => key_model k) u)|].
  unfold group_sum. rewrite !sum_list_sel. f_equal. apply list_fmap_ext. intros i [k r] _.
  unfold model_rows, team_rows. destruct (in_month from to k); [|done]. cbn [andb].
  destruct (team_of k r) as [t|]; [|done]. cbn [andb].
  destruct (String.eqb_spec t team) as [->|N]; [by rewrite bool_decide_true|].
  rewrite bool_decide_false; [done|]. congruence.
Qed.

(** The teams of a report: each of them once. *)
Lemma elem_team_groups u from to t : t ∈ groups (team_rows from to) team_of u -> exists team, t = Some team.
Proof.
  unfold groups. rewrite elem_of_elements, elem_of_list_to_set, list_elem_of_omap.
  intros ([k r] & _ & E). unfold team_rows in E. destruct (team_of k r) as [team|] eqn:T.
  - destruct (in_month from to k); [|done]. cbn [andb] in E. injection E as <-. by exists team.
  - by rewrite andb_false_r in E.
Qed.

Lemma team_entry_fields s from to tu :
  ETeamID (team_entry s from to tu) = TUTeamID tu /\ ETokens (team_entry s from to tu) = TUTokens tu /\
  EByModel (team_entry s from to tu) = default [] (GetModelBreakdown s (TUTeamID tu) from to).
Proof. unfold team_entry. by destruct (team_markup s (TUTeamID tu)). Qed.


End Accounts.

(** The export of a report reads back: whatever the teams are called, a reader of
    comma-separated records finds the header and one record of eight fields for each team. *)
Theorem ToCSV_reads_back fmt8 r :
  Csv.read (ToCSV fmt8 r) = Some (csv_header :: (csv_row fmt8 r <$> ByTeam r)).
Proof.
  apply Csv.read_write_all. constructor; [done|]. apply Forall_fmap. by apply Forall_true.
Qed.

(** A markup is what was stored last, with the cap as null for none. *)
Lemma UpsertMarkup_stored id cfg t m m' :
  MTeamID cfg = Some t -> UpsertMarkupConfig true id cfg m = (true, m') ->
  (exists c, store_GetMarkupConfig true m' (Some t) = Some c /\ Percentage c = Percentage cfg /\ FixedUSD c = FixedUSD cfg /\
     CapUSD c = if f64_eq (CapUSD cfg) f64_0 then f64_0 else CapUSD cfg) /\
  (forall t', t' <> t -> store_GetMarkupConfig true m' (Some t') = store_GetMarkupConfig true m (Some t')) /\
  store_GetMarkupConfig true m' None = store_GetMarkupConfig true m None.
Proof.
  intros T. unfold UpsertMarkupConfig. rewrite T. cbn [negb]. intros [= <-]. unfold store_GetMarkupConfig. cbn [negb by_team global].
  split_and!.
  - rewrite lookup_insert_eq. eexists. split; [reflexivity|]. cbn. unfold nullif0. by destruct (f64_eq _ _).
  - intros t' N. by rewrite lookup_insert_ne.
  - done.
Qed.

(** ** The scheduler *)

Lemma nextMonthStart_spec now :
  nextMonthStart now = Calendar.monthStart (Calendar.monthIndex now + 1) * Calendar.Day.
Proof. apply Calendar.Date_month. Qed.

Lemma report_range_spec zone t :
  report_range zone t =
  (Calendar.monthStart (Calendar.monthIndex (time_Add t zone) - 1) * Calendar.Day,
   Calendar.monthStart (Calendar.monthIndex (time_Add t zone)) * Calendar.Day).
Proof.
  unfold report_range. cbv zeta. rewrite <- (Z.add_0_r (Calendar.Month _)), Calendar.Date_month, Z.add_0_r.
  by rewrite Calendar.AddMonths_start.
Qed.

(** A round as it goes: the timer fires at the start of a month or after it, and both it and, by
    the local clock, the report are still in that month. *)
Definition timely (zone : Duration) (r : round) : Prop :=
  nextMonthStart (r_now r) <= r_fire r /\
  r_fire r + zone < Calendar.monthStart (Calendar.monthIndex (r_now r) + 2) * Calendar.Day.

(** Each round begins after the one before it has fired, in the same month. *)
Fixpoint follow (rounds : list round) : Prop :=
  match rounds with
  | r :: ((r' :: _) as rest) =>
      Calendar.monthIndex (r_now r') = Calendar.monthIndex (r_fire r) /\ follow rest
  | _ => True
  end.

Lemma month_of i t :
  Calendar.monthStart i * Calendar.Day <= t < Calendar.monthStart (i + 1) * Calendar.Day -> Calendar.monthIndex t = i.
Proof.
  apply (Calendar.idx_unique (fun i => Calendar.monthStart i * Calendar.Day) Calendar.monthIndex).
  - apply (Calendar.tl_lt _ _ _ Calendar.monthly_tiles).
  - apply (Calendar.tl_idx _ _ _ Calendar.monthly_tiles).
Qed.

Lemma timely_report zone r :
  0 <= zone -> timely zone r ->
  Calendar.monthIndex (r_fire r) = Calendar.monthIndex (r_now r) + 1 /\
  report_range zone (r_fire r) =
  (Calendar.monthStart (Calendar.monthIndex (r_now r)) * Calendar.Day,
   Calendar.monthStart (Calendar.monthIndex (r_now r) + 1) * Calendar.Day).
Proof.
  unfold timely. intros Z0 [L U]. rewrite nextMonthStart_spec in L. set (i := Calendar.monthIndex (r_now r)) in *.
  assert (Calendar.monthIndex (r_fire r) = i + 1) as F by (apply month_of; replace (i + 1 + 1) with (i + 2) by lia; lia).
  split; [done|]. rewrite report_range_spec.
  assert (Calendar.monthIndex (time_Add (r_fire r) zone) = i + 1) as ->
    by (apply month_of; unfold time_Add; replace (i + 1 + 1) with (i + 2) by lia; lia).
  by rewrite Z.add_simpl_r.
Qed.

(** The scheduler reports every month once: with the clock of the gateway at UTC or ahead
    of it, and timers that fire in the month they wait for, the rounds of the loop cover
    consecutive months, without a gap or an overlap, starting with the month the scheduler was
    started in. *)
Theorem scheduler_covers_months zone rounds i :
  0 <= zone -> Forall (timely zone) rounds -> follow rounds ->
  (forall r, head rounds = Some r -> Calendar.monthIndex (r_now r) = i) ->
  run zone rounds =
  (fun k => (Calendar.monthStart (i + Z.of_nat k) * Calendar.Day, Calendar.monthStart (i + Z.of_nat k + 1) * Calendar.Day))
  <$> seq 0 (length rounds).
Proof.
  intros Z0 T. revert i. induction T as [|r rounds Tr T IH]; intros i F Hd; [done|].
  destruct (timely_report zone r Z0 Tr) as [Fi R]. rewrite (Hd r eq_refl) in Fi, R.
  cbn [run fmap list_fmap length seq]. rewrite R, Z.add_0_r. f_equal.
  change ((fun r => report_range zone (r_fire r)) <$> rounds) with (run zone rounds).
  rewrite (IH (i + 1)).
  - rewrite <- fmap_S_seq, <- list_fmap_compose. apply list_fmap_ext. intros k x _. unfold compose.
    f_equal; do 2 f_equal; lia.
  - destruct rounds; [done|]. by destruct F.
  - intros r' Hr. destruct rounds as [|r2 rounds]; [done|]. injection Hr as <-. destruct F as [-> _]. done.
Qed.

(** ** Witnesses and examples *)

(** The examples of the markup's test. *)
Example Apply_capped :
  Apply (mkMarkup "" None (f64_of_Z 20) f64_0 f64_0) (f64_of_Z 100) = f64_of_Z 120 /\
  Apply (mkMarkup "" None (f64_of_Z 20) f64_0 (f64_of_Z 10)) (f64_of_Z 100) = f64_of_Z 110 /\
  Apply (mkMarkup "" None (f64_of_Z 50) (f64_of_Z 2) f64_0) (f64_of_Z 100) = f64_of_Z 152.
Proof. vm_compute. split_and!; reflexivity. Qed.

Definition demo_db : DB :=
  insert_all (fun _ => 0)
    [([demo_entry "a" (Calendar.Date 2026 1 5 0 0 0); demo_entry "b" (Calendar.Date 2026 1 6 0 0 0);
       demo_entry "c" (Calendar.Date 2026 2 1 0 0 0)], true)] (mkDB [] ∅).


(** Two rounds from January 2026 on. *)
Definition demo_rounds : list round :=
  [mkRound (Calendar.Date 2026 1 15 0 0 0) (Calendar.Date 2026 2 1 0 0 0);
   mkRound (Calendar.Date 2026 2 1 0 0 1) (Calendar.Date 2026 3 1 0 0 0)].

Lemma scheduler_covers_months_witness :
  run 0 demo_rounds =
  [(Calendar.Date 2026 1 1 0 0 0, Calendar.Date 2026 2 1 0 0 0); (Calendar.Date 2026 2 1 0 0 0, Calendar.Date 2026 3 1 0 0 0)].
Proof.
  rewrite (scheduler_covers_months 0 demo_rounds (Calendar.monthIndex (Calendar.Date 2026 1 15 0 0 0))).
  - vm_compute. reflexivity.
  - lia.
  - repeat constructor; vm_compute; try discriminate; reflexivity.
  - vm_compute. split; [reflexivity|exact I].
  - intros r [= <-]. reflexivity.
Defined.

(** With a clock behind UTC the timer fires on the last day of the month before, by the local
    clock, and the report of January is the one of December. *)
Example behind_utc_reports_wrong_month :
  report_range (-5 * Hour) (nextMonthStart (Calendar.Date 2026 1 15 0 0 0)) =
  (Calendar.Date 2025 12 1 0 0 0, Calendar.Date 2026 1 1 0 0 0).
Proof. vm_compute. reflexivity. Qed.

(** A fixed charge is added once for a team and a month, however many requests it made. *)
Example fixed_charge_is_not_per_request :
  let s := mkStore (fun _ => Some (mkMarkup "" None f64_0 (f64_of_Z 5) f64_0))
             (fun _ _ => Some [mkTU "t" "T" (f64_of_Z 100) 0 1000]) (fun _ _ _ => None) (fun _ _ _ => None) in
  (fun r => ETotalCharged <$> ByTeam r) <$> BuildReport s 0 0 0 = Some [f64_of_Z 105].
Proof. vm_compute. reflexivity. Qed.

End Billing.
