(* ===== verification/AuditLog.v ===== *)
(** * The audit log (internal/audit, internal/mcp/audit_adapter.go, store/postgres/audit_store.go,
    handler/admin_audit.go)

    Which administrative requests are recorded and as what, the queue in front of the database,
    the rows and their queries, and the export. Values of the maps of an event are texts of JSON;
    the parsing of addresses and of times is an argument. *)

From S2P Require Import Prelude GoStrings Float64 Types Calendar Cost Mcp Csv.
Local Open Scope Z_scope.
Local Open Scope go_scope.

Module Audit.

(** ** events.go *)

Definition EventKeyCreated : string := "virtual_key.created".
Definition EventKeyUpdated : string := "virtual_key.updated".
Definition EventKeyDeactivated : string := "virtual_key.deactivated".
Definition EventKeyRotated : string := "virtual_key.rotated".
Definition EventProviderKeyCreated : string := "provider_key.created".
Definition EventProviderKeyUpdated : string := "provider_key.updated".
Definition EventProviderKeyDeleted : string := "provider_key.deleted".
Definition EventRoutingRuleCreated : string := "routing_rule.created".
Definition EventRoutingRuleUpdated : string := "routing_rule.updated".
Definition EventRoutingRuleDeleted : string := "routing_rule.deleted".
Definition EventRoutingReloaded : string := "routing.reloaded".
Definition EventUserCreated : string := "user.created".
Definition EventUserUpdated : string := "user.updated".
Definition EventUserDeleted : string := "user.deleted".
Definition EventRoleAssigned : string := "user.role_assigned".
Definition EventBudgetCreated : string := "budget.created".
Definition EventBudgetReset : string := "budget.reset".
Definition EventCircuitBreakerReset : string := "circuit_breaker.reset".
Definition EventCacheDeleted : string := "cache.deleted".
Definition EventMCPToolCalled : string := "mcp.tool_called".
Definition EventMCPToolFailed : string := "mcp.tool_failed".
Definition ActorAPIKey : string := "api_key".

(** ** logger.go *)

(** A value as JSON text. *)
Abbreviation any := string.

Record Event := mkEvent {
  ID : option UUID;
  EventType : string;
  Action : string;
  ActorType : string;
  ActorID : option UUID;
  ActorEmail : string;
  IPAddress : string;
  UserAgent : string;
  ResourceType : string;
  ResourceID : option UUID;
  ResourceName : string;
  Changes : option (gmap string any);
  Metadata : option (gmap string any);
  RequestID : string;
  OrgID : option UUID;
  TeamID : option UUID;
  Timestamp : Time
}.

Definition with_timestamp (t : Time) (e : Event) : Event :=
  mkEvent (ID e) (EventType e) (Action e) (ActorType e) (ActorID e) (ActorEmail e) (IPAddress e) (UserAgent e)
    (ResourceType e) (ResourceID e) (ResourceName e) (Changes e) (Metadata e) (RequestID e) (OrgID e) (TeamID e) t.

Definition queueSize : nat := N.to_nat 1000.

(** The queue, the events handed to the store with its answer, and how far the closing is. *)
Record Logger := mkLogger { ch : list Event; stored : list (Event * bool); closed : bool; done_ : bool }.

Definition New : Logger := mkLogger [] [] false false.

(** Sending on a closed channel panics; an event that finds the queue full is dropped. *)
Definition Record_ (e : Event) (now : Time) (l : Logger) : option Logger :=
  let e := if Timestamp e =? 0 then with_timestamp now e else e in
  if closed l then None
  else Some (if decide (length (ch l) < queueSize)%nat then mkLogger (ch l ++ [e]) (stored l) (closed l) (done_ l) else l).

(** Closing a closed channel panics. *)
Definition Close (l : Logger) : option Logger :=
  if closed l then None else Some (mkLogger (ch l) (stored l) true (done_ l)).

(** The worker takes an event and hands it to the store; it ends when the channel is closed and
    empty. *)
Inductive event := ERecord (e : Event) (now : Time) | EClose | EInsert (ok : bool) | EDone.

Inductive step : Logger -> event -> Logger -> Prop :=
| step_record l e now l' : Record_ e now l = Some l' -> step l (ERecord e now) l'
| step_close l l' : Close l = Some l' -> step l EClose l'
| step_insert l ok e rest : ch l = e :: rest -> step l (EInsert ok) (mkLogger rest (stored l ++ [(e, ok)]) (closed l) (done_ l))
| step_done l : ch l = [] -> closed l = true -> done_ l = false -> step l EDone (mkLogger [] (stored l) true true).

Inductive steps : Logger -> list event -> Logger -> Prop :=
| steps_nil l : steps l [] l
| steps_snoc l es l1 e l2 : steps l es l1 -> step l1 e l2 -> steps l (es ++ [e]) l2.

Definition redacted : any := String (Ascii.ascii_of_nat 34) ("[REDACTED]" +:+ String (Ascii.ascii_of_nat 34) "").

Definition mask (redact : list string) (m : gmap string any) : gmap string any :=
  map_imap (fun k v => Some (if bool_decide (k ∈ redact) then redacted else v)) m.

(** [before[k]] of a missing key is nil. [range] over a map yields its keys in some order. *)
Record changes := mkChanges { before_ : gmap string any; after_ : gmap string any; changed_fields : list string }.

Definition BuildChanges (before after : gmap string any) (redactFields : list string) : changes :=
  mkChanges (mask redactFields before) (mask redactFields after)
    (omap (fun '(k, v) => if negb (String.eqb (default "null" (before !! k)) v) && negb (bool_decide (k ∈ redactFields))
                          then Some k else None) (map_to_list after)).

(** ** middleware.go *)

Definition auditableEndpoints : list (string * string * string * string) :=
  [("POST", "/admin/keys", EventKeyCreated, "create");
   ("PATCH", "/admin/keys", EventKeyUpdated, "update");
   ("DELETE", "/admin/keys", EventKeyDeactivated, "delete");
   ("POST", "/admin/keys/", EventKeyRotated, "rotate");
   ("POST", "/admin/provider-keys", EventProviderKeyCreated, "create");
   ("PUT", "/admin/provider-keys", EventProviderKeyUpdated, "update");
   ("DELETE", "/admin/provider-keys", EventProviderKeyDeleted, "delete");
   ("POST", "/admin/routing/rules", EventRoutingRuleCreated, "create");
   ("PUT", "/admin/routing/rules", EventRoutingRuleUpdated, "update");
   ("DELETE", "/admin/routing/rules", EventRoutingRuleDeleted, "delete");
   ("POST", "/admin/routing/reload", EventRoutingReloaded, "reload");
   ("PUT", "/admin/routing", EventRoutingReloaded, "update");
   ("POST", "/admin/users", EventUserCreated, "create");
   ("PUT", "/admin/users", EventUserUpdated, "update");
   ("DELETE", "/admin/users", EventUserDeleted, "delete");
   ("POST", "/admin/users/", EventRoleAssigned, "assign_role");
   ("POST", "/admin/budgets", EventBudgetCreated, "create");
   ("POST", "/admin/budgets/", EventBudgetReset, "reset");
   ("POST", "/admin/circuit-breakers", EventCircuitBreakerReset, "reset");
   ("DELETE", "/admin/cache", EventCacheDeleted, "delete")].

Definition endpoint_matches (method path : string) (e : string * string * string * string) : bool :=
  String.eqb e.1.1.1 method && HasPrefix path e.1.1.2.

Definition inferEventType (method path : string) : string * string :=
  match List.find (endpoint_matches method path) auditableEndpoints with
  | Some (_, _, et, action) => (et, action)
  | None => ("", "")
  end.

(** The code of a [statusRecorder]: each header sets it. *)
Inductive response_event := WriteHeader (code : Z) | Write_ (body : string).

Definition sr_event (code : Z) (e : response_event) : Z :=
  match e with WriteHeader c => c | Write_ _ => if code =? 0 then 200 else code end.

Definition sr_status (es : list response_event) : Z :=
  let code := foldl sr_event 0 es in if code =? 0 then 200 else code.

Record request := mkRequest {
  q_method : string;
  q_path : string;
  q_realIP : string;
  q_forwarded : string;
  q_remote : string;
  q_userAgent : string;
  q_id : string
}.

Definition realIP (r : request) : string :=
  if negb (String.eqb (q_realIP r) "") then q_realIP r
  else if negb (String.eqb (q_forwarded r) "") then
    TrimSpace (match Index (q_forwarded r) "," with Some i => take_str i (q_forwarded r) | None => q_forwarded r end)
  else q_remote r.

(** [json_str] and [json_int] are the JSON of a string and of a number. *)
Definition audit_event (json_str : string -> any) (json_int : Z -> any) (r : request) (es : list response_event)
  : option Event :=
  let '(et, action) := inferEventType (q_method r) (q_path r) in
  if String.eqb et "" then None
  else if 500 <=? sr_status es then None
  else Some (mkEvent None et action ActorAPIKey None "" (realIP r) (q_userAgent r) "" None "" None
         (Some {[ "method" := json_str (q_method r); "path" := json_str (q_path r); "status_code" := json_int (sr_status es) ]})
         (q_id r) None None 0).

Definition Middleware (json_str : string -> any) (json_int : Z -> any) (r : request) (es : list response_event)
    (now : Time) (l : Logger) : option Logger :=
  match audit_event json_str json_int r es with
  | None => Some l
  | Some e => Record_ e now l
  end.

(** ** mcp/audit_adapter.go *)

(** The event of a tool call that took [duration_ms] and was logged at [at_]. *)
Definition LogToolCall (json_str : string -> any) (json_int : Z -> any) (ev : Mcp.ToolCallEvent) (duration_ms : Z)
    (at_ : Time) : Event :=
  let meta : gmap string any :=
    {[ "server" := json_str (Mcp.EvServer ev); "tool" := json_str (Mcp.EvTool ev); "result_size" := json_int (Mcp.EvResultSize ev);
       "duration_ms" := json_int duration_ms; "virtual_key_id" := json_str (Mcp.EvVirtualKeyID ev) ]} in
  let failed := negb (String.eqb (Mcp.EvError ev) "") in
  mkEvent None (if failed then EventMCPToolFailed else EventMCPToolCalled) "tool_call" ActorAPIKey None "" "" ""
    "mcp_tool" None (Mcp.EvServer ev +:+ "/" +:+ Mcp.EvTool ev) None
    (Some (if failed then <["error" := json_str (Mcp.EvError ev)]> meta else meta)) (Mcp.EvRequestID ev) None None at_.

(** ** store/postgres/audit_store.go *)

(** The offset of the last occurrence of a character. *)
Fixpoint LastIndex (s : string) (c : ascii) : option nat :=
  match s with
  | EmptyString => None
  | String a s =>
      match LastIndex s c with
      | Some i => Some (S i)
      | None => if Ascii.eqb a c then Some O else None
      end
  end.

(** [net.SplitHostPort]: the host, [None] for an error. *)
Definition SplitHostPort (s : string) : option string :=
  match LastIndex s ":" with
  | None => None
  | Some i =>
      if HasPrefix s "[" then
        match Index s "]" with
        | None => None
        | Some e =>
            if negb (S e =? i)%nat then None
            else if Contains (drop_str 1 s) "[" || Contains (drop_str (S e) s) "]" then None
            else Some (drop_str 1 (take_str e s))
        end
      else
        let host := take_str i s in
        if Contains host ":" || Contains s "[" || Contains s "]" then None else Some host
  end.

Definition stripPort (addr : string) : string := default addr (SplitHostPort addr).

Definition nilIfEmpty (s : string) : option string := if String.eqb s "" then None else Some s.

(** A row of audit_logs; an address is what PostgreSQL's INET makes of it. *)
Record row := mkRow {
  r_id : UUID;
  r_event_type : string;
  r_action : string;
  r_actor_type : string;
  r_actor_id : option UUID;
  r_actor_email : option string;
  r_ip : option string;
  r_user_agent : option string;
  r_resource_type : option string;
  r_resource_id : option UUID;
  r_resource_name : option string;
  r_changes : string;
  r_metadata : string;
  r_request_id : option string;
  r_org_id : option UUID;
  r_team_id : option UUID;
  r_timestamp : Time
}.

(** JSON of a map, where a nil map is null. *)
Class MapCodec := {
  marshal : option (gmap string any) -> string;
  unmarshal : string -> option (gmap string any);
  map_roundtrip : forall m, unmarshal (marshal m) = m
}.

Section Store.
Context `{MapCodec} (ParseIP : string -> bool) (host : string -> string) (is_uuid : string -> bool).

Definition ip_of (addr : string) : option string :=
  if String.eqb addr "" then None else if ParseIP (stripPort addr) then Some (stripPort addr) else None.

Definition row_of (id : UUID) (now : Time) (e : Event) : row :=
  mkRow id (EventType e) (Action e) (ActorType e) (ActorID e) (nilIfEmpty (ActorEmail e)) (ip_of (IPAddress e))
    (nilIfEmpty (UserAgent e)) (nilIfEmpty (ResourceType e)) (ResourceID e) (nilIfEmpty (ResourceName e))
    (marshal (Changes e)) (marshal (Metadata e)) (nilIfEmpty (RequestID e)) (OrgID e) (TeamID e)
    (if Timestamp e =? 0 then now else Timestamp e).

(** The widths of the columns (migrations/012). *)
Definition row_fits (e : Event) : bool :=
  (Cost.rune_count (EventType e) <=? 100)%nat && (Cost.rune_count (Action e) <=? 50)%nat &&
  (Cost.rune_count (ActorType e) <=? 20)%nat && (Cost.rune_count (ActorEmail e) <=? 255)%nat &&
  (Cost.rune_count (ResourceType e) <=? 50)%nat && (Cost.rune_count (ResourceName e) <=? 255)%nat &&
  (Cost.rune_count (RequestID e) <=? 36)%nat.

(** [id] is the identifier the database draws. *)
Definition Insert (ok : bool) (id : UUID) (now : Time) (e : Event) (db : list row) : bool * list row :=
  if negb (ok && row_fits e) then (false, db) else (true, db ++ [row_of id now e]).

(** A row as it is read; [host] is the text of an INET. *)
Definition scan_event (r : row) : Event :=
  mkEvent (Some (r_id r)) (r_event_type r) (r_action r) (r_actor_type r) (r_actor_id r) (default "" (r_actor_email r))
    (default "" (host <$> r_ip r)) (default "" (r_user_agent r)) (default "" (r_resource_type r)) (r_resource_id r)
    (default "" (r_resource_name r)) (unmarshal (r_changes r)) (unmarshal (r_metadata r)) (default "" (r_request_id r))
    (r_org_id r) (r_team_id r) (r_timestamp r).

(** Zero times and empty texts are absent. *)
Record AuditFilter := mkFilter {
  From : Time;
  To : Time;
  FActorID : string;
  FEventType : string;
  FResourceID : string;
  SecurityOnly : bool;
  Limit : Z;
  Page : Z
}.

Definition has_id (id : string) (o : option UUID) : bool := match o with Some u => String.eqb u id | None => false end.

Definition filter_matches (f : AuditFilter) (r : row) : bool :=
  ((From f =? 0) || (From f <=? r_timestamp r)) && ((To f =? 0) || (r_timestamp r <=? To f)) &&
  (String.eqb (FActorID f) "" || has_id (FActorID f) (r_actor_id r)) &&
  (String.eqb (FEventType f) "" || String.eqb (r_event_type r) (FEventType f)) &&
  (String.eqb (FResourceID f) "" || has_id (FResourceID f) (r_resource_id r)) &&
  (negb (SecurityOnly f) || HasPrefix (r_event_type r) "auth." || HasPrefix (r_event_type r) "guardrail.").

(** [order] is ORDER BY timestamp DESC; a negative OFFSET, or an identifier that is none, is an
    error. *)
Definition List_ (ok : bool) (order : list row -> list row) (f : AuditFilter) (db : list row) : option (list Event * Z) :=
  let limit := if (Limit f <=? 0) || (5000 <? Limit f) then 100 else Limit f in
  let page := if Page f <? 1 then 1 else Page f in
  let offset := (page -i 1) *i limit in
  let rows := List.filter (filter_matches f) db in
  if negb ok || (offset <? 0) ||
     negb ((String.eqb (FActorID f) "" || is_uuid (FActorID f)) && (String.eqb (FResourceID f) "" || is_uuid (FResourceID f)))
  then None
  else Some (scan_event <$> take (Z.to_nat limit) (drop (Z.to_nat offset) (order rows)), Z.of_nat (length rows)).

(** ** handler/admin_audit.go *)

(** A time parameter: absent or unreadable, a time, or a date. *)
Inductive time_param := NoTime | At (t : Time) | OnDay (t : Time).

Definition parseAuditFilter (actor eventType resource : string) (from to : time_param) (limit page : Z) : AuditFilter :=
  mkFilter (match from with NoTime => 0 | At t => t | OnDay t => t end)
    (match to with NoTime => 0 | At t => t | OnDay t => time_Add t (24 * Hour - Second) end)
    actor eventType resource false limit page.

Definition set_limit (n : Z) (f : AuditFilter) : AuditFilter :=
  mkFilter (From f) (To f) (FActorID f) (FEventType f) (FResourceID f) (SecurityOnly f) n (Page f).
Definition security_only (f : AuditFilter) : AuditFilter :=
  mkFilter (From f) (To f) (FActorID f) (FEventType f) (FResourceID f) true (Limit f) (Page f).

Inductive reply := RError (code : Z) | RPage (total page limit : Z) (events : list Event) | RCSV (text : string).

Definition csv_header : list string :=
  ["timestamp"; "event_type"; "action"; "actor_type"; "actor_email"; "ip_address"; "resource_type"; "resource_name"; "request_id"].

Definition csv_row (rfc3339 : Time -> string) (e : Event) : list string :=
  [rfc3339 (Timestamp e); EventType e; Action e; ActorType e; ActorEmail e; IPAddress e; ResourceType e; ResourceName e;
   RequestID e].

Definition exportCSV (rfc3339 : Time -> string) (ok : bool) (order : list row -> list row) (f : AuditFilter) (db : list row)
  : reply :=
  match List_ ok order (set_limit 5000 f) db with
  | None => RError 500
  | Some (events, _) => RCSV (Csv.write_all (csv_header :: (csv_row rfc3339 <$> events)))
  end.

Definition handler_List (rfc3339 : Time -> string) (format : string) (ok : bool) (order : list row -> list row)
    (f : AuditFilter) (db : list row) : reply :=
  if String.eqb format "csv" then exportCSV rfc3339 ok order f db
  else match List_ ok order f db with
       | None => RError 500
       | Some (events, total) => RPage total (Page f) (Limit f) events
       end.

Definition SecurityEvents (ok : bool) (order : list row -> list row) (f : AuditFilter) (db : list row) : reply :=
  match List_ ok order (security_only f) db with
  | None => RError 500
  | Some (events, total) => RPage total (Page f) (Limit f) events
  end.

(** ** Rows and exports *)

Lemma default_nilIfEmpty s : default "" (nilIfEmpty s) = s.
Proof. unfold nilIfEmpty. by destruct (String.eqb_spec s ""). Qed.

(** An event is read as it was recorded, with its identifier and the address the database keeps
    of it. *)
Lemma scan_row_of id now e :
  Timestamp e <> 0 ->
  scan_event (row_of id now e) =
  mkEvent (Some id) (EventType e) (Action e) (ActorType e) (ActorID e) (ActorEmail e)
    (default "" (host <$> ip_of (IPAddress e))) (UserAgent e) (ResourceType e) (ResourceID e) (ResourceName e)
    (Changes e) (Metadata e) (RequestID e) (OrgID e) (TeamID e) (Timestamp e).
Proof.
  intros T. unfold scan_event, row_of. cbn. rewrite !default_nilIfEmpty, !map_roundtrip.
  by rewrite (proj2 (Z.eqb_neq _ _) T).
Qed.

(** The export holds the events of the page, and reads back. *)
Lemma exportCSV_reads_back rfc3339 order f db text :
  exportCSV rfc3339 true order f db = RCSV text ->
  exists events total, List_ true order (set_limit 5000 f) db = Some (events, total) /\
    Csv.read text = Some (csv_header :: (csv_row rfc3339 <$> events)).
Proof.
  unfold exportCSV. destruct (List_ true order _ db) as [[events total]|] eqn:E; [|done].
  remember (Csv.write_all _) as t eqn:T. intros [= <-]. subst t.
  exists events, total. split; [done|]. apply Csv.read_write_all. constructor; [done|]. apply Forall_fmap. by apply Forall_true.
Qed.

End Store.

(** ** The queue *)

(** The events recorded, with their times. *)
Definition recorded (es : list event) : list Event :=
  omap (fun e => match e with
                 | ERecord x now => Some (if Timestamp x =? 0 then with_timestamp now x else x)
                 | _ => None
                 end) es.

(** What the queue took: handed to the store, or still waiting. *)
Definition taken (l : Logger) : list Event := (stored l).*1 ++ ch l.

Record well_formed (l : Logger) : Prop := {
  wf_queue : (length (ch l) <= queueSize)%nat;
  wf_done : done_ l = true -> ch l = [] /\ closed l = true
}.

Lemma audit_step_wf l e l' : well_formed l -> step l e l' -> well_formed l'.
Proof.
  intros Wf S. pose proof Wf as [Q D]. destruct S as [l e now l' R|l l' R|l ok e rest R|l C K N].
  - unfold Record_ in R. destruct (closed l) eqn:K; [done|]. injection R as <-. case_decide; [|exact Wf].
    split; cbn [ch done_ closed]; [rewrite length_app; cbn [length]; lia|]. intros X. destruct (D X). congruence.
  - unfold Close in R. destruct (closed l) eqn:K; [done|]. injection R as <-. split; [done|].
    cbn. intros X. by destruct (D X).
  - split; cbn [ch done_ closed]; [rewrite R in Q; cbn [length] in Q; lia|].
    intros X. destruct (D X) as [Y _]. by rewrite R in Y.
  - split; cbn; [lia|done].
Qed.

Lemma audit_step_taken l e l' :
  step l e l' -> exists x, taken l' = taken l ++ x /\ (x = recorded [e] \/ x = [] /\ (queueSize <= length (ch l))%nat).
Proof.
  intros S. destruct S as [l e now l' R|l l' R|l ok e rest R|l C K N].
  - unfold Record_ in R. destruct (closed l); [done|]. injection R as <-. case_decide as D.
    + eexists. unfold taken. cbn [ch stored]. rewrite app_assoc. split; [reflexivity|by left].
    + exists []. rewrite app_nil_r. split; [done|right]. split; [done|lia].
  - unfold Close in R. destruct (closed l); [done|]. injection R as <-. exists []. rewrite app_nil_r. split; [done|by left].
  - exists []. rewrite app_nil_r. split; [|by left]. unfold taken. cbn [ch stored].
    by rewrite R, fmap_app, <- app_assoc.
  - exists []. rewrite app_nil_r. split; [|by left]. unfold taken. by rewrite C.
Qed.

Lemma recorded_snoc es e : recorded (es ++ [e]) = recorded es ++ recorded [e].
Proof. apply omap_app. Qed.

(** The audit log keeps what it takes: whatever the interleaving of requests, the worker
    and the closing, the events handed to the store and those that wait are in the order they
    were recorded in, and none is in it that was not recorded; at most a thousand wait. While
    nothing waits in a full queue, nothing is dropped. Once the worker is done, everything taken
    was handed to the store, and recording is no longer possible. *)
Theorem audit_queue_keeps es l :
  steps New es l ->
  taken l `sublist_of` recorded es /\ (length (ch l) <= queueSize)%nat /\
  ((length (recorded es) <= queueSize)%nat -> taken l = recorded es) /\
  (done_ l = true -> (stored l).*1 = taken l /\ forall e now, Record_ e now l = None).
Proof.
  intros S. assert (well_formed l /\ taken l `sublist_of` recorded es /\
    ((length (recorded es) <= queueSize)%nat -> taken l = recorded es)) as (Wf & Sub & Eq).
  { remember New as l0. induction S as [l|l es l1 e l2 S IH T]; [subst; split_and!; [split; [apply Nat.le_0_l|done]|done..]|].
    subst. destruct (IH eq_refl) as (Wf & Sub & Eq). destruct (audit_step_taken l1 e l2 T) as (x & Tx & X).
    split; [by eapply audit_step_wf|]. rewrite Tx, recorded_snoc. destruct X as [->|[-> Full]].
    { split; [by apply sublist_app|]. rewrite length_app. intros Len. by rewrite Eq by lia. }
    rewrite app_nil_r. split; [by apply sublist_inserts_r|]. rewrite length_app. intros Len.
    pose proof (f_equal length (Eq ltac:(lia))) as L1. unfold taken in L1. rewrite length_app in L1.
    destruct (recorded [e]) as [|y ys] eqn:R; [by rewrite app_nil_r, Eq by lia|]. cbn [length] in Len. lia. }
  split_and!; [done|apply Wf|done|]. intros D. destruct (wf_done l Wf D) as [C K]. unfold taken. rewrite C, app_nil_r.
  split; [done|]. intros e now. unfold Record_. by rewrite K.
Qed.

(** ** What is recorded *)

(** Of two entries the first stands when its prefix is the shorter one: these three kinds of
    event are never recorded. *)
Lemma shadowed_events method path :
  let et := (inferEventType method path).1 in
  et <> EventKeyRotated /\ et <> EventRoleAssigned /\ et <> EventBudgetReset.
Proof.
  cbv zeta. unfold inferEventType. destruct (List.find _ _) as [[[[m p] et] a]|] eqn:F; [|done].
  enough (et = EventKeyRotated \/ et = EventRoleAssigned \/ et = EventBudgetReset -> False) as K by tauto.
  intros E. assert (forall q r, HasPrefix path (q +:+ r) = true -> HasPrefix path q = true) as Pre.
  { intros q r [x ->]%HasPrefix_spec. apply HasPrefix_spec. exists (r +:+ x). apply str_app_assoc. }
  unfold auditableEndpoints in F. unfold endpoint_matches in F. cbn [List.find fst snd] in F.
  pose proof (Pre "/admin/keys" "/") as P1. pose proof (Pre "/admin/users" "/") as P2. pose proof (Pre "/admin/budgets" "/") as P3.
  change ("/admin/keys" +:+ "/") with "/admin/keys/" in P1. change ("/admin/users" +:+ "/") with "/admin/users/" in P2.
  change ("/admin/budgets" +:+ "/") with "/admin/budgets/" in P3.
  repeat match type of F with
  | (if ?b then _ else _) = _ =>
      let B := fresh "B" in destruct b eqn:B; [injection F as <- <- <- <-; first [by destruct E as [E|[E|E]]|
        apply andb_true_iff in B as [M B]; first [specialize (P1 B)|specialize (P2 B)|specialize (P3 B)];
        repeat match goal with H : (_ && _)%bool = false |- _ => rewrite M in H; cbn [andb] in H end; congruence]|]
  | None = Some _ => done
  end.
Qed.

(** Secrets stay out of the trail: a redacted field has its value replaced on both sides and is not
    named as changed; the others are as they were, and a field is named as changed exactly if it
    is there afterwards with another value than before. *)
Lemma mask_lookup redact m k :
  mask redact m !! k = (fun v => if bool_decide (k ∈ redact) then redacted else v) <$> m !! k.
Proof. unfold mask. rewrite map_lookup_imap. by destruct (m !! k). Qed.

Lemma BuildChanges_spec before after redact k :
  let c := BuildChanges before after redact in
  before_ c !! k = (fun v => if bool_decide (k ∈ redact) then redacted else v) <$> before !! k /\
  after_ c !! k = (fun v => if bool_decide (k ∈ redact) then redacted else v) <$> after !! k /\
  (k ∈ changed_fields c <-> k ∉ redact /\ exists v, after !! k = Some v /\ default "null" (before !! k) <> v).
Proof.
  cbv zeta. split_and!; [apply mask_lookup..|]. cbn [changed_fields BuildChanges]. rewrite list_elem_of_omap. split.
  - intros ([k' v] & M & E). apply elem_of_map_to_list in M.
    destruct (String.eqb_spec (default "null" (before !! k')) v); [done|]. cbn [negb andb] in E.
    case_bool_decide as D; [done|]. injection E as ->. split; [done|]. by exists v.
  - intros (N & v & L & D). exists (k, v). split; [by apply elem_of_map_to_list|].
    destruct (String.eqb_spec (default "null" (before !! k)) v); [done|]. by rewrite bool_decide_false.
Qed.

(** ** Witness and examples *)

Definition demo_event (et : string) (t : Time) : Event :=
  mkEvent None et "create" ActorAPIKey None "" "10.0.0.1:80" "" "" None "" None None "r1" None None t.

Lemma demo_audit_steps :
  steps New [ERecord (demo_event EventKeyCreated 0) 7; EClose; EInsert true; EDone]
    (mkLogger [] [(demo_event EventKeyCreated 7, true)] true true).
Proof.
  apply (steps_snoc _ [ERecord (demo_event EventKeyCreated 0) 7; EClose; EInsert true]
    (mkLogger [] [(demo_event EventKeyCreated 7, true)] true false)); [|by apply step_done].
  apply (steps_snoc _ [ERecord (demo_event EventKeyCreated 0) 7; EClose] (mkLogger [demo_event EventKeyCreated 7] [] true false));
    [|by apply (step_insert (mkLogger [demo_event EventKeyCreated 7] [] true false))].
  apply (steps_snoc _ [ERecord (demo_event EventKeyCreated 0) 7] (mkLogger [demo_event EventKeyCreated 7] [] false false));
    [|by apply step_close].
  apply (steps_snoc _ [] New); [constructor|by apply step_record].
Qed.

Lemma audit_queue_keeps_witness :
  recorded [ERecord (demo_event EventKeyCreated 0) 7; EClose; EInsert true; EDone] = [demo_event EventKeyCreated 7] /\
  Record_ (demo_event EventKeyCreated 0) 8 (mkLogger [] [(demo_event EventKeyCreated 7, true)] true true) = None.
Proof.
  split; [reflexivity|].
  destruct (audit_queue_keeps _ _ demo_audit_steps) as (_ & _ & _ & H).
  exact (proj2 (H eq_refl) (demo_event EventKeyCreated 0) 8).
Defined.

(** A request for the events up to a day leaves out the last second of that day. *)
Example last_second_left_out :
  let day := Calendar.Date 2026 1 31 0 0 0 in
  let late := time_Add day (24 * Hour - 500 * Millisecond) in
  let f := parseAuditFilter "" "" "" NoTime (OnDay day) 0 0 in
  Calendar.dayOf late = Calendar.dayOf day /\ (late <=? To f) = false.
Proof. vm_compute. split; reflexivity. Qed.

(** An identifier the client chose can keep its request out of the audit log. *)
Example long_request_id_not_audited `{MapCodec} ParseIP :
  (Insert ParseIP true "id" 1
     (mkEvent None EventKeyCreated "create" ActorAPIKey None "" "" "" "" None "" None None
        "0123456789012345678901234567890123456789" None None 7) []).1 = false.
Proof. vm_compute. reflexivity. Qed.

End Audit.
