(* ===== verification/Config.v ===== *)
(** * Configuration (internal/config/config.go, applyEnvKeys of cmd/gateway/main.go)

    The configuration record, its defaults and where its values come from: the YAML file, the
    prefixed environment variables and the variables read by name. The koanf library, which
    merges the sources and decodes the result, is a parameter: a loaded source is a map from
    dotted paths to texts. *)

From S2P Require Import Prelude GoStrings Float64 Guardrail.
Local Open Scope Z_scope.

Module Conf.

(** ** The sections of the configuration *)

Record ServerConfig := mkServer {
  Port : Z; ReadTimeout : Duration; WriteTimeout : Duration; IdleTimeout : Duration; ReadHeaderTimeout : Duration
}.
Record DatabaseConfig := mkDatabase { DBURL : string; MaxConnections : Z }.
Record RedisConfig := mkRedis { Addr : string; PoolSize : Z; MinIdleConns : Z }.
Record LogConfig := mkLog { Level : string; Format : string }.

Record ProviderConfig := mkProvider { APIKey : string; BaseURL : string }.
Record AzureDeploymentConfig := mkDeployment { DepID : string; DepModel : string }.
Record AzureProviderConfig := mkAzure {
  AzAPIKey : string; ResourceName : string; APIVersion : string; AzBaseURL : string;
  Deployments : list AzureDeploymentConfig
}.
Record BedrockProviderConfig := mkBedrock {
  Region : string; AccessKeyID : string; SecretAccessKey : string; SessionToken : string
}.
Record SelfHostedModelConfig := mkSHModel {
  SHModelID : string; ModelName : string; ContextWindow : Z; InputCost : float64; OutputCost : float64
}.
Record SelfHostedConfig := mkSelfHosted {
  SHName : string; SHEngine : string; SHBaseURL : string; SHModels : list SelfHostedModelConfig;
  InitialLoadTimeout : string
}.
Record ProvidersConfig := mkProviders {
  OpenAI : ProviderConfig; Anthropic : ProviderConfig; Gemini : ProviderConfig; Grok : ProviderConfig;
  Azure : AzureProviderConfig; Mistral : ProviderConfig; Cohere : ProviderConfig; Bedrock : BedrockProviderConfig;
  SelfHosted : list SelfHostedConfig
}.

Record GatewayConfig := mkGateway { MasterKey : string; EncryptionKey : string }.

Record CircuitBreakerConfig := mkCB { FailureThreshold : Z; SuccessThreshold : Z; OpenTimeout : Duration }.
Record FallbackTargetConfig := mkFTarget { FTProvider : string; FTModel : string; FTWeight : Z }.
Record FallbackChainConfig := mkFChain { FCName : string; FCTargets : list FallbackTargetConfig }.
Record RoutingConfig := mkRouting { CircuitBreaker : CircuitBreakerConfig; FallbackChains : list FallbackChainConfig }.

Record OAuthProviderConfig := mkOAuth {
  OAName : string; OAType : string; ClientID : string; ClientSecret : string; IssuerURL : string; Scopes : list string;
  GroupRoleMapping : gmap string string
}.
Record AuthConfig := mkAuth { SessionTTL : Duration; AuthProviders : list OAuthProviderConfig }.

Definition IsEnabled (p : OAuthProviderConfig) : bool :=
  negb (String.eqb (ClientID p) "") && negb (String.eqb (ClientSecret p) "").

Record ExactCacheConfig := mkExact {
  CacheEnabled : bool; DefaultTTL : Duration; MaxTTL : Duration; MaxResponseSize : Z
}.

Record AlertChannelConfig := mkChannel {
  ChName : string; ChType : string; WebhookURL : string; ChURL : string; Method : string; Headers : gmap string string;
  RetryCount : Z; SMTPHost : string; SMTPPort : Z; From : string; To : list string
}.
Record AlertRoutingConfig := mkARouting { AREvents : list string; ARSeverity : string; ARChannels : list string }.
Record AlertingConfig := mkAlerting { Channels : list AlertChannelConfig; ARouting : list AlertRoutingConfig }.

Record MCPServerAuth := mkMAuth { MAType : string; MAToken : string; MAUser : string }.
Record MCPServerConfig := mkMServer {
  MSName : string; MSType : string; MSCommand : string; MSArgs : list string; MSEnv : gmap string string;
  MSURL : string; MSAPIKey : string; MSAuth : MCPServerAuth
}.
Record MCPConfig := mkMCP { MCPEnabled : bool; Servers : list MCPServerConfig; ToolCacheTTL : Duration }.

Record AllowedProviderConfig := mkAllowed { APName : string; APRegion : string }.
Record ResidencyPolicyConfig := mkRPolicy {
  RPName : string; RPAllowed : list AllowedProviderConfig; RPBlocked : list string; RPRegions : list string
}.
Record DataResidencyConfig := mkResidency { DREnabled : bool; DRPolicies : list ResidencyPolicyConfig }.

Record MLRoutingWeights := mkMLWeights { MLCost : float64; MLQuality : float64; MLLatency : float64; MLReliability : float64 }.
Record MLModelConfig := mkMLModel { MLProvider : string; MLModel : string }.
Record MLQualityTierConfig := mkMLTier { TierName : string; TierModels : list MLModelConfig }.
Record MLRoutingConfig := mkML {
  MLEnabled : bool; MLMode : string; MLWeights : MLRoutingWeights; QualityTiers : list MLQualityTierConfig
}.

Record Config := mkConfig {
  Server : ServerConfig; Database : DatabaseConfig; Redis : RedisConfig; Log : LogConfig; Providers : ProvidersConfig;
  Gateway : GatewayConfig; Routing : RoutingConfig; Auth : AuthConfig; Guardrails : Guard.GuardrailConfig;
  ExactMatch : ExactCacheConfig; Alerting : AlertingConfig; MCP : MCPConfig; DataResidency : DataResidencyConfig;
  MLRouting : MLRoutingConfig
}.

(** ** applyDefaults *)

(** [if v == 0 { v = d }] and its counterpart on strings. *)
Definition or0 (v d : Z) : Z := if v =? 0 then d else v.
Definition orS (v d : string) : string := if String.eqb v "" then d else v.

Definition default_server (s : ServerConfig) : ServerConfig :=
  mkServer (or0 (Port s) 8080) (or0 (ReadTimeout s) (30 * Second)) (or0 (WriteTimeout s) (60 * Second))
    (or0 (IdleTimeout s) (60 * Second)) (or0 (ReadHeaderTimeout s) (10 * Second)).
Definition default_database (d : DatabaseConfig) : DatabaseConfig := mkDatabase (DBURL d) (or0 (MaxConnections d) 20).
Definition default_redis (r : RedisConfig) : RedisConfig :=
  mkRedis (orS (Addr r) "localhost:6379") (or0 (PoolSize r) 50) (or0 (MinIdleConns r) 10).
Definition default_log (l : LogConfig) : LogConfig := mkLog (orS (Level l) "info") (orS (Format l) "json").
Definition default_breaker (c : CircuitBreakerConfig) : CircuitBreakerConfig :=
  mkCB (or0 (FailureThreshold c) 5) (or0 (SuccessThreshold c) 2) (or0 (OpenTimeout c) (60 * Second)).
Definition default_azure (a : AzureProviderConfig) : AzureProviderConfig :=
  mkAzure (AzAPIKey a) (ResourceName a) (orS (APIVersion a) "2024-02-01") (AzBaseURL a) (Deployments a).
Definition default_bedrock (b : BedrockProviderConfig) : BedrockProviderConfig :=
  mkBedrock (orS (Region b) "us-east-1") (AccessKeyID b) (SecretAccessKey b) (SessionToken b).
Definition default_providers (p : ProvidersConfig) : ProvidersConfig :=
  mkProviders (OpenAI p) (Anthropic p) (Gemini p) (Grok p) (default_azure (Azure p)) (Mistral p) (Cohere p)
    (default_bedrock (Bedrock p)) (SelfHosted p).
Definition default_guardrails (g : Guard.GuardrailConfig) : Guard.GuardrailConfig :=
  Guard.mkGuardConfig (Guard.PIIEnabled g) (orS (Guard.PIIAction g) "mask") (Guard.PIICategories g)
    (Guard.InjEnabled g) (orS (Guard.InjAction g) "block") (Guard.InjEngine g)
    (Guard.CFEnabled g) (orS (Guard.CFAction g) "block") (Guard.CFEngine g) (Guard.CFCategories g)
    (Guard.KWEnabled g) (orS (Guard.KWAction g) "block") (Guard.KWBlocked g) (Guard.LJProvider g) (Guard.LJModel g).
Definition default_exact (e : ExactCacheConfig) : ExactCacheConfig :=
  mkExact (CacheEnabled e) (or0 (DefaultTTL e) (24 * Hour)) (or0 (MaxTTL e) (7 * 24 * Hour))
    (or0 (MaxResponseSize e) (Z.shiftl 1 20)).

Definition applyDefaults (c : Config) : Config :=
  mkConfig (default_server (Server c)) (default_database (Database c)) (default_redis (Redis c)) (default_log (Log c))
    (default_providers (Providers c)) (Gateway c)
    (mkRouting (default_breaker (CircuitBreaker (Routing c))) (FallbackChains (Routing c)))
    (mkAuth (or0 (SessionTTL (Auth c)) (24 * Hour)) (AuthProviders (Auth c)))
    (default_guardrails (Guardrails c)) (default_exact (ExactMatch c)) (Alerting c) (MCP c) (DataResidency c) (MLRouting c).

(** ** Load *)

(** [strings.ReplaceAll(s, "_", ".")]. *)
Fixpoint dots (s : string) : string :=
  match s with
  | EmptyString => EmptyString
  | String c s => String (if Ascii.eqb c "_" then "."%char else c) (dots s)
  end.

Definition prefix : string := "LLM_ROUTER_".

Abbreviation source := (gmap string string).

Section Load.
(** [strings.ToLower]; koanf's merge of a later source into an earlier one, and its decoding. *)
Context (ToLower : string -> string) (merge : source -> source -> source) (unmarshal : source -> option Config).

(** The path an environment variable sets. *)
Definition env_path (name : string) : string := dots (ToLower (TrimPrefix name prefix)).

(** The environment as a source: the variables with the prefix, the last of equal paths. *)
Definition env_source (environ : list (string * string)) : source :=
  foldl (fun m kv => if HasPrefix kv.1 prefix then <[env_path kv.1 := kv.2]> m else m) ∅ environ.

(** [file] is what the YAML file holds, [None] when it is missing or does not parse: the error
    is dropped either way. *)
Definition Load (file : option source) (environ : list (string * string)) : option Config :=
  match unmarshal (merge (default ∅ file) (env_source environ)) with
  | None => None
  | Some cfg => Some (applyDefaults cfg)
  end.

End Load.

(** ** applyEnvKeys (cmd/gateway/main.go) *)

Section EnvKeys.
(** [os.Getenv]. *)
Context (Getenv : string -> string).

Definition from_env (name v : string) : string := if String.eqb (Getenv name) "" then v else Getenv name.

Definition with_key (name : string) (p : ProviderConfig) : ProviderConfig := mkProvider (from_env name (APIKey p)) (BaseURL p).

Definition applyEnvKeys (c : Config) : Config :=
  let p := Providers c in
  let az := Azure p in
  let b := Bedrock p in
  mkConfig (Server c) (Database c) (Redis c) (Log c)
    (mkProviders (with_key "OPENAI_API_KEY" (OpenAI p)) (with_key "ANTHROPIC_API_KEY" (Anthropic p))
       (with_key "GEMINI_API_KEY" (Gemini p)) (with_key "GROK_API_KEY" (Grok p))
       (mkAzure (from_env "AZURE_API_KEY" (AzAPIKey az)) (ResourceName az) (APIVersion az) (AzBaseURL az) (Deployments az))
       (with_key "MISTRAL_API_KEY" (Mistral p)) (with_key "COHERE_API_KEY" (Cohere p))
       (mkBedrock (Region b) (from_env "AWS_ACCESS_KEY_ID" (AccessKeyID b))
          (from_env "AWS_SECRET_ACCESS_KEY" (SecretAccessKey b)) (from_env "AWS_SESSION_TOKEN" (SessionToken b)))
       (SelfHosted p))
    (mkGateway (from_env "MASTER_KEY" (MasterKey (Gateway c))) (from_env "ENCRYPTION_KEY" (EncryptionKey (Gateway c))))
    (Routing c) (Auth c) (Guardrails c) (ExactMatch c) (Alerting c) (MCP c) (DataResidency c) (MLRouting c).

End EnvKeys.

(** ** Theorems *)

(** Every default has been given. *)
Definition complete (c : Config) : Prop :=
  Forall (fun z => z <> 0)
    [Port (Server c); ReadTimeout (Server c); WriteTimeout (Server c); IdleTimeout (Server c); ReadHeaderTimeout (Server c);
     MaxConnections (Database c); PoolSize (Redis c); MinIdleConns (Redis c);
     FailureThreshold (CircuitBreaker (Routing c)); SuccessThreshold (CircuitBreaker (Routing c));
     OpenTimeout (CircuitBreaker (Routing c)); SessionTTL (Auth c); DefaultTTL (ExactMatch c); MaxTTL (ExactMatch c);
     MaxResponseSize (ExactMatch c)] /\
  Forall (fun s => s <> "")
    [Addr (Redis c); Level (Log c); Format (Log c); APIVersion (Azure (Providers c)); Region (Bedrock (Providers c));
     Guard.PIIAction (Guardrails c); Guard.InjAction (Guardrails c); Guard.CFAction (Guardrails c);
     Guard.KWAction (Guardrails c)].

Lemma or0_set v d : d <> 0 -> or0 v d <> 0.
Proof. unfold or0. destruct (Z.eqb_spec v 0); lia. Qed.
Lemma or0_keep v d : v <> 0 -> or0 v d = v.
Proof. unfold or0. destruct (Z.eqb_spec v 0); lia. Qed.
Lemma orS_set v d : d <> "" -> orS v d <> "".
Proof. unfold orS. by destruct (String.eqb_spec v ""). Qed.
Lemma orS_keep v d : v <> "" -> orS v d = v.
Proof. unfold orS. by destruct (String.eqb_spec v ""). Qed.

#[local] Hint Resolve or0_set orS_set : go.

Lemma applyDefaults_complete c : complete (applyDefaults c).
Proof. split; repeat constructor; simpl; eauto with go; by apply or0_set || by apply orS_set. Qed.

(** A complete configuration is left as it is. *)
Lemma applyDefaults_id c : complete c -> applyDefaults c = c.
Proof.
  intros [Z_ S_]. rewrite !Forall_cons in Z_. rewrite !Forall_cons in S_. destruct_and!.
  destruct c as [[] [] [] [] [???? [] ?? [] ?] [] [[] ?] [] [] [] [] [] [] []]. simpl in *.
  unfold applyDefaults, default_server, default_database, default_redis, default_log, default_providers, default_azure,
    default_bedrock, default_breaker, default_guardrails, default_exact. simpl.
  rewrite !or0_keep, !orS_keep by done. done.
Qed.

(** No path that an environment variable sets has an underscore. *)
Lemma dots_no_underscore s : has_char "_" (dots s) = false.
Proof.
  induction s as [|c s IH]; simpl; [done|]. rewrite IH, orb_false_r.
  destruct (Ascii.eqb_spec c "_") as [->|N]; [done|]. by apply Ascii.eqb_neq.
Qed.

Lemma env_source_paths ToLower environ k v : env_source ToLower environ !! k = Some v -> has_char "_" k = false.
Proof.
  unfold env_source. assert (forall m : source, (forall k v, m !! k = Some v -> has_char "_" k = false) ->
    foldl (fun m kv => if HasPrefix kv.1 prefix then <[env_path ToLower kv.1 := kv.2]> m else m) m environ !! k = Some v ->
    has_char "_" k = false) as H; [|by apply H].
  induction environ as [|[n x] environ IH]; intros m M; simpl; [apply M|]. apply IH.
  destruct (HasPrefix n prefix); [|done]. intros k' v'. destruct (decide (k' = env_path ToLower n)) as [->|N].
  - intros _. apply dots_no_underscore.
  - rewrite lookup_insert_ne by done. apply M.
Qed.

(** A path above another: setting it replaces the other's whole section. *)
Definition above (k' k : string) : Prop := HasPrefix k (k' +:+ ".") = true.

(** What koanf promises of a merge: a path stays as it was when the later source sets neither
    it, nor a path above it, nor a path below it. *)
Definition keeps_other_paths (merge : source -> source -> source) : Prop :=
  forall a b k, (forall k', is_Some (b !! k') -> k' <> k /\ ~ above k' k /\ ~ above k k') -> merge a b !! k = a !! k.

Lemma has_char_prefix c s p : HasPrefix s p = true -> has_char c p = true -> has_char c s = true.
Proof. intros [r ->]%HasPrefix_spec H. by rewrite has_char_app, H. Qed.

(** No variable with the prefix sets an option whose name has an underscore: its value is the
    file's, unless a variable replaces a section above it. *)
Lemma underscored_path_from_file ToLower merge file environ k :
  keeps_other_paths merge -> has_char "_" k = true ->
  (forall k', is_Some (env_source ToLower environ !! k') -> ~ above k' k) ->
  merge file (env_source ToLower environ) !! k = file !! k.
Proof.
  intros M U A. apply M. intros k' S. destruct S as [v S]. pose proof (env_source_paths _ _ _ _ S) as N.
  split; [congruence|]. split; [apply A; eauto|]. intros P.
  assert (has_char "_" k' = true); [|congruence]. eapply has_char_prefix; [exact P|]. by rewrite has_char_app, U.
Qed.

(** Two variables of the example environment, and the paths they set; the options are
    server.read_timeout and server.port. *)
Example read_timeout_path :
  env_path ascii_ToLower "LLM_ROUTER_SERVER_READ_TIMEOUT" = "server.read.timeout" /\
  env_path ascii_ToLower "LLM_ROUTER_SERVER_PORT" = "server.port".
Proof. split; reflexivity. Qed.

(** What a start sees: the defaults are all given, and reading the variables by name, which
    comes after, keeps them. *)
Lemma loaded_complete ToLower merge unmarshal Getenv file environ cfg :
  Load ToLower merge unmarshal file environ = Some cfg -> complete (applyEnvKeys Getenv cfg).
Proof.
  unfold Load. destruct (unmarshal _) as [c|]; [|done]. intros [= <-]. exact (applyDefaults_complete c).
Qed.

End Conf.
