(* ===== verification/HttpServer.v ===== *)
(** * The server and the end of the process (internal/server/server.go,
    internal/gateway/middleware/recovery.go and requestid.go, the end of main in
    cmd/gateway/main.go)

    The server as a state machine over the events it waits for (the listener fails, a signal
    arrives, requests begin and end, Shutdown polls its connections), the outermost middlewares
    with panics as outcomes, and the exit of the process: the deferred clean-ups in their order,
    over the log writer and the audit log, or [os.Exit]. The theorems say when the server stops,
    and what the exit does to the entries that were not written yet. *)

From S2P Require Import Prelude Types Chat Logs AuditLog Config.
Local Open Scope Z_scope.

Module Srv.

(** ** New *)

(** Middlewares of package chi, by name. *)
Inductive chi_middleware := RequestID | RealIP | Recoverer.

Record http_Server := mkHttp {
  Addr : string;
  ReadTimeout : Duration;
  WriteTimeout : Duration;
  IdleTimeout : Duration;
  ReadHeaderTimeout : Duration
}.

Record Server := mkServer { router : list chi_middleware; http : http_Server }.

(** [itoa] is [%d]. *)
Definition New (itoa : Z -> string) (cfg : Conf.ServerConfig) : Server :=
  mkServer [RequestID; RealIP; Recoverer]
    (mkHttp (":" +:+ itoa (Conf.Port cfg)) (Conf.ReadTimeout cfg) (Conf.WriteTimeout cfg)
       (Conf.IdleTimeout cfg) (Conf.ReadHeaderTimeout cfg)).

(** ** ListenAndServe *)

(** Where the call is: it serves, [Shutdown] waits for the requests in flight until its context
    ends, or it has returned. *)
Inductive phase := Serving | Draining (deadline : Time) | Exited (err : option string).

Record State := mkState { phase_ : phase; active : list nat }.

Definition started : State := mkState Serving [].

Inductive event :=
| ServeFails (err : string)
| Signal
| Begin (r : nat)
| End_ (r : nat)
| Poll.

Definition shutdownTimeout : Duration := 30 * Second.

Definition finish (r : nat) (s : State) : State :=
  mkState (phase_ s) (List.filter (fun x => negb (Nat.eqb x r)) (active s)).

(** [Shutdown] closes the listeners and returns when no connection is active; it looks at once,
    and then from time to time. *)
Definition poll (s : State) : State :=
  match active s with [] => mkState (Exited None) [] | _ => s end.

(** One event at a time. An error of the listener after the signal stays in the channel; no
    request is accepted any more. *)
Definition step (s : State) (te : Time * event) : State :=
  let '(t, ev) := te in
  match phase_ s with
  | Exited _ => s
  | Serving =>
      match ev with
      | ServeFails err => mkState (Exited (Some ("server error: " +:+ err))) (active s)
      | Signal => poll (mkState (Draining (time_Add t shutdownTimeout)) (active s))
      | Begin r => mkState Serving (active s ++ [r])
      | End_ r => finish r s
      | Poll => s
      end
  | Draining deadline =>
      if deadline <=? t then mkState (Exited (Some "graceful shutdown failed: context deadline exceeded")) (active s)
      else match ev with
           | End_ r => finish r s
           | Poll => poll s
           | _ => s
           end
  end.

Definition ListenAndServe (evs : list (Time * event)) : State := foldl step started evs.

(** ** Stopping *)

Lemma step_exited s te e : phase_ s = Exited e -> step s te = s.
Proof. intros P. unfold step. destruct te. by rewrite P. Qed.

Lemma steps_exited evs s e : phase_ s = Exited e -> foldl step s evs = s.
Proof. induction evs as [|te evs IH] in s |- *; intros P; [done|]. cbn [foldl]. rewrite (step_exited _ _ e P). by eapply IH. Qed.

Lemma step_draining s t ev d :
  phase_ s = Draining d -> t < d ->
  phase_ (step s (t, ev)) = Draining d \/ (ev = Poll /\ phase_ (step s (t, ev)) = Exited None).
Proof.
  intros P L. unfold step. rewrite P. destruct (Z.leb_spec d t); [lia|].
  destruct ev; [by left..|]. unfold poll. destruct (active s); [by right|by left].
Qed.

Lemma step_active_sub s te x : x ∈ active (step s te) -> (exists d, phase_ s = Draining d) -> x ∈ active s.
Proof.
  intros I [d P]. destruct te as [t ev]. unfold step in I. rewrite P in I. destruct (d <=? t); [done|].
  destruct ev; try done; cbn in I.
  - rewrite list_elem_of_In, filter_In, <- list_elem_of_In in I. by destruct I.
  - unfold poll in I. destruct (active s) eqn:E; [done|by rewrite <- E].
Qed.

Lemma finish_removes s t d r x :
  phase_ s = Draining d -> t < d -> x ∈ active (step s (t, End_ r)) -> x <> r /\ x ∈ active s.
Proof.
  intros P L. unfold step. rewrite P. destruct (Z.leb_spec d t); [lia|]. cbn.
  rewrite list_elem_of_In, filter_In, <- list_elem_of_In, negb_true_iff, Nat.eqb_neq. naive_solver.
Qed.

(** What is still active while the server drains has not ended since. *)
Lemma drained evs s d :
  phase_ s = Draining d -> Forall (fun te => te.1 < d) evs ->
  phase_ (foldl step s evs) = Exited None \/
  (phase_ (foldl step s evs) = Draining d /\
   forall x, x ∈ active (foldl step s evs) -> x ∈ active s /\ forall t, (t, End_ x) ∉ evs).
Proof.
  induction evs as [|[t ev] evs IH] in s |- *; intros P F.
  - right. split; [done|]. intros x X. split; [done|]. intros t. apply not_elem_of_nil.
  - apply Forall_cons in F as [L F]. cbn [foldl]. cbn [fst] in L.
    destruct (step_draining s t ev d P L) as [P'|[-> P']].
    + destruct (IH _ P' F) as [E|[E A]]; [by left|]. right. split; [done|]. intros x X. destruct (A x X) as [B C].
      split; [eapply step_active_sub; eauto|]. intros t' I. apply elem_of_cons in I as [[= -> <-]|I]; [|by eapply C].
      by destruct (finish_removes s t d x x P L B).
    + left. by rewrite (steps_exited evs _ _ P').
Qed.

(** A server that stops: no request is added, and the first event at the deadline ends it. *)
Lemma stopping_run d l st :
  (exists e, phase_ st = Exited e) \/ phase_ st = Draining d ->
  (forall x, x ∈ active (foldl step st l) -> x ∈ active st) /\
  ((exists u ev, (u, ev) ∈ l /\ d <= u) -> exists e, phase_ (foldl step st l) = Exited e).
Proof.
  revert st. induction l as [|[u ev] l IH]; intros st H.
  { split; [done|]. intros (u & ev & I & _). by apply not_elem_of_nil in I. }
  cbn [foldl]. destruct H as [[e E]|E].
  { rewrite (step_exited _ _ _ E), (steps_exited l _ _ E). eauto. }
  destruct (Z.lt_ge_cases u d) as [L|L].
  - destruct (IH (step st (u, ev))) as [B C]; [destruct (step_draining st u ev d E L) as [?|[_ ?]]; eauto|].
    split; [intros x X; eapply step_active_sub; eauto|].
    intros (u' & ev' & I & G). apply elem_of_cons in I as [[= -> ->]|I]; [lia|]. apply C. eauto.
  - assert (exists e, phase_ (step st (u, ev)) = Exited e /\ active (step st (u, ev)) = active st) as (e & X & Y).
    { unfold step. rewrite E. destruct (Z.leb_spec d u); [|lia]. cbn. eauto. }
    rewrite (steps_exited l _ _ X). split; [by rewrite Y|eauto].
Qed.

(** The server stops. After a signal at time [t], it has returned by the first event thirty
    seconds later, whatever the requests do; it accepts no request in between; and it returns
    without an error when, before that deadline, every request in flight has ended and Shutdown
    has looked at its connections once more. *)
Theorem server_stops evs t later :
  phase_ (ListenAndServe evs) = Serving ->
  let d := time_Add t shutdownTimeout in
  let s := foldl step (step (ListenAndServe evs) (t, Signal)) later in
  (forall x, x ∈ active s -> x ∈ active (ListenAndServe evs)) /\
  ((exists u ev, (u, ev) ∈ later /\ d <= u) -> exists e, phase_ s = Exited e) /\
  (forall before u after, later = before ++ (u, Poll) :: after ->
     Forall (fun te => te.1 < d) before -> u < d ->
     (forall r, r ∈ active (ListenAndServe evs) -> exists v, (v, End_ r) ∈ before) ->
     phase_ s = Exited None).
Proof.
  intros P d s. set (s0 := ListenAndServe evs) in *. set (s1 := step s0 (t, Signal)) in *.
  assert (s1 = mkState (Exited None) [] /\ active s0 = [] \/ s1 = mkState (Draining d) (active s0)) as S1.
  { unfold s1, step. rewrite P. unfold poll. cbn. destruct (active s0) eqn:A; auto. }
  assert ((exists e, phase_ s1 = Exited e) \/ phase_ s1 = Draining d) as H1 by (destruct S1 as [[-> _]| ->]; cbn; eauto).
  destruct (stopping_run d later s1 H1) as [B C]. split_and!.
  - intros x X. apply B in X. destruct S1 as [[E _]|E]; rewrite E in X; [by apply not_elem_of_nil in X|done].
  - exact C.
  - intros before u after -> F L En. unfold s. rewrite foldl_app. cbn [foldl].
    destruct S1 as [[E _]|E]; rewrite E.
    { by rewrite (steps_exited before _ None), (step_exited _ _ None), (steps_exited after _ None) by done. }
    destruct (drained before (mkState (Draining d) (active s0)) d eq_refl F) as [X|[X A]].
    { by rewrite (step_exited _ _ _ X), (steps_exited after _ _ X). }
    set (s2 := foldl step _ before) in *. assert (active s2 = []) as Z.
    { destruct (active s2) as [|x l] eqn:Z; [done|]. destruct (A x) as [I N]; [left|].
      destruct (En x I) as [v V]. by destruct (N v). }
    assert (step s2 (u, Poll) = mkState (Exited None) []) as G.
    { unfold step. rewrite X. destruct (Z.leb_spec d u); [lia|]. unfold poll. by rewrite Z. }
    rewrite G. by rewrite (steps_exited after _ None).
Qed.

(** A request in flight at the signal, which ends in time. *)
Lemma server_stops_witness :
  phase_ (foldl step (step (ListenAndServe [(0, Begin 1)]) (5, Signal))
    ([(6, End_ 1)] ++ (7, Poll) :: [])) = Exited None.
Proof.
  destruct (server_stops [(0, Begin 1)] 5 ([(6, End_ 1)] ++ (7, Poll) :: [])) as (_ & _ & H).
  - reflexivity.
  - apply (H [(6, End_ 1)] 7 []).
    + reflexivity.
    + repeat constructor.
    + reflexivity.
    + intros r. cbn. rewrite list_elem_of_singleton. intros ->. exists 6. left.
Defined.

(** ** The outermost middlewares *)

Import LogWriter.

(** What a handler does: it writes, and it may panic. *)
Record outcome := mkOutcome { events : list response_event; panics : bool }.

(** [json] is the JSON of the error response. *)
Definition Recovery (json : string) (o : outcome) : outcome :=
  if panics o then mkOutcome (events o ++ [LogWriter.WriteHeader 500; LogWriter.Write_ json]) false else o.

Definition gatewayVersion : string := "1.0.0".

(** The headers set before the handler runs. *)
Definition RequestMeta (reqID : string) (hdr : gmap string string) : gmap string string :=
  <["X-Gateway-Version" := gatewayVersion]> (<["X-Request-ID" := reqID]> hdr).

(** The request logger writes its entry when the handler returns, not when it panics. *)
Definition logged (reqID : string) (start done : Time) (lc : Telemetry.RequestLogContext) (o : outcome)
  : option LogEntry * option (string * bool) :=
  if panics o then (None, None) else RequestLogger reqID start done lc (events o).

Lemma sw_code_keeps es c : c <> 0 -> foldl sw_event c es = c.
Proof.
  intros N. induction es as [|e es IH]; [done|]. cbn [foldl]. destruct e; cbn [sw_event];
    destruct (Z.eqb_spec c 0); done.
Qed.

(** A panic before anything was written is answered with status 500; after the first byte, or
    the first header with a code, the client has the status sent before. No panic leaves the
    middleware, and the request that panicked is not logged. *)
Theorem Recovery_spec json reqID start done lc o :
  panics (Recovery json o) = false /\
  (panics o = true -> events o = [] -> sw_status (events (Recovery json o)) = 500) /\
  (panics o = true -> foldl sw_event 0 (events o) <> 0 ->
     sw_status (events (Recovery json o)) = sw_status (events o)) /\
  (panics o = false -> Recovery json o = o) /\
  (panics o = true -> logged reqID start done lc o = (None, None)).
Proof.
  unfold Recovery, logged. destruct (panics o) eqn:P; split_and!; try done.
  - by intros _ ->.
  - intros _ N. unfold sw_status. cbn [events]. by rewrite foldl_app, sw_code_keeps.
Qed.

(** ** The end of main *)

(** What the program defers, by the call. *)
Inductive cleanup :=
| otelShutdown | pool_Close | redisClient_Close | logWriter_Close | budgetScheduler_Stop
| auditLogger_Close | mlRouter_Close | billingScheduler_Stop | mcpHub_Close.

(** In the order of the defer statements. *)
Definition deferred (has_ml has_mcp : bool) : list cleanup :=
  [otelShutdown; pool_Close; redisClient_Close; logWriter_Close; budgetScheduler_Stop; auditLogger_Close]
  ++ (if has_ml then [mlRouter_Close] else []) ++ [billingScheduler_Stop]
  ++ (if has_mcp then [mcpHub_Close] else []).

(** The parts of the process the clean-ups work on: the log writer, the audit log, and whether
    the database pool is open. *)
Record Process := mkProcess { writer : Writer; audit : Audit.Logger; pool_open : bool }.

(** The store's answer to what a worker hands it. *)
Definition log_answer (e : LogWriter.event) : option bool :=
  match e with ETick ok | EReceive ok | EDrained ok => Some ok | _ => None end.
Definition audit_answer (e : Audit.event) : option bool :=
  match e with Audit.EInsert ok => Some ok | _ => None end.

(** [Close] of the log writer and of the audit log return when their workers have; the database
    takes what they store while the pool is open. *)
Inductive clean : cleanup -> Process -> Process -> Prop :=
| clean_pool p : clean pool_Close p (mkProcess (writer p) (audit p) false)
| clean_log p w ds w' :
    LogWriter.Close (writer p) = Some w -> LogWriter.steps w ds w' ->
    Forall (fun e => of_worker e = true /\ forall ok, log_answer e = Some ok -> ok = pool_open p) ds ->
    worker w' = Finished -> clean logWriter_Close p (mkProcess w' (audit p) (pool_open p))
| clean_audit p l ds l' :
    Audit.Close (audit p) = Some l -> Audit.steps l ds l' ->
    Forall (fun e => (e = Audit.EDone \/ exists ok, e = Audit.EInsert ok) /\
                     forall ok, audit_answer e = Some ok -> ok = pool_open p) ds ->
    Audit.done_ l' = true -> clean auditLogger_Close p (mkProcess (writer p) l' (pool_open p))
| clean_other c p :
    c <> pool_Close -> c <> logWriter_Close -> c <> auditLogger_Close -> clean c p p.

Inductive cleans : list cleanup -> Process -> Process -> Prop :=
| cleans_nil p : cleans [] p p
| cleans_cons c cs p p1 p2 : clean c p p1 -> cleans cs p1 p2 -> cleans (c :: cs) p p2.

(** [main] after the server has returned: an error ends the process at once, otherwise the
    deferred calls run, the last one first. The number is the exit code. *)
Inductive exits (has_ml has_mcp : bool) (err : option string) (p : Process) : Z -> Process -> Prop :=
| exit_now e : err = Some e -> exits has_ml has_mcp err p 1 p
| exit_return p' : err = None -> cleans (rev (deferred has_ml has_mcp)) p p' -> exits has_ml has_mcp err p 0 p'.

(** *** What the closing of the writers does *)

Lemma flush_batches ok w :
  exists bs, batches (flush ok w) = batches w ++ bs /\ Forall (fun b => b.2 = ok) bs.
Proof.
  unfold flush. destruct (buf w); [exists []; by rewrite app_nil_r|]. eexists. split; [done|]. by repeat constructor.
Qed.

Lemma worker_step_batches ok w e w' :
  LogWriter.step w e w' -> of_worker e = true -> (forall o, log_answer e = Some o -> o = ok) ->
  exists bs, batches w' = batches w ++ bs /\ Forall (fun b => b.2 = ok) bs.
Proof.
  intros S O A. destruct S as [w e|w w' K|w R S|w o R|w o w' R K|w o R K]; try done;
    try (rewrite <- (A o eq_refl)).
  - exists []. by rewrite app_nil_r.
  - apply flush_batches.
  - unfold receive in K. destruct (ch w) as [|x rest]; [done|]. injection K as <-. case_decide.
    + destruct (flush_batches o (mkWriter rest (buf w ++ [x]) (batches w) (dropped w) (stop w) (worker w))) as (bs & E & F).
      exists bs. split; [exact E|done].
    + exists []. by rewrite app_nil_r.
  - destruct (flush_batches o w) as (bs & E & F). by exists bs.
Qed.

Lemma worker_steps ok w ds w' :
  LogWriter.steps w ds w' -> LogWriter.well_formed w -> worker w <> Finished ->
  Forall (fun e => of_worker e = true /\ forall o, log_answer e = Some o -> o = ok) ds ->
  LogWriter.well_formed w' /\ LogWriter.taken w' = LogWriter.taken w /\ (worker w' = Finished -> ch w' = []) /\
  exists bs, batches w' = batches w ++ bs /\ Forall (fun b => b.2 = ok) bs.
Proof.
  induction 1 as [w|w es w1 e w2 S IH T]; intros Wf N F.
  { split_and!; [done..|]. exists []. by rewrite app_nil_r. }
  apply Forall_app in F as [F [[O A] _]%Forall_cons]. destruct (IH Wf N F) as (Wf1 & T1 & C1 & bs & B1 & G1).
  destruct (log_step_taken w1 e w2 Wf1 T) as (l & T2 & Sl & _).
  assert (l = []) as -> by (destruct e; try done; by apply sublist_nil_r in Sl).
  destruct (worker_step_batches ok w1 e w2 T O A) as (bs2 & B2 & G2).
  split_and!; [by eapply log_step_wf|by rewrite T2, app_nil_r| |].
  - intros D. destruct T as [w1 e|w1 w1' K|w1 R K|w1 o R|w1 o w1' R K|w1 o R K]; try done.
    + unfold flush in D. destruct (buf w1); cbn in D; congruence.
    + destruct (receive_spec o w1 w1' Wf1 R K) as (_ & _ & E & _). congruence.
    + cbn. unfold flush. destruct (buf w1); done.
  - exists (bs ++ bs2). rewrite B2, B1, app_assoc. split; [done|]. by apply Forall_app.
Qed.

(** The log writer is closed: all that it had taken has been handed to the store. *)
Lemma clean_log_flushes p p' :
  clean logWriter_Close p p' -> LogWriter.well_formed (writer p) ->
  concat (batches (writer p')).*1 = LogWriter.taken (writer p) /\ audit p' = audit p /\ pool_open p' = pool_open p /\
  exists bs, batches (writer p') = batches (writer p) ++ bs /\ Forall (fun b => b.2 = pool_open p) bs.
Proof.
  intros C Wf. inversion C as [|? w ds w' K S F D| |? ? N1 N2 N3]; subst; [|done]. cbn.
  assert (LogWriter.well_formed w /\ worker w <> Finished /\ LogWriter.taken w = LogWriter.taken (writer p) /\
    batches w = batches (writer p)) as (Wf1 & N1 & T1 & B1).
  { pose proof (LogWriter.step_close _ _ K) as St. split; [by eapply log_step_wf|].
    unfold LogWriter.Close in K. destruct (stop (writer p)) eqn:E; [done|]. injection K as <-. cbn. split_and!; try done.
    intros X. destruct (wf_finished _ Wf X). congruence. }
  destruct (worker_steps _ _ _ _ S Wf1 N1 F) as (Wf2 & T2 & C2 & bs & B2 & G2).
  split_and!; [|done|done|exists bs; by rewrite B2, B1].
  rewrite <- T1, <- T2. unfold LogWriter.taken. destruct (wf_finished _ Wf2 D) as [-> _]. by rewrite (C2 D), app_nil_r.
Qed.

Lemma audit_steps_stored ok l ds l' :
  Audit.steps l ds l' -> Audit.well_formed l ->
  Forall (fun e => (e = Audit.EDone \/ exists o, e = Audit.EInsert o) /\ forall o, audit_answer e = Some o -> o = ok) ds ->
  Audit.well_formed l' /\ Audit.taken l' = Audit.taken l /\
  exists xs, Audit.stored l' = Audit.stored l ++ xs /\ Forall (fun x => x.2 = ok) xs.
Proof.
  induction 1 as [l|l es l1 e l2 S IH T]; intros Wf F.
  { split_and!; [done..|]. exists []. by rewrite app_nil_r. }
  apply Forall_app in F as [F [[O A] _]%Forall_cons]. destruct (IH Wf F) as (Wf1 & T1 & xs & X1 & G1).
  split; [by eapply Audit.audit_step_wf|].
  destruct T as [l1 e now l1' R|l1 l1' R|l1 o e rest R|l1 C K N]; try (by destruct O as [O|[? O]]).
  - rewrite <- (A o eq_refl) in *. split.
    + rewrite <- T1. unfold Audit.taken. cbn. rewrite fmap_app, <- app_assoc. cbn. by rewrite R.
    + exists (xs ++ [(e, o)]). cbn. rewrite X1, app_assoc. split; [done|]. apply Forall_app. by split; [|repeat constructor].
  - split; [rewrite <- T1; unfold Audit.taken; cbn; by rewrite C|]. by exists xs.
Qed.

Lemma clean_audit_flushes p p' :
  clean auditLogger_Close p p' -> Audit.well_formed (audit p) ->
  (Audit.stored (audit p')).*1 = Audit.taken (audit p) /\ writer p' = writer p /\ pool_open p' = pool_open p /\
  exists xs, Audit.stored (audit p') = Audit.stored (audit p) ++ xs /\ Forall (fun x => x.2 = pool_open p) xs.
Proof.
  intros C Wf. inversion C as [| |? l ds l' K S F D|? ? N1 N2 N3]; subst; [|done]. cbn.
  assert (Audit.well_formed l /\ Audit.taken l = Audit.taken (audit p) /\ Audit.stored l = Audit.stored (audit p))
    as (Wf1 & T1 & B1).
  { pose proof (Audit.step_close _ _ K) as St. split; [by eapply Audit.audit_step_wf|].
    unfold Audit.Close in K. destruct (Audit.closed (audit p)); [done|]. by injection K as <-. }
  destruct (audit_steps_stored _ _ _ _ S Wf1 F) as (Wf2 & T2 & xs & X2 & G2).
  split_and!; [|done|done|exists xs; by rewrite X2, B1].
  rewrite <- T1, <- T2. unfold Audit.taken. destruct (Audit.wf_done _ Wf2 D) as [-> _]. by rewrite app_nil_r.
Qed.

Lemma cleans_app a b p p2 : cleans (a ++ b) p p2 <-> exists p1, cleans a p p1 /\ cleans b p1 p2.
Proof.
  split.
  - induction a as [|c a IH] in p |- *; cbn; intros H; [exists p; by split; [constructor|]|].
    inversion H as [|? ? ? p1 ? C R]; subst. destruct (IH _ R) as (p3 & A & B). exists p3. split; [by econstructor|done].
  - intros (p1 & A & B). induction A; cbn; [done|]. econstructor; eauto.
Qed.

Lemma cleans_other cs p p' :
  cleans cs p p' -> pool_Close ∉ cs -> logWriter_Close ∉ cs -> auditLogger_Close ∉ cs -> p' = p.
Proof.
  induction 1 as [p|c cs p p1 p2 C R IH]; [done|]. rewrite !not_elem_of_cons. intros [? ?] [? ?] [? ?].
  inversion C; subst; try done. by apply IH.
Qed.

(** *** The workers return *)

Lemma steps_trans w a w1 b w2 : LogWriter.steps w a w1 -> LogWriter.steps w1 b w2 -> LogWriter.steps w (a ++ b) w2.
Proof.
  intros A B. induction B as [|w1 es w3 e w4 B IH T]; [by rewrite app_nil_r|].
  rewrite app_assoc. eapply LogWriter.steps_snoc; eauto.
Qed.

Lemma log_drains ok n w :
  length (ch w) = n -> worker w = LogWriter.Draining ->
  exists ds w', LogWriter.steps w ds w' /\ worker w' = Finished /\
    Forall (fun e => of_worker e = true /\ forall o, log_answer e = Some o -> o = ok) ds.
Proof.
  revert w. induction n as [|n IH]; intros w L D.
  - apply nil_length_inv in L. exists ([] ++ [EDrained ok]), (set_worker Finished (flush ok w)). split_and!; [|done|].
    + eapply LogWriter.steps_snoc; [constructor|]. by apply step_drained.
    + repeat constructor. cbn. congruence.
  - destruct (receive ok w) as [w1|] eqn:R; [|unfold receive in R; destruct (ch w); done].
    assert (length (ch w1) = n /\ worker w1 = LogWriter.Draining) as [L1 D1].
    { unfold receive in R. destruct (ch w) as [|x rest]; [done|]. injection R as <-. cbn in L.
      case_decide; [|cbn; split; [lia|done]]. unfold flush. destruct (buf _); cbn; split; try lia; done. }
    destruct (IH w1 L1 D1) as (ds & w' & S & F & A). exists ([EReceive ok] ++ ds), w'. split_and!; [|done|].
    + eapply steps_trans; [|done]. apply (LogWriter.steps_snoc w [] w (EReceive ok) w1); [constructor|].
      apply step_receive; [by rewrite D|done].
    + constructor; [|done]. cbn. split; [done|congruence].
Qed.

Lemma audit_drains ok n l :
  length (Audit.ch l) = n -> Audit.closed l = true -> Audit.done_ l = false ->
  exists ds l', Audit.steps l ds l' /\ Audit.done_ l' = true /\
    Forall (fun e => (e = Audit.EDone \/ exists o, e = Audit.EInsert o) /\ forall o, audit_answer e = Some o -> o = ok) ds.
Proof.
  assert (forall a l l1 b l2, Audit.steps l a l1 -> Audit.steps l1 b l2 -> Audit.steps l (a ++ b) l2) as Tr.
  { intros a l0 l1 b l2 A B. induction B as [|l1 es l3 e l4 B IH T]; [by rewrite app_nil_r|].
    rewrite app_assoc. eapply Audit.steps_snoc; eauto. }
  revert l. induction n as [|n IH]; intros l L C D.
  - apply nil_length_inv in L. exists ([] ++ [Audit.EDone]), (Audit.mkLogger [] (Audit.stored l) true true). split_and!; [|done|].
    + eapply Audit.steps_snoc; [constructor|]. by apply Audit.step_done.
    + constructor; [|constructor]. split; [by left|done].
  - destruct (Audit.ch l) as [|e rest] eqn:E; [done|]. injection L as L.
    destruct (IH (Audit.mkLogger rest (Audit.stored l ++ [(e, ok)]) (Audit.closed l) (Audit.done_ l)) L C D) as (ds & l' & S & F & A).
    exists ([Audit.EInsert ok] ++ ds), l'. split_and!; [|done|].
    + eapply Tr; [|done]. eapply (Audit.steps_snoc l []); [constructor|]. by apply Audit.step_insert.
    + constructor; [|done]. split; [eauto|cbn; congruence].
Qed.

(** The clean-ups of the writers are in this order, with others around them. *)
Lemma deferred_order has_ml has_mcp :
  exists a b c, rev (deferred has_ml has_mcp) =
    a ++ auditLogger_Close :: b ++ logWriter_Close :: c ++ [pool_Close; otelShutdown] /\
    Forall (fun x => x <> pool_Close /\ x <> logWriter_Close /\ x <> auditLogger_Close) (a ++ b ++ c).
Proof.
  exists ((if has_mcp then [mcpHub_Close] else []) ++ billingScheduler_Stop :: (if has_ml then [mlRouter_Close] else [])),
    [budgetScheduler_Stop], [redisClient_Close].
  destruct has_ml, has_mcp; split; try reflexivity; by repeat constructor.
Qed.

Lemma cleans_idle cs p p' :
  Forall (fun x => x <> pool_Close /\ x <> logWriter_Close /\ x <> auditLogger_Close) cs ->
  cleans cs p p' <-> p' = p.
Proof.
  intros F. split.
  - intros C. eapply cleans_other; [done| | |]; intros I; by destruct (proj1 (Forall_forall _ _) F _ I) as (? & ? & ?).
  - intros ->. induction F as [|c cs (A & B & C) F IH]; [constructor|]. econstructor; [by apply clean_other|done].
Qed.

(** A process that still runs: its writers are open and the pool is. *)
Record running (p : Process) : Prop := {
  run_writer : LogWriter.well_formed (writer p);
  run_open : stop (writer p) = false;
  run_audit : Audit.well_formed (audit p);
  run_audit_open : Audit.closed (audit p) = false;
  run_pool : pool_open p = true
}.

Lemma clean_log_exists p : running p -> exists p', clean logWriter_Close p p'.
Proof.
  intros [Wf O _ _ P]. destruct (LogWriter.Close (writer p)) as [w|] eqn:K; [|unfold LogWriter.Close in K; by rewrite O in K].
  assert (stop w = true /\ worker w = worker (writer p)) as [St Wk].
  { unfold LogWriter.Close in K. rewrite O in K. by injection K as <-. }
  assert (worker w = Running) as Rn.
  { destruct (worker (writer p)) eqn:X; [done| |].
    - pose proof (wf_draining _ Wf X). congruence.
    - destruct (wf_finished _ Wf X). congruence. }
  destruct (log_drains (pool_open p) _ (set_worker LogWriter.Draining w) eq_refl eq_refl) as (ds & w' & S & F & A).
  eexists. eapply (clean_log p w ([EStop] ++ ds) w'); [done| | |done].
  - eapply steps_trans; [|done]. eapply (LogWriter.steps_snoc w []); [constructor|]. by apply step_stop.
  - constructor; [by cbn|done].
Qed.

Lemma clean_audit_exists p : running p -> exists p', clean auditLogger_Close p p'.
Proof.
  intros [_ _ Wf O P]. destruct (Audit.Close (audit p)) as [l|] eqn:K; [|unfold Audit.Close in K; by rewrite O in K].
  assert (Audit.closed l = true /\ Audit.done_ l = Audit.done_ (audit p)) as [St Dn].
  { unfold Audit.Close in K. rewrite O in K. by injection K as <-. }
  assert (Audit.done_ l = false) as D.
  { rewrite Dn. destruct (Audit.done_ (audit p)) eqn:X; [|done]. destruct (Audit.wf_done _ Wf X). congruence. }
  destruct (audit_drains (pool_open p) _ l eq_refl St D) as (ds & l' & S & F & A).
  eexists. by eapply (clean_audit p l ds l').
Qed.

(** C23. The end of the process. When the server returns without an error the deferred clean-ups
    return, and at the end every log entry and audit event that had been taken has been handed to
    the database, in order and while its pool was open, so that none of the batches handed over by
    the clean-ups was refused for a closed pool. When the server returns an error (a shutdown
    that did not finish in its thirty seconds is one) the process exits at once with code 1, and
    what the writers had not handed over is lost. *)
Theorem exit_flushes has_ml has_mcp err p :
  running p ->
  (exists code p', exits has_ml has_mcp err p code p') /\
  (forall code p', exits has_ml has_mcp err p code p' ->
     match err with
     | Some _ => code = 1 /\ p' = p
     | None =>
         code = 0 /\ pool_open p' = false /\
         concat (batches (writer p')).*1 = LogWriter.taken (writer p) /\
         (Audit.stored (audit p')).*1 = Audit.taken (audit p) /\
         (exists bs, batches (writer p') = batches (writer p) ++ bs /\ Forall (fun b => b.2 = true) bs) /\
         (exists xs, Audit.stored (audit p') = Audit.stored (audit p) ++ xs /\ Forall (fun x => x.2 = true) xs)
     end).
Proof.
  intros R. pose proof (deferred_order has_ml has_mcp) as (a & b & c & Ord & F).
  apply Forall_app in F as [Fa [Fb Fc]%Forall_app]. split.
  - destruct err as [e|]; [exists 1, p; by econstructor|].
    destruct (clean_audit_exists p R) as (p1 & C1). pose proof R as [Wf O Wa Oa P].
    destruct (clean_audit_flushes p p1 C1 Wa) as (_ & W1 & P1 & _).
    assert (exists p2, clean logWriter_Close p1 p2) as (p2 & C2).
    { destruct (clean_log_exists p R) as (q & C). inversion C; subst; [|done].
      eexists. eapply clean_log; rewrite ?W1, ?P1; eauto. }
    exists 0, (mkProcess (writer p2) (audit p2) false). apply exit_return; [done|]. rewrite Ord.
    apply cleans_app. exists p. split; [by apply cleans_idle|]. econstructor; [done|].
    apply cleans_app. exists p1. split; [by apply cleans_idle|]. econstructor; [done|].
    apply cleans_app. exists p2. split; [by apply cleans_idle|]. econstructor; [apply clean_pool|].
    econstructor; [by apply clean_other|constructor].
  - intros code p' E. inversion E as [e X|q X C]; subst; [done|]. split; [done|].
    rewrite Ord in C. apply cleans_app in C as (p0 & A & C). apply (cleans_idle _ _ _ Fa) in A as ->.
    inversion C as [|? ? ? p1 ? C1 C']; subst. clear C. apply cleans_app in C' as (p1' & A & C).
    apply (cleans_idle _ _ _ Fb) in A as ->. inversion C as [|? ? ? p2 ? C2 C']; subst. clear C.
    apply cleans_app in C' as (p2' & A & C). apply (cleans_idle _ _ _ Fc) in A as ->.
    inversion C as [|? ? ? p3 ? C3 C4]; subst. apply cleans_other in C4; [|set_solver..]. subst p'.
    destruct R as [Wf O Wa Oa P].
    destruct (clean_audit_flushes p p1 C1 Wa) as (S1 & W1 & P1 & xs & X1 & G1).
    destruct (clean_log_flushes p1 p2 C2 ltac:(by rewrite W1)) as (S2 & A2 & P2 & bs & B2 & G2).
    inversion C3; subst; [|done]. cbn. rewrite A2, P1, P, W1 in *. eauto 10.
Qed.

(** *** Witness *)

Definition demo_process : Process :=
  mkProcess (Write (demo_entry "a" 1) NewLogWriter) Audit.New true.

Lemma exit_flushes_witness :
  (exists code p', exits true true None demo_process code p') /\
  (forall code p', exits true true None demo_process code p' -> concat (batches (writer p')).*1 = [demo_entry "a" 1]).
Proof.
  destruct (exit_flushes true true None demo_process) as [H1 H2].
  - split; [|reflexivity| |reflexivity|reflexivity].
    + eapply log_step_wf; [apply new_wf|apply step_write].
    + split; [apply Nat.le_0_l|done].
  - split; [exact H1|]. intros code p' E. destruct (H2 code p' E) as (_ & _ & H & _). rewrite H. reflexivity.
Defined.

(** A request that outlives the thirty seconds: the process exits with code 1 and its log entries
    are lost. *)
Example slow_request_loses_logs :
  let s := ListenAndServe [(0, Begin 1); (5, Signal); (5 + 30 * Second, Poll)] in
  match phase_ s with
  | Exited err => forall code p', exits true true err demo_process code p' ->
      code = 1 /\ concat (batches (writer p')).*1 = [] /\ ch (writer p') = [demo_entry "a" 1]
  | _ => False
  end.
Proof.
  intros s. vm_compute phase_. intros code p' E. inversion E as [e X|q X C]; subst; [|done].
  split; [reflexivity|]. split; vm_compute; reflexivity.
Qed.

End Srv.
