(* ===== verification/Startup.v ===== *)
(** * Start-up (cmd/gateway/main.go)

    How the configuration and the database become the running gateway: the provider registry,
    the key manager, the fallback chains, the optional routers, residency policies, alerting,
    OAuth providers and tool servers, the administrator's account, and the model lists and
    prices loaded from the tables. The calls a provider makes are a parameter; the components
    are those of the other files. *)

From S2P Require Import Prelude GoStrings Float64 Types ProviderErrors LoadBalancer Fallback Cost Access Routing.
From S2P Require Import ProviderKeys Adapters Catalog MLRouter Alerting Mcp Sessions Config.
Local Open Scope Z_scope.

Module Startup.

(** ** Fallback chains and the circuit breaker *)

Definition buildFallbackChains (rc : Conf.RoutingConfig) : list Chain :=
  map (fun fc => mkChain (Conf.FCName fc)
         (map (fun t => mkTarget (Conf.FTProvider t) (Conf.FTModel t) (Conf.FTWeight t)) (Conf.FCTargets fc)))
    (Conf.FallbackChains rc).

(** ** Providers *)

(** What [NewManaged] or [New] of each adapter is given. *)
Inductive adapter :=
| AOpenAI (a : Adapters.Adapter)
| AAnthropic (a : Adapters.Adapter)
| AGemini (a : Adapters.Adapter)
| AGrok (a : Adapters.Adapter)
| AMistral (a : Adapters.Adapter)
| ACohere (a : Adapters.Adapter)
| AAzure (resourceName apiKey apiVersion baseURL : string) (deployments : list (string * string))
| ABedrock (region accessKeyID secretAccessKey sessionToken : string)
| ASelfHosted (name baseURL engine : string) (models : list Adapters.ModelEntry).

Definition adapter_Name (a : adapter) : string :=
  match a with
  | AOpenAI _ => "openai" | AAnthropic _ => "anthropic" | AGemini _ => "google" | AGrok _ => "grok"
  | AMistral _ => "mistral" | ACohere _ => "cohere" | AAzure _ _ _ _ _ => "azure" | ABedrock _ _ _ _ => "bedrock"
  | ASelfHosted name _ _ _ => name
  end.

Definition adapter_Models (a : adapter) : list ModelInfo :=
  match a with
  | AOpenAI a => Adapters.openai_Models a
  | AAnthropic a => Adapters.anthropic_Models a
  | AGemini a => Adapters.gemini_Models a
  | AGrok a => Adapters.grok_Models a
  | AMistral a => Adapters.mistral_Models a
  | ACohere a => Adapters.cohere_Models a
  | AAzure _ _ _ url deps => Adapters.azure_Models deps.*1 (Adapters.mkAdapter url None)
  | ABedrock _ _ _ _ => Adapters.bedrock_Models (Adapters.mkAdapter "" None)
  | ASelfHosted _ _ engine models => Adapters.selfhosted_Models engine models
  end.

(** Every adapter but the self-hosted one has [SetModels]. *)
Definition adapter_overridable (a : adapter) : bool := match a with ASelfHosted _ _ _ _ => false | _ => true end.

Definition given (p : Conf.ProviderConfig) : bool :=
  negb (String.eqb (Conf.APIKey p) "") || negb (String.eqb (Conf.BaseURL p) "").

(** The adapters that are registered, in order. *)
Definition adapters (p : Conf.ProvidersConfig) : list adapter :=
  let az := Conf.Azure p in
  let b := Conf.Bedrock p in
  [AOpenAI (Adapters.openai_newAdapter (Conf.BaseURL (Conf.OpenAI p)));
   AAnthropic (Adapters.anthropic_newAdapter (Conf.BaseURL (Conf.Anthropic p)));
   AGemini (Adapters.gemini_newAdapter (Conf.BaseURL (Conf.Gemini p)))] ++
  (if given (Conf.Grok p) then [AGrok (Adapters.grok_newAdapter (Conf.BaseURL (Conf.Grok p)))] else []) ++
  (if given (Conf.Mistral p) then [AMistral (Adapters.mistral_newAdapter (Conf.BaseURL (Conf.Mistral p)))] else []) ++
  (if given (Conf.Cohere p) then [ACohere (Adapters.cohere_newAdapter (Conf.BaseURL (Conf.Cohere p)))] else []) ++
  (if negb (String.eqb (Conf.ResourceName az) "") || negb (String.eqb (Conf.AzBaseURL az) "")
   then [AAzure (Conf.ResourceName az) (Conf.AzAPIKey az) (Conf.APIVersion az) (Conf.AzBaseURL az)
           (map (fun d => (Conf.DepID d, Conf.DepModel d)) (Conf.Deployments az))] else []) ++
  (if negb (String.eqb (Conf.AccessKeyID b) "")
   then [ABedrock (Conf.Region b) (Conf.AccessKeyID b) (Conf.SecretAccessKey b) (Conf.SessionToken b)] else []) ++
  omap (fun sh => if String.eqb (Conf.SHName sh) "" || String.eqb (Conf.SHBaseURL sh) "" then None
                  else Some (ASelfHosted (Conf.SHName sh) (Conf.SHBaseURL sh) (Conf.SHEngine sh)
                         (map (fun m => Adapters.mkModelEntry (Conf.SHModelID m) (Conf.ModelName m)) (Conf.SHModels sh))))
    (Conf.SelfHosted p).

Section Registry.
Context {W : Type}.
(** The calls of an adapter, with the keys of the key manager. *)
Context (chat : adapter -> string -> ChatCompletionRequest -> string -> W -> res PErr.goerror ChatCompletionResponse * W)
        (stream : adapter -> string -> ChatCompletionRequest -> string -> W -> res PErr.goerror (list StreamChunk) * W).

Definition provider_of (a : adapter) : Registry.Provider_ W :=
  Registry.mkProvider (adapter_Name a) (adapter_Models a) (adapter_overridable a) (chat a) (stream a).

Definition buildRegistry (p : Conf.ProvidersConfig) : Registry.Registry_ W :=
  foldl (fun r a => Registry.Register r (provider_of a)) Registry.NewRegistry (adapters p).

(** ** syncProvidersFromDB *)

Context (ToLower : string -> string).

(** One provider of the loop: its model list into the registry, its prices into the map.
    [models_ok] says whether its models can be listed. *)
Definition sync_one (models_ok : UUID -> bool) (ms : gmap UUID Catalog.ModelRecord)
    (acc : Registry.Registry_ W * gmap string Cost.ModelPricing) (p : Catalog.ProviderRecord)
  : Registry.Registry_ W * gmap string Cost.ModelPricing :=
  if negb (Catalog.PREnabled p) || negb (models_ok (Catalog.PRID p)) then acc
  else
    let enabled := Catalog.enabled_models ms (Catalog.PRID p) in
    ((Registry.SetProviderModels acc.1 (Catalog.PRName p) (Catalog.model_infos (Catalog.PRName p) enabled)).2,
     foldl (fun m kv => <[kv.1 := kv.2]> m) acc.2 (Catalog.model_prices (Catalog.PRName p) enabled)).

(** [range] is the order in which the price map is visited. *)
Definition syncProvidersFromDB (range : gmap string Cost.ModelPricing -> list (string * Cost.ModelPricing))
    (list_ok : bool) (models_ok : UUID -> bool) (ps : gmap UUID Catalog.ProviderRecord) (ms : gmap UUID Catalog.ModelRecord)
    (reg : Registry.Registry_ W) (calc : Cost.Calculator) : Registry.Registry_ W * Cost.Calculator :=
  if negb list_ok then (reg, calc)
  else match Catalog.pv_List ps with
       | [] => (reg, calc)
       | provs =>
           let '(reg, pricing) := foldl (sync_one models_ok ms) (reg, ∅) provs in
           (reg, if 0 <? Z.of_nat (size pricing) then Cost.UpdatePricing ToLower calc (range pricing) else calc)
       end.

(** The price list at start-up: a file that cannot be loaded leaves a calculator with a nil map. *)
Definition priceList (Unmarshal : string -> option (option (gmap string Cost.ModelPricing))) (file : option string)
  : option Cost.Calculator :=
  match Cost.LoadFromYAML Unmarshal file with Ok c => Some c | Err _ => None end.

(** The tables are loaded into it; [None] is a panic: an assignment to an entry of a nil map. *)
Definition syncAtStart (range : gmap string Cost.ModelPricing -> list (string * Cost.ModelPricing))
    (models_ok : UUID -> bool) (ps : gmap UUID Catalog.ProviderRecord) (ms : gmap UUID Catalog.ModelRecord)
    (reg : Registry.Registry_ W) (calc : option Cost.Calculator) : option (Registry.Registry_ W * option Cost.Calculator) :=
  match calc with
  | Some c => let '(reg, c) := syncProvidersFromDB range true models_ok ps ms reg c in Some (reg, Some c)
  | None =>
      let '(reg, pricing) := foldl (sync_one models_ok ms) (reg, ∅) (Catalog.pv_List ps) in
      if 0 <? Z.of_nat (size pricing) then None else Some (reg, None)
  end.

End Registry.

(** ** buildKeyManager *)

Inductive started (A : Type) := Exit | Started (a : A).
Arguments Exit {A}.
Arguments Started {A} a.

Definition fallbackKeys (p : Conf.ProvidersConfig) : gmap string string :=
  list_to_map [("openai", Conf.APIKey (Conf.OpenAI p)); ("anthropic", Conf.APIKey (Conf.Anthropic p));
    ("gemini", Conf.APIKey (Conf.Gemini p)); ("grok", Conf.APIKey (Conf.Grok p)); ("mistral", Conf.APIKey (Conf.Mistral p));
    ("cohere", Conf.APIKey (Conf.Cohere p)); ("azure", Conf.AzAPIKey (Conf.Azure p))].

(** The key manager, whose cipher is also the administration's; a key that is not base64 of 32
    bytes ends the program. *)
Definition buildKeyManager (format_int : Z -> string) (cfg : Conf.Config) : started Keys.KeyManager :=
  let keys := fallbackKeys (Conf.Providers cfg) in
  if String.eqb (Conf.EncryptionKey (Conf.Gateway cfg)) "" then Started (Keys.mkKM None keys)
  else match Base64.Decode (Conf.EncryptionKey (Conf.Gateway cfg)) with
       | None => Exit
       | Some keyBytes =>
           match Crypto.NewCipher format_int keyBytes with
           | Err _ => Exit
           | Ok cipher => Started (Keys.mkKM (Some cipher) keys)
           end
       end.

(** ** The administrator's account *)

Section Admin.
Context `{AdminAuth.Bcrypt}.
(** [sha256.Sum256]. *)
Context (sha256 : string -> string).

(** The seeding of the account and the secret of the token service. *)
Definition seedAdmin (masterKey salt : string) (id : UUID) (db_ok : bool) (now : Time)
    (db : gmap string AdminAuth.AdminCredential) : started (gmap string AdminAuth.AdminCredential * string) :=
  match AdminAuth.GenerateFromPassword salt masterKey with
  | None => Exit
  | Some hash =>
      match AdminAuth.UpsertDefault db "admin" hash id db_ok now with
      | (false, _) => Exit
      | (true, db) => Started (db, sha256 masterKey)
      end
  end.

End Admin.

(** ** OAuth providers *)

Record oauth_config := mkOConfig { OClientID : string; OClientSecret : string; OGroups : gmap string string }.

Inductive oauth_provider :=
| Google (c : oauth_config)
| GitHub (c : oauth_config)
| OIDC (name : string) (c : oauth_config) (issuer : string).

(** [discover] says whether the issuer's configuration can be fetched. *)
Definition oauth_of (discover : string -> bool) (pc : Conf.OAuthProviderConfig) : option oauth_provider :=
  if negb (Conf.IsEnabled pc) then None
  else
    let c := mkOConfig (Conf.ClientID pc) (Conf.ClientSecret pc) (Conf.GroupRoleMapping pc) in
    if String.eqb (Conf.OAName pc) "google" then Some (Google c)
    else if String.eqb (Conf.OAName pc) "github" then Some (GitHub c)
    else if String.eqb (Conf.IssuerURL pc) "" then None
    else if discover (Conf.IssuerURL pc) then Some (OIDC (Conf.OAName pc) c (Conf.IssuerURL pc)) else None.

Definition buildOAuthProviders (discover : string -> bool) (a : Conf.AuthConfig) : list oauth_provider :=
  omap (oauth_of discover) (Conf.AuthProviders a).

(** ** Alerting *)

Inductive channel :=
| Slack (name url : string)
| WebhookCh (w : Alerting.Webhook) (headers : gmap string string)
| EmailCh (name host : string) (port : Z) (from : string) (to : list string).

Definition channel_of (ch : Conf.AlertChannelConfig) : option channel :=
  if String.eqb (Conf.ChType ch) "slack" then Some (Slack (Conf.ChName ch) (Conf.WebhookURL ch))
  else if String.eqb (Conf.ChType ch) "webhook" then
    Some (WebhookCh (Alerting.NewWebhookNotifier (Conf.ChName ch)
            (if String.eqb (Conf.ChURL ch) "" then Conf.WebhookURL ch else Conf.ChURL ch) (Conf.Method ch)
            (Conf.RetryCount ch)) (Conf.Headers ch))
  else if String.eqb (Conf.ChType ch) "email" then
    Some (EmailCh (Conf.ChName ch) (Conf.SMTPHost ch) (Conf.SMTPPort ch) (Conf.From ch) (Conf.To ch))
  else None.

(** The notifier of a channel sends by its own means, [send]. *)
Definition alert_notifiers (send : channel -> nat -> Alerting.Event -> option string) (chs : list Conf.AlertChannelConfig)
  : gmap string Alerting.Notifier :=
  foldl (fun m ch => match channel_of ch with
                     | Some c => <[Conf.ChName ch := Alerting.mkNotifier (Conf.ChName ch) (send c)]> m
                     | None => m
                     end) ∅ chs.

(** The rules and the window in which an alert is not repeated, or no alerting. *)
Definition buildAlertRouter (send : channel -> nat -> Alerting.Event -> option string) (a : Conf.AlertingConfig)
  : option (list Alerting.routeRule * Duration) :=
  match Conf.Channels a with
  | [] => None
  | chs =>
      Some (Alerting.NewRouter (map (fun r => Alerting.mkRouting (Conf.AREvents r) (Conf.ARSeverity r) (Conf.ARChannels r))
              (Conf.ARouting a)) (alert_notifiers send chs),
            Alerting.NewDeduplicator (15 * Minute))
  end.

(** ** Data residency *)

Definition policy_of (pc : Conf.ResidencyPolicyConfig) : Residency.Policy :=
  Residency.mkPolicy (Conf.RPName pc)
    (foldl (fun m ap => <[Conf.APName ap := Residency.mkConstraint (Conf.APName ap) (Conf.APRegion ap)]> m) ∅ (Conf.RPAllowed pc))
    (foldl (fun m b => <[b := true]> m) ∅ (Conf.RPBlocked pc))
    (Conf.RPRegions pc).

(** [None] is the nil registry, and the nil enforcer. *)
Definition buildResidencyRegistry (d : Conf.DataResidencyConfig) : option Residency.PRegistry :=
  match Conf.DREnabled d, Conf.DRPolicies d with
  | true, _ :: _ => Some (Residency.NewRegistry (map policy_of (Conf.DRPolicies d)))
  | _, _ => None
  end.

Definition buildResidencyEnforcer (d : Conf.DataResidencyConfig) : option Residency.PRegistry := buildResidencyRegistry d.

(** ** Tool servers *)

Definition mcp_config (sc : Conf.MCPServerConfig) : Mcp.ServerConfig :=
  Mcp.mkConfig (Conf.MSName sc) (Conf.MSType sc) (Conf.MSCommand sc) (Conf.MSURL sc).

(** The hub with every configured server, connected or not. *)
Definition buildMCPHub (connect : Conf.MCPServerConfig -> Mcp.ServerOps) (m : Conf.MCPConfig) : option Mcp.Hub :=
  match Conf.Servers m with
  | [] => None
  | servers => Some (foldl (fun h sc => Mcp.Register (Conf.MSName sc) (connect sc) h) Mcp.NewHub servers)
  end.

(** The configurations the administration of tool servers starts with. *)
Definition mcp_admin_configs (m : Conf.MCPConfig) : list Mcp.ServerConfig := map mcp_config (Conf.Servers m).

(** ** The optional routers *)

Definition ml_weights (w : Conf.MLRoutingWeights) : MLRouter.Weights :=
  if f64_eq (f64_add (f64_add (f64_add (Conf.MLCost w) (Conf.MLQuality w)) (Conf.MLLatency w)) (Conf.MLReliability w)) f64_0
  then MLRouter.DefaultWeights
  else MLRouter.mkWeights (Conf.MLCost w) (Conf.MLQuality w) (Conf.MLLatency w) (Conf.MLReliability w).

(** The mode and the scorer of the ML router. *)
Definition buildMLRouter (m : Conf.MLRoutingConfig) (pricing : Cost.Calculator) : option (string * MLRouter.Scorer) :=
  if negb (Conf.MLEnabled m) || (Z.of_nat (length (Conf.QualityTiers m)) =? 0) then None
  else
    let mode := if String.eqb (Conf.MLMode m) "" then MLRouter.ModeShadow else Conf.MLMode m in
    let tiers := map (fun t => MLRouter.mkTierConfig (Conf.TierName t)
                        (map (fun mc => MLRouter.mkModelConfig (Conf.MLProvider mc) (Conf.MLModel mc)) (Conf.TierModels t)))
                   (Conf.QualityTiers m) in
    Some (mode, MLRouter.mkScorer (ml_weights (Conf.MLWeights m)) (MLRouter.BuildTiers tiers) pricing).

Section Resolvers.
(** What [Routing] needs: regular expressions, [sort.Slice], case mapping. *)
Context {Regexp : Type} (Compile : string -> option Regexp) (MatchString : Regexp -> string -> bool)
        (sortSlice : forall A : Type, (A -> A -> bool) -> list A -> list A) (ToLower : string -> string).

Abbreviation Advanced := (Routing.AdvancedRouter (Regexp:=Regexp)).

(** The rule-based router, [None] when the rules cannot be loaded or do not compile. *)
Definition buildAdvancedRouter (rc : gmap string Regexp) (rules : option (list RouteRule)) (pricing : Cost.Calculator)
  : option Advanced :=
  match rules with
  | None => None
  | Some rules =>
      match Routing.NewAdvancedRouter Compile sortSlice rc rules (Some pricing) with
      | (Err _, _, _) => None
      | (Ok _, ar, _) => Some ar
      end
  end.

(** A value of the interface [AdvancedResolverIface]: nil, or a pointer of one of the two types,
    which can itself be nil. *)
Inductive resolver :=
| RNil
| RAdvanced (p : option Advanced)
| RMl (p : option (string * MLRouter.Scorer)).

(** An interface is nil only when it holds no type. *)
Definition is_nil (r : resolver) : bool := match r with RNil => true | _ => false end.

Definition activeAdvRouter (adv : option Advanced) (ml : option (string * MLRouter.Scorer)) : resolver :=
  let active := RAdvanced adv in
  match ml with
  | Some _ => if is_nil active then RMl ml else active
  | None => active
  end.

(** The call the chat handler makes when the interface is not nil; [None] is a nil pointer
    dereference. [ml_resolve] is [MLRouter.Resolve] at this moment. *)
Definition iface_Resolve (ml_resolve : string * MLRouter.Scorer -> ChatCompletionRequest -> Chain * bool)
    (r : resolver) (draw : Z -> Z) (vk : option VirtualKey.VK.VirtualKey) (req : ChatCompletionRequest)
  : option (option Chain) :=
  match r with
  | RAdvanced (Some ar) => Routing.Resolve MatchString sortSlice ToLower ar draw vk req
  | RMl (Some m) => let '(chain, ok) := ml_resolve m req in Some (if ok then Some chain else None)
  | _ => None
  end.

End Resolvers.

(** ** Logging *)

Inductive slog_level := LevelDebug | LevelInfo | LevelWarn | LevelError.

(** The level, and whether lines are written as text. *)
Definition setupLogger (l : Conf.LogConfig) : slog_level * bool :=
  (if String.eqb (Conf.Level l) "debug" then LevelDebug
   else if String.eqb (Conf.Level l) "warn" then LevelWarn
   else if String.eqb (Conf.Level l) "error" then LevelError
   else LevelInfo,
   String.eqb (Conf.Format l) "text").

(** ** Theorems: providers *)

Section Providers.
Context {W : Type}.
Context (chat : adapter -> string -> ChatCompletionRequest -> string -> W -> res PErr.goerror ChatCompletionResponse * W)
        (stream : adapter -> string -> ChatCompletionRequest -> string -> W -> res PErr.goerror (list StreamChunk) * W).

Lemma register_lookup l (r : Registry.Registry_ W) n :
  Registry.Get (foldl (fun r a => Registry.Register r (provider_of chat stream a)) r l) n =
  match last (List.filter (fun a => String.eqb (adapter_Name a) n) l) with
  | Some a => Some (provider_of chat stream a)
  | None => Registry.Get r n
  end.
Proof.
  induction l as [|a l IH] using rev_ind; [done|].
  rewrite foldl_snoc, List.filter_app. simpl. unfold Registry.Get, Registry.Register. simpl.
  destruct (String.eqb_spec (adapter_Name a) n) as [<-|N].
  - by rewrite lookup_insert_eq, last_snoc.
  - rewrite lookup_insert_ne by done. rewrite app_nil_r. exact IH.
Qed.

(** A provider is registered exactly when one of the configured adapters bears its name, and the
    last of them serves it. *)
Lemma buildRegistry_Get p n :
  Registry.Get (buildRegistry chat stream p) n =
  provider_of chat stream <$> last (List.filter (fun a => String.eqb (adapter_Name a) n) (adapters p)).
Proof. unfold buildRegistry. rewrite register_lookup. by destruct (last _). Qed.

End Providers.

(** ** Theorems: the tables at start-up *)

Section Sync.
Context {W : Type} (ToLower : string -> string).

(** The providers of a list whose models are loaded. *)
Definition loaded (models_ok : UUID -> bool) (l : list Catalog.ProviderRecord) : list Catalog.ProviderRecord :=
  List.filter (fun p => Catalog.PREnabled p && models_ok (Catalog.PRID p)) l.

Definition offered (ms : gmap UUID Catalog.ModelRecord) (p : Catalog.ProviderRecord) : list ModelInfo :=
  Catalog.model_infos (Catalog.PRName p) (Catalog.enabled_models ms (Catalog.PRID p)).

Definition prices (ms : gmap UUID Catalog.ModelRecord) (p : Catalog.ProviderRecord) : list (string * Cost.ModelPricing) :=
  Catalog.model_prices (Catalog.PRName p) (Catalog.enabled_models ms (Catalog.PRID p)).

Lemma SetProviderModels_lookup (r : Registry.Registry_ W) name models n :
  Registry.Get (Registry.SetProviderModels r name models).2 n =
  match Registry.Get r n with
  | Some q => Some (if String.eqb n name && Registry.overridable q then Registry.SetModels q models else q)
  | None => None
  end.
Proof.
  unfold Registry.Get, Registry.SetProviderModels. destruct (String.eqb_spec n name) as [->|N]; simpl.
  - destruct (Registry.providers r !! name) as [q|] eqn:E; [|by simpl; rewrite E].
    destruct (Registry.overridable q); simpl; [by rewrite lookup_insert_eq|by rewrite E].
  - destruct (Registry.providers r !! name) as [q|] eqn:E; [destruct (Registry.overridable q)|]; simpl;
      rewrite ?lookup_insert_ne by done; by destruct (Registry.providers r !! n).
Qed.

(** The registry after the loop: a provider that was loaded lists its enabled models. *)
Lemma sync_registry models_ok ms l reg pr n : NoDup (Catalog.PRName <$> l) ->
  Registry.Get (foldl (sync_one (W:=W) models_ok ms) (reg, pr) l).1 n =
  match Registry.Get reg n with
  | None => None
  | Some q =>
      match find (fun p => String.eqb (Catalog.PRName p) n) (loaded models_ok l) with
      | Some p => Some (if Registry.overridable q then Registry.SetModels q (offered ms p) else q)
      | None => Some q
      end
  end.
Proof using Type.
  revert reg pr. induction l as [|p l IH]; intros reg pr; simpl; [by destruct (Registry.Get reg n)|].
  intros [N ND]%NoDup_cons. unfold sync_one at 2, loaded at 1. simpl.
  destruct (Catalog.PREnabled p && models_ok (Catalog.PRID p)) eqn:E.
  - rewrite <- negb_andb, E. simpl. rewrite IH by done. rewrite SetProviderModels_lookup.
    destruct (Registry.Get reg n) as [q|]; [|done]. rewrite (String.eqb_sym n).
    destruct (String.eqb_spec (Catalog.PRName p) n) as [<-|]; simpl; [|done].
    destruct (find _ (loaded models_ok l)) as [p'|] eqn:F.
    + apply find_some in F as [I E'%String.eqb_eq]. exfalso. apply N. rewrite <- E'.
      apply list_elem_of_fmap_2. unfold loaded in I. apply List.filter_In in I as [I _]. by apply list_elem_of_In.
    + by destruct (Registry.overridable q).
  - rewrite <- negb_andb, E. simpl. by apply IH.
Qed.

Lemma registered_prices models_ok ms l reg pr :
  (foldl (sync_one (W:=W) models_ok ms) (reg, pr) l).2 =
  foldl (fun m kv => <[kv.1 := kv.2]> m) pr (flat_map (prices ms) (loaded models_ok l)).
Proof using Type.
  revert reg pr. induction l as [|p l IH]; intros reg pr; simpl; [done|]. unfold sync_one at 2. simpl.
  rewrite <- negb_andb. destruct (Catalog.PREnabled p && models_ok (Catalog.PRID p)); simpl; [|apply IH].
  rewrite foldl_app. apply IH.
Qed.

Lemma filled_size {A} (l : list (string * A)) (m : gmap string A) :
  0 < Z.of_nat (size (foldl (fun m kv => <[kv.1 := kv.2]> m) m l)) <-> m <> ∅ \/ l <> [].
Proof using Type.
  revert m. induction l as [|kv l IH]; intros m; cbn [foldl].
  - pose proof (map_size_empty_iff m) as E. split.
    + intros L. left. intros ->. rewrite map_size_empty in L. lia.
    + intros [N|N]; [|done]. assert (size m <> 0%nat) by tauto. lia.
  - rewrite IH. split; [by right|]. intros _. left. apply insert_non_empty.
Qed.

(** Without a price list the gateway does not start as soon as the catalogue has an enabled model
    of an enabled provider: the prices of the table are written into a nil map. *)
Theorem missing_price_list_panics Unmarshal range models_ok ps ms (reg : Registry.Registry_ W) :
  syncAtStart ToLower range models_ok ps ms reg (priceList Unmarshal None) = None <->
  exists p m, p ∈ Catalog.pv_List ps /\ Catalog.PREnabled p && models_ok (Catalog.PRID p) = true /\
    m ∈ Catalog.enabled_models ms (Catalog.PRID p).
Proof using Type.
  unfold priceList, syncAtStart. cbn [Cost.LoadFromYAML].
  pose proof (registered_prices models_ok ms (Catalog.pv_List ps) reg ∅) as SP.
  destruct (foldl _ _ _) as [reg' pr]. cbn [snd] in SP. subst pr.
  set (ps_ := flat_map (prices ms) (loaded models_ok (Catalog.pv_List ps))).
  transitivity (ps_ <> []).
  - pose proof (filled_size ps_ ∅) as Sz.
    match type of Sz with 0 < ?z <-> _ => destruct (Z.ltb_spec 0 z) as [L|L] end; [naive_solver|].
    split; [done|]. intros N. pose proof (proj2 Sz (or_intror N)). lia.
  - unfold ps_. split.
    + intros N. destruct (flat_map _ _) as [|x l] eqn:E; [done|].
      assert (In x (flat_map (prices ms) (loaded models_ok (Catalog.pv_List ps)))) as I by (rewrite E; by left).
      apply in_flat_map in I as (p & [Ip En]%List.filter_In & Ix).
      unfold prices, Catalog.model_prices in Ix. apply list_elem_of_In, list_elem_of_fmap in Ix as (m & _ & Im).
      exists p, m. split; [by apply list_elem_of_In|done].
    + intros (p & m & Ip & En & Im) E.
      assert (In (Catalog.MRModelID m, Cost.mkPricing (Catalog.PRName p) (Catalog.MRInput m) (Catalog.MROutput m))
        (flat_map (prices ms) (loaded models_ok (Catalog.pv_List ps)))) as I; [|by rewrite E in I].
      apply in_flat_map. exists p. split; [apply List.filter_In; split; [by apply list_elem_of_In|done]|].
      unfold prices, Catalog.model_prices. apply list_elem_of_In, list_elem_of_fmap. by exists m.
Qed.

(** A map filled with distinct keys holds the pairs. *)
Lemma foldl_insert_elements {A} (l : list (string * A)) :
  NoDup l.*1 -> map_to_list (foldl (fun m kv => <[kv.1 := kv.2]> m) (∅ : gmap string A) l) ≡ₚ l.
Proof using Type.
  induction l as [|[k a] l IH] using rev_ind; intros ND; [simpl; by rewrite map_to_list_empty|].
  rewrite foldl_snoc. simpl. rewrite fmap_app in ND. apply NoDup_app in ND as (ND & D & _).
  rewrite map_to_list_insert; [rewrite IH by done; by rewrite Permutation_app_comm|].
  apply not_elem_of_dom. intros [x I]%elem_of_dom. apply elem_of_map_to_list in I. rewrite IH in I by done.
  apply (D k); [by apply (list_elem_of_fmap_2 fst) in I|left].
Qed.

Lemma pv_List_elem ps p : p ∈ Catalog.pv_List ps <-> exists id, ps !! id = Some p.
Proof using Type.
  unfold Catalog.pv_List. rewrite insertionSort_perm, list_elem_of_fmap. split.
  - intros ([id q] & -> & I%elem_of_map_to_list). eauto.
  - intros [id L]. exists (id, p). split; [done|]. by apply elem_of_map_to_list.
Qed.

Lemma pv_List_names ps ms : Catalog.wf ps ms -> NoDup (Catalog.PRName <$> Catalog.pv_List ps).
Proof using Type.
  intros [_ U _ _ _]. unfold Catalog.pv_List. rewrite insertionSort_perm, <- list_fmap_compose.
  apply NoDup_fmap_2_strong; [|apply NoDup_map_to_list].
  intros [i p] [j q] I%elem_of_map_to_list J%elem_of_map_to_list E. simpl in E.
  assert (i = j) as <- by (eapply U; eauto). congruence.
Qed.

(** Among providers of distinct names, the loaded one of a provider's name is that provider. *)
Lemma find_loaded models_ok l p : NoDup (Catalog.PRName <$> l) -> p ∈ l ->
  find (fun q => String.eqb (Catalog.PRName q) (Catalog.PRName p)) (loaded models_ok l) =
  if Catalog.PREnabled p && models_ok (Catalog.PRID p) then Some p else None.
Proof using Type.
  unfold loaded. induction l as [|q l IH]; simpl; [by intros _ ?%elem_of_nil|].
  intros [N ND]%NoDup_cons [->|I]%elem_of_cons.
  - destruct (Catalog.PREnabled q && models_ok (Catalog.PRID q)); simpl; [by rewrite String.eqb_refl|].
    destruct (find _ _) as [q'|] eqn:F; [|done]. apply find_some in F as [I' E'%String.eqb_eq].
    apply List.filter_In in I' as [I' _]. exfalso. apply N. rewrite <- E'. by apply list_elem_of_fmap_2, list_elem_of_In.
  - assert (Catalog.PRName q <> Catalog.PRName p) as NE.
    { intros E. apply N. rewrite E. by apply list_elem_of_fmap_2. }
    destruct (Catalog.PREnabled q && models_ok (Catalog.PRID q)); simpl; [|by apply IH].
    destruct (String.eqb_spec (Catalog.PRName q) (Catalog.PRName p)); [done|]. by apply IH.
Qed.

(** The tables at start-up. With a consistent catalogue, after the providers are loaded
    from the database every enabled provider whose models could be listed serves, under its
    registered adapter, exactly its enabled models in the order of the table; every other
    registered provider, a disabled one included, serves what it served before; and when no two
    loaded models share a name, each is priced as its row says. *)
Theorem tables_loaded range models_ok ps ms (reg : Registry.Registry_ W) calc :
  Catalog.wf ps ms -> (forall m, range m ≡ₚ map_to_list m) ->
  let '(reg', calc') := syncProvidersFromDB ToLower range true models_ok ps ms reg calc in
  (forall id p q, ps !! id = Some p -> Registry.Get reg (Catalog.PRName p) = Some q ->
     Registry.Get reg' (Catalog.PRName p) =
     Some (if Catalog.PREnabled p && models_ok id && Registry.overridable q then Registry.SetModels q (offered ms p) else q)) /\
  (forall n, (forall id p, ps !! id = Some p -> Catalog.PRName p <> n) -> Registry.Get reg' n = Registry.Get reg n) /\
  (NoDup ((fun kv => ToLower kv.1) <$> flat_map (prices ms) (loaded models_ok (Catalog.pv_List ps))) ->
   forall id p m, ps !! id = Some p -> Catalog.PREnabled p && models_ok id = true -> m ∈ Catalog.enabled_models ms id ->
     Cost.lookup ToLower calc' (Catalog.MRModelID m) =
     Some (Cost.mkPricing (Catalog.PRName p) (Catalog.MRInput m) (Catalog.MROutput m))).
Proof using Type.
  intros WF R. pose proof (pv_List_names ps ms WF) as ND. pose proof (pv_List_elem ps) as PE.
  unfold syncProvidersFromDB. simpl negb. cbv iota.
  destruct (Catalog.pv_List ps) as [|p0 l0] eqn:PL.
  { assert (forall id p, ps !! id <> Some p) as No.
    { intros id p L. apply (elem_of_nil p). apply PE. eauto. }
    split; [|split]; [naive_solver|done|naive_solver]. }
  rewrite <- PL in *. clear PL p0 l0.
  pose proof (fun n => sync_registry models_ok ms (Catalog.pv_List ps) reg ∅ n ND) as SR.
  pose proof (registered_prices models_ok ms (Catalog.pv_List ps) reg ∅) as SP.
  destruct (foldl _ _ _) as [reg' pr]. simpl in SR, SP. subst pr. split; [|split].
  - intros id p q L G. rewrite SR, G, find_loaded by (done || apply PE; eauto).
    rewrite (Catalog.wf_pid _ _ WF _ _ L). by destruct (Catalog.PREnabled p && models_ok id), (Registry.overridable q).
  - intros n F. rewrite SR. destruct (Registry.Get reg n) as [q|]; [|done].
    destruct (find _ _) as [p|] eqn:E; [|done]. apply find_some in E as [I E%String.eqb_eq].
    apply List.filter_In in I as [I _]. apply list_elem_of_In, PE in I as [id I]. by destruct (F id p I).
  - intros NL id p m L En I. set (ps_ := flat_map _ _) in *.
    assert (NoDup ps_.*1) as N1.
    { apply (NoDup_fmap_1 ToLower). by rewrite <- list_fmap_compose. }
    assert ((Catalog.MRModelID m, Cost.mkPricing (Catalog.PRName p) (Catalog.MRInput m) (Catalog.MROutput m)) ∈ ps_) as Ip.
    { subst ps_. apply list_elem_of_In, in_flat_map. exists p. split.
      - apply List.filter_In. rewrite (Catalog.wf_pid _ _ WF _ _ L). split; [|done]. apply list_elem_of_In, PE. eauto.
      - unfold prices, Catalog.model_prices. rewrite (Catalog.wf_pid _ _ WF _ _ L).
        apply (in_map (fun m => (Catalog.MRModelID m, Cost.mkPricing (Catalog.PRName p) (Catalog.MRInput m) (Catalog.MROutput m)))).
        by apply list_elem_of_In. }
    pose proof (foldl_insert_elements ps_ N1) as P. set (pr := foldl _ _ ps_) in *.
    assert (range pr ≡ₚ ps_) as Rp by (by rewrite R).
    assert (0 <? Z.of_nat (size pr) = true) as ->.
    { apply Z.ltb_lt. rewrite <- length_map_to_list, P. destruct ps_; [by apply elem_of_nil in Ip|simpl; lia]. }
    eapply Cost.UpdatePricing_lookup; [|rewrite Rp; exact Ip|done].
    by rewrite Rp.
Qed.

End Sync.

(** ** Theorems: residency from the configuration *)

Lemma foldl_insert_dom {A B} (key : B -> string) (val : B -> A) (l : list B) (m : gmap string A) n :
  is_Some (foldl (fun m b => <[key b := val b]> m) m l !! n) <-> (exists b, b ∈ l /\ key b = n) \/ is_Some (m !! n).
Proof.
  revert m. induction l as [|b l IH]; intros m; simpl; [set_solver|]. rewrite IH.
  destruct (decide (key b = n)) as [<-|N].
  - rewrite lookup_insert_eq. split; [|set_solver]. intros _. left. exists b. split; [left|done].
  - rewrite lookup_insert_ne by done. set_solver.
Qed.

(** What a configured policy allows. *)
Definition policy_allows (pc : Conf.ResidencyPolicyConfig) (n : string) : Prop :=
  n ∉ Conf.RPBlocked pc /\ (Conf.RPAllowed pc = [] \/ n ∈ Conf.APName <$> Conf.RPAllowed pc).

Lemma blocked_lookup l n : foldl (fun (m : gmap string bool) b => <[b := true]> m) ∅ l !! n = Some true <-> n ∈ l.
Proof.
  induction l as [|b l IH] using rev_ind; simpl; [set_solver|]. rewrite foldl_snoc.
  destruct (decide (b = n)) as [<-|N].
  - rewrite lookup_insert_eq. set_solver.
  - rewrite lookup_insert_ne by done. rewrite IH. set_solver.
Qed.

Lemma policy_of_allows pc n : Residency.IsProviderAllowed (policy_of pc) n = true <-> policy_allows pc n.
Proof.
  rewrite Residency.IsProviderAllowed_spec. unfold policy_of, policy_allows. simpl. rewrite blocked_lookup.
  rewrite (foldl_insert_dom Conf.APName (fun ap => Residency.mkConstraint (Conf.APName ap) (Conf.APRegion ap))).
  rewrite lookup_empty, list_elem_of_fmap. apply and_iff_compat_l.
  assert (foldl (fun (m : gmap string Residency.ProviderConstraint) ap =>
    <[Conf.APName ap := Residency.mkConstraint (Conf.APName ap) (Conf.APRegion ap)]> m) ∅ (Conf.RPAllowed pc) = ∅
    <-> Conf.RPAllowed pc = []) as ->.
  { split; [|by intros ->]. destruct (Conf.RPAllowed pc) as [|ap l] eqn:E; [done|]. intros M.
    assert (is_Some ((∅ : gmap string Residency.ProviderConstraint) !! Conf.APName ap)) as [? ?]; [|by simplify_map_eq].
    rewrite <- M at 1.
    apply (foldl_insert_dom Conf.APName (fun ap => Residency.mkConstraint (Conf.APName ap) (Conf.APRegion ap))).
    left. exists ap. split; [left|done]. }
  split; (intros [->|H]; [by left|right]); naive_solver.
Qed.

Lemma registry_last ps n :
  Residency.Get (Residency.NewRegistry (map policy_of ps)) n =
  policy_of <$> last (List.filter (fun pc => String.eqb (Conf.RPName pc) n) ps).
Proof.
  unfold Residency.Get, Residency.NewRegistry. simpl.
  induction ps as [|pc ps IH] using rev_ind; [done|].
  rewrite map_app, foldl_app, List.filter_app. simpl. destruct (String.eqb_spec (Conf.RPName pc) n) as [<-|N].
  - by rewrite lookup_insert_eq, last_snoc.
  - rewrite lookup_insert_ne by done. by rewrite app_nil_r.
Qed.

(** Configured residency. When data residency is enabled with policies, a chain filtered
    under a configured policy (the last one of its name) keeps, in order, exactly the targets
    whose provider the policy's lists allow, and is refused when none is left; an unknown policy
    name filters nothing. *)
Theorem configured_residency d r name chain model :
  buildResidencyEnforcer d = Some r ->
  match last (List.filter (fun pc => String.eqb (Conf.RPName pc) name) (Conf.DRPolicies d)) with
  | None => Residency.FilterChain r name chain model = Ok chain
  | Some pc =>
      match Residency.FilterChain r name chain model with
      | Ok chain' => ChainName chain' = ChainName chain /\ Targets chain' <> [] /\ sublist (Targets chain') (Targets chain) /\
          (forall t, t ∈ Targets chain' <-> t ∈ Targets chain /\ policy_allows pc (Provider t))
      | Err _ => forall t, t ∈ Targets chain -> ~ policy_allows pc (Provider t)
      end
  end.
Proof.
  intros H. assert (r = Residency.NewRegistry (map policy_of (Conf.DRPolicies d))) as ->.
  { unfold buildResidencyEnforcer, buildResidencyRegistry in H. destruct (Conf.DREnabled d), (Conf.DRPolicies d); congruence. }
  unfold Residency.FilterChain. rewrite registry_last.
  destruct (last _) as [pc|]; simpl; [|done].
  set (f := List.filter _ (Targets chain)).
  assert (forall t, t ∈ f <-> t ∈ Targets chain /\ policy_allows pc (Provider t)) as F.
  { intros t. subst f. rewrite <- policy_of_allows, !list_elem_of_In. apply List.filter_In. }
  destruct (Z.eqb_spec (Z.of_nat (length f)) 0) as [Z0|NZ].
  - intros t I A. assert (t ∈ f) as If by (by apply F). destruct f; [by apply elem_of_nil in If|done].
  - simpl. split; [done|]. split; [by intros Ef; rewrite Ef in NZ|]. split; [|done].
    subst f. clear. induction (Targets chain) as [|t l IH]; simpl; [done|].
    destruct (Residency.IsProviderAllowed _ _); by constructor.
Qed.

Lemma configured_residency_witness :
  let d := Conf.mkResidency true [Conf.mkRPolicy "eu" [] ["openai"] []] in
  exists r, buildResidencyEnforcer d = Some r /\
    match Residency.FilterChain r "eu" (mkChain "c" [mkTarget "openai" "m" 1; mkTarget "mistral" "m" 1]) "m" with
    | Ok chain' => Targets chain' <> []
    | Err _ => False
    end.
Proof.
  intros d. eexists. split; [reflexivity|].
  pose proof (configured_residency d _ "eu" (mkChain "c" [mkTarget "openai" "m" 1; mkTarget "mistral" "m" 1]) "m"
    eq_refl) as H.
  vm_compute in H. vm_compute. exact (proj1 (proj2 H)).
Defined.

(** ** Behaviours worth knowing *)

(** The interface holds the rule-based router's pointer even when that is nil, so the ML router
    is never the active one. *)
Lemma ml_router_never_active {Regexp} (adv : option (Routing.AdvancedRouter (Regexp:=Regexp))) ml :
  activeAdvRouter adv ml = RAdvanced adv.
Proof. by destruct ml. Qed.

(** When the rules cannot be loaded, the interface is not nil and the handler's call dereferences
    a nil router, whatever the request. *)
Lemma failed_rule_load_panics {Regexp} (Compile : string -> option Regexp) MatchString sortSlice ToLower rc pricing ml
    ml_resolve draw vk req :
  let r := activeAdvRouter (buildAdvancedRouter Compile sortSlice rc None pricing) ml in
  is_nil r = false /\ iface_Resolve MatchString sortSlice ToLower ml_resolve r draw vk req = None.
Proof. by destruct ml. Qed.

(** On a fresh table the administrator logs in with the master key; an account that exists keeps
    its password whatever the master key is now. *)
Lemma master_key_logs_in `{AdminAuth.JWTLib} `{AdminAuth.Bcrypt} sha256 expiry masterKey salt id now db db' secret :
  masterKey <> "" -> seedAdmin sha256 masterKey salt id true now db = Started (db', secret) ->
  match db !! "admin" with
  | Some _ => db' = db
  | None => forall t, AdminAuth.checkPassword expiry (Some masterKey) true t db' <> AdminAuth.AError 401
  end.
Proof.
  intros NE. unfold seedAdmin. destruct (AdminAuth.GenerateFromPassword salt masterKey) as [h|] eqn:G; [|done].
  unfold AdminAuth.UpsertDefault. simpl. destruct (db !! "admin") as [c|] eqn:L; intros [= <- <-]; [done|].
  intros t. unfold AdminAuth.checkPassword. destruct (String.eqb_spec masterKey ""); [done|].
  unfold AdminAuth.GetByUsername. simpl. rewrite lookup_insert_eq. simpl.
  rewrite (AdminAuth.hash_accepts _ _ _ G). simpl. by destruct (AdminAuth.GenerateToken _ _ _ _).
Qed.

(** The key of the gemini section is filed under a name no provider asks for by its registered
    name, google. *)
Example google_has_no_fallback_key cfg : fallbackKeys cfg !! "google" = None.
Proof. reflexivity. Qed.

(** ** The witness of the tables *)

Definition demo_provs : gmap UUID Catalog.ProviderRecord :=
  {["p1" := Catalog.mkProv "p1" "openai" "openai" "OpenAI" "" true "" 0 0 0]}.
Definition demo_mods : gmap UUID Catalog.ModelRecord :=
  {["m1" := Catalog.mkModel "m1" "p1" "openai/gpt-x" "gpt-x" "GPT" true (f64_of_Z 1) (f64_of_Z 2) None None true true true
              [] 0 0 0]}.
Definition demo_reg : Registry.Registry_ unit :=
  Registry.Register Registry.NewRegistry (Catalog.demo_provider "openai").

Lemma demo_catalog_wf : Catalog.wf demo_provs demo_mods.
Proof.
  split; unfold demo_provs, demo_mods; intros *; rewrite ?lookup_singleton_Some; intros; destruct_and?; subst; try done.
  all: rewrite ?lookup_singleton_Some in *; destruct_and?; subst; done.
Qed.

Lemma tables_loaded_witness :
  let '(reg', calc') := syncProvidersFromDB ascii_ToLower map_to_list true (fun _ => true) demo_provs demo_mods demo_reg
    (Cost.NewCalculator ∅) in
  Registry.Models <$> Registry.Get reg' "openai" = Some (offered demo_mods (Catalog.mkProv "p1" "openai" "openai" "OpenAI" "" true "" 0 0 0)).
Proof.
  pose proof (tables_loaded ascii_ToLower map_to_list (fun _ => true) demo_provs demo_mods demo_reg (Cost.NewCalculator ∅)
    demo_catalog_wf (fun m => Permutation_refl _)) as H.
  destruct (syncProvidersFromDB _ _ _ _ _ _ _ _) as [reg' calc']. destruct H as (H & _ & _).
  specialize (H "p1" _ (Catalog.demo_provider "openai") (lookup_singleton_eq _ _) eq_refl).
  cbn [Catalog.PRName] in H. rewrite H. reflexivity.
Defined.

End Startup.
