(* ===== verification/RoutingAdmin.v ===== *)
(** * Administration of routing (internal/store/postgres/routing_rule_store.go,
    internal/gateway/handler/admin_routing_rules.go and admin_routing.go)

    The table of routing rules and its handlers, which reload the rule engine of [Routing] after
    each change, and the in-memory routing configuration with its subscribers. Postgres' limits
    and the JSON codecs of metadata and targets are parameters. *)

From S2P Require Import Prelude GoStrings Types LoadBalancer Cost VirtualKey Routing Config Startup Chat.
Local Open Scope Z_scope.

Module RoutingAdmin.

(** ** The rows *)

Definition strategy_text (s : Strategy) : string :=
  match s with
  | StrategyDirect => "direct" | StrategyWeighted => "weighted" | StrategyLeastCost => "least_cost"
  | StrategyFailover => "failover" | StrategyQuality => "quality_first" | StrategyOther n => n
  end.

Definition strategy_of (s : string) : Strategy :=
  if String.eqb s "direct" then StrategyDirect
  else if String.eqb s "weighted" then StrategyWeighted
  else if String.eqb s "least_cost" then StrategyLeastCost
  else if String.eqb s "failover" then StrategyFailover
  else if String.eqb s "quality_first" then StrategyQuality
  else StrategyOther s.

Record rule_row := mkRuleRow {
  rr_id : UUID; rr_name : string; rr_priority : Z; rr_enabled : bool;
  rr_model : option string; rr_prefix : option string; rr_regex : option string;
  rr_key : option UUID; rr_user : option UUID; rr_team : option UUID; rr_org : option UUID;
  rr_metadata : string; rr_min : option Z; rr_max : option Z; rr_has_tools : option bool;
  rr_strategy : string; rr_targets : string; rr_created : Time; rr_updated : Time
}.

Definition nullString (s : string) : option string := if String.eqb s "" then None else Some s.
Definition nullInteger (i : Z) : option Z := if i =? 0 then None else Some i.

(** TIMESTAMPTZ keeps microseconds. *)
Definition to_micro (t : Time) : Time := t / 1000 * 1000.

Section Codec.
Context (enc_meta : gmap string string -> string) (dec_meta : string -> gmap string string)
        (enc_targets : list RuleTarget -> string) (dec_targets : string -> list RuleTarget).

Definition row_of (r : RouteRule) : rule_row :=
  let m := Match r in
  mkRuleRow (RuleID r) (RuleName r) (Priority r) (Enabled r) (nullString (MModel m)) (nullString (ModelPrefix m))
    (nullString (ModelRegex m)) (KeyID m) (MUserID m) (MTeamID m) (MOrgID m) (enc_meta (MMetadata m))
    (nullInteger (MinContextTokens m)) (nullInteger (MaxContextTokens m)) (Some (HasTools m))
    (strategy_text (RuleStrategy r)) (enc_targets (RuleTargets r)) (to_micro (RuleCreatedAt r)) (to_micro (RuleUpdatedAt r)).

Definition scanRoutingRule (w : rule_row) : RouteRule :=
  mkRouteRule (rr_id w) (rr_name w) (rr_priority w) (rr_enabled w)
    (mkRouteMatch (default "" (rr_model w)) (default "" (rr_prefix w)) (default "" (rr_regex w))
       (rr_key w) (rr_user w) (rr_team w) (rr_org w)
       (if String.eqb (rr_metadata w) "" || String.eqb (rr_metadata w) "null" then ∅ else dec_meta (rr_metadata w))
       (default 0 (rr_min w)) (default 0 (rr_max w)) (default false (rr_has_tools w)))
    (strategy_of (rr_strategy w))
    (if String.eqb (rr_targets w) "" then [] else dec_targets (rr_targets w))
    (rr_created w) (rr_updated w).

(** ** The store *)

Abbreviation rules_table := (gmap UUID rule_row).

(** Whether the columns take a rule, and the order of the rows: by priority, highest first, then
    by age. *)
Context (fits : RouteRule -> bool) (order : list rule_row -> list rule_row).

Definition older_first (a b : rule_row) : bool :=
  (rr_priority b <? rr_priority a) || ((rr_priority a =? rr_priority b) && (rr_created a <? rr_created b)).

Definition List_ (ok : bool) (db : rules_table) : option (list RouteRule) :=
  if ok then Some (scanRoutingRule <$> order (map_to_list db).*2) else None.

Definition Get (ok : bool) (id : UUID) (db : rules_table) : option RouteRule :=
  if ok then scanRoutingRule <$> db !! id else None.

(** Another rule has the name. *)
Definition name_taken (id : UUID) (name : string) (db : rules_table) : bool :=
  existsb (fun kv => negb (String.eqb kv.1 id) && String.eqb (rr_name kv.2) name) (map_to_list db).

(** The rule as stored and returned, or an error. *)
Definition Create (ok : bool) (id : UUID) (now : Time) (r : RouteRule) (db : rules_table) : option RouteRule * rules_table :=
  let r := mkRouteRule id (RuleName r) (Priority r) (Enabled r) (Match r) (RuleStrategy r) (RuleTargets r) now now in
  if negb ok || negb (fits r) || name_taken id (RuleName r) db then (None, db)
  else (Some r, <[id := row_of r]> db).

Definition with_times (created updated : Time) (w : rule_row) : rule_row :=
  mkRuleRow (rr_id w) (rr_name w) (rr_priority w) (rr_enabled w) (rr_model w) (rr_prefix w) (rr_regex w) (rr_key w)
    (rr_user w) (rr_team w) (rr_org w) (rr_metadata w) (rr_min w) (rr_max w) (rr_has_tools w) (rr_strategy w)
    (rr_targets w) created updated.

Definition Update (ok : bool) (now : Time) (r : RouteRule) (db : rules_table) : option RouteRule * rules_table :=
  let r := mkRouteRule (RuleID r) (RuleName r) (Priority r) (Enabled r) (Match r) (RuleStrategy r) (RuleTargets r)
             (RuleCreatedAt r) now in
  if negb ok || negb (fits r) || name_taken (RuleID r) (RuleName r) db then (None, db)
  else match db !! RuleID r with
       | None => (None, db)
       | Some old => (Some r, <[RuleID r := with_times (rr_created old) (to_micro now) (row_of r)]> db)
       end.

Definition Delete (ok : bool) (id : UUID) (db : rules_table) : bool * rules_table :=
  if negb ok then (false, db)
  else match db !! id with None => (false, db) | Some _ => (true, delete id db) end.

(** ** The handlers *)

Section Engine.
Context {Regexp : Type} (Compile : string -> option Regexp)
        (sortSlice : forall A : Type, (A -> A -> bool) -> list A -> list A).

Abbreviation Router := (Routing.AdvancedRouter (Regexp:=Regexp)).

(** The table, the engine the handler points to ([None]: the nil pointer), the regex cache. *)
Record State := mkState { rules_db : rules_table; engine : option Router; cache : gmap string Regexp }.

Inductive reloaded := Reloaded | ReloadError | ReloadPanic.

(** The interface that holds the engine is never nil; reloading a nil engine fails only after the
    rules have compiled. *)
Definition reloadEngine (list_ok : bool) (s : State) : reloaded * State :=
  match List_ list_ok (rules_db s) with
  | None => (ReloadError, s)
  | Some rules =>
      match engine s with
      | None =>
          match Routing.compile_all Compile (cache s) rules with
          | (Err _, rc) => (ReloadError, mkState (rules_db s) None rc)
          | (Ok _, rc) => (ReloadPanic, mkState (rules_db s) None rc)
          end
      | Some ar =>
          match Routing.reload Compile sortSlice (cache s) ar rules with
          | (Err _, ar, rc) => (ReloadError, mkState (rules_db s) (Some ar) rc)
          | (Ok _, ar, rc) => (Reloaded, mkState (rules_db s) (Some ar) rc)
          end
      end
  end.

Inductive reply := RError (code : Z) | RRule (code : Z) (r : RouteRule) | RRules (rs : list RouteRule) | RStatus (code : Z)
| RDryRun (r : option RouteRule).

(** After a change: the answer, or 500 when the reload panics. *)
Definition after_change (list_ok : bool) (s : State) (rep : reply) : reply * State :=
  match reloadEngine list_ok s with
  | (ReloadPanic, s) => (RError 500, s)
  | (_, s) => (rep, s)
  end.

Definition handler_List (list_ok : bool) (s : State) : reply :=
  match List_ list_ok (rules_db s) with None => RError 500 | Some rs => RRules rs end.

Definition with_db (s : State) (db : rules_table) : State := mkState db (engine s) (cache s).

Definition handler_Create (ok list_ok : bool) (id : UUID) (now : Time) (body : option RouteRule) (s : State) : reply * State :=
  match body with
  | None => (RError 400, s)
  | Some r =>
      if String.eqb (RuleName r) "" || (Z.of_nat (length (RuleTargets r)) =? 0) then (RError 400, s)
      else match Create ok id now r (rules_db s) with
           | (None, db) => (RError 500, with_db s db)
           | (Some r, db) => after_change list_ok (with_db s db) (RRule 201 r)
           end
  end.

(** [id] is [None] when the path does not hold an identifier. *)
Definition UpdateRule (ok list_ok : bool) (now : Time) (id : option UUID) (body : option RouteRule) (s : State)
  : reply * State :=
  match id, body with
  | None, _ | _, None => (RError 400, s)
  | Some id, Some r =>
      let r := mkRouteRule id (RuleName r) (Priority r) (Enabled r) (Match r) (RuleStrategy r) (RuleTargets r)
                 (RuleCreatedAt r) (RuleUpdatedAt r) in
      match Update ok now r (rules_db s) with
      | (None, db) => (RError 500, with_db s db)
      | (Some r, db) => after_change list_ok (with_db s db) (RRule 200 r)
      end
  end.

Definition DeleteRule (ok list_ok : bool) (id : option UUID) (s : State) : reply * State :=
  match id with
  | None => (RError 400, s)
  | Some id =>
      match Delete ok id (rules_db s) with
      | (false, db) => (RError 500, with_db s db)
      | (true, db) => after_change list_ok (with_db s db) (RStatus 204)
      end
  end.

Definition ReloadRules (list_ok : bool) (s : State) : reply * State :=
  match reloadEngine list_ok s with
  | (Reloaded, s) => (RStatus 200, s)
  | (_, s) => (RError 500, s)
  end.

(** The rule a dry run reports: the first enabled one whose model and metadata match. *)
Definition dry_matches (model : string) (meta : gmap string string) (r : RouteRule) : bool :=
  Enabled r && (String.eqb (MModel (Match r)) "" || String.eqb (MModel (Match r)) model) &&
  forallb (fun kv => String.eqb (default "" (meta !! kv.1)) kv.2) (map_to_list (MMetadata (Match r))).

Definition DryRun (list_ok : bool) (body : option (string * gmap string string)) (s : State) : reply :=
  match body with
  | None => RError 400
  | Some (model, meta) =>
      match List_ list_ok (rules_db s) with
      | None => RError 500
      | Some rules => RDryRun (find (dry_matches model meta) rules)
      end
  end.

End Engine.
End Codec.

(** ** admin_routing.go *)

(** The configuration, and the subscribers as effects on the state of the program. *)
Record RoutingStore (S : Type) := mkStore { rs_cfg : Conf.RoutingConfig; listeners : list (Conf.RoutingConfig -> S -> S) }.
Arguments mkStore {S} _ _.
Arguments rs_cfg {S} _.
Arguments listeners {S} _.

Section Store.
Context {S : Type}.

Definition NewRoutingStore (initial : Conf.RoutingConfig) : RoutingStore S := mkStore initial [].
Definition Subscribe (fn : Conf.RoutingConfig -> S -> S) (st : RoutingStore S) : RoutingStore S :=
  mkStore (rs_cfg st) (listeners st ++ [fn]).
Definition store_Set (cfg : Conf.RoutingConfig) (st : RoutingStore S) (s : S) : RoutingStore S * S :=
  (mkStore cfg (listeners st), foldl (fun s fn => fn cfg s) s (listeners st)).

(** [None]: the body is not a configuration. *)
Definition routing_Update (body : option Conf.RoutingConfig) (st : RoutingStore S) (s : S) : Z * RoutingStore S * S :=
  match body with
  | None => (400, st, s)
  | Some cfg => let '(st, s) := store_Set cfg st s in (200, st, s)
  end.

Definition routing_Reload (st : RoutingStore S) (s : S) : Z * RoutingStore S * S :=
  let '(st, s) := store_Set (rs_cfg st) st s in (200, st, s).

End Store.

(** ** Theorems: the rows *)

Section RowProofs.
Context (enc_meta : gmap string string -> string) (dec_meta : string -> gmap string string)
        (enc_targets : list RuleTarget -> string) (dec_targets : string -> list RuleTarget).

(** The codecs read back what they wrote for a rule. *)
Record rule_codec (r : RouteRule) : Prop := {
  rc_meta : dec_meta (enc_meta (MMetadata (Match r))) = MMetadata (Match r);
  rc_null : enc_meta (MMetadata (Match r)) = "" \/ enc_meta (MMetadata (Match r)) = "null" -> MMetadata (Match r) = ∅;
  rc_targets : dec_targets (enc_targets (RuleTargets r)) = RuleTargets r;
  rc_text : enc_targets (RuleTargets r) <> ""
}.

Lemma default_nullString s : default "" (nullString s) = s.
Proof using Type. unfold nullString. by destruct (String.eqb_spec s "") as [->|]. Qed.
Lemma default_nullInteger i : default 0 (nullInteger i) = i.
Proof using Type. unfold nullInteger. by destruct (Z.eqb_spec i 0) as [->|]. Qed.

(** Stored rules. A routing rule read back from its row is the rule that was written,
    with its times cut to microseconds, for a strategy that is not a known one under another
    name. *)
Theorem rule_read_back r :
  rule_codec r -> strategy_of (strategy_text (RuleStrategy r)) = RuleStrategy r ->
  scanRoutingRule dec_meta dec_targets (row_of enc_meta enc_targets r) =
  mkRouteRule (RuleID r) (RuleName r) (Priority r) (Enabled r) (Match r) (RuleStrategy r) (RuleTargets r)
    (to_micro (RuleCreatedAt r)) (to_micro (RuleUpdatedAt r)).
Proof using Type.
  intros [M N T X] S. destruct r as [id n p e [] st ts c u]. unfold scanRoutingRule, row_of. simpl in *.
  rewrite !default_nullString, !default_nullInteger, S, (proj2 (String.eqb_neq _ _) X), T. f_equal. f_equal.
  destruct (String.eqb_spec (enc_meta MMetadata) "") as [E|]; [symmetry; auto|].
  destruct (String.eqb_spec (enc_meta MMetadata) "null") as [E|]; [symmetry; auto|done].
Qed.

End RowProofs.

(** ** Theorems: the rules in force *)

Section InForce.
Context (enc_meta : gmap string string -> string) (dec_meta : string -> gmap string string)
        (enc_targets : list RuleTarget -> string) (dec_targets : string -> list RuleTarget)
        (fits : RouteRule -> bool) (order : list rule_row -> list rule_row)
        `{!SliceSorter older_first order}.
Context {Regexp : Type} (Compile : string -> option Regexp) (MatchString : Regexp -> string -> bool)
        (sortSlice : forall A : Type, (A -> A -> bool) -> list A -> list A) `{HS : !Routing.SortSlice sortSlice}.

Abbreviation rules_of db := (scanRoutingRule dec_meta dec_targets <$> (map_to_list db).*2).
Abbreviation reload_engine := (reloadEngine dec_meta dec_targets order Compile sortSlice).

(** Every enabled rule of the table has a pattern that compiles. *)
Definition clean (db : gmap UUID rule_row) : Prop :=
  forall r, r ∈ rules_of db -> Enabled r = true -> ~ Routing.bad_regex Compile r.

(** The engine evaluates the enabled rules of the table, highest priority first. *)
Definition in_force (s : State (Regexp:=Regexp)) : Prop :=
  exists ar, engine s = Some ar /\ Routing.Rules ar ≡ₚ List.filter Enabled (rules_of (rules_db s)) /\
    StronglySorted (fun a b => Priority b <= Priority a) (Routing.Rules ar).

Lemma listed_rules (db : gmap UUID rule_row) : scanRoutingRule dec_meta dec_targets <$> order (map_to_list db).*2 ≡ₚ rules_of db.
Proof using SliceSorter0. by rewrite (sorter_perm (less:=older_first)). Qed.

Lemma filter_Permutation_In (l l' : list RouteRule) : l ≡ₚ l' -> List.filter Enabled l ≡ₚ List.filter Enabled l'.
Proof using Type.
  induction 1 as [|x l l' P IH|x y l|l l' l'' P1 IH1 P2 IH2]; simpl; [done| | |by etransitivity].
  - destruct (Enabled x); [by constructor|done].
  - destruct (Enabled x), (Enabled y); try done. constructor.
Qed.

(** What holds between requests. *)
Definition good (s : State (Regexp:=Regexp)) : Prop :=
  Routing.rc_ok Compile (cache s) /\ is_Some (engine s) /\ (clean (rules_db s) -> in_force s).

Lemma reloadEngine_good s : Routing.rc_ok Compile (cache s) -> is_Some (engine s) ->
  let '(res, s') := reload_engine true s in res <> ReloadPanic /\ rules_db s' = rules_db s /\ good s'.
Proof using SliceSorter0 HS MatchString.
  intros RC [ar E]. unfold reloadEngine, List_. rewrite E.
  pose proof (Routing.reload_spec Compile MatchString sortSlice (cache s) ar
    (scanRoutingRule dec_meta dec_targets <$> order (map_to_list (rules_db s)).*2) RC) as H.
  destruct (Routing.reload _ _ _ _ _) as [[[u|n] ar'] rc']; destruct H as (RC' & _ & H); split; try done; split; try done;
    (split; [done|]); (split; [simpl; eauto|]); simpl; intros C.
  - destruct H as (_ & P & S). exists ar'. split; [done|]. split; [|done]. rewrite P. simpl.
    by apply filter_Permutation_In, listed_rules.
  - destruct H as (_ & r & I & En & B & _). rewrite listed_rules in I. by destruct (C r I En).
Qed.

(** The requests that change the rules; their reading of the table back succeeds. *)
Inductive op :=
| OCreate (ok : bool) (id : UUID) (now : Time) (body : option RouteRule)
| OUpdate (ok : bool) (now : Time) (id : option UUID) (body : option RouteRule)
| ODelete (ok : bool) (id : option UUID)
| OReload.

Definition step (s : State (Regexp:=Regexp)) (o : op)   : State (Regexp:=Regexp) :=
  match o with
  | OCreate ok id now b =>
      (handler_Create enc_meta dec_meta enc_targets dec_targets fits order Compile sortSlice ok true id now b s).2
  | OUpdate ok now id b =>
      (UpdateRule enc_meta dec_meta enc_targets dec_targets fits order Compile sortSlice ok true now id b s).2
  | ODelete ok id => (DeleteRule dec_meta dec_targets order Compile sortSlice ok true id s).2
  | OReload => (ReloadRules dec_meta dec_targets order Compile sortSlice true s).2
  end.

Lemma after_change_good s rep : Routing.rc_ok Compile (cache s) -> is_Some (engine s) ->
  good (after_change dec_meta dec_targets order Compile sortSlice true s rep).2.
Proof using SliceSorter0 HS MatchString.
  intros RC E. unfold after_change. pose proof (reloadEngine_good s RC E) as H.
  destruct (reload_engine true s) as [[] s']; by destruct H as (? & _ & ?).
Qed.

Lemma with_db_same (s : State (Regexp:=Regexp)) : with_db s (rules_db s) = s.
Proof using Type. by destruct s. Qed.

Lemma step_good s o : good s -> good (step s o).
Proof using SliceSorter0 HS MatchString.
  intros G. pose proof G as (RC & E & _). destruct o as [ok id now [r|]|ok now [id|] [r|]|ok [id|]|]; simpl; try done.
  - destruct (_ || _); [done|]. unfold Create. destruct (_ || _); simpl; [by rewrite with_db_same|].
    by apply after_change_good.
  - unfold Update. simpl. destruct (_ || _); simpl; [by rewrite with_db_same|].
    destruct (rules_db s !! id); simpl; [|by rewrite with_db_same]. by apply after_change_good.
  - unfold Delete. destruct ok; simpl; [|by rewrite with_db_same].
    destruct (rules_db s !! id); simpl; [|by rewrite with_db_same]. by apply after_change_good.
  - unfold ReloadRules. pose proof (reloadEngine_good s RC E) as H.
    destruct (reload_engine true s) as [[] s']; by destruct H as (? & _ & ?).
Qed.

(** A start on a table with an enabled pattern that does not compile has no engine. *)
Lemma start_engine rc db pricing : Routing.rc_ok Compile rc ->
  match Startup.buildAdvancedRouter Compile sortSlice rc (List_ dec_meta dec_targets order true db) pricing with
  | Some ar => clean db /\ in_force (mkState db (Some ar) rc)
  | None => ~ clean db
  end.
Proof using SliceSorter0 HS MatchString.
  intros RC. unfold Startup.buildAdvancedRouter, List_, Routing.NewAdvancedRouter.
  pose proof (Routing.reload_spec Compile MatchString sortSlice rc (Routing.mkRouter [] (Some pricing))
    (scanRoutingRule dec_meta dec_targets <$> order (map_to_list db).*2) RC) as H.
  destruct (Routing.reload _ _ _ _ _) as [[[u|n] ar'] rc']; destruct H as (_ & _ & H).
  - destruct H as (F & P & S). rewrite Forall_forall in F. split.
    + intros r I. apply F. by rewrite listed_rules.
    + exists ar'. split; [done|]. split; [|done]. rewrite P. by apply filter_Permutation_In, listed_rules.
  - destruct H as (_ & r & I & En & B & _). intros C. rewrite listed_rules in I. by destruct (C r I En).
Qed.


End InForce.

(** ** The routing configuration reaches the chat handler *)

(** The subscription made at start-up. *)
Definition set_chains {W} (cfg : Conf.RoutingConfig) (h : Chat.ChatHandler (W:=W)) : Chat.ChatHandler (W:=W) :=
  Chat.SetChains h (Startup.buildFallbackChains cfg).

Lemma chain_map_last (cs : list Chain) n :
  foldl (fun (m : gmap string Chain) c => <[ChainName c := c]> m) ∅ cs !! n =
  last (List.filter (fun c => String.eqb (ChainName c) n) cs).
Proof.
  induction cs as [|c cs IH] using rev_ind; [done|]. rewrite foldl_snoc, List.filter_app. simpl.
  destruct (String.eqb_spec (ChainName c) n) as [<-|N].
  - by rewrite lookup_insert_eq, last_snoc.
  - by rewrite lookup_insert_ne, app_nil_r by done.
Qed.

(** An accepted update is what the handler resolves chains with: the last chain of a name, or
    the provider named in the model. *)
Lemma updated_chains_served {W} cfg st (h : Chat.ChatHandler (W:=W)) model :
  let '(code, st', h') := routing_Update (Some cfg) (Subscribe set_chains (mkStore st [])) h in
  code = 200 /\ rs_cfg st' = cfg /\
  Chat.resolveChain h' model =
  match last (List.filter (fun c => String.eqb (ChainName c) model) (Startup.buildFallbackChains cfg)) with
  | Some c => c
  | None => let p := Chat.parseModel model in SingleTarget (ParsedProvider p) (ParsedModelName p)
  end.
Proof.
  simpl. split; [done|]. split; [done|]. unfold Chat.resolveChain, set_chains, Chat.SetChains. simpl.
  by rewrite chain_map_last.
Qed.

(** ** Examples and witnesses *)

Module Demo.

Definition enc_meta (m : gmap string string) : string := String "J" (text_of m).
Definition dec_meta (s : string) : gmap string string := default ∅ (of_text (drop_str 1 s)).
Definition enc_targets (ts : list RuleTarget) : string :=
  String "J" (text_of (map (fun t => (RTProvider t, RTModel t, RTWeight t)) ts)).
Definition dec_targets (s : string) : list RuleTarget :=
  match of_text (drop_str 1 s) with
  | Some l => map (fun t : string * string * Z => mkRuleTarget t.1.1 t.1.2 t.2) l
  | None => []
  end.
Definition order : list rule_row -> list rule_row := insertionSort older_first.

Lemma older_first_weak : StrictWeak older_first.
Proof.
  unfold older_first. split; intros *; rewrite ?orb_true_iff, ?andb_true_iff, ?orb_false_iff, ?andb_false_iff,
    ?Z.ltb_lt, ?Z.ltb_ge, ?Z.eqb_eq, ?Z.eqb_neq; lia.
Qed.

#[global] Instance order_sorts : SliceSorter older_first order.
Proof. apply insertionSort_sorter, older_first_weak. Qed.

Definition db : gmap UUID rule_row :=
  {["high" := row_of enc_meta enc_targets (Routing.demo_rule "high" 9 Routing.demo_match StrategyWeighted)]}.
Definition bad_rule : RouteRule :=
  Routing.demo_rule "bad" 5 (mkRouteMatch "" "" "(" None None None None ∅ 0 0 false) StrategyDirect.
Definition start (db : gmap UUID rule_row) : State :=
  mkState db (Startup.buildAdvancedRouter Routing.demo_Compile Routing.demo_sort ∅ (List_ dec_meta dec_targets order true db)
                (Cost.NewCalculator ∅)) ∅.
Abbreviation create r := (handler_Create enc_meta dec_meta enc_targets dec_targets (fun _ => true) order
  Routing.demo_Compile Routing.demo_sort true true (RuleName r) 7000 (Some r)).

End Demo.

Lemma rule_read_back_witness :
  scanRoutingRule Demo.dec_meta Demo.dec_targets
    (row_of Demo.enc_meta Demo.enc_targets (Routing.demo_rule "high" 9 Routing.demo_match StrategyWeighted)) =
  Routing.demo_rule "high" 9 Routing.demo_match StrategyWeighted.
Proof.
  apply (rule_read_back Demo.enc_meta Demo.dec_meta Demo.enc_targets Demo.dec_targets
    (Routing.demo_rule "high" 9 Routing.demo_match StrategyWeighted)).
  - split.
    + unfold Demo.dec_meta, Demo.enc_meta. cbn [drop_str]. by rewrite of_text_of.
    + intros [E|E]; discriminate E.
    + unfold Demo.dec_targets, Demo.enc_targets. cbn [drop_str]. by rewrite of_text_of.
    + discriminate.
  - reflexivity.
Defined.


(** A rule whose pattern does not compile is accepted and stored; the engine keeps its old rules,
    and the next start has no engine at all. *)
Example bad_pattern_accepted :
  let '(rep, s) := Demo.create Demo.bad_rule (Demo.start Demo.db) in
  match rep with RRule code _ => code | _ => 0 end = 201 /\ engine s = engine (Demo.start Demo.db) /\
  engine (Demo.start (rules_db s)) = None.
Proof. vm_compute. split; [reflexivity|]. split; reflexivity. Qed.

(** A dry run looks at the model and the metadata only: it reports a rule for a prefix the
    request does not have. *)
Example dry_run_ignores_prefix :
  match DryRun Demo.dec_meta Demo.dec_targets Demo.order true (Some ("claude-x", ∅)) (Demo.start Demo.db) with
  | RDryRun (Some r) => RuleName r
  | _ => ""
  end = "high" /\
  Routing.Matches Contains (Routing.mkCompiled (Routing.demo_rule "high" 9 Routing.demo_match StrategyWeighted) None) None
    (simple_request "claude-x" []) 0 = false.
Proof. vm_compute. split; reflexivity. Qed.

End RoutingAdmin.
