(* ===== verification/Gateway.v ===== *)
(** * The request path of /v1/chat/completions (internal/gateway/router/router.go,
    internal/gateway/middleware/prompt_injection.go)

    [Setup] nests the middlewares around the chat handler in the order of the router:
    authentication, rate limit, budget, cache, guardrails, residency, prompt, experiment. Each
    middleware is a function from handlers to handlers; the decisions are those of the components'
    own files, and their state is the state of the gateway, the log context of the request
    included. One request runs at a time here; [CacheFlights] has the requests in flight together. *)

From S2P Require Import Prelude GoStrings Float64 Types ProviderErrors LoadBalancer Fallback Cost VirtualKey Routing RateLimit Budget.
From S2P Require Import Access ExactCache Chat Guardrail Prompts ABTest Logs.
Local Open Scope Z_scope.

Module Gateway.

(** ** Requests and answers *)

(** A request as the middlewares see it: the headers they read, the body, and what earlier ones
    put into its context. *)
Record request := mkRq {
  rq_authorization : string;
  rq_policy : string;
  rq_headers : gmap string string;
  rq_path : string;
  rq_remote : string;
  rq_body : string;
  rq_key : option VK.VirtualKey;
  rq_ctx : Tenant.Ctx
}.

Definition with_key (k : VK.VirtualKey) (r : request) : request :=
  mkRq (rq_authorization r) (rq_policy r) (rq_headers r) (rq_path r) (rq_remote r) (rq_body r) (Some k) (rq_ctx r).
Definition with_body (b : string) (r : request) : request :=
  mkRq (rq_authorization r) (rq_policy r) (rq_headers r) (rq_path r) (rq_remote r) b (rq_key r) (rq_ctx r).
Definition with_ctx (c : Tenant.Ctx) (r : request) : request :=
  mkRq (rq_authorization r) (rq_policy r) (rq_headers r) (rq_path r) (rq_remote r) (rq_body r) (rq_key r) c.

Inductive reply :=
| Unauthorized (msg : string)
| RateLimited (e : RL.rateLimitError)
| OverBudget (e : Budget.ErrBudgetExceeded)
| FromCache (e : Exact.Entry) (stream : bool)
| GuardBlocked (e : Guard.BlockError)
| OutputBlocked (e : Guard.BlockError)
| Chatted (r : Chat.response)
| Written (code : Z) (body : string).

(** The handler panicked: what a middleware does after the next handler is not done. *)
Definition panicked (rep : reply) : bool :=
  match rep with Chatted Chat.HPanic => true | _ => false end.

(** [io.LimitReader(r.Body, 10<<20)]. *)
Definition limited (b : string) : string :=
  if Z.of_nat (String.length b) <=? 10 * 2 ^ 20 then b else take_str (Z.to_nat (10 * 2 ^ 20)) b.

(** [lc.CostUSD = cost]. *)
Definition set_cost (c : float64) (l : Telemetry.RequestLogContext) : Telemetry.RequestLogContext :=
  Telemetry.mkLC (Telemetry.LVirtualKeyID l) (Telemetry.LUserID l) (Telemetry.LTeamID l) (Telemetry.LOrgID l)
    (Telemetry.LModel l) (Telemetry.LProvider l) (Telemetry.LPromptTokens l) (Telemetry.LCompletionTokens l)
    (Telemetry.LTotalTokens l) (Telemetry.LFinishReason l) (Telemetry.LErrorCode l) (Telemetry.LErrorMessage l)
    (Telemetry.LIsStreaming l) (Telemetry.LTTFTAt l) c (Telemetry.LCacheResult l).

Section Gateway.
Context {W : Type} `{HW : World W}.

(** The state of the gateway that a request can change. *)
Record sys := mkSys {
  s_auth : VK.AuthState;
  s_limits : RL.Redis;
  s_budget : Budget.State;
  s_cache : gmap string (string * option Time);
  s_log : Telemetry.RequestLogContext;
  s_world : W
}.

Definition set_auth a s := mkSys a (s_limits s) (s_budget s) (s_cache s) (s_log s) (s_world s).
Definition set_limits l s := mkSys (s_auth s) l (s_budget s) (s_cache s) (s_log s) (s_world s).
Definition set_budget b s := mkSys (s_auth s) (s_limits s) b (s_cache s) (s_log s) (s_world s).
Definition set_cache c s := mkSys (s_auth s) (s_limits s) (s_budget s) c (s_log s) (s_world s).
Definition set_log l s := mkSys (s_auth s) (s_limits s) (s_budget s) (s_cache s) l (s_world s).
Definition set_chat l w s := mkSys (s_auth s) (s_limits s) (s_budget s) (s_cache s) l w.

(** What happens around one request: the clock before and after, which calls to Redis and the
    database succeed, what the stream's client and keepalive do. *)
Record env := mkEnv {
  e_now : Time;
  e_done : Time;
  e_auth : VK.faults;
  e_limiter_ok : bool;
  e_budget : Budget.faults;
  e_get_ok : bool;
  e_set_ok : bool;
  e_schedule : list StreamChunk -> list Sse.input;
  e_id : string;
  e_created : Z
}.

(** Hashing, float arithmetic of Postgres and Redis, case mapping, formatting, the JSON codecs,
    and how an answer is written. *)
Context (HashKey : string -> string) (numeric_add incr_float : float64 -> float64 -> float64)
        (ToLower Quote : string -> string) (fmt_g : float64 -> string) (err_text : PErr.goerror -> string)
        (Unmarshal : string -> res string ChatCompletionRequest) (Marshal : ChatCompletionRequest -> option string)
        (decode_response : string -> option ChatCompletionResponse) (render : reply -> Z * string)
        `{HC : Exact.Codec}.
(** The prompt service: the order of a query without ORDER BY, the decoding of variable lists,
    the database calls and tables. *)
Context (scan : list Prompts.PromptRow -> list Prompts.PromptRow) (parse_vars : string -> list Prompts.VariableDef)
        (prompt_calls : nat -> Prompts.dbcall) (prompt_db : Prompts.DB).
(** The components of the gateway. *)
Context (calc : option Cost.Calculator) (cacheMw : option Exact.Cache) (guardrails : Guard.Manager)
        (abtests : ABTest.MwState) (chat : Chat.ChatHandler (W:=W)).

Abbreviation handler := (request -> sys -> reply * sys).

Definition decode (b : string) : option ChatCompletionRequest :=
  match Unmarshal (limited b) with Ok r => Some r | Err _ => None end.

Section Stages.
Context (e : env).

(** ** The middlewares *)

Definition auth_mw (next : handler) : handler := fun r s =>
  match VK.Middleware HashKey (s_auth s) (rq_authorization r) (e_auth e) (e_now e) with
  | (VK.Reject msg, a) => (Unauthorized msg, set_auth a s)
  | (VK.Pass k, a) =>
      next (with_key k r)
        (set_log (Telemetry.SetVirtualKeyInfo (Some (VK.ID k)) (VK.UserID k) (VK.TeamID k) (VK.OrgID k) (s_log s))
           (set_auth a s))
  end.

(** The tokens recorded afterwards are those of the log context. *)
Definition rate_mw (next : handler) : handler := fun r s =>
  match RL.RateLimit (s_limits s) (rq_key r) None (e_limiter_ok e) (e_now e) (e_done e) with
  | (RL.Blocked err, l) => (RateLimited err, set_limits l s)
  | (RL.Forwarded, l) =>
      let '(rep, s) := next r (set_limits l s) in
      if panicked rep then (rep, s) else
      (rep, match rq_key r with
            | Some k => set_limits (RL.RecordTPM (s_limits s) k (Telemetry.LTotalTokens (s_log s)) (e_limiter_ok e) (e_done e)) s
            | None => s
            end)
  end.

(** The cost of the request goes into the log context and to the budgets. *)
Definition budget_mw (next : handler) : handler := fun r s =>
  match rq_key r with
  | None => next r s
  | Some k =>
      match Budget.CheckBudget (s_budget s) (e_budget e) "key" (VK.ID k) (e_now e) with
      | (Some exc, b) => (OverBudget exc, set_budget b s)
      | (None, b) =>
          let '(rep, s) := next r (set_budget b s) in
          if panicked rep then (rep, s) else
          let lc := Budget.mkLog (Telemetry.LModel (s_log s)) (Telemetry.LPromptTokens (s_log s))
                      (Telemetry.LCompletionTokens (s_log s)) in
          let '(cost, b) := Budget.record_usage numeric_add incr_float ToLower (s_budget s) (e_budget e) calc k (Some lc)
                              (e_done e) in
          (rep, set_log (match cost with Some c => set_cost c (s_log s) | None => s_log s end) (set_budget b s))
      end
  end.

(** The call as the cache sees it, with the answer of the next handler. *)
Definition cache_call (r : request) (code : Z) (body : string) : Exact.call :=
  Exact.mkCall (rq_path r) (decode (rq_body r)) (rq_headers r) code body (decode_response body).

Definition cache_mw (next : handler) : handler := fun r s =>
  match cacheMw with
  | None => next r s
  | Some c =>
      if negb (HasSuffix (rq_path r) "/chat/completions") then next r s else
      match Exact.Handler c (s_cache s) (cache_call r 0 "") (e_get_ok e) (e_set_ok e) (e_now e) with
      | (Exact.FromCache entry stream, _) =>
          (FromCache entry stream, set_log (Telemetry.SetCacheResult "hit" (s_log s)) s)
      | _ =>
          let '(rep, s) := next (with_body (limited (rq_body r)) r) s in
          if panicked rep then (rep, s) else
          let '(code, body) := render rep in
          match Exact.Handler c (s_cache s) (cache_call r code body) (e_get_ok e) (e_set_ok e) (e_now e) with
          | (Exact.Recorded code body, st) => (Written code body, set_cache st s)
          | (_, st) => (rep, set_cache st s)
          end
      end
  end.

(** The body the next handler gets: rewritten when a message was masked. *)
Definition masked_body (r : request) (req : ChatCompletionRequest) (ms : list Message) : string :=
  if bool_decide ((fun m => Content m) <$> ms = (fun m => Content m) <$> Messages req) then limited (rq_body r)
  else default "" (Marshal (mkRequest (Model req) ms (Temperature req) (MaxTokens req) (TopP req) (ReqN req) (Stream req)
                     (ReqStreamOptions req) (Stop req) (PresencePenalty req) (FrequencyPenalty req) (User req) (Tools req)
                     (Metadata req) (PromptSlug req) (PromptVariables req))).

Definition guard_mw (next : handler) : handler := fun r s =>
  if negb (bool_decide (is_Some (Guard.pipeline guardrails))) || negb (HasSuffix (rq_path r) "/chat/completions") then next r s
  else match decode (rq_body r) with
  | None => next (with_body (limited (rq_body r)) r) s
  | Some req =>
      let check := Guard.GuardrailCheck guardrails (rq_path r) (Some req) in
      match check (fun _ => (0, "")) with
      | Guard.Blocked err => (GuardBlocked err, s)
      | Guard.Passed ms | Guard.OutputBlocked ms _ | Guard.Filtered ms _ _ | Guard.Empty ms =>
          let '(rep, s) := next (with_body (masked_body r req ms) r) s in
          if panicked rep then (rep, s) else
          match check (fun _ => render rep) with
          | Guard.OutputBlocked _ err => (OutputBlocked err, s)
          | Guard.Filtered _ code text => (Written code text, s)
          | Guard.Empty _ => (Written 200 "", s)
          | _ => (rep, s)
          end
      end
  end.

(** Mounted when there is an enforcer. *)
Definition residency_mw (next : handler) : handler := fun r s =>
  match Chat.residencyEnforcer chat with
  | None => next r s
  | Some _ => next (with_ctx (Residency.DataResidency (rq_policy r) (rq_ctx r)) r) s
  end.

(** ** middleware/prompt_injection.go *)

(** The body with the rendered prompt in front, or the body as it was read. *)
Definition injected (b : string) : string :=
  let b := limited b in
  match Unmarshal b with
  | Err _ => b
  | Ok req =>
      if String.eqb (PromptSlug req) "" then b
      else match Prompts.RenderActive scan parse_vars prompt_calls (PromptSlug req) (PromptVariables req) prompt_db with
           | Err _ => b
           | Ok (rendered, _) =>
               default b (Marshal (mkRequest (Model req) (mkMessage "system" rendered :: Messages req) (Temperature req)
                 (MaxTokens req) (TopP req) (ReqN req) (Stream req) (ReqStreamOptions req) (Stop req) (PresencePenalty req)
                 (FrequencyPenalty req) (User req) (Tools req) (Metadata req) "" ∅))
           end
  end.

Definition prompt_mw (next : handler) : handler := fun r s => next (with_body (injected (rq_body r)) r) s.

Definition ab_mw (next : handler) : handler := fun r s =>
  match ABTest.Handler (fun b => match Unmarshal b with Ok q => Some q | Err _ => None end) Marshal abtests
          (ABTest.mkCall (rq_path r) "POST" (Some (rq_body r)) (rq_authorization r) (rq_remote r)) (e_now e) with
  | ABTest.FBody b => next (with_body b r) s
  | ABTest.FAssigned b _ _ _ => next (with_body b r) s
  | _ => next r s
  end.

Definition chat_handler : handler := fun r s =>
  let '(resp, l, w) := Chat.Handle Quote fmt_g err_text Unmarshal chat (rq_ctx r) (Some (rq_body r)) (e_schedule e) (e_id e)
                         (e_created e) (s_log s) (s_world s) in
  (Chatted resp, set_chat l w s).

(** ** router.go *)

Definition Setup : handler :=
  auth_mw (rate_mw (budget_mw (cache_mw (guard_mw (residency_mw (prompt_mw (ab_mw chat_handler))))))).

(** ** Theorems *)

(** The request passed authentication with a valid key, the rate limiter and the key's budget. *)
Definition admitted (r : request) (s : sys) (k : VK.VirtualKey) : Prop :=
  (VK.Middleware HashKey (s_auth s) (rq_authorization r) (e_auth e) (e_now e)).1 = VK.Pass k /\
  VK.IsValid k (e_now e) = Ok tt /\
  (RL.RateLimit (s_limits s) (Some k) None (e_limiter_ok e) (e_now e) (e_done e)).1 = RL.Forwarded /\
  (Budget.CheckBudget (s_budget s) (e_budget e) "key" (VK.ID k) (e_now e)).1 = None.

(** No user message of the request is blocked by an input guardrail. *)
Definition unblocked (r : request) : Prop :=
  forall p req m, Guard.pipeline guardrails = Some p -> HasSuffix (rq_path r) "/chat/completions" = true ->
    decode (rq_body r) = Some req -> m ∈ Messages req -> Guard.checked m -> ~ Guard.blocked_input p (Content m).

Lemma take_str_length n b : (String.length (take_str n b) <= n)%nat.
Proof. revert b. induction n as [|n IH]; intros [|c b]; simpl; try lia. specialize (IH b). lia. Qed.

Lemma limited_idem b : limited (limited b) = limited b.
Proof.
  unfold limited at 2 3. destruct (Z.leb_spec (Z.of_nat (String.length b)) (10 * 2 ^ 20)) as [L|G].
  - unfold limited. by rewrite (proj2 (Z.leb_le _ _) L).
  - unfold limited. rewrite (proj2 (Z.leb_le _ _)); [done|]. pose proof (take_str_length (Z.to_nat (10 * 2 ^ 20)) b). lia.
Qed.

Lemma decode_limited b : decode (limited b) = decode b.
Proof. unfold decode. by rewrite limited_idem. Qed.

(** The innermost part: the handler, behind the middlewares that only rewrite the request. *)
Abbreviation inner := (residency_mw (prompt_mw (ab_mw chat_handler))).

Lemma chat_handler_sys r s : exists resp l w, chat_handler r s = (Chatted resp, set_chat l w s).
Proof. unfold chat_handler. destruct (Chat.Handle _ _ _ _ _ _ _ _ _ _ _ _) as [[resp l] w]. eauto. Qed.

Lemma inner_sys r s : exists resp l w, inner r s = (Chatted resp, set_chat l w s).
Proof.
  unfold residency_mw, prompt_mw, ab_mw.
  destruct (Chat.residencyEnforcer chat); destruct (ABTest.Handler _ _ _ _ _); apply chat_handler_sys.
Qed.

(** What a stage behind the budget may do: leave the world alone, or reach it with a request no
    guardrail blocks; the answer is never one of the earlier stages' refusals. *)
Definition behind (r : request) (s s' : sys) (rep : reply) : Prop :=
  s_auth s' = s_auth s /\ s_limits s' = s_limits s /\ s_budget s' = s_budget s /\
  match rep with
  | Unauthorized _ | RateLimited _ | OverBudget _ => False
  | FromCache _ _ => s_cache s' = s_cache s /\ s_world s' = s_world s
  | GuardBlocked _ => s_world s' = s_world s
  | OutputBlocked _ | Chatted _ | Written _ _ => s_world s' = s_world s \/ unblocked r
  end.

Lemma guard_behind r s : let '(rep, s') := guard_mw inner r s in
  behind r s s' rep /\ s_cache s' = s_cache s /\ match rep with FromCache _ _ => False | _ => True end.
Proof.
  unfold guard_mw. destruct (_ || _) eqn:G.
  { destruct (inner_sys r s) as (resp & l & w & ->). split; [|done]. split_and!; try done. right.
    intros p req m P S. rewrite P, S in G. by rewrite bool_decide_eq_true_2 in G by eauto. }
  apply orb_false_iff in G as [P%negb_false_iff S%negb_false_iff]. apply bool_decide_eq_true in P as [p P].
  destruct (decode (rq_body r)) as [req|] eqn:D.
  2:{ destruct (inner_sys (with_body (limited (rq_body r)) r) s) as (resp & l & w & ->). split; [|done].
      split_and!; try done. right. intros p' req m _ _ D'. congruence. }
  unfold Guard.GuardrailCheck. rewrite P, S. simpl negb. cbv iota.
  pose proof (Guard.check_messages_spec p (Messages req)) as C.
  destruct (Guard.check_messages p (Messages req)) as [ms|err]; [|done]. destruct C as [_ NB].
  assert (unblocked r) as U.
  { intros p' req' m P' _ D' I Ck. rewrite P in P'. injection P' as <-. rewrite D in D'. injection D' as <-. by apply NB. }
  destruct (inner_sys (with_body (masked_body r req ms) r) s) as (resp & l & w & E).
  destruct (negb (Stream req) && Guard.HasOutput p); cbv beta iota zeta; rewrite E; cbv beta iota zeta;
    (destruct (panicked (Chatted resp)); [split; [|done]; split_and!; try done; by right|]).
  - destruct (render (Chatted resp)) as [code text]. destruct (negb (String.eqb text "")); simpl.
    + destruct (Guard.CheckOutput p text) as [t [be|]]; split; try done; split_and!; try done; by right.
    + split; try done; split_and!; try done; by right.
  - split; [|done]. split_and!; try done. by right.
Qed.

Lemma cache_behind r s : let '(rep, s') := cache_mw (guard_mw inner) r s in behind r s s' rep.
Proof.
  unfold cache_mw. destruct cacheMw as [c|].
  2:{ pose proof (guard_behind r s) as B. destruct (guard_mw _ r s). by destruct B. }
  destruct (negb (HasSuffix (rq_path r) "/chat/completions")) eqn:S.
  { pose proof (guard_behind r s) as B. destruct (guard_mw _ r s). by destruct B. }
  assert (let '(rep, s') := (let '(rep, s0) := guard_mw inner (with_body (limited (rq_body r)) r) s in
            if panicked rep then (rep, s0) else
            let '(code, body) := render rep in
            match Exact.Handler c (s_cache s0) (cache_call r code body) (e_get_ok e) (e_set_ok e) (e_now e) with
            | (Exact.Recorded code body, st) => (Written code body, set_cache st s0)
            | (_, st) => (rep, set_cache st s0)
            end) in behind r s s' rep) as N.
  { pose proof (guard_behind (with_body (limited (rq_body r)) r) s) as B.
    destruct (guard_mw _ _ s) as [rep s0]. destruct B as ((A & L & Bu & B) & _ & NC).
    assert (unblocked (with_body (limited (rq_body r)) r) -> unblocked r) as UU.
    { intros U p req m P Sf D. apply (U p req m P Sf). simpl. by rewrite decode_limited. }
    destruct (panicked rep); [split_and!; try done; destruct rep; simpl in *; tauto|]. destruct (render rep) as [code body].
    destruct (Exact.Handler _ _ _ _ _ _) as [[| |code' body'] st]; split_and!; try done; destruct rep; simpl in *; tauto. }
  destruct (Exact.Handler c (s_cache s) (cache_call r 0 "") _ _ _) as [[|en st|code body] st']; [exact N|done|exact N].
Qed.

(** C2. The order of the gates. A request without a valid key touches no limiter, budget,
    cache or provider; one over its rate limit touches no budget, cache or provider; one over
    budget or answered from the cache reaches no provider and changes no cache entry; every
    answer behind the budget, cached ones included, is given to a request with a valid key that
    the limiter and the budget of the key let pass, and whenever a provider can have been called
    no user message of the request is blocked by an input guardrail. *)
Theorem chat_gates r s :
  let '(rep, s') := Setup r s in
  match rep with
  | Unauthorized _ => s_limits s' = s_limits s /\ s_budget s' = s_budget s /\ s_cache s' = s_cache s /\ s_world s' = s_world s
  | RateLimited _ => s_budget s' = s_budget s /\ s_cache s' = s_cache s /\ s_world s' = s_world s
  | OverBudget _ => s_cache s' = s_cache s /\ s_world s' = s_world s
  | FromCache _ _ => s_cache s' = s_cache s /\ s_world s' = s_world s /\ exists k, admitted r s k
  | GuardBlocked _ => s_world s' = s_world s /\ exists k, admitted r s k
  | OutputBlocked _ | Chatted _ | Written _ _ => (s_world s' = s_world s \/ unblocked r) /\ exists k, admitted r s k
  end.
Proof.
  unfold Setup, auth_mw.
  destruct (VK.Middleware _ _ _ _ _) as [[msg|k] a] eqn:M; [done|].
  assert (VK.IsValid k (e_now e) = Ok tt) as V.
  { pose proof (VK.Middleware_cases HashKey (s_auth s) (rq_authorization r) (e_auth e) (e_now e)) as C. rewrite M in C.
    simpl in C. naive_solver. }
  unfold rate_mw. cbn [rq_key with_key s_limits set_auth set_log].
  destruct (RL.RateLimit _ _ _ _ _ _) as [[err|] l] eqn:R; [done|].
  unfold budget_mw. cbn [rq_key with_key s_budget set_auth set_limits set_log].
  destruct (Budget.CheckBudget _ _ _ _ _) as [[x|] b] eqn:B; [done|].
  match goal with |- context [cache_mw ?n ?q ?s1] => pose proof (cache_behind q s1) as H; destruct (cache_mw n q s1) as [rep s1'] end.
  destruct H as (_ & _ & _ & H).
  assert (exists k, admitted r s k) as A by (exists k; unfold admitted; by rewrite M, R, B).
  destruct (panicked rep) eqn:Pk; [|destruct (Budget.record_usage _ _ _ _ _ _ _ _ _)]; cbv beta iota zeta; rewrite Pk;
    clear M R B; destruct rep; simpl in *; tauto.
Qed.

(** ** What is logged of a request *)

(** Who a request is accounted to, and its cost. *)
Definition account (l : Telemetry.RequestLogContext) :=
  (Telemetry.LVirtualKeyID l, Telemetry.LUserID l, Telemetry.LTeamID l, Telemetry.LOrgID l, Telemetry.LCostUSD l).

Lemma stream_loop_account render_chunk ins l : account (Sse.stream_loop err_text render_chunk ins l).2 = account l.
Proof.
  revert l. induction ins as [|[| |c now|] ins IH]; intros l; cbn [Sse.stream_loop]; try done.
  - specialize (IH l). by destruct (Sse.stream_loop _ _ ins l).
  - destruct (SError c); [done|]. specialize (IH (Sse.note_chunk c now l)).
    destruct (Sse.stream_loop _ _ ins _) as [out l']. cbn in *. rewrite IH. unfold Sse.note_chunk.
    destruct (negb _); repeat case_match; try done; unfold Telemetry.RecordTTFT; by case_match.
Qed.

Lemma Handle_account ctx body sch id created l w :
  account (Chat.Handle Quote fmt_g err_text Unmarshal chat ctx body sch id created l w).1.2 = account l.
Proof.
  unfold Chat.Handle. destruct body as [body|]; [|done]. destruct (Unmarshal body) as [req|]; [|done].
  destruct (Chat.validateChatRequest _ _); [|done]. cbv zeta.
  destruct (_ =? 0); [done|]. set (filtered := match Chat.residencyEnforcer chat with Some _ => _ | None => _ end).
  destruct filtered as [chain|]; [|done]. destruct (Stream req).
  - unfold Chat.handleStream. destruct (Fallback.ExecuteStream _ _ _ _ _ _) as [[[ch used]|[er x]] w1]; [|by case_match].
    unfold Sse.StreamChannelToClient.
    match goal with |- context [Sse.stream_loop _ ?rd ?ins ?l0] => pose proof (stream_loop_account rd ins l0) as H;
      destruct (Sse.stream_loop _ rd ins l0) end.
    cbn in *. rewrite H. by case_match.
  - destruct (Fallback.Execute _ _ _ _ _ _) as [[[[resp|] used]|[er x]] w1]; repeat case_match; done.
Qed.

Lemma inner_account r s : account (s_log (inner r s).2) = account (s_log s).
Proof.
  assert (forall r, account (s_log (chat_handler r s).2) = account (s_log s)) as H.
  { intros q. unfold chat_handler.
    pose proof (Handle_account (rq_ctx q) (Some (rq_body q)) (e_schedule e) (e_id e) (e_created e) (s_log s) (s_world s)) as H.
    destruct (Chat.Handle _ _ _ _ _ _ _ _ _ _ _ _) as [[resp l] w]. done. }
  unfold residency_mw, prompt_mw, ab_mw.
  destruct (Chat.residencyEnforcer chat); destruct (ABTest.Handler _ _ _ _ _); apply H.
Qed.

(** What the stages behind the budget do to the log context. *)
Definition noted (s s' : sys) (rep : reply) : Prop :=
  account (s_log s') = account (s_log s) /\
  match rep with
  | FromCache _ _ | GuardBlocked _ => Telemetry.LModel (s_log s') = Telemetry.LModel (s_log s)
  | _ => True
  end.

Lemma guard_noted r s : let '(rep, s') := guard_mw inner r s in noted s s' rep.
Proof.
  assert (forall q, let '(rep, s') := inner q s in noted s s' rep) as H.
  { intros q. pose proof (inner_account q s) as A. destruct (inner_sys q s) as (resp & l & w & E). rewrite E in *. done. }
  unfold guard_mw. destruct (_ || _); [apply H|]. destruct (decode (rq_body r)) as [req|]; [|apply H].
  cbv zeta. destruct (Guard.GuardrailCheck _ _ _ _); [done|..].
  all: specialize (H (with_body (masked_body r req ms) r)); pose proof (inner_sys (with_body (masked_body r req ms) r) s) as (resp & l & w & E).
  all: rewrite E in *; cbv beta iota; destruct (panicked _); [done|]; destruct H; destruct (Guard.GuardrailCheck _ _ _ _); by split.
Qed.

Lemma cache_noted r s : let '(rep, s') := cache_mw (guard_mw inner) r s in noted s s' rep.
Proof.
  unfold cache_mw. destruct cacheMw as [c|]; [|apply guard_noted].
  destruct (negb _); [apply guard_noted|].
  assert (let '(rep, s') := (let '(rep, s0) := guard_mw inner (with_body (limited (rq_body r)) r) s in
            if panicked rep then (rep, s0) else
            let '(code, body) := render rep in
            match Exact.Handler c (s_cache s0) (cache_call r code body) (e_get_ok e) (e_set_ok e) (e_now e) with
            | (Exact.Recorded code body, st) => (Written code body, set_cache st s0)
            | (_, st) => (rep, set_cache st s0)
            end) in noted s s' rep) as N.
  { pose proof (guard_noted (with_body (limited (rq_body r)) r) s) as B. destruct (guard_mw _ _ s) as [rep s0].
    destruct (panicked rep); [done|]. destruct (render rep), (Exact.Handler _ _ _ _ _ _) as [[] st]; try done.
    destruct B. by split. }
  destruct (Exact.Handler c (s_cache s) (cache_call r 0 "") _ _ _) as [[|en st|code body] st']; [exact N|done|exact N].
Qed.

(** The entry of a request whose cost was put into the log context. *)
Lemma charged_entry reqID start done_ es l cost entry :
  (LogWriter.RequestLogger reqID start done_ (match cost with Some c => set_cost c l | None => l end) es).1 = Some entry ->
  Telemetry.LModel l <> "" /\ LogWriter.Model entry = Telemetry.LModel l /\
  LogWriter.PromptTokens entry = Telemetry.LPromptTokens l /\ LogWriter.CompletionTokens entry = Telemetry.LCompletionTokens l /\
  (LogWriter.VirtualKeyID entry, LogWriter.UserID entry, LogWriter.TeamID entry, LogWriter.OrgID entry) =
    (Telemetry.LVirtualKeyID l, Telemetry.LUserID l, Telemetry.LTeamID l, Telemetry.LOrgID l) /\
  LogWriter.CostUSD entry = default (Telemetry.LCostUSD l) cost.
Proof.
  unfold LogWriter.RequestLogger. destruct cost as [c|]; cbn [set_cost Telemetry.LModel];
    destruct (String.eqb_spec (Telemetry.LModel l) ""); try done; by intros [= <-].
Qed.

(** C24. Log entries are attributed. When a chat request that did not panic leaves an entry in the
    log, it had passed the gates with a key: the entry names that key, its user, team and
    organisation, and its cost is what was charged to their budgets, computed from the model and
    tokens of the entry. A request that was refused at a gate, blocked by a guardrail on its way in
    or answered from the cache leaves no entry. *)
Theorem log_entries_attributed reqID start done_ es r s entry :
  s_log s = Telemetry.empty_log ->
  let '(rep, s') := Setup r s in
  panicked rep = false ->
  (LogWriter.RequestLogger reqID start done_ (s_log s') es).1 = Some entry ->
  exists k cost b, admitted r s k /\
    (LogWriter.VirtualKeyID entry, LogWriter.UserID entry, LogWriter.TeamID entry, LogWriter.OrgID entry) =
      (Some (VK.ID k), VK.UserID k, VK.TeamID k, VK.OrgID k) /\
    Budget.record_usage numeric_add incr_float ToLower b (e_budget e) calc k
      (Some (Budget.mkLog (LogWriter.Model entry) (LogWriter.PromptTokens entry) (LogWriter.CompletionTokens entry)))
      (e_done e) = (cost, s_budget s') /\
    LogWriter.CostUSD entry = default f64_0 cost /\
    match rep with OutputBlocked _ | Chatted _ | Written _ _ => True | _ => False end.
Proof.
  intros L. unfold Setup, auth_mw.
  destruct (VK.Middleware _ _ _ _ _) as [[msg|k] a] eqn:M; [cbn; by rewrite L|].
  assert (VK.IsValid k (e_now e) = Ok tt) as V.
  { pose proof (VK.Middleware_cases HashKey (s_auth s) (rq_authorization r) (e_auth e) (e_now e)) as C. rewrite M in C.
    simpl in C. naive_solver. }
  unfold rate_mw. cbn [rq_key with_key s_limits set_auth set_log].
  destruct (RL.RateLimit _ _ _ _ _ _) as [[err|] l] eqn:R; [cbn; by rewrite L|].
  unfold budget_mw. cbn [rq_key with_key s_budget set_auth set_limits set_log].
  destruct (Budget.CheckBudget _ _ _ _ _) as [[x|] b] eqn:B; [cbn; by rewrite L|].
  assert (admitted r s k) as A by (unfold admitted; by rewrite M, R, B).
  match goal with |- context [cache_mw ?n ?q ?s1] =>
    pose proof (cache_noted q s1) as H; pose proof (cache_behind q s1) as G; destruct (cache_mw n q s1) as [rep s1'] end.
  destruct H as [H Hm], G as (_ & _ & _ & G). cbn [s_log set_budget set_limits set_log] in H, Hm. rewrite L in H, Hm. clear M R B V.
  destruct (panicked rep) eqn:Pk; cbv beta iota zeta; [rewrite Pk; congruence|].
  destruct (Budget.record_usage _ _ _ _ _ _ _ _ _) as [cost b'] eqn:U. cbv beta iota zeta. rewrite Pk. intros _.
  cbn [s_log s_budget set_limits set_log set_budget]. intros En. apply charged_entry in En as (Nm & Em & Ep & Ec & Eo & Ex).
  exists k, cost, (s_budget s1'). rewrite Em, Ep, Ec, Eo, Ex. unfold account in H. injection H as -> -> -> -> ->.
  split_and!; [done..|]. destruct rep; try done; by rewrite Hm in Nm.
Qed.

End Stages.
End Gateway.

(** ** A gateway in operation *)

#[local] Existing Instance Fallback.sim_world.

Section Demo.
Context `{Exact.Codec}.

Definition demo_time : Time := Budget.demo_day + Hour.
Definition demo_env : env :=
  mkEnv demo_time demo_time (VK.mkFaults true true true) true Budget.no_faults true true (fun _ => []) "id" 0.
Definition demo_rq (header : string) : request :=
  mkRq header "eu" ∅ "/v1/chat/completions" "127.0.0.1" "{}" None Tenant.empty_ctx.
Definition demo_auth : VK.AuthState :=
  VK.mkAuth ((fun k => VK.mkVK (VK.ID k) (VK.KeyHash k) (VK.KeyPrefix k) (VK.Name k) (VK.UserID k) (VK.TeamID k) (VK.OrgID k)
    None (VK.BudgetUSD k) (VK.RPMLimit k) (VK.TPMLimit k) (VK.AllowedModels k) (VK.BlockedModels k) "" true 0 0 None)
    <$> VK.db VK.demo_state) ∅.
Definition demo_sys (b : Budget.State) : sys :=
  mkSys demo_auth ∅ b ∅ Telemetry.empty_log (Fallback.sim_start 5).

(** The answer to a request, with no cache and the given guardrails. *)
Definition demo_serve (guardrails : Guard.Manager) (header : string) (b : Budget.State) : reply :=
  (Setup VK.demo_hash f64_add f64_add ascii_ToLower id (fun _ => "") (fun _ => "") (fun _ => Ok Chat.demo_request)
     (fun _ => None) (fun _ => None) (fun _ => (200, "")) id (fun _ => []) (fun _ => Prompts.mkDbCall "" 0 None)
     (Prompts.mkDB [] []) None None guardrails (ABTest.mkMw (ABTest.mkDB ∅ []) []) Chat.demo_handler demo_env (demo_rq header)
     (demo_sys b)).1.

Definition no_budget : Budget.State := Budget.mkState ∅ ∅ ∅.
Definition block_hi : Guard.Manager :=
  Guard.mkManager (Some (Guard.mkPipeline
    [Guard.mkGuard "custom_keywords" (Guard.keyword_Check ascii_ToLower true Guard.ActionBlock ["hi"])] [])).

(** The gates one after the other, and the answer behind them. *)
Example gates_in_operation :
  (exists msg, demo_serve Guard.NewManager "" no_budget = Unauthorized msg) /\
  (exists exc, demo_serve Guard.NewManager "Bearer sk-ABCDE" Budget.demo_state = OverBudget exc) /\
  (exists err, demo_serve block_hi "Bearer sk-ABCDE" no_budget = GuardBlocked err) /\
  demo_serve Guard.NewManager "Bearer sk-ABCDE" no_budget = Chatted (Chat.HJson Fallback.sim_response).
Proof.
  split_and!; [eexists; vm_compute; reflexivity..|vm_compute; reflexivity].
Qed.

End Demo.

(** The last of these requests, and its entry, which names its key. *)
Definition demo_run : reply * sys :=
  Setup (HC:=Exact.demo_codec) VK.demo_hash f64_add f64_add ascii_ToLower id (fun _ => "") (fun _ => "")
    (fun _ => Ok Chat.demo_request) (fun _ => None) (fun _ => None) (fun _ => (200, "")) id
    (fun _ => []) (fun _ => Prompts.mkDbCall "" 0 None) (Prompts.mkDB [] []) None None Guard.NewManager
    (ABTest.mkMw (ABTest.mkDB ∅ []) []) Chat.demo_handler demo_env (demo_rq "Bearer sk-ABCDE") (demo_sys no_budget).
Definition demo_entry : option LogWriter.LogEntry :=
  (LogWriter.RequestLogger "r1" demo_time demo_time (s_log demo_run.2) []).1.

Lemma log_entries_attributed_witness :
  exists entry k, demo_entry = Some entry /\ VK.ID k = "k1" /\ LogWriter.VirtualKeyID entry = Some (VK.ID k) /\
    admitted VK.demo_hash demo_env (demo_rq "Bearer sk-ABCDE") (demo_sys no_budget) k.
Proof.
  assert (panicked demo_run.1 = false) as P by (vm_compute; reflexivity).
  assert (LogWriter.VirtualKeyID <$> demo_entry = Some (Some "k1")) as I by (vm_compute; reflexivity).
  destruct demo_entry as [entry|] eqn:E; [|done]. injection I as I. exists entry.
  pose proof (log_entries_attributed (HC:=Exact.demo_codec) VK.demo_hash f64_add f64_add ascii_ToLower id (fun _ => "")
    (fun _ => "") (fun _ => Ok Chat.demo_request) (fun _ => None) (fun _ => None) (fun _ => (200, "")) id
    (fun _ => []) (fun _ => Prompts.mkDbCall "" 0 None) (Prompts.mkDB [] []) None None Guard.NewManager
    (ABTest.mkMw (ABTest.mkDB ∅ []) []) Chat.demo_handler demo_env "r1" demo_time demo_time []
    (demo_rq "Bearer sk-ABCDE") (demo_sys no_budget) entry eq_refl) as H.
  fold demo_run in H. unfold demo_entry in E. destruct demo_run as [rep s'].
  destruct (H P E) as (k & cost & b & A & O & _). exists k. injection O as O _ _ _. rewrite O in I. injection I as I. by split_and!.
Defined.


End Gateway.
