(* ===== verification/Metrics.v ===== *)
(** * Metrics, traces and what is recorded of a request (internal/telemetry/metrics.go, otel.go,
    tracer.go, internal/gateway/middleware/logging.go and cache.go)

    The metrics the program registers, the updates that a request makes to them, and how they
    agree with the request log and the health tracker; what the log of a chat request says of the
    key that sent it; and the trace identifier written beside it. The Prometheus library is the
    class [Prom] with the laws its documentation states, the tracing library the class [Otel]. *)

From stdpp Require Import pretty.
From S2P Require Import Prelude Float64 Types LoadBalancer Fallback Cost VirtualKey Budget Access ExactCache Chat.
From S2P Require Import Guardrail Adapters ABTest Health Prompts Logs Gateway.
Local Open Scope Z_scope.

Module Metrics.

(** ** metrics.go *)

Inductive kind := Counter | Gauge | Histogram (buckets : list float64) | GaugeFunc.

#[local] Existing Instance Exact.float64_eq_dec.

#[export] Instance kind_eq_dec : EqDecision kind.
Proof. solve_decision. Defined.

Record Family := mkFamily { fam_name : string; fam_help : string; fam_kind : kind; fam_labels : list string }.

#[export] Instance Family_eq_dec : EqDecision Family.
Proof. solve_decision. Defined.

Definition seconds_buckets : list float64 :=
  [f64_const 1 10; f64_const 25 100; f64_const 5 10; f64_of_Z 1; f64_const 25 10; f64_of_Z 5; f64_of_Z 10; f64_of_Z 30;
   f64_of_Z 60].

Definition RequestsTotal : Family :=
  mkFamily "gateway_requests_total" "Total number of LLM API requests completed." Counter
    ["provider"; "model"; "status"; "cache_result"].
Definition RequestDurationSeconds : Family :=
  mkFamily "gateway_request_duration_seconds" "LLM API request duration in seconds." (Histogram seconds_buckets)
    ["provider"; "model"].
Definition StreamingTTFTSeconds : Family :=
  mkFamily "gateway_streaming_ttft_seconds" "Time to first token for streaming LLM requests (seconds)."
    (Histogram [f64_const 5 100; f64_const 1 10; f64_const 25 100; f64_const 5 10; f64_of_Z 1; f64_of_Z 2; f64_of_Z 5;
                f64_of_Z 10]) ["provider"; "model"].
Definition TokensTotal : Family :=
  mkFamily "gateway_tokens_total" "Total tokens processed." Counter ["provider"; "model"; "type"].
Definition CostUSDTotal : Family :=
  mkFamily "gateway_cost_usd_total" "Cumulative LLM request cost in USD." Counter ["provider"; "model"; "team_id"].
Definition ProviderRequestsTotal : Family :=
  mkFamily "gateway_provider_requests_total" "Total requests sent to each LLM provider." Counter ["provider"; "status"].
Definition ProviderLatencySeconds : Family :=
  mkFamily "gateway_provider_latency_seconds" "LLM provider response latency in seconds." (Histogram seconds_buckets)
    ["provider"].
Definition ProviderHealth : Family :=
  mkFamily "gateway_provider_health" "Provider health status: 1=ok, 0=unhealthy." Gauge ["provider"].
Definition FallbackTotal : Family :=
  mkFamily "gateway_fallback_total" "Number of provider fallback events." Counter ["from_provider"; "to_provider"; "reason"].
Definition CircuitBreakerState : Family :=
  mkFamily "gateway_circuit_breaker_state" "Circuit breaker state per provider: 0=closed, 1=open, 2=half_open." Gauge
    ["provider"].
Definition CacheRequestsTotal : Family :=
  mkFamily "gateway_cache_requests_total" "Total cache lookup requests." Counter ["type"; "result"].
Definition CacheHitRatio : Family :=
  mkFamily "gateway_cache_hit_ratio" "Rolling cache hit ratio (approximate)." Gauge ["type"].
Definition RateLimitExceededTotal : Family :=
  mkFamily "gateway_rate_limit_exceeded_total" "Total requests rejected due to rate limiting." Counter
    ["entity_type"; "limit_type"].
Definition ActiveConnections : Family :=
  mkFamily "gateway_active_connections" "Current number of active HTTP connections." Gauge [].
Definition UptimeSeconds : Family :=
  mkFamily "gateway_uptime_seconds_total" "Total seconds the gateway has been running." Counter [].
Definition Goroutines : Family :=
  mkFamily "gateway_goroutines" "Current number of goroutines." GaugeFunc [].

(** In the order of their initialisation. *)
Definition families : list Family :=
  [RequestsTotal; RequestDurationSeconds; StreamingTTFTSeconds; TokensTotal; CostUSDTotal; ProviderRequestsTotal;
   ProviderLatencySeconds; ProviderHealth; FallbackTotal; CircuitBreakerState; CacheRequestsTotal; CacheHitRatio;
   RateLimitExceededTotal; ActiveConnections; UptimeSeconds; Goroutines].

(** ** The library *)

Inductive op := Inc | Add (v : float64) | Set_ (v : float64) | Observe (v : float64).

(** An update of the metric of a family with the given label values. *)
Record update := mkUpdate { u_family : Family; u_labels : list string; u_op : op }.

(** The state of the registry: [promauto] registers a family and [apply] is an update
    ([WithLabelValues] and the operation); both panic, which is [None]. [amount] is the whole
    number a counter or the sample count of a histogram has reached, [reading] the last value set. *)
Class Prom (M : Type) := {
  empty_registry : M;
  registered : M -> list Family;
  promauto : Family -> M -> option M;
  apply : M -> update -> option M;
  amount : M -> Family -> list string -> Z;
  reading : M -> Family -> list string -> option float64
}.

(** The characters of a name. *)
Definition name_char (c : ascii) : bool :=
  let n := Ascii.nat_of_ascii c in
  ((97 <=? n) && (n <=? 122) || (65 <=? n) && (n <=? 90) || (48 <=? n) && (n <=? 57) || (n =? 95))%nat.
Definition is_name (s : string) : bool :=
  match s with
  | EmptyString => false
  | String c _ => negb ((48 <=? Ascii.nat_of_ascii c) && (Ascii.nat_of_ascii c <=? 57))%nat && forallb name_char (String.list_ascii_of_string s)
  end.

Fixpoint increasing (bs : list float64) : bool :=
  match bs with
  | a :: (b :: _) as rest => f64_lt a b && increasing rest
  | _ => true
  end.

(** A family the library accepts: names of letters, digits and underscores, label names that are
    distinct and not reserved, buckets in increasing order. *)
Definition acceptable (f : Family) : Prop :=
  is_name (fam_name f) = true /\
  Forall (fun l => is_name l = true /\ HasPrefix l "__" = false /\ l <> "le") (fam_labels f) /\ NoDup (fam_labels f) /\
  match fam_kind f with Histogram bs => increasing bs = true | _ => True end.

(** An update the library performs: one value per label, an operation of the metric's kind, and
    nothing negative added to a counter. *)
Definition performed (u : update) : Prop :=
  length (u_labels u) = length (fam_labels (u_family u)) /\
  match fam_kind (u_family u), u_op u with
  | Counter, Inc => True
  | Counter, Add v => f64_lt v f64_0 = false
  | Gauge, (Inc | Add _ | Set_ _) => True
  | Histogram _, Observe _ => True
  | _, _ => False
  end.

(** What an operation adds to a counter or a sample count, when it is a whole number. *)
Definition whole (o : op) (n : Z) : Prop :=
  match o with
  | Inc | Observe _ => n = 1
  | Add v => v = f64_of_Z n /\ 0 <= n < 2 ^ 53
  | Set_ _ => n = 0
  end.

Class PromLaws (M : Type) `{Prom M} : Prop := {
  empty_registered : registered empty_registry = [];
  empty_amount : forall f ls, amount empty_registry f ls = 0;
  empty_reading : forall f ls, reading empty_registry f ls = None;
  amount_uint64 : forall m f ls, wrapu64 (amount m f ls) = amount m f ls;
  promauto_new : forall f m, acceptable f -> fam_name f ∉ fam_name <$> registered m ->
    exists m', promauto f m = Some m' /\ registered m' = registered m ++ [f] /\
      (forall g ls, amount m' g ls = amount m g ls) /\ (forall g ls, reading m' g ls = reading m g ls);
  apply_performed : forall m u, u_family u ∈ registered m -> performed u ->
    exists m', apply m u = Some m' /\ registered m' = registered m;
  apply_amount : forall m u m' n, apply m u = Some m' -> whole (u_op u) n -> fam_kind (u_family u) <> Gauge ->
    amount m' (u_family u) (u_labels u) = wrapu64 (amount m (u_family u) (u_labels u) + n);
  apply_reading : forall m u m' v, apply m u = Some m' -> u_op u = Set_ v ->
    reading m' (u_family u) (u_labels u) = Some v;
  apply_other : forall m u m' f ls, apply m u = Some m' -> (f, ls) <> (u_family u, u_labels u) ->
    amount m' f ls = amount m f ls /\ reading m' f ls = reading m f ls
}.

Section Registry.
Context {M : Type} `{HP : Prom M}.

(** Package initialisation. *)
Definition init_metrics : option M := foldl (fun m f => m ≫= promauto f) (Some empty_registry) families.

Definition apply_all (us : list update) (m : M) : option M := foldl (fun m u => m ≫= fun m => apply m u) (Some m) us.

(** ** The updates of a request (middleware/logging.go) *)

Definition cache_label (lc : Telemetry.RequestLogContext) : string :=
  if String.eqb (Telemetry.LCacheResult lc) "" then "miss" else Telemetry.LCacheResult lc.

(** [float64(ms) / 1000.0]. *)
Definition to_seconds (ms : Z) : float64 := f64_div (f64_of_Z ms) (f64_of_Z 1000).

Definition request_updates (lc : Telemetry.RequestLogContext) (entry : LogWriter.LogEntry) : list update :=
  let p := Telemetry.LProvider lc in
  let m := Telemetry.LModel lc in
  let latency := to_seconds (LogWriter.LatencyMs entry) in
  if String.eqb p "" then []
  else
    [mkUpdate RequestsTotal [p; m; pretty (LogWriter.StatusCode entry); cache_label lc] Inc;
     mkUpdate RequestDurationSeconds [p; m] (Observe latency)]
    ++ (if 0 <? Telemetry.LPromptTokens lc
        then [mkUpdate TokensTotal [p; m; "input"] (Add (f64_of_Z (Telemetry.LPromptTokens lc)))] else [])
    ++ (if 0 <? Telemetry.LCompletionTokens lc
        then [mkUpdate TokensTotal [p; m; "output"] (Add (f64_of_Z (Telemetry.LCompletionTokens lc)))] else [])
    ++ (if f64_lt f64_0 (Telemetry.LCostUSD lc)
        then [mkUpdate CostUSDTotal [p; m; default "" (Telemetry.LTeamID lc)] (Add (Telemetry.LCostUSD lc))] else [])
    ++ [mkUpdate ProviderRequestsTotal [p; if 500 <=? LogWriter.StatusCode entry then "error" else "success"] Inc;
        mkUpdate ProviderLatencySeconds [p] (Observe latency)]
    ++ match LogWriter.TTFTMs entry with
       | Some ttft => [mkUpdate StreamingTTFTSeconds [p; m] (Observe (to_seconds ttft))]
       | None => []
       end.

(** A request that was served: what the handlers left in its log context and wrote. *)
Record request := mkReq {
  r_id : string;
  r_start : Time;
  r_done : Time;
  r_lc : Telemetry.RequestLogContext;
  r_events : list LogWriter.response_event
}.

Definition r_logged (r : request) : option LogWriter.LogEntry * option (string * bool) :=
  LogWriter.RequestLogger (r_id r) (r_start r) (r_done r) (r_lc r) (r_events r).

Definition r_updates (r : request) : list update :=
  match (r_logged r).1 with Some e => request_updates (r_lc r) e | None => [] end.

(** What the three observers were told: entries handed to the log writer, outcomes handed to the
    health tracker, and the metrics. *)
Record Observed := mkObserved {
  written : list LogWriter.LogEntry;
  outcomes : list (string * bool);
  metrics : M
}.

(** The end of the request logger; [None] when an update panics. *)
Definition observe (o : Observed) (r : request) : option Observed :=
  let '(entry, outcome) := r_logged r in
  m ← apply_all (r_updates r) (metrics o);
  Some (mkObserved (written o ++ option_list entry) (outcomes o ++ option_list outcome) m).

Definition observe_all (m : M) (rs : list request) : option Observed :=
  foldl (fun o r => o ≫= fun o => observe o r) (Some (mkObserved [] [] m)) rs.

(** ** The updates of the cache and of the health handler *)

(** middleware/cache.go: a lookup counts as a hit or a miss. *)
Definition cache_updates `{Exact.Codec} (st : gmap string (string * option Time)) (q : Exact.call) (get_ok : bool) (now : Time)
  : list update :=
  if negb (HasSuffix (Exact.c_path q) "/chat/completions") then []
  else match Exact.c_req q with
       | None => []
       | Some req =>
           if negb (Exact.IsCacheable req true (Exact.c_headers q)) then []
           else if String.eqb (Exact.BuildKey req) "" then []
           else match Exact.Get st (Exact.BuildKey req) get_ok now with
                | Ok (Some _) => [mkUpdate CacheRequestsTotal ["exact"; "hit"] Inc]
                | _ => [mkUpdate CacheRequestsTotal ["exact"; "miss"] Inc]
                end
       end.

(** handler/health.go: the gauge of every provider. *)
Definition health_updates (ps : list (string * (string * float64))) : list update :=
  map (fun g => mkUpdate ProviderHealth [g.1] (Set_ g.2)) (Health.gauges ps).

(** ** Registration and the single updates *)

Context `{HL : !PromLaws M}.

Lemma families_acceptable : Forall acceptable families.
Proof.
  unfold acceptable. repeat apply Forall_cons_2; try apply Forall_nil_2; (split_and!;
    [vm_compute; reflexivity|repeat constructor; vm_compute; congruence|apply (bool_decide_unpack _); vm_compute; exact I|]);
    first [exact I|vm_compute; reflexivity].
Qed.

Lemma register_all fs m :
  Forall acceptable fs -> NoDup (fam_name <$> registered m ++ fs) ->
  exists m', foldl (fun m f => m ≫= promauto f) (Some m) fs = Some m' /\ registered m' = registered m ++ fs /\
    (forall g ls, amount m' g ls = amount m g ls) /\ (forall g ls, reading m' g ls = reading m g ls).
Proof.
  revert m. induction fs as [|f fs IH]; intros m A N; [exists m; by rewrite app_nil_r|].
  apply Forall_cons in A as [A As]. cbn [foldl mbind option_bind].
  rewrite fmap_app in N. pose proof N as (_ & D & _)%NoDup_app.
  destruct (promauto_new f m A) as (m1 & -> & R1 & A1 & G1).
  { intros I. apply (D _ I). cbn. left. }
  destruct (IH m1 As) as (m2 & E & R2 & A2 & G2); [by rewrite R1, <- app_assoc, fmap_app|].
  exists m2. rewrite R2, R1, <- app_assoc. split_and!; [done..| |]; intros g ls; [by rewrite A2|by rewrite G2].
Qed.

(** The metrics are registered when the program starts, without a panic, and start at zero. *)
Theorem metrics_register :
  exists m, init_metrics = Some m /\ registered m = families /\ (forall f ls, amount m f ls = 0).
Proof.
  destruct (register_all families empty_registry families_acceptable) as (m & E & R & A & _).
  - rewrite empty_registered. apply (bool_decide_unpack _). vm_compute. exact I.
  - exists m. rewrite R, empty_registered. split_and!; [done..|]. intros f ls. by rewrite A, empty_amount.
Qed.

(** ** The observers agree *)

(** What an update of a request adds, as a whole number. *)
Definition worth (lc : Telemetry.RequestLogContext) (u : update) : Z :=
  match u_op u with
  | Inc | Observe _ => 1
  | Add _ => if bool_decide (last (u_labels u) = Some "input") then Telemetry.LPromptTokens lc else Telemetry.LCompletionTokens lc
  | Set_ _ => 0
  end.

Definition sum {A} (g : A -> Z) (l : list A) : Z := foldr (fun a n => g a + n) 0 l.

Lemma sum_app {A} (g : A -> Z) l1 l2 : sum g (l1 ++ l2) = sum g l1 + sum g l2.
Proof. unfold sum. induction l1 as [|a l1 IH]; cbn [foldr app]; [done|]. rewrite IH. lia. Qed.

Lemma sum_ext {A} (g h : A -> Z) l : (forall a, g a = h a) -> sum g l = sum h l.
Proof. intros E. unfold sum. induction l as [|a l IH]; cbn [foldr]; [done|]. by rewrite E, IH. Qed.

(** What a request adds to one metric. *)
Definition added (f : Family) (ls : list string) (r : request) : Z :=
  sum (fun u => if bool_decide (f = u_family u) && bool_decide (ls = u_labels u) then worth (r_lc r) u else 0) (r_updates r).

(** The token counts are exact as floats. *)
Definition exact_tokens (r : request) : Prop :=
  Telemetry.LPromptTokens (r_lc r) < 2 ^ 53 /\ Telemetry.LCompletionTokens (r_lc r) < 2 ^ 53.

Lemma r_updates_spec r u :
  exact_tokens r -> u ∈ r_updates r ->
  u_family u ∈ families /\ performed u /\ fam_kind (u_family u) <> Gauge /\
  (u_family u <> CostUSDTotal -> whole (u_op u) (worth (r_lc r) u)).
Proof.
  intros [P C]. unfold r_updates. destruct (r_logged r).1 as [e|]; [|by intros ?%elem_of_nil]. unfold request_updates.
  destruct (String.eqb _ _); [by intros ?%elem_of_nil|].
  assert (forall f, bool_decide (f ∈ families) = true -> f ∈ families) as F by (intros f; by rewrite bool_decide_eq_true).
  rewrite !elem_of_app, !elem_of_cons, !elem_of_nil.
  intros [[->|[->|[]]]|[H|[H|[H|[[->|[->|[]]]|H]]]]].
  all: try (destruct (_ <? _) eqn:E in H; [apply list_elem_of_singleton in H as ->; apply Z.ltb_lt in E|by apply elem_of_nil in H]).
  all: try (destruct (f64_lt _ _) eqn:E in H; [apply list_elem_of_singleton in H as ->|by apply elem_of_nil in H]).
  all: try (destruct (LogWriter.TTFTMs e); [apply list_elem_of_singleton in H as ->|by apply elem_of_nil in H]).
  all: split; [apply F; vm_compute; reflexivity|]; split; [split; [done|]; cbn|split; [done|intros N; cbn]]; try done.
  all: try by apply f64_of_Z_pos.
  all: try (case_bool_decide; [|done]; split; [done|lia]).
  - case_bool_decide; [done|]. split; [done|lia].
  - by apply f64_lt_asym.
Qed.

(** Updates of a request are performed, and add what they are worth to every metric but the cost. *)
Lemma apply_all_adds lc us m :
  registered m = families ->
  (forall u, u ∈ us -> u_family u ∈ families /\ performed u /\ fam_kind (u_family u) <> Gauge /\
     (u_family u <> CostUSDTotal -> whole (u_op u) (worth lc u))) ->
  exists m', apply_all us m = Some m' /\ registered m' = families /\
    forall f ls, f <> CostUSDTotal ->
      amount m' f ls =
      wrapu64 (amount m f ls + sum (fun u => if bool_decide (f = u_family u) && bool_decide (ls = u_labels u) then worth lc u else 0) us).
Proof.
  revert m. induction us as [|u us IH]; intros m R S.
  - exists m. split_and!; [done..|]. intros f ls _. cbn. by rewrite Z.add_0_r, amount_uint64.
  - destruct (S u) as (Fu & Pu & Gu & Wu); [left|].
    destruct (apply_performed m u) as (m1 & E1 & R1); [by rewrite R|done|].
    destruct (IH m1) as (m2 & E2 & R2 & A2); [congruence|intros; apply S; by right|].
    exists m2. split; [|split; [done|]]; [unfold apply_all in *; cbn [foldl mbind option_bind]; by rewrite E1|].
    intros f ls N. rewrite A2 by done. cbn [sum foldr]. fold (sum (A:=update)).
    destruct (decide ((f, ls) = (u_family u, u_labels u))) as [[= -> ->]|Ne].
    + rewrite !bool_decide_eq_true_2 by done. rewrite (apply_amount m u m1 _ E1 (Wu N)) by done.
      unfold wrapu64. rewrite Zplus_mod_idemp_l. f_equal. cbn [andb]. unfold sum. lia.
    + destruct (apply_other m u m1 f ls E1 Ne) as [-> _].
      assert (bool_decide (f = u_family u) && bool_decide (ls = u_labels u) = false) as ->; [|done].
      apply andb_false_iff. destruct (decide (f = u_family u)) as [->|?]; [right|left]; apply bool_decide_eq_false_2; congruence.
Qed.

Lemma observe_all_adds m rs :
  registered m = families -> (forall f ls, amount m f ls = 0) -> Forall exact_tokens rs ->
  exists o, observe_all m rs = Some o /\ registered (metrics o) = families /\
    written o = omap (fun r => (r_logged r).1) rs /\ outcomes o = omap (fun r => (r_logged r).2) rs /\
    forall f ls, f <> CostUSDTotal -> amount (metrics o) f ls = wrapu64 (sum (added f ls) rs).
Proof.
  intros R Z0. induction rs as [|r rs IH] using rev_ind; intros X.
  { exists (mkObserved [] [] m). split_and!; [done..|]. intros f ls _. cbn. by rewrite Z0. }
  apply Forall_app in X as [X [Xr _]%Forall_cons]. destruct (IH X) as (o & E & Ro & W & O & A).
  destruct (apply_all_adds (r_lc r) (r_updates r) (metrics o) Ro) as (m' & Em & Rm & Am).
  { intros u. by apply r_updates_spec. }
  exists (mkObserved (written o ++ option_list (r_logged r).1) (outcomes o ++ option_list (r_logged r).2) m').
  split; [|split; [done|]]; cbn [written outcomes metrics].
  - unfold observe_all in *. rewrite foldl_app, E. cbn [foldl mbind option_bind]. unfold observe.
    destruct (r_logged r) as [entry out]. cbn [mbind option_bind]. by rewrite Em.
  - rewrite W, O, !omap_app. split_and!; [f_equal; cbn [omap list_omap]; by destruct (r_logged r) as [[] []]..|]. intros f ls N.
    rewrite Am, A, sum_app by done. unfold wrapu64. rewrite Zplus_mod_idemp_l. f_equal. unfold added at 3. cbn [sum foldr]. lia.
Qed.

(** The metrics that can be read off the log: of the entries of a provider, or of a provider and a
    model, how many there are, how many failed, their tokens and their first-token times. *)
Definition of_provider (p : string) (e : LogWriter.LogEntry) : bool := String.eqb (LogWriter.Provider e) p.
Definition of_model (p model : string) (e : LogWriter.LogEntry) : bool :=
  of_provider p e && String.eqb (LogWriter.Model e) model.
Definition failed (e : LogWriter.LogEntry) : bool := 500 <=? LogWriter.StatusCode e.
Definition when_ (b : bool) (n : Z) : Z := if b then n else 0.

Definition reports (p model : string) : list (Family * list string * (LogWriter.LogEntry -> Z)) :=
  [(RequestDurationSeconds, [p; model], fun e => when_ (of_model p model e) 1);
   (ProviderLatencySeconds, [p], fun e => when_ (of_provider p e) 1);
   (ProviderRequestsTotal, [p; "success"], fun e => when_ (of_provider p e && negb (failed e)) 1);
   (ProviderRequestsTotal, [p; "error"], fun e => when_ (of_provider p e && failed e) 1);
   (TokensTotal, [p; model; "input"], fun e => when_ (of_model p model e) (Z.max 0 (LogWriter.PromptTokens e)));
   (TokensTotal, [p; model; "output"], fun e => when_ (of_model p model e) (Z.max 0 (LogWriter.CompletionTokens e)));
   (StreamingTTFTSeconds, [p; model],
    fun e => when_ (of_model p model e && bool_decide (is_Some (LogWriter.TTFTMs e))) 1)].

(** Decides the equality of two families of the table. *)
Ltac decide_families :=
  repeat match goal with
  | |- context [bool_decide (?f = ?g)] =>
      match type of f with Family => idtac end;
      let b := eval vm_compute in (bool_decide (f = g)) in
      replace (bool_decide (f = g)) with b by (vm_compute; reflexivity)
  end.

(** The entry has what the log context has. *)
Definition entry_of (lc : Telemetry.RequestLogContext) (e : LogWriter.LogEntry) : Prop :=
  LogWriter.Provider e = Telemetry.LProvider lc /\ LogWriter.Model e = Telemetry.LModel lc /\
  LogWriter.PromptTokens e = Telemetry.LPromptTokens lc /\ LogWriter.CompletionTokens e = Telemetry.LCompletionTokens lc.

Lemma logged_entry r e : (r_logged r).1 = Some e -> entry_of (r_lc r) e.
Proof. unfold r_logged, LogWriter.RequestLogger. destruct (String.eqb _ _); [done|]. by intros [= <-]. Qed.

Lemma sum_when {A} (g : A -> Z) (b : bool) a : sum g (if b then [a] else []) = when_ b (g a).
Proof. destruct b; cbn; lia. Qed.

Lemma sum_updates (g : update -> Z) lc e :
  let p := Telemetry.LProvider lc in
  let m := Telemetry.LModel lc in
  let latency := to_seconds (LogWriter.LatencyMs e) in
  sum g (request_updates lc e) =
  when_ (negb (String.eqb p ""))
    (g (mkUpdate RequestsTotal [p; m; pretty (LogWriter.StatusCode e); cache_label lc] Inc)
     + g (mkUpdate RequestDurationSeconds [p; m] (Observe latency))
     + when_ (0 <? Telemetry.LPromptTokens lc)
         (g (mkUpdate TokensTotal [p; m; "input"] (Add (f64_of_Z (Telemetry.LPromptTokens lc)))))
     + when_ (0 <? Telemetry.LCompletionTokens lc)
         (g (mkUpdate TokensTotal [p; m; "output"] (Add (f64_of_Z (Telemetry.LCompletionTokens lc)))))
     + when_ (f64_lt f64_0 (Telemetry.LCostUSD lc))
         (g (mkUpdate CostUSDTotal [p; m; default "" (Telemetry.LTeamID lc)] (Add (Telemetry.LCostUSD lc))))
     + g (mkUpdate ProviderRequestsTotal [p; if failed e then "error" else "success"] Inc)
     + g (mkUpdate ProviderLatencySeconds [p] (Observe latency))
     + match LogWriter.TTFTMs e with
       | Some t => g (mkUpdate StreamingTTFTSeconds [p; m] (Observe (to_seconds t)))
       | None => 0
       end).
Proof.
  cbv zeta. unfold request_updates. destruct (String.eqb _ _); [done|]. rewrite !sum_app, !sum_when. cbn [when_ negb].
  unfold failed. destruct (LogWriter.TTFTMs e); cbn [sum foldr]; lia.
Qed.

(** Decides the equations between label values that [congruence] settles. *)
Ltac decide_labels :=
  repeat match goal with
  | |- context [bool_decide ?P] =>
      first [rewrite (bool_decide_eq_true_2 P) by congruence | rewrite (bool_decide_eq_false_2 P) by congruence]
  end.

Lemma added_entry r e p model :
  (r_logged r).1 = Some e -> p <> "" ->
  Forall (fun '(f, ls, g) => added f ls r = g e) (reports p model).
Proof.
  intros E Np. destruct (logged_entry r e E) as (EP & EM & ET & EC). unfold added, r_updates. rewrite E.
  repeat apply Forall_cons_2; try apply Forall_nil_2; rewrite sum_updates; cbn [u_family u_labels]; decide_families;
    cbn [andb]; unfold of_model, of_provider, worth; cbn [u_op u_labels last]; rewrite ?EP, ?EM, ?ET, ?EC.
  all: destruct (String.eqb_spec (Telemetry.LProvider (r_lc r)) p) as [Ep|Ep], (String.eqb_spec (Telemetry.LModel (r_lc r)) model) as [Em|Em];
    destruct (String.eqb_spec (Telemetry.LProvider (r_lc r)) "") as [E0|E0]; try congruence.
  all: destruct (failed e) eqn:Fe; decide_labels; cbn [when_ negb andb].
  all: unfold when_; destruct (LogWriter.TTFTMs e); decide_labels; repeat case_match; breflect; try lia.
  all: exfalso; match goal with H : is_Some None |- _ => by destruct H | H : ~ is_Some _ |- _ => by apply H end.
Qed.

(** The outcomes are those of the entries that name a provider. *)
Lemma outcome_entry r p ok :
  p <> "" ->
  sum (fun x => when_ (bool_decide (x = (p, ok))) 1) (option_list (r_logged r).2) =
  sum (fun e => when_ (of_provider p e && Bool.eqb (failed e) (negb ok)) 1) (option_list (r_logged r).1).
Proof.
  intros Np. unfold r_logged, LogWriter.RequestLogger, option_list. destruct (String.eqb _ _); [done|].
  unfold of_provider, failed. cbn [fst snd option_rect sum foldr LogWriter.Provider LogWriter.StatusCode].
  rewrite Z.ltb_antisym. destruct (String.eqb_spec (Telemetry.LProvider (r_lc r)) "") as [E0|E0],
    (String.eqb_spec (Telemetry.LProvider (r_lc r)) p); try congruence; cbn [option_rect sum foldr when_ andb]; [done|..];
    destruct (500 <=? _), ok; cbn [negb]; decide_labels; reflexivity.
Qed.

(** How many requests have a status and a cache label, for a provider and a model. *)
Definition labelled (p model : string) (status : Z) (cache : string) (r : request) : bool :=
  match (r_logged r).1 with
  | Some e => of_model p model e && (LogWriter.StatusCode e =? status) && String.eqb (cache_label (r_lc r)) cache
  | None => false
  end.

Lemma added_labelled r p model status cache :
  p <> "" -> added RequestsTotal [p; model; pretty status; cache] r = when_ (labelled p model status cache r) 1.
Proof.
  intros Np. unfold added, r_updates, labelled. destruct (r_logged r).1 as [e|] eqn:E; [|done].
  destruct (logged_entry r e E) as (EP & EM & _). rewrite sum_updates. cbn [u_family u_labels]. decide_families. cbn [andb].
  unfold of_model, of_provider, worth. cbn [u_op]. rewrite EP, EM.
  destruct (String.eqb_spec (Telemetry.LProvider (r_lc r)) p), (String.eqb_spec (Telemetry.LModel (r_lc r)) model),
    (String.eqb_spec (cache_label (r_lc r)) cache), (Z.eqb_spec (LogWriter.StatusCode e) status) as [Es|Es],
    (String.eqb_spec (Telemetry.LProvider (r_lc r)) ""); try congruence.
  all: try (assert (pretty status <> pretty (LogWriter.StatusCode e)) by (intros X%(inj pretty); congruence)).
  all: rewrite ?Es; decide_labels; cbn [when_ negb andb]; unfold when_; repeat case_match; lia.
Qed.

Lemma sum_omap {A B} (f : A -> option B) (g : B -> Z) (h : A -> Z) l :
  (forall a, h a = sum g (option_list (f a))) -> sum h l = sum g (omap f l).
Proof.
  intros H. induction l as [|a l IH]; [done|]. cbn [sum foldr omap list_omap]. fold (sum (A:=A)). unfold sum at 1 in IH.
  rewrite IH, H. unfold option_list. destruct (f a); cbn [option_rect sum foldr]; unfold sum; lia.
Qed.

(** C39. The observers of a request agree. From the start of the program, whatever requests are
    served: no update of a metric panics; the counters and sample counts that can be read off the
    log (requests by provider and outcome, durations, tokens, first-token times) are what the
    entries written add up to, modulo 2^64; requests by status and cache label are counted one by
    one; and the health tracker was told of exactly the failures and successes that the counters
    of the provider and the log have. *)
Theorem observers_agree rs :
  Forall exact_tokens rs ->
  exists m o, init_metrics = Some m /\ observe_all m rs = Some o /\
    (forall p model, p <> "" ->
       Forall (fun '(f, ls, g) => amount (metrics o) f ls = wrapu64 (sum g (written o))) (reports p model)) /\
    (forall p model status cache, p <> "" ->
       amount (metrics o) RequestsTotal [p; model; pretty status; cache] =
       wrapu64 (sum (fun r => when_ (labelled p model status cache r) 1) rs)) /\
    (forall p ok, p <> "" ->
       sum (fun x => when_ (bool_decide (x = (p, ok))) 1) (outcomes o) =
       sum (fun e => when_ (of_provider p e && Bool.eqb (failed e) (negb ok)) 1) (written o)).
Proof.
  intros X. destruct metrics_register as (m & I & R & Z0).
  destruct (observe_all_adds m rs R Z0 X) as (o & E & _ & W & O & A). exists m, o. split_and!; [done..| | |].
  - intros p model Np. apply List.Forall_forall. intros [[f ls] g] In.
    assert (f <> CostUSDTotal) as N by (cbn in In; intros ->; repeat destruct In as [[=]|In]; done).
    rewrite A, W by done. f_equal. apply sum_omap. intros r. destruct (r_logged r).1 as [e|] eqn:L.
    + pose proof (added_entry r e p model L Np) as F. rewrite List.Forall_forall in F. rewrite (F _ In). cbn. lia.
    + unfold added, r_updates. by rewrite L.
  - intros p model status cache Np. rewrite A by done. f_equal. apply sum_ext. intros r. by apply added_labelled.
  - intros p ok Np. rewrite O, W. rewrite <- (sum_omap _ _ (fun r => sum (fun x => when_ (bool_decide (x = (p, ok))) 1) (option_list (r_logged r).2))) by done.
    apply sum_omap. intros r. by apply outcome_entry.
Qed.

(** The lookups of the cache are counted as what they were. *)
Lemma cache_counted `{Exact.Codec} c st q get_ok set_ok now :
  (exists e stream, (Exact.Handler c st q get_ok set_ok now).1 = Exact.FromCache e stream) <->
  cache_updates st q get_ok now = [mkUpdate CacheRequestsTotal ["exact"; "hit"] Inc].
Proof.
  unfold cache_updates, Exact.Handler. destruct (negb (HasSuffix _ _)); [split; [by intros (? & ? & [=])|done]|].
  destruct (Exact.c_req q) as [req|]; [|split; [by intros (? & ? & [=])|done]].
  destruct (negb (Exact.IsCacheable _ _ _)); [split; [by intros (? & ? & [=])|done]|].
  destruct (String.eqb _ _); [split; [by intros (? & ? & [=])|done]|].
  destruct (Exact.Get _ _ _ _) as [[e|]|m]; [split; eauto|..]; (split; [|done]); destruct (Stream req); by intros (? & ? & [=]).
Qed.

(** Reading the gauges after the health endpoint was served: one for a provider that is well,
    zero otherwise. *)
Lemma health_gauges m ps :
  registered m = families -> NoDup ps.*1 ->
  exists m', apply_all (health_updates ps) m = Some m' /\ registered m' = families /\
    (forall p, p ∉ ps.*1 -> reading m' ProviderHealth [p] = reading m ProviderHealth [p]) /\
    forall p s r, (p, (s, r)) ∈ ps ->
      reading m' ProviderHealth [p] = Some (if String.eqb s "ok" then f64_of_Z 1 else f64_0).
Proof.
  revert m. induction ps as [|[p [s r]] ps IH]; intros m R N.
  { exists m. split_and!; [done..|]. by intros ? ? ? ?%elem_of_nil. }
  apply NoDup_cons in N as [Np N]. cbn [fst] in Np. cbn [health_updates Health.gauges map fst snd].
  set (u := mkUpdate ProviderHealth [p] _).
  destruct (apply_performed m u) as (m1 & E1 & R1).
  { rewrite R. unfold u. cbn [u_family]. apply (bool_decide_unpack _). vm_compute. exact I. }
  { by split. }
  destruct (IH m1) as (m2 & E2 & R2 & O2 & A2); [congruence|done|].
  exists m2. split; [unfold apply_all in *; cbn [foldl mbind option_bind]; by rewrite E1|]. split; [done|]. split.
  - intros q [Nq Nqs]%not_elem_of_cons. rewrite O2 by done. apply (apply_other m u m1 _ _ E1). cbn [fst] in Nq. unfold u. cbn [u_family u_labels]. congruence.
  - intros q s' r' [[= -> -> ->]|I]%elem_of_cons; [|by eapply A2].
    rewrite O2 by done. exact (apply_reading m u m1 _ E1 eq_refl).
Qed.

End Registry.

(** ** Metrics that nothing updates *)

(** The families the updates of requests, of the cache and of the health endpoint are about. *)
Definition updated_families : list Family :=
  [RequestsTotal; RequestDurationSeconds; StreamingTTFTSeconds; TokensTotal; CostUSDTotal; ProviderRequestsTotal;
   ProviderLatencySeconds; ProviderHealth; CacheRequestsTotal].

Lemma updates_covered `{Exact.Codec} u :
  (exists lc e, u ∈ request_updates lc e) \/ (exists st q ok now, u ∈ cache_updates st q ok now) \/
  (exists ps, u ∈ health_updates ps) -> u_family u ∈ updated_families.
Proof.
  assert (forall f, bool_decide (f ∈ updated_families) = true -> f ∈ updated_families) as F
    by (intros f; by rewrite bool_decide_eq_true).
  intros [(lc & e & I)|[(st & q & ok & now & I)|(ps & I)]].
  - unfold request_updates in I. destruct (String.eqb _ _); [by apply elem_of_nil in I|].
    rewrite !elem_of_app, !elem_of_cons, !elem_of_nil in I. apply F.
    destruct I as [[->|[->|[]]]|[I|[I|[I|[[->|[->|[]]]|I]]]]]; try (vm_compute; reflexivity).
    all: repeat case_match; try by apply elem_of_nil in I.
    all: apply list_elem_of_singleton in I as ->; vm_compute; reflexivity.
  - unfold cache_updates in I. repeat case_match; try by apply elem_of_nil in I.
    all: apply list_elem_of_singleton in I as ->; apply F; vm_compute; reflexivity.
  - unfold health_updates in I. apply list_elem_of_In, in_map_iff in I as (g & <- & _). apply F. vm_compute. reflexivity.
Qed.

(** Six metrics of the documentation never change. *)
Example never_updated :
  fam_name <$> List.filter (fun f => negb (bool_decide (f ∈ updated_families)) && negb (bool_decide (fam_kind f = GaugeFunc))) families =
  ["gateway_fallback_total"; "gateway_circuit_breaker_state"; "gateway_cache_hit_ratio"; "gateway_rate_limit_exceeded_total";
   "gateway_active_connections"; "gateway_uptime_seconds_total"].
Proof. vm_compute. reflexivity. Qed.

(** ** otel.go and tracer.go *)

Inductive Sampler := TraceIDRatioBased (fraction : float64) | ParentBased (root : Sampler).

Record TracerProvider := mkTP {
  tp_endpoint : string;
  tp_insecure : bool;
  tp_service : string;
  tp_version : string;
  tp_maxExportBatchSize : Z;
  tp_batchTimeout : Duration;
  tp_sampler : Sampler
}.

(** The tracing that is set up; [None] leaves the global one, which does nothing. *)
Definition InitOTel (getenv : string -> string) (serviceName version : string) (resource_ok exporter_ok : bool)
  : option TracerProvider :=
  let endpoint := getenv "OTEL_EXPORTER_OTLP_ENDPOINT" in
  if String.eqb endpoint "" then None
  else if negb resource_ok then None
  else if negb exporter_ok then None
  else Some (mkTP endpoint true serviceName version 512 (5 * Second) (ParentBased (TraceIDRatioBased (f64_const 1 10)))).

(** A span context: identifiers as bytes, and whether the trace is sampled. *)
Record SpanContext := mkSpan { TraceID : string; SpanID : string; Sampled : bool }.

Definition nonzero (s : string) : bool :=
  existsb (fun c => negb (Ascii.eqb c Ascii.zero)) (String.list_ascii_of_string s).
Definition IsValid (sc : SpanContext) : bool := nonzero (TraceID sc) && nonzero (SpanID sc).
Definition no_span : SpanContext := mkSpan "" "" false.

Definition TraceIDFromContext (sc : SpanContext) : string :=
  if IsValid sc then Adapters.hex_string (TraceID sc) else "".
Definition SpanIDFromContext (sc : SpanContext) : string :=
  if IsValid sc then Adapters.hex_string (SpanID sc) else "".

(** The tracing library: the context in the headers of a request (the W3C format), and the span
    started under a parent, with the randomness it draws. *)
Class Otel := {
  extract : gmap string string -> SpanContext;
  new_span : Sampler -> SpanContext -> Z -> SpanContext
}.

Class OtelLaws `{Otel} : Prop := {
  span_valid : forall s parent rnd, IsValid (new_span s parent rnd) = true;
  span_trace : forall s parent rnd, IsValid parent = true -> TraceID (new_span s parent rnd) = TraceID parent;
  span_parent_based : forall root parent rnd, IsValid parent = true ->
    Sampled (new_span (ParentBased root) parent rnd) = Sampled parent
}.

Section Tracing.
Context `{Otel}.

(** Without tracing the global propagator extracts nothing and the tracer starts nothing. *)
Definition ExtractTraceContext (tp : option TracerProvider) (hdr : gmap string string) : SpanContext :=
  match tp with Some _ => extract hdr | None => no_span end.
Definition StartSpan (tp : option TracerProvider) (parent : SpanContext) (rnd : Z) : SpanContext :=
  match tp with Some tp => new_span (tp_sampler tp) parent rnd | None => parent end.

(** The span of a request, and the trace identifier beside its log line. *)
Definition request_span (tp : option TracerProvider) (hdr : gmap string string) (rnd : Z) : SpanContext :=
  StartSpan tp (ExtractTraceContext tp hdr) rnd.
Definition logged_trace_id (tp : option TracerProvider) (hdr : gmap string string) (rnd : Z) : string :=
  TraceIDFromContext (request_span tp hdr rnd).

Context `{!OtelLaws}.

(** Traces are continued: when tracing is set up, a request that comes with a trace context is
    logged under the identifier of that trace, and sampled exactly when its caller sampled it,
    whatever its outcome; without an endpoint no identifier is logged. *)
Theorem trace_continued getenv service version resource_ok exporter_ok hdr rnd :
  let tp := InitOTel getenv service version resource_ok exporter_ok in
  (getenv "OTEL_EXPORTER_OTLP_ENDPOINT" = "" -> logged_trace_id tp hdr rnd = "") /\
  (is_Some tp -> IsValid (extract hdr) = true ->
     logged_trace_id tp hdr rnd = Adapters.hex_string (TraceID (extract hdr)) /\
     Sampled (request_span tp hdr rnd) = Sampled (extract hdr)).
Proof.
  cbv zeta. unfold InitOTel. split; [by intros ->|]. intros [tp E] V. rewrite E. split.
  - unfold logged_trace_id, request_span, TraceIDFromContext. cbn [StartSpan ExtractTraceContext].
    by rewrite span_valid, span_trace.
  - unfold request_span. cbn [StartSpan ExtractTraceContext].
    destruct (String.eqb _ _), resource_ok, exporter_ok; try done. injection E as <-. by apply span_parent_based.
Qed.

End Tracing.

(** ** A registry in memory *)

Record Mem := mkMem {
  mem_families : list Family;
  mem_amount : Family -> list string -> Z;
  mem_reading : Family -> list string -> option float64
}.

Definition change {A} (d : Family -> list string -> A) (u : update) (a : A) (f : Family) (ls : list string) : A :=
  if bool_decide ((f, ls) = (u_family u, u_labels u)) then a else d f ls.

Definition mem_apply (m : Mem) (u : update) : option Mem :=
  let old := mem_amount m (u_family u) (u_labels u) in
  let n := match u_op u with Inc | Observe _ => 1 | Add v => f64_trunc v | Set_ _ => 0 end in
  Some (mkMem (mem_families m) (change (mem_amount m) u (wrapu64 (old + n)))
    (match u_op u with Set_ v => change (mem_reading m) u (Some v) | _ => mem_reading m end)).

#[local] Instance mem_prom : Prom Mem := {
  empty_registry := mkMem [] (fun _ _ => 0) (fun _ _ => None);
  registered := mem_families;
  promauto f m := if bool_decide (fam_name f ∈ fam_name <$> mem_families m) then None
                  else Some (mkMem (mem_families m ++ [f]) (mem_amount m) (mem_reading m));
  apply := mem_apply;
  amount m f ls := wrapu64 (mem_amount m f ls);
  reading := mem_reading
}.

#[local] Instance mem_laws : PromLaws Mem.
Proof.
  assert (forall z, wrapu64 (wrapu64 z) = wrapu64 z) as W by (intros z; apply Zmod_mod).
  split; cbn; intros.
  - done.
  - done.
  - done.
  - apply W.
  - rewrite bool_decide_eq_false_2 by done. eauto.
  - eauto.
  - injection H as <-. unfold mem_apply, change. cbn. rewrite bool_decide_eq_true_2, W by done. unfold wrapu64.
    rewrite Zplus_mod_idemp_l. do 2 f_equal. destruct (u_op u); cbn in H0; try done. destruct H0 as [-> R].
    by apply f64_trunc_of_Z.
  - injection H as <-. unfold change. cbn. rewrite H0. by rewrite bool_decide_eq_true_2.
  - injection H as <-. cbn. unfold change. rewrite bool_decide_eq_false_2 by done. split; [done|].
    destruct (u_op u); try done. by rewrite bool_decide_eq_false_2.
Qed.

Definition demo_requests : list request :=
  let lc p m n c := Telemetry.mkLC (Some "k1") None (Some "t1") None m p n c (n + c) "stop" "" "" false 0 f64_0 "" in
  [mkReq "r1" 0 Second (lc "openai" "gpt" 10 5) [LogWriter.Write_ "{}"];
   mkReq "r2" 0 Second (lc "openai" "gpt" 7 0) [LogWriter.WriteHeader 502];
   mkReq "r3" 0 Second (lc "azure" "gpt" 1 1) [LogWriter.Write_ "{}"];
   mkReq "r4" 0 Second Telemetry.empty_log [LogWriter.WriteHeader 401]].

(** The counters of four requests. *)
Lemma observers_agree_witness :
  exists m o, init_metrics (M:=Mem) = Some m /\ observe_all m demo_requests = Some o /\
    amount (metrics o) TokensTotal ["openai"; "gpt"; "input"] = 17 /\
    amount (metrics o) ProviderRequestsTotal ["openai"; "error"] = 1.
Proof.
  destruct (observers_agree (M:=Mem) demo_requests) as (m & o & I & E & R & _).
  - repeat constructor; vm_compute; reflexivity.
  - exists m, o. specialize (R "openai" "gpt" ltac:(intros [=])). unfold reports in R.
    rewrite !Forall_cons in R. destruct R as (_ & _ & _ & R1 & R2 & _).
    assert (o = default (mkObserved [] [] m) (init_metrics ≫= fun m => observe_all m demo_requests)) as Eo.
    { rewrite I. cbn [mbind option_bind]. rewrite E. reflexivity. }
    split; [exact I|]. split; [exact E|]. split; [rewrite R2|rewrite R1]; rewrite Eo; vm_compute; reflexivity.
Defined.

End Metrics.
