(* ===== verification/Orgs.v ===== *)
(** * Organisations, teams and users (internal/store/postgres/org_store.go,
    internal/gateway/handler/admin_orgs.go)

    The four tables of the tenant directory with their keys, references and unique columns
    (migrations 001 and 007), the operations of the store, the admin handlers over them and the
    provisioning of users at login. The theorems: the directory stays well formed and no user ever
    changes organisation, whatever requests are served; and the login component's view of the
    users, a table keyed by email, is refined by the table of this file. What a VARCHAR column
    keeps of a text and the parser of identifiers are parameters. *)

From S2P Require Import Prelude GoStrings Types VirtualKey Sessions.
Local Open Scope Z_scope.

Module Orgs.

(** ** The rows *)

Record Organization := mkOrg { OrgID_ : UUID; OrgName : string; OrgCreatedAt : Time; OrgUpdatedAt : Time }.
Record Team := mkTeam {
  TeamID_ : UUID; TeamOrgID : option UUID; TeamName : string; TeamCreatedAt : Time; TeamUpdatedAt : Time
}.
Record User := mkUser {
  UserID_ : UUID; UserOrgID : option UUID; UserTeamID : option UUID; UserEmail : string;
  UserCreatedAt : Time; UserUpdatedAt : Time
}.

(** Organisations and teams have a slug, a column the store does not read. *)
Record directory := mkDir {
  organizations : gmap UUID (Organization * string);
  teams : gmap UUID (Team * string);
  users : gmap UUID User;
  team_members : gmap (UUID * UUID) string
}.

Definition set_orgs (db : directory) x := mkDir x (teams db) (users db) (team_members db).
Definition set_teams (db : directory) x := mkDir (organizations db) x (users db) (team_members db).
Definition set_users (db : directory) x := mkDir (organizations db) (teams db) x (team_members db).
Definition set_members (db : directory) x := mkDir (organizations db) (teams db) (users db) x.

Inductive store_error := ErrOrgNotFound | ErrTeamNotFound | ErrUserNotFound | ErrDB.

(** The outside during one statement: whether it is executed, the identifier the database draws,
    its clock. *)
Record call := mkCall { pg_ok : bool; new_id : UUID; at_time : Time }.

(** The columns slug are NOT NULL since migration 007 and have no default. *)
Definition slug_default : option string := None.

(** Postgres takes no text with a zero byte as an argument. *)
Definition bindable (s : string) : bool := negb (existsb (fun c => Ascii.eqb c Ascii.zero) (String.list_ascii_of_string s)).

Section Directory.
(** What a VARCHAR column of a width keeps of a text, [None] when it refuses it: a text that is too
    long only by trailing spaces is cut. *)
Context (varchar : Z -> string -> option string).
Context (uuid_Parse : string -> option UUID).
(** [ORDER BY created_at DESC] *)
Context (newest_first : forall A : Type, (A -> Time) -> list A -> list A).

Definition fk {A} (table : gmap UUID A) (id : option UUID) : bool :=
  match id with None => true | Some id => bool_decide (is_Some (table !! id)) end.

Definition insert_org (e : call) (name : string) (slug : option string) (db : directory) : option Organization * directory :=
  if negb (pg_ok e) || negb (bindable name) then (None, db)
  else match varchar 255 name, slug with
       | Some n, Some s =>
           if bool_decide (is_Some (organizations db !! new_id e)) ||
              existsb (fun kv => String.eqb kv.2.2 s) (map_to_list (organizations db)) then (None, db)
           else (Some (mkOrg (new_id e) name (at_time e) (at_time e)),
                 set_orgs db (<[new_id e := (mkOrg (new_id e) n (at_time e) (at_time e), s)]> (organizations db)))
       | _, _ => (None, db)
       end.

Definition CreateOrg (e : call) (name : string) (db : directory) : option Organization * directory :=
  insert_org e name slug_default db.

Definition GetOrg (e : call) (id : UUID) (db : directory) : res store_error Organization :=
  if negb (pg_ok e) then Err ErrDB
  else match organizations db !! id with None => Err ErrOrgNotFound | Some (o, _) => Ok o end.

Definition ListOrgs (e : call) (db : directory) : option (list Organization) :=
  if pg_ok e then Some (newest_first Organization OrgCreatedAt (map_to_list (organizations db)).*2.*1) else None.

Definition UpdateOrg (e : call) (id : UUID) (name : string) (db : directory) : res store_error Organization * directory :=
  if negb (pg_ok e) || negb (bindable name) then (Err ErrDB, db)
  else match organizations db !! id with
       | None => (Err ErrOrgNotFound, db)
       | Some (o, s) =>
           match varchar 255 name with
           | None => (Err ErrDB, db)
           | Some n => let o := mkOrg (OrgID_ o) n (OrgCreatedAt o) (at_time e) in
                       (Ok o, set_orgs db (<[id := (o, s)]> (organizations db)))
           end
       end.

(** Two teams of one organisation may not share a slug; teams without one may. *)
Definition insert_team (e : call) (orgID : option UUID) (name : string) (slug : option string) (db : directory)
  : option Team * directory :=
  if negb (pg_ok e) || negb (bindable name) then (None, db)
  else match varchar 255 name, slug with
       | Some n, Some s =>
           if bool_decide (is_Some (teams db !! new_id e)) || negb (fk (organizations db) orgID) ||
              existsb (fun kv => String.eqb kv.2.2 s && bool_decide (is_Some orgID) &&
                                 bool_decide (TeamOrgID kv.2.1 = orgID)) (map_to_list (teams db)) then (None, db)
           else (Some (mkTeam (new_id e) orgID name (at_time e) (at_time e)),
                 set_teams db (<[new_id e := (mkTeam (new_id e) orgID n (at_time e) (at_time e), s)]> (teams db)))
       | _, _ => (None, db)
       end.

Definition CreateTeam (e : call) (orgID : option UUID) (name : string) (db : directory) : option Team * directory :=
  insert_team e orgID name slug_default db.

Definition GetTeam (e : call) (id : UUID) (db : directory) : res store_error Team :=
  if negb (pg_ok e) then Err ErrDB
  else match teams db !! id with None => Err ErrTeamNotFound | Some (t, _) => Ok t end.

(** The condition on org_id, when there is one. *)
Definition of_org (orgID : option UUID) (x : option UUID) : bool :=
  match orgID with None => true | Some _ => bool_decide (x = orgID) end.

Definition ListTeams (e : call) (orgID : option UUID) (db : directory) : option (list Team) :=
  if pg_ok e
  then Some (newest_first Team TeamCreatedAt (List.filter (fun t => of_org orgID (TeamOrgID t)) (map_to_list (teams db)).*2.*1))
  else None.

Definition UpdateTeam (e : call) (id : UUID) (name : string) (db : directory) : res store_error Team * directory :=
  if negb (pg_ok e) || negb (bindable name) then (Err ErrDB, db)
  else match teams db !! id with
       | None => (Err ErrTeamNotFound, db)
       | Some (t, s) =>
           match varchar 255 name with
           | None => (Err ErrDB, db)
           | Some n => let t := mkTeam (TeamID_ t) (TeamOrgID t) n (TeamCreatedAt t) (at_time e) in
                       (Ok t, set_teams db (<[id := (t, s)]> (teams db)))
           end
       end.

(** Another user has the email. *)
Definition email_taken (id : UUID) (email : string) (db : directory) : bool :=
  existsb (fun kv => negb (String.eqb kv.1 id) && String.eqb (UserEmail kv.2) email) (map_to_list (users db)).

(** The user returned carries the email as given, the row the email as the column keeps it. *)
Definition CreateUser (e : call) (orgID teamID : option UUID) (email : string) (db : directory) : option User * directory :=
  if negb (pg_ok e) || negb (bindable email) then (None, db)
  else match varchar 255 email with
       | None => (None, db)
       | Some m =>
           if bool_decide (is_Some (users db !! new_id e)) || negb (fk (organizations db) orgID) ||
              negb (fk (teams db) teamID) || email_taken (new_id e) m db then (None, db)
           else (Some (mkUser (new_id e) orgID teamID email (at_time e) (at_time e)),
                 set_users db (<[new_id e := mkUser (new_id e) orgID teamID m (at_time e) (at_time e)]> (users db)))
       end.

Definition GetUser (e : call) (id : UUID) (db : directory) : res store_error User :=
  if negb (pg_ok e) then Err ErrDB
  else match users db !! id with None => Err ErrUserNotFound | Some u => Ok u end.

Definition ListUsers (e : call) (orgID : option UUID) (db : directory) : option (list User) :=
  if pg_ok e
  then Some (newest_first User UserCreatedAt (List.filter (fun u => of_org orgID (UserOrgID u)) (map_to_list (users db)).*2))
  else None.

(** The upsert; [false] is an error. *)
Definition AddTeamMember (e : call) (teamID userID : UUID) (role : string) (db : directory) : bool * directory :=
  if negb (pg_ok e) || negb (bindable role) then (false, db)
  else match varchar 50 role with
       | None => (false, db)
       | Some r =>
           if negb (fk (teams db) (Some teamID)) || negb (fk (users db) (Some userID)) then (false, db)
           else (true, set_members db (<[(teamID, userID) := r]> (team_members db)))
       end.

Definition RemoveTeamMember (e : call) (teamID userID : UUID) (db : directory) : bool * directory :=
  if negb (pg_ok e) then (false, db) else (true, set_members db (delete (teamID, userID) (team_members db))).

Definition GetUserPrimaryOrg (e : call) (userID : UUID) (db : directory) : res store_error (option UUID * option UUID) :=
  if negb (pg_ok e) then Err ErrDB
  else match users db !! userID with None => Err ErrUserNotFound | Some u => Ok (UserOrgID u, UserTeamID u) end.

Definition GetUserByEmail (e : call) (email : string) (db : directory) : res store_error User :=
  if negb (pg_ok e) || negb (bindable email) then Err ErrDB
  else match find (fun kv => String.eqb (UserEmail kv.2) email) (map_to_list (users db)) with
       | None => Err ErrUserNotFound
       | Some (_, u) => Ok u
       end.

Definition UpdateUser (e : call) (id : UUID) (email : string) (teamID : option UUID) (db : directory)
  : res store_error User * directory :=
  if negb (pg_ok e) || negb (bindable email) then (Err ErrDB, db)
  else match users db !! id with
       | None => (Err ErrUserNotFound, db)
       | Some u =>
           match varchar 255 email with
           | None => (Err ErrDB, db)
           | Some m =>
               if email_taken id m db || negb (fk (teams db) teamID) then (Err ErrDB, db)
               else let u := mkUser (UserID_ u) (UserOrgID u) teamID m (UserCreatedAt u) (at_time e) in
                    (Ok u, set_users db (<[id := u]> (users db)))
           end
       end.

(** ** The handlers *)

(** An empty list is encoded as [null]. *)
Inductive reply :=
| RError (code : Z) (msg : string)
| ROrg (code : Z) (o : Organization) | ROrgs (os : list Organization)
| RTeam (code : Z) (t : Team) | RTeams (ts : list Team)
| RUser (code : Z) (u : User) | RUsers (us : list User).

(** [parseUUID] of admin_keys.go: its message speaks of keys for every kind of identifier. *)
Definition parseUUID {A} (s : string) (k : UUID -> reply * A) (db : A) : reply * A :=
  match uuid_Parse s with None => (RError 400 "invalid key ID", db) | Some id => k id end.

(** An identifier that may be left out: [None] when it is given and does not parse. *)
Definition optional_uuid (s : string) : option (option UUID) :=
  if String.eqb s "" then Some None else match uuid_Parse s with None => None | Some id => Some (Some id) end.

Definition err_reply (not_found failed : string) (x : store_error) : reply :=
  match x with ErrDB => RError 500 failed | _ => RError 404 not_found end.

Definition answered {A} (f : A -> reply) (not_found failed : string) (x : res store_error A) : reply :=
  match x with Ok a => f a | Err er => err_reply not_found failed er end.

Definition handle_CreateOrg (e : call) (body : option string) (db : directory) : reply * directory :=
  match body with
  | None | Some "" => (RError 400 "name is required", db)
  | Some name =>
      match CreateOrg e name db with
      | (None, db) => (RError 500 "failed to create organization", db)
      | (Some o, db) => (ROrg 201 o, db)
      end
  end.

Definition handle_ListOrgs (e : call) (db : directory) : reply :=
  match ListOrgs e db with None => RError 500 "failed to list organizations" | Some os => ROrgs os end.

Definition handle_GetOrg (e : call) (id : string) (db : directory) : reply * directory :=
  parseUUID id (fun id => (answered (ROrg 200) "organization not found" "failed to get organization" (GetOrg e id db), db)) db.

Definition handle_UpdateOrg (e : call) (id : string) (body : option string) (db : directory) : reply * directory :=
  parseUUID id (fun id =>
    match body with
    | None | Some "" => (RError 400 "name is required", db)
    | Some name =>
        let '(r, db) := UpdateOrg e id name db in
        (answered (ROrg 200) "organization not found" "failed to update organization" r, db)
    end) db.

(** The body is the organisation and the name. *)
Definition handle_CreateTeam (e : call) (body : option (string * string)) (db : directory) : reply * directory :=
  match body with
  | None | Some (_, "") => (RError 400 "name is required", db)
  | Some (org, name) =>
      match optional_uuid org with
      | None => (RError 400 "invalid org_id", db)
      | Some orgID =>
          match CreateTeam e orgID name db with
          | (None, db) => (RError 500 "failed to create team", db)
          | (Some t, db) => (RTeam 201 t, db)
          end
      end
  end.

Definition handle_ListTeams (e : call) (org : string) (db : directory) : reply :=
  match optional_uuid org with
  | None => RError 400 "invalid org_id"
  | Some orgID => match ListTeams e orgID db with None => RError 500 "failed to list teams" | Some ts => RTeams ts end
  end.

Definition handle_GetTeam (e : call) (id : string) (db : directory) : reply * directory :=
  parseUUID id (fun id => (answered (RTeam 200) "team not found" "failed to get team" (GetTeam e id db), db)) db.

Definition handle_UpdateTeam (e : call) (id : string) (body : option string) (db : directory) : reply * directory :=
  parseUUID id (fun id =>
    match body with
    | None | Some "" => (RError 400 "name is required", db)
    | Some name =>
        let '(r, db) := UpdateTeam e id name db in
        (answered (RTeam 200) "team not found" "failed to update team" r, db)
    end) db.

(** The body is the organisation, the team and the email. *)
Definition handle_CreateUser (e : call) (body : option (string * string * string)) (db : directory) : reply * directory :=
  match body with
  | None | Some (_, "") => (RError 400 "email is required", db)
  | Some (org, team, email) =>
      match optional_uuid org with
      | None => (RError 400 "invalid org_id", db)
      | Some orgID =>
          match optional_uuid team with
          | None => (RError 400 "invalid team_id", db)
          | Some teamID =>
              match CreateUser e orgID teamID email db with
              | (None, db) => (RError 500 "failed to create user", db)
              | (Some u, db) => (RUser 201 u, db)
              end
          end
      end
  end.

Definition handle_ListUsers (e : call) (org : string) (db : directory) : reply :=
  match optional_uuid org with
  | None => RError 400 "invalid org_id"
  | Some orgID => match ListUsers e orgID db with None => RError 500 "failed to list users" | Some us => RUsers us end
  end.

Definition handle_GetUser (e : call) (id : string) (db : directory) : reply * directory :=
  parseUUID id (fun id => (answered (RUser 200) "user not found" "failed to get user" (GetUser e id db), db)) db.

(** The body is the email and the team, which may be left out. *)
Definition handle_UpdateUser (e : call) (id : string) (body : option (string * option string)) (db : directory)
  : reply * directory :=
  parseUUID id (fun id =>
    match body with
    | None | Some ("", _) => (RError 400 "email is required", db)
    | Some (email, team) =>
        match optional_uuid (default "" team) with
        | None => (RError 400 "invalid team_id", db)
        | Some teamID =>
            let '(r, db) := UpdateUser e id email teamID db in
            (answered (RUser 200) "user not found" "failed to update user" r, db)
        end
    end) db.

(** [findOrCreateUser] of handler/auth.go, by its two statements; the role given to a new user does
    not touch these tables. *)
Definition provision (look create : call) (email : string) (db : directory) : option User * directory :=
  match GetUserByEmail look email db with
  | Ok u => (Some u, db)
  | Err ErrUserNotFound => CreateUser create None None email db
  | Err _ => (None, db)
  end.

(** ** Everything that changes the tables *)

Inductive request :=
| QCreateOrg (body : option string) | QUpdateOrg (id : string) (body : option string)
| QCreateTeam (body : option (string * string)) | QUpdateTeam (id : string) (body : option string)
| QCreateUser (body : option (string * string * string)) | QUpdateUser (id : string) (body : option (string * option string))
| QAddMember (team user : UUID) (role : string) | QRemoveMember (team user : UUID)
| QProvision (look : call) (email : string).

Definition serve (e : call) (q : request) (db : directory) : directory :=
  match q with
  | QCreateOrg b => (handle_CreateOrg e b db).2
  | QUpdateOrg id b => (handle_UpdateOrg e id b db).2
  | QCreateTeam b => (handle_CreateTeam e b db).2
  | QUpdateTeam id b => (handle_UpdateTeam e id b db).2
  | QCreateUser b => (handle_CreateUser e b db).2
  | QUpdateUser id b => (handle_UpdateUser e id b db).2
  | QAddMember t u r => (AddTeamMember e t u r db).2
  | QRemoveMember t u => (RemoveTeamMember e t u db).2
  | QProvision look m => (provision look e m db).2
  end.

Definition serve_all (qs : list (call * request)) (db : directory) : directory :=
  foldl (fun db q => serve q.1 q.2 db) db qs.

(** ** The directory stays well formed *)

(** Rows are stored under their identifier, references lead to rows, emails and slugs are unique. *)
Record wf (db : directory) : Prop := mkWf {
  wf_orgs : forall id r, organizations db !! id = Some r -> OrgID_ r.1 = id;
  wf_slugs : forall i j r s, organizations db !! i = Some r -> organizations db !! j = Some s -> r.2 = s.2 -> i = j;
  wf_teams : forall id r, teams db !! id = Some r -> TeamID_ r.1 = id /\ fk (organizations db) (TeamOrgID r.1) = true;
  wf_team_slugs : forall i j r s, teams db !! i = Some r -> teams db !! j = Some s ->
    is_Some (TeamOrgID r.1) -> TeamOrgID r.1 = TeamOrgID s.1 -> r.2 = s.2 -> i = j;
  wf_users : forall id u, users db !! id = Some u ->
    UserID_ u = id /\ fk (organizations db) (UserOrgID u) = true /\ fk (teams db) (UserTeamID u) = true;
  wf_emails : forall i j u v, users db !! i = Some u -> users db !! j = Some v -> UserEmail u = UserEmail v -> i = j;
  wf_members : forall t u r, team_members db !! (t, u) = Some r -> is_Some (teams db !! t) /\ is_Some (users db !! u)
}.

(** Nothing is deleted, and teams and users stay in their organisation. *)
Record keeps (db db' : directory) : Prop := mkKeeps {
  keeps_orgs : forall id r, organizations db !! id = Some r ->
    exists r', organizations db' !! id = Some r' /\ OrgCreatedAt r'.1 = OrgCreatedAt r.1 /\ r'.2 = r.2;
  keeps_teams : forall id r, teams db !! id = Some r ->
    exists r', teams db' !! id = Some r' /\ TeamOrgID r'.1 = TeamOrgID r.1 /\ TeamCreatedAt r'.1 = TeamCreatedAt r.1;
  keeps_users : forall id u, users db !! id = Some u ->
    exists u', users db' !! id = Some u' /\ UserOrgID u' = UserOrgID u /\ UserCreatedAt u' = UserCreatedAt u
}.

#[local] Instance keeps_preorder : PreOrder keeps.
Proof.
  split.
  - intros db. split; intros ?? H; eexists; eauto.
  - intros a b c [O1 T1 U1] [O2 T2 U2]. split; intros id r H.
    + destruct (O1 _ _ H) as (r1 & R1 & ? & ?). destruct (O2 _ _ R1) as (r2 & R2 & ? & ?).
      exists r2. split_and!; [done|congruence..].
    + destruct (T1 _ _ H) as (r1 & R1 & ? & ?). destruct (T2 _ _ R1) as (r2 & R2 & ? & ?).
      exists r2. split_and!; [done|congruence..].
    + destruct (U1 _ _ H) as (r1 & R1 & ? & ?). destruct (U2 _ _ R1) as (r2 & R2 & ? & ?).
      exists r2. split_and!; [done|congruence..].
Qed.

(** An update of one row that keeps what is asked for keeps it of every row. *)
Lemma insert_keeps {A} (R : A -> A -> Prop) (m : gmap UUID A) id x :
  (forall a, R a a) -> (forall a, m !! id = Some a -> R x a) ->
  forall i a, m !! i = Some a -> exists a', <[id := x]> m !! i = Some a' /\ R a' a.
Proof.
  intros Refl Old i a H. destruct (decide (id = i)) as [->|N].
  - exists x. rewrite lookup_insert_eq. eauto.
  - exists a. by rewrite lookup_insert_ne.
Qed.

Lemma fk_insert {A} (m : gmap UUID A) id x o : fk m o = true -> fk (<[id := x]> m) o = true.
Proof.
  destruct o as [o|]; [|done]. cbn. rewrite !bool_decide_eq_true. intros H.
  destruct (decide (id = o)) as [->|N]; [by rewrite lookup_insert_eq|by rewrite lookup_insert_ne].
Qed.

Lemma is_Some_insert {A} (m : gmap UUID A) id x o : is_Some (m !! o) -> is_Some (<[id := x]> m !! o).
Proof. intros H. by apply lookup_insert_is_Some'; right. Qed.

Lemma existsb_rows {A} (P : UUID * A -> bool) (m : gmap UUID A) :
  existsb P (map_to_list m) = false -> forall i a, m !! i = Some a -> P (i, a) = false.
Proof.
  intros H i a Hi. apply elem_of_map_to_list in Hi. destruct (P (i, a)) eqn:E; [|done].
  assert (existsb P (map_to_list m) = true); [|congruence].
  apply existsb_exists. exists (i, a). split; [by apply list_elem_of_In|done].
Qed.

Lemma email_free id m db :
  email_taken id m db = false -> forall j v, users db !! j = Some v -> UserEmail v = m -> j = id.
Proof.
  intros F j v Hv E. pose proof (existsb_rows _ _ F j v Hv) as X. cbn in X. subst m.
  rewrite String.eqb_refl, andb_true_r, negb_false_iff in X. by apply String.eqb_eq in X.
Qed.

(** The two facts together, for one operation. *)
Definition sound (f : directory -> directory) : Prop := forall db, wf db -> wf (f db) /\ keeps db (f db).

Lemma same_sound db : wf db -> wf db /\ keeps db db.
Proof. intros W. split; [done|reflexivity]. Qed.

Lemma store_org db id o s :
  wf db -> OrgID_ o = id ->
  (forall r, organizations db !! id = Some r -> OrgCreatedAt o = OrgCreatedAt r.1 /\ s = r.2) ->
  (forall j r, organizations db !! j = Some r -> r.2 = s -> j = id) ->
  let db' := set_orgs db (<[id := (o, s)]> (organizations db)) in wf db' /\ keeps db db'.
Proof.
  clear varchar uuid_Parse newest_first.
  intros [] Id Old New db'. split.
  - split; cbn; intros *; rewrite ?lookup_insert_Some; try naive_solver eauto using fk_insert.
  - split; cbn; [|naive_solver..].
    apply (insert_keeps (fun r' r => OrgCreatedAt r'.1 = OrgCreatedAt r.1 /\ r'.2 = r.2)); naive_solver.
Qed.

Lemma store_team db id t s :
  wf db -> TeamID_ t = id -> fk (organizations db) (TeamOrgID t) = true ->
  (forall r, teams db !! id = Some r -> TeamOrgID t = TeamOrgID r.1 /\ TeamCreatedAt t = TeamCreatedAt r.1) ->
  (forall j r, teams db !! j = Some r -> is_Some (TeamOrgID t) -> TeamOrgID r.1 = TeamOrgID t -> r.2 = s -> j = id) ->
  let db' := set_teams db (<[id := (t, s)]> (teams db)) in wf db' /\ keeps db db'.
Proof.
  clear varchar uuid_Parse newest_first.
  intros [O S T TS U E M] Id Fk Old New db'. split.
  - split; cbn; try done; intros *; rewrite ?lookup_insert_Some.
    + naive_solver.
    + intros [[<- <-]|[Ni Hi]] [[<- <-]|[Nj Hj]]; cbn; [done| | |eauto].
      * intros HS Eq Es. symmetry. by eapply New; [exact Hj|..].
      * intros HS Eq Es. eapply New; [exact Hi| |done..]. by rewrite <- Eq.
    + intros H. destruct (U _ _ H) as (? & ? & ?). auto using fk_insert.
    + intros H. destruct (M _ _ _ H). auto using is_Some_insert.
  - split; cbn; [naive_solver| |naive_solver].
    apply (insert_keeps (fun r' r => TeamOrgID r'.1 = TeamOrgID r.1 /\ TeamCreatedAt r'.1 = TeamCreatedAt r.1)); naive_solver.
Qed.

Lemma store_user db id u :
  wf db -> UserID_ u = id -> fk (organizations db) (UserOrgID u) = true -> fk (teams db) (UserTeamID u) = true ->
  email_taken id (UserEmail u) db = false ->
  (forall v, users db !! id = Some v -> UserOrgID u = UserOrgID v /\ UserCreatedAt u = UserCreatedAt v) ->
  let db' := set_users db (<[id := u]> (users db)) in wf db' /\ keeps db db'.
Proof.
  clear varchar uuid_Parse newest_first.
  intros [O S T TS U E M] Id Fo Ft Free Old db'. split.
  - split; cbn; try done; intros *; rewrite ?lookup_insert_Some.
    + naive_solver.
    + intros [[<- <-]|[Ni Hi]] [[<- <-]|[Nj Hj]] Eq; [done| | |eauto].
      * symmetry. by eapply email_free.
      * by eapply email_free.
    + intros H. destruct (M _ _ _ H). auto using is_Some_insert.
  - split; cbn; [naive_solver..|].
    apply (insert_keeps (fun u' v => UserOrgID u' = UserOrgID v /\ UserCreatedAt u' = UserCreatedAt v)); naive_solver.
Qed.

Lemma insert_org_sound e name slug : sound (fun db => (insert_org e name slug db).2).
Proof.
  intros db W. unfold insert_org. destruct (_ || _); [by apply same_sound|].
  destruct (varchar 255 name) as [n|], slug as [s|]; try by apply same_sound.
  destruct (_ || _) eqn:C; [by apply same_sound|]. apply orb_false_iff in C as [N%bool_decide_eq_false S].
  apply store_org; cbn; [done..| |].
  - intros r H. destruct N. eauto.
  - intros j r H E. pose proof (existsb_rows _ _ S j r H) as X. cbn in X. by apply String.eqb_neq in X.
Qed.

Lemma insert_team_sound e org name slug : sound (fun db => (insert_team e org name slug db).2).
Proof.
  intros db W. unfold insert_team. destruct (_ || _); [by apply same_sound|].
  destruct (varchar 255 name) as [n|], slug as [s|]; try by apply same_sound.
  destruct (_ || _) eqn:C; [by apply same_sound|].
  apply orb_false_iff in C as [C S]. apply orb_false_iff in C as [N%bool_decide_eq_false F%negb_false_iff].
  apply store_team; cbn; [done..| |].
  - intros r H. destruct N. eauto.
  - intros j r H I E Es. pose proof (existsb_rows _ _ S j r H) as X. cbn in X.
    rewrite Es, String.eqb_refl, !bool_decide_eq_true_2 in X by done. done.
Qed.

Lemma UpdateOrg_sound e id name : sound (fun db => (UpdateOrg e id name db).2).
Proof.
  clear uuid_Parse newest_first.
  intros db W. unfold UpdateOrg. destruct (_ || _); [by apply same_sound|].
  destruct (organizations db !! id) as [[o s]|] eqn:H; [|by apply same_sound].
  destruct (varchar 255 name) as [n|]; [|by apply same_sound].
  apply store_org; cbn; [done|by apply (wf_orgs _ W _ _ H)|naive_solver|].
  intros j r Hj E. by eapply (wf_slugs _ W); [exact Hj|exact H|].
Qed.

Lemma UpdateTeam_sound e id name : sound (fun db => (UpdateTeam e id name db).2).
Proof.
  clear uuid_Parse newest_first.
  intros db W. unfold UpdateTeam. destruct (_ || _); [by apply same_sound|].
  destruct (teams db !! id) as [[t s]|] eqn:H; [|by apply same_sound].
  destruct (varchar 255 name) as [n|]; [|by apply same_sound].
  destruct (wf_teams _ W _ _ H) as [Id Fk]. apply store_team; cbn; [done..|naive_solver|].
  intros j r Hj I E Es. by eapply (wf_team_slugs _ W); [exact Hj|exact H|rewrite E|..].
Qed.

Lemma CreateUser_sound e org team email : sound (fun db => (CreateUser e org team email db).2).
Proof.
  intros db W. unfold CreateUser. destruct (_ || _); [by apply same_sound|].
  destruct (varchar 255 email) as [m|]; [|by apply same_sound].
  destruct (_ || _) eqn:C; [by apply same_sound|].
  apply orb_false_iff in C as [C Free]. apply orb_false_iff in C as [C Ft%negb_false_iff].
  apply orb_false_iff in C as [N%bool_decide_eq_false Fo%negb_false_iff].
  apply store_user; cbn; [done..|]. intros v H. destruct N. eauto.
Qed.

Lemma UpdateUser_sound e id email team : sound (fun db => (UpdateUser e id email team db).2).
Proof.
  clear uuid_Parse newest_first.
  intros db W. unfold UpdateUser. destruct (_ || _); [by apply same_sound|].
  destruct (users db !! id) as [u|] eqn:H; [|by apply same_sound].
  destruct (varchar 255 email) as [m|]; [|by apply same_sound].
  destruct (_ || _) eqn:C; [by apply same_sound|]. apply orb_false_iff in C as [Free Ft%negb_false_iff].
  destruct (wf_users _ W _ _ H) as (Id & Fo & _). apply store_user; cbn; [done..|naive_solver].
Qed.

Lemma members_sound db m :
  wf db -> (forall t u r, m !! (t, u) = Some r -> is_Some (teams db !! t) /\ is_Some (users db !! u)) ->
  wf (set_members db m) /\ keeps db (set_members db m).
Proof. clear varchar uuid_Parse newest_first. intros [] H. split; split; naive_solver. Qed.

Lemma AddTeamMember_sound e t u r : sound (fun db => (AddTeamMember e t u r db).2).
Proof.
  intros db W. unfold AddTeamMember. destruct (_ || _); [by apply same_sound|].
  destruct (varchar 50 r) as [x|]; [|by apply same_sound].
  destruct (_ || _) eqn:C; [by apply same_sound|].
  apply orb_false_iff in C as [Ft%negb_false_iff%bool_decide_eq_true Fu%negb_false_iff%bool_decide_eq_true].
  apply members_sound; [done|]. intros *. rewrite lookup_insert_Some.
  intros [[[= <- <-] _]|[_ H]]; [done|]. by apply (wf_members _ W _ _ _ H).
Qed.

Lemma RemoveTeamMember_sound e t u : sound (fun db => (RemoveTeamMember e t u db).2).
Proof.
  intros db W. unfold RemoveTeamMember. destruct (negb _); [by apply same_sound|].
  apply members_sound; [done|]. intros *. rewrite lookup_delete_Some. intros [_ H]. by apply (wf_members _ W _ _ _ H).
Qed.

Lemma provision_sound look e email : sound (fun db => (provision look e email db).2).
Proof.
  intros db W. unfold provision. destruct (GetUserByEmail _ _ _) as [|[]]; try by apply same_sound.
  by apply CreateUser_sound.
Qed.

Lemma sound_pair {A} (f : directory -> A * directory) x db db' :
  sound (fun db => (f db).2) -> f db = (x, db') -> wf db -> wf db' /\ keeps db db'.
Proof. intros S E W. specialize (S db W). cbn in S. by rewrite E in S. Qed.

Lemma serve_sound e q : sound (serve e q).
Proof.
  intros db W.
  destruct q; cbn; [..|by apply AddTeamMember_sound|by apply RemoveTeamMember_sound|by apply provision_sound];
    unfold handle_CreateOrg, handle_UpdateOrg, handle_CreateTeam, handle_UpdateTeam, handle_CreateUser, handle_UpdateUser,
      CreateOrg, CreateTeam, parseUUID;
    repeat (case_match; subst; cbn; try by apply same_sound);
    match goal with H : _ = (_, _) |- _ => eapply (sound_pair _ _ _ _ _ H W) end.
  Unshelve.
  all: auto using insert_org_sound, insert_team_sound, UpdateOrg_sound, UpdateTeam_sound, CreateUser_sound, UpdateUser_sound.
Qed.

Lemma CreateUser_done e org team email db u db' :
  CreateUser e org team email db = (Some u, db') ->
  exists m, varchar 255 email = Some m /\ users db !! UserID_ u = None /\
    u = mkUser (new_id e) org team email (at_time e) (at_time e) /\
    db' = set_users db (<[UserID_ u := mkUser (new_id e) org team m (at_time e) (at_time e)]> (users db)).
Proof.
  clear uuid_Parse newest_first.
  unfold CreateUser. destruct (_ || _); [done|]. destruct (varchar 255 email) as [m|]; [|done].
  destruct (_ || _) eqn:C; [done|]. intros [= <- <-]. exists m. rewrite !orb_false_iff, bool_decide_eq_false in C.
  split_and!; try done. apply eq_None_not_Some. tauto.
Qed.

(** A login finds the user of the email, and only that one. *)
Lemma GetUserByEmail_found e email db u :
  GetUserByEmail e email db = Ok u -> exists id, users db !! id = Some u /\ UserEmail u = email.
Proof.
  unfold GetUserByEmail. destruct (_ || _); [done|]. destruct (find _ _) as [[i v]|] eqn:F; [|done].
  intros [= ->]. apply find_some in F as [I%list_elem_of_In%elem_of_map_to_list E%String.eqb_eq]. eauto.
Qed.

Lemma GetUserByEmail_missing e email db :
  GetUserByEmail e email db = Err ErrUserNotFound -> forall id u, users db !! id = Some u -> UserEmail u <> email.
Proof.
  unfold GetUserByEmail. destruct (_ || _); [done|]. destruct (find _ _) as [[i v]|] eqn:F; [done|].
  intros _ id u H%elem_of_map_to_list%list_elem_of_In E. pose proof (find_none _ _ F _ H) as X. cbn in X.
  by apply String.eqb_neq in X.
Qed.

Lemma serve_all_sound qs : sound (serve_all qs).
Proof.
  induction qs as [|[e q] qs IH] using rev_ind; intros db W; [by apply same_sound|].
  unfold serve_all. rewrite foldl_app. cbn. fold (serve_all qs db). destruct (IH db W) as [W1 K1].
  destruct (serve_sound e q _ W1) as [W2 K2]. split; [done|by etransitivity].
Qed.


(** ** The users as the login component sees them *)

Definition login_user (u : User) : Session.User := Session.mkUser (UserID_ u) (UserEmail u).
Definition by_email (db : directory) : gmap string Session.User :=
  list_to_map ((fun kv => (UserEmail kv.2, login_user kv.2)) <$> map_to_list (users db)).

Lemma by_email_lookup db m x :
  wf db -> by_email db !! m = Some x <-> exists id u, users db !! id = Some u /\ UserEmail u = m /\ x = login_user u.
Proof.
  intros W. unfold by_email. rewrite <- elem_of_list_to_map.
  - rewrite list_elem_of_fmap. split.
    + intros ([i u] & [= -> ->] & H%elem_of_map_to_list). eauto.
    + intros (i & u & H%elem_of_map_to_list & <- & ->). by exists (i, u).
  - rewrite <- list_fmap_compose. apply NoDup_fmap_2_strong; [|apply NoDup_map_to_list].
    intros [i u] [j v] Hi%elem_of_map_to_list Hj%elem_of_map_to_list E. cbn in E.
    pose proof (wf_emails _ W _ _ _ _ Hi Hj E) as ->. congruence.
Qed.

Lemma by_email_missing db m :
  wf db -> (forall id u, users db !! id = Some u -> UserEmail u <> m) -> by_email db !! m = None.
Proof.
  intros W N. apply eq_None_not_Some. intros [x (i & u & H & E & _)%by_email_lookup]; [|done]. by eapply N.
Qed.

Lemma email_free_intro id m db :
  (forall j v, users db !! j = Some v -> UserEmail v <> m) -> email_taken id m db = false.
Proof.
  intros N. destruct (email_taken id m db) eqn:T; [|done].
  apply existsb_exists in T as ([j v] & I%list_elem_of_In%elem_of_map_to_list & [_ E%String.eqb_eq]%andb_true_iff).
  by destruct (N j v I).
Qed.

Lemma by_email_insert db id u :
  wf db -> wf (set_users db (<[id := u]> (users db))) -> users db !! id = None ->
  by_email (set_users db (<[id := u]> (users db))) = <[UserEmail u := login_user u]> (by_email db).
Proof.
  intros W0 W N. apply map_eq. intros m. apply option_eq. intros x. rewrite (by_email_lookup _ _ _ W). cbn.
  assert (E : forall i v, users db !! i = Some v -> UserEmail v <> UserEmail u).
  { intros i v H Eq. assert (i <> id) by congruence.
    assert (i = id); [|done]. eapply (wf_emails _ W); [| |exact Eq]; cbn; [by rewrite lookup_insert_ne|by rewrite lookup_insert_eq]. }
  rewrite lookup_insert_Some, (by_email_lookup _ _ _ W0). split.
  - intros (i & v & [[<- <-]|[Ni H]]%lookup_insert_Some & <- & ->); [by left|]. right. split; [intros X; by eapply E|eauto].
  - intros [[<- <-]|[Nm (i & v & H & Em & ->)]]; [exists id, u; by rewrite lookup_insert_eq|].
    exists i, v. split; [|done]. rewrite lookup_insert_ne; [done|congruence].
Qed.

(** Over a well-formed directory, finding or creating the user of an email in the tables does
    what the login component's model of it does on the table keyed by email: the same user, or
    failure, and the same table after it. *)
Theorem provision_refines_login db look e env email :
  wf db -> varchar 255 email = Some email -> users db !! new_id e = None ->
  Session.lookup_err env = negb (pg_ok look) || negb (bindable email) ->
  Session.create_err env = negb (pg_ok e) -> Session.new_user env = new_id e ->
  let '(u, db') := provision look e email db in
  Session.findOrCreateUser env email (by_email db) = (login_user <$> u, by_email db').
Proof.
  clear uuid_Parse newest_first.
  intros W V New L C N. destruct (provision look e email db) as [u db'] eqn:P.
  destruct (sound_pair _ _ _ _ (provision_sound look e email) P W) as [W' _].
  unfold Session.findOrCreateUser. rewrite L, C, N. unfold provision in P.
  destruct (GetUserByEmail look email db) as [v|er] eqn:G.
  - injection P as <- <-. pose proof G as G'. apply GetUserByEmail_found in G as (i & H & E).
    unfold GetUserByEmail in G'. destruct (_ || _); [done|].
    rewrite (proj2 (by_email_lookup db email (login_user v) W)) by eauto. done.
  - assert (er = ErrUserNotFound \/ er = ErrDB /\ negb (pg_ok look) || negb (bindable email) = true) as Er.
    { unfold GetUserByEmail in G. destruct (_ || _); [naive_solver|]. destruct (find _ _) as [[]|]; naive_solver. }
    destruct Er as [->|[-> ->]]; [|by injection P as <- <-].
    pose proof (GetUserByEmail_missing _ _ _ G) as M. rewrite (by_email_missing _ _ W M).
    unfold GetUserByEmail in G. destruct (negb (pg_ok look) || negb (bindable email)) eqn:B; [done|].
    apply orb_false_iff in B as [_ B]. unfold CreateUser in P. rewrite B, orb_false_r, V, New in P.
    destruct (pg_ok e); cbn in P; [|by injection P as <- <-].
    rewrite (email_free_intro _ _ _ M) in P. injection P as <- <-.
    by rewrite by_email_insert.
Qed.

(** A listing holds the users of the organisation asked for, or all of them. *)
Lemma ListUsers_exact e org db us :
  (forall A f l, newest_first A f l ≡ₚ l) -> ListUsers e org db = Some us ->
  forall u, u ∈ us <-> exists id, users db !! id = Some u /\ (org = None \/ UserOrgID u = org).
Proof.
  unfold ListUsers. intros Perm L u. destruct (pg_ok e); [|done]. injection L as <-.
  rewrite Perm, list_elem_of_In, filter_In, <- list_elem_of_In, list_elem_of_fmap.
  assert (F : of_org org (UserOrgID u) = true <-> org = None \/ UserOrgID u = org).
  { destruct org; cbn; [rewrite bool_decide_eq_true|]; naive_solver. }
  rewrite F. split.
  - intros [([i v] & -> & H%elem_of_map_to_list) O]. eauto.
  - intros (i & H%elem_of_map_to_list & O). split; [by exists (i, u)|done].
Qed.

(** ** What the schema and the handlers do not do *)

(** No organisation and no team can be created: the insert leaves the slug out. *)
Lemma no_org_created e name db :
  handle_CreateOrg e (Some name) db = (RError (if String.eqb name "" then 400 else 500)
    (if String.eqb name "" then "name is required" else "failed to create organization"), db).
Proof.
  destruct name as [|c s]; [done|]. cbn. unfold CreateOrg, insert_org, slug_default.
  destruct (_ || _); [done|]. by destruct (varchar _ _).
Qed.

Lemma no_team_created e body db : (handle_CreateTeam e body db).2 = db /\ forall t, (handle_CreateTeam e body db).1 <> RTeam 201 t.
Proof.
  unfold handle_CreateTeam, CreateTeam, insert_team, slug_default. repeat case_match; simplify_eq/=; done.
Qed.

(** An update of the email that leaves the team out removes the user from the team. *)
Lemma omitted_team_cleared e id i email db u :
  pg_ok e = true -> bindable email = true -> uuid_Parse id = Some i -> users db !! i = Some u ->
  varchar 255 email = Some email -> email <> "" -> email_taken i email db = false ->
  users (handle_UpdateUser e id (Some (email, None)) db).2 !! i =
    Some (mkUser (UserID_ u) (UserOrgID u) None email (UserCreatedAt u) (at_time e)).
Proof.
  intros Ok B P H V N T. unfold handle_UpdateUser, parseUUID. rewrite P. destruct email as [|c s]; [done|].
  cbn [default optional_uuid]. cbn. unfold UpdateUser. rewrite Ok, B, H, V, T. cbn. by rewrite lookup_insert_eq.
Qed.

End Directory.

(** ** An example *)

Definition demo_varchar (n : Z) (s : string) : option string := if Z.of_nat (String.length s) <=? n then Some s else None.
Definition demo_parse (s : string) : option UUID := if String.eqb s "" then None else Some s.

(** Two organisations, a team of the second one. *)
Definition demo_dir : directory :=
  mkDir (<["o1" := (mkOrg "o1" "One" 1 1, "one")]> (<["o2" := (mkOrg "o2" "Two" 2 2, "two")]> ∅))
        (<["t2" := (mkTeam "t2" (Some "o2") "Team" 3 3, "team")]> ∅) ∅ ∅.

Lemma demo_dir_wf : wf demo_dir.
Proof.
  split; cbn; intros *; rewrite ?lookup_insert_Some, ?lookup_empty; try naive_solver.
Qed.

Definition demo_qs : list (call * request) :=
  [(mkCall true "u1" 4, QCreateUser (Some ("o1", "", "a@x")));
   (mkCall true "u2" 5, QCreateUser (Some ("", "t2", "a@x")));
   (mkCall true "u3" 6, QProvision (mkCall true "" 6) "b@x");
   (mkCall true "" 7, QUpdateUser "u1" (Some ("c@x", Some "t2")));
   (mkCall true "" 8, QAddMember "t2" "u3" "developer")].

(** The second user is refused, and the first, of one organisation, is moved to a team of the
    other one. *)
Lemma foreign_team_accepted :
  users (serve_all demo_varchar demo_parse demo_qs demo_dir) !! "u1" = Some (mkUser "u1" (Some "o1") (Some "t2") "c@x" 4 7) /\
  users (serve_all demo_varchar demo_parse demo_qs demo_dir) !! "u2" = None /\
  users (serve_all demo_varchar demo_parse demo_qs demo_dir) !! "u3" = Some (mkUser "u3" None None "b@x" 6 6).
Proof. by vm_compute. Qed.


Definition demo_env : Session.callback_env :=
  Session.mkCbEnv true (fun _ _ => Ok "z@x") false false "u9" (Some "sid") true.

Lemma provision_refines_login_witness :
  Session.findOrCreateUser demo_env "z@x" (by_email demo_dir) =
    (Some (Session.mkUser "u9" "z@x"),
     by_email (provision demo_varchar (mkCall true "" 4) (mkCall true "u9" 4) "z@x" demo_dir).2).
Proof.
  exact (provision_refines_login demo_varchar demo_dir (mkCall true "" 4) (mkCall true "u9" 4) demo_env "z@x" demo_dir_wf
    eq_refl eq_refl eq_refl eq_refl eq_refl).
Defined.

End Orgs.
