(* ===== verification/McpTransport.v ===== *)
(** * Transports of tool servers (internal/mcp/transport.go, transport_sse.go, transport_stdio.go,
    transport_websocket.go)

    The JSON-RPC client the three transports share: calls with fresh identifiers, the table of
    pending calls, one channel for each call, the loop that reads answers. It is a step function
    over the events of its goroutines. Then each transport's connection: the event stream, the
    process with its environment and its lock, the socket. The theorems: a call is answered only by
    a message with its identifier that arrived after it was made, entries of finished calls are
    removed, and a server that answers each call once never blocks the reader; the event stream
    reads back; the environment of a process has no blocked variable. JSON, base64 and the network
    are parameters. *)

From S2P Require Import Prelude GoStrings Types ABTest Mcp.
Local Open Scope Z_scope.

Module Transport.

Local Open Scope go_scope.

(** ** types.go *)

Record RPCError := mkRpcError { Code : Z; Message : string }.
Record Response := mkResponse { RespID : option Z; Result : RawMessage; Error : option RPCError }.
Record Request := mkRequest { ReqID : option Z; Method : string; Params : option RawMessage }.

Record ServerAuthConfig := mkAuth { AuthType : string; AuthToken : string; AuthUser : string }.
Record ServerConfig := mkConfig {
  Name : string; Type_ : string; Command : string; Args : list string; Env : list (string * string);
  URL : string; APIKey : string; Auth : ServerAuthConfig
}.

Inductive call_error := RpcFailed (code : Z) (msg : string) | CtxDone | TimedOut (method : string) | NotSent (msg : string).
Abbreviation outcome := (res call_error RawMessage).

(** ** The calls of the interface *)

(** A value of the parameters: a text or a map. *)
Inductive param := PText (s : string) | PArgs (m : gmap string RawMessage) | PTexts (m : gmap string string).

Inductive rpc :=
| RListTools | RCallTool (name : string) (args : gmap string RawMessage)
| RListResources | RReadResource (uri : string)
| RListPrompts | RGetPrompt (name : string) (args : gmap string string).

Definition rpc_method (q : rpc) : string :=
  match q with
  | RListTools => "tools/list" | RCallTool _ _ => "tools/call" | RListResources => "resources/list"
  | RReadResource _ => "resources/read" | RListPrompts => "prompts/list" | RGetPrompt _ _ => "prompts/get"
  end.

Definition rpc_params (q : rpc) : gmap string param :=
  match q with
  | RListTools | RListResources | RListPrompts => ∅
  | RCallTool n a => <["name" := PText n]> (<["arguments" := PArgs a]> ∅)
  | RReadResource u => <["uri" := PText u]> ∅
  | RGetPrompt n a => <["name" := PText n]> (<["arguments" := PTexts a]> ∅)
  end.

Definition ProtocolVersion : string := "2024-11-05".

(** The parameters of the call that initialises a session. *)
Definition init_params : gmap string param :=
  <["protocolVersion" := PText ProtocolVersion]> (<["capabilities" := PArgs ∅]>
    (<["clientInfo" := PTexts (<["name" := "llm-router"]> (<["version" := "1.0.0"]> ∅))]> ∅)).

(** The envelope: a notification, with identifier 0, has none. *)
Definition envelope (id : Z) (method : string) (params : option RawMessage) : Request :=
  mkRequest (if id =? 0 then None else Some id) method params.

(** What [call] makes of an answer. *)
Definition answer_of (r : Response) : outcome :=
  match Error r with Some e => Err (RpcFailed (Code e) (Message e)) | None => Ok (Result r) end.

(** ** The client of the three transports *)

(** Where a call stands: before its request is sent, in the [select], on its way out (the deferred
    removal still to come), returned. *)
Inductive phase := Sending (method : string) | Waiting (method : string) | Leaving (o : outcome) | Returned (o : outcome).

(** The channel of a call holds at most one answer. [reader] is the answer the read loop is about to
    put into the channel it has looked up. [arrived] records the answers the loop found a channel
    for, with the number of calls made by then; no operation reads it. *)
Record client := mkClient {
  nextID : Z;
  pending : gset Z;
  chans : gmap Z (option Response);
  calls : gmap Z phase;
  reader : option (Z * Response);
  arrived : list (Z * Response)
}.

Definition NewClient : client := mkClient 0 ∅ ∅ ∅ None [].

(** What the goroutines do, one step at a time. [EMessage None] is a message that does not decode. *)
Inductive event :=
| ECall (method : string) | ESent (id : Z) | ENotSent (id : Z) (msg : string)
| ETake (id : Z) | ETimeout (id : Z) | ECancel (id : Z) | EReturn (id : Z)
| EMessage (m : option Response) | EDeliver.

Definition set_phase (id : Z) (p : phase) (c : client) : client :=
  mkClient (nextID c) (pending c) (chans c) (<[id := p]> (calls c)) (reader c) (arrived c).
Definition set_chan (id : Z) (x : option Response) (c : client) : client :=
  mkClient (nextID c) (pending c) (<[id := x]> (chans c)) (calls c) (reader c) (arrived c).
Definition drop_pending (id : Z) (c : client) : client :=
  mkClient (nextID c) (pending c ∖ {[id]}) (chans c) (calls c) (reader c) (arrived c).
Definition set_reader (x : option (Z * Response)) (c : client) : client :=
  mkClient (nextID c) (pending c) (chans c) (calls c) x (arrived c).

(** The beginning of [call]: the identifier, the channel, the entry. *)
Definition begin_call (method : string) (c : client) : client :=
  let id := wrap64 (nextID c + 1) in
  mkClient id ({[id]} ∪ pending c) (<[id := None]> (chans c)) (<[id := Sending method]> (calls c)) (reader c) (arrived c).

(** The select of a waiting call and its return. *)
Definition call_step (id : Z) (e : event) (c : client) : option client :=
  match calls c !! id, e with
  | Some (Sending m), ESent _ => Some (set_phase id (Waiting m) c)
  | Some (Sending m), ENotSent _ msg => Some (set_phase id (Leaving (Err (NotSent msg))) c)
  | Some (Waiting m), ETake _ =>
      match chans c !! id with
      | Some (Some r) => Some (set_phase id (Leaving (answer_of r)) (set_chan id None c))
      | _ => None
      end
  | Some (Waiting m), ETimeout _ => Some (set_phase id (Leaving (Err (TimedOut m))) c)
  | Some (Waiting m), ECancel _ => Some (set_phase id (Leaving (Err CtxDone)) c)
  | Some (Leaving o), EReturn _ => Some (set_phase id (Returned o) (drop_pending id c))
  | _, _ => None
  end.

(** The read loop takes the next message: one without an identifier, or for no pending call, is
    dropped. *)
Definition read_message (m : option Response) (c : client) : option client :=
  match reader c with
  | Some _ => None
  | None =>
      match m with
      | None => Some c
      | Some r =>
          match RespID r with
          | None => Some c
          | Some id =>
              if bool_decide (id ∈ pending c)
              then Some (mkClient (nextID c) (pending c) (chans c) (calls c) (Some (id, r)) (arrived c ++ [(nextID c, r)]))
              else Some c
          end
      end
  end.

(** The send on the channel goes through when there is room. *)
Definition deliver (c : client) : option client :=
  match reader c with
  | None => None
  | Some (id, r) =>
      match chans c !! id with Some None => Some (set_reader None (set_chan id (Some r) c)) | _ => None end
  end.

Definition step (c : client) (e : event) : option client :=
  match e with
  | ECall m => Some (begin_call m c)
  | ESent id | ENotSent id _ | ETake id | ETimeout id | ECancel id | EReturn id => call_step id e c
  | EMessage m => read_message m c
  | EDeliver => deliver c
  end.

Fixpoint run (c : client) (es : list event) : option client :=
  match es with [] => Some c | e :: es => c ← step c e; run c es end.

Definition is_call (e : event) : bool := match e with ECall _ => true | _ => false end.
Definition calls_in (es : list event) : Z := Z.of_nat (length (List.filter is_call es)).

(** ** The client's answers *)

Definition in_flight (p : phase) : Prop := match p with Returned _ => False | _ => True end.

(** An answer that came, after the call was made, with the identifier of the call. *)
Definition own_answer (arr : list (Z * Response)) (id : Z) (r : Response) : Prop :=
  RespID r = Some id /\ exists n, (n, r) ∈ arr /\ 0 < id <= n.

(** What a finished call returned came from such an answer, or is one of the client's own errors. *)
Definition explained (arr : list (Z * Response)) (id : Z) (o : outcome) : Prop :=
  match o with
  | Ok _ | Err (RpcFailed _ _) => exists r, own_answer arr id r /\ o = answer_of r
  | Err _ => True
  end.

Definition settled (arr : list (Z * Response)) (id : Z) (p : phase) : Prop :=
  match p with Leaving o | Returned o => explained arr id o | _ => True end.

Record inv (c : client) : Prop := mkInv {
  inv_range : 0 <= nextID c < 2 ^ 63;
  inv_ids : forall id p, calls c !! id = Some p -> 0 < id <= nextID c;
  inv_pending : forall id, id ∈ pending c <-> exists p, calls c !! id = Some p /\ in_flight p;
  inv_chans : forall id, is_Some (chans c !! id) <-> is_Some (calls c !! id);
  inv_full : exists pre,
    match reader c with None => arrived c = pre | Some (_, r) => exists n, arrived c = pre ++ [(n, r)] end /\
    forall id r, chans c !! id = Some (Some r) -> own_answer pre id r;
  inv_reader : forall id r, reader c = Some (id, r) -> own_answer (arrived c) id r /\ is_Some (calls c !! id);
  inv_settled : forall id p, calls c !! id = Some p -> settled (arrived c) id p
}.

Lemma own_answer_app arr arr' id r : own_answer arr id r -> own_answer (arr ++ arr') id r.
Proof. intros (E & n & I & L). split; [done|]. exists n. rewrite elem_of_app. auto. Qed.

Lemma settled_app arr arr' id p : settled arr id p -> settled (arr ++ arr') id p.
Proof. destruct p as [| |o|o]; cbn; [done..| |]; destruct o as [|[]]; cbn; naive_solver eauto using own_answer_app. Qed.

Lemma own_answer_explained arr id r : own_answer arr id r -> explained arr id (answer_of r).
Proof. intros H. unfold answer_of. destruct (Error r) eqn:E; cbn; exists r; unfold answer_of; by rewrite E. Qed.

#[local] Hint Resolve own_answer_app settled_app own_answer_explained : core.

(** A call moves on: its phase changes and no one else's. *)
Lemma set_phase_inv id p p' c :
  inv c -> calls c !! id = Some p -> in_flight p -> in_flight p' -> settled (arrived c) id p' -> inv (set_phase id p' c).
Proof.
  intros [R I P C F Rd S] H Fl Fl' St. split; cbn; try done.
  - intros j q [[<- <-]|[_ Hj]]%lookup_insert_Some; eauto.
  - intros j. rewrite P. destruct (decide (id = j)) as [<-|N]; [|by rewrite lookup_insert_ne].
    rewrite lookup_insert_eq. naive_solver.
  - intros j. rewrite C. destruct (decide (id = j)) as [<-|N]; [|by rewrite lookup_insert_ne].
    rewrite lookup_insert_eq, H. naive_solver.
  - intros j r Hr. destruct (Rd _ _ Hr). split; [done|]. by apply lookup_insert_is_Some'; right.
  - intros j q [[<- <-]|[_ Hj]]%lookup_insert_Some; eauto.
Qed.

Lemma take_inv id m r c :
  inv c -> calls c !! id = Some (Waiting m) -> chans c !! id = Some (Some r) ->
  inv (set_phase id (Leaving (answer_of r)) (set_chan id None c)).
Proof.
  intros W H Hc. pose proof (inv_full _ W) as (pre & A & F).
  assert (own_answer (arrived c) id r) as O.
  { specialize (F _ _ Hc). destruct (reader c) as [[]|]; [destruct A as [n ->]; auto|by subst]. }
  eapply (set_phase_inv id (Waiting m)); [|done..|cbn; auto]. destruct W as [R I P C _ Rd S]. split; cbn; try done.
  - intros j. rewrite <- C. destruct (decide (id = j)) as [<-|N]; [|by rewrite lookup_insert_ne].
    rewrite lookup_insert_eq, Hc. naive_solver.
  - exists pre. split; [done|]. intros j q [[_ [=]]|[_ Hj]]%lookup_insert_Some. eauto.
Qed.

Lemma return_inv id o c : inv c -> calls c !! id = Some (Leaving o) -> inv (set_phase id (Returned o) (drop_pending id c)).
Proof.
  intros [R I P C F Rd S] H. split; cbn; try done.
  - intros j q [[<- <-]|[_ Hj]]%lookup_insert_Some; eauto.
  - intros j. rewrite elem_of_difference, elem_of_singleton, P. destruct (decide (id = j)) as [<-|N].
    + rewrite lookup_insert_eq. naive_solver.
    + rewrite lookup_insert_ne by done. naive_solver.
  - intros j. rewrite C. destruct (decide (id = j)) as [<-|N]; [|by rewrite lookup_insert_ne].
    rewrite lookup_insert_eq, H. naive_solver.
  - intros j r Hr. destruct (Rd _ _ Hr). split; [done|]. by apply lookup_insert_is_Some'; right.
  - intros j q [[<- <-]|[_ Hj]]%lookup_insert_Some; [|eauto]. exact (S _ _ H).
Qed.

Lemma begin_inv m c : inv c -> nextID c + 1 < 2 ^ 63 -> inv (begin_call m c).
Proof.
  intros [R I P C F Rd S] L. unfold begin_call. rewrite wrap64_id by (unfold in_int64, int64_min, int64_max; lia). set (id := nextID c + 1).
  assert (N : calls c !! id = None).
  { destruct (calls c !! id) eqn:E; [|done]. apply I in E. unfold id in E. lia. }
  split; cbn; try done.
  - unfold id. lia.
  - intros j q [[<- <-]|[_ Hj]]%lookup_insert_Some; [unfold id; lia|]. specialize (I _ _ Hj). unfold id. lia.
  - intros j. rewrite elem_of_union, elem_of_singleton, P. destruct (decide (id = j)) as [<-|Nj].
    + rewrite lookup_insert_eq. naive_solver.
    + rewrite lookup_insert_ne by done. naive_solver.
  - intros j. rewrite !lookup_insert_is_Some. rewrite C. done.
  - destruct F as (pre & A & F). exists pre. split; [done|]. intros j r [[_ [=]]|[_ Hj]]%lookup_insert_Some. eauto.
  - intros j r Hr. destruct (Rd _ _ Hr). split; [done|]. by apply lookup_insert_is_Some'; right.
  - intros j q [[<- <-]|[_ Hj]]%lookup_insert_Some; [done|eauto].
Qed.

Lemma read_message_inv m c c' : inv c -> read_message m c = Some c' -> inv c'.
Proof.
  intros W. unfold read_message. destruct (reader c) eqn:Rc; [done|]. destruct m as [r|]; [|naive_solver].
  destruct (RespID r) as [id|] eqn:E; [|naive_solver]. case_bool_decide as B; intros [= <-]; [|done].
  destruct W as [R I P C F Rd S]. apply P in B as (p & Hp & Fl).
  assert (own_answer (arrived c ++ [(nextID c, r)]) id r) as O.
  { split; [done|]. exists (nextID c). split; [rewrite elem_of_app, list_elem_of_singleton; auto|eauto]. }
  split; cbn; try done.
  - rewrite Rc in F. destruct F as (pre & <- & F). exists (arrived c). eauto.
  - intros j q [= <- <-]. eauto.
  - eauto.
Qed.

Lemma deliver_inv c c' : inv c -> deliver c = Some c' -> inv c'.
Proof.
  intros [R I P C F Rd S]. unfold deliver. destruct (reader c) as [[id r]|] eqn:Rc; [|done].
  destruct (chans c !! id) as [[q|]|] eqn:Ch; try done. intros [= <-]. split; cbn; try done.
  - intros j. rewrite <- C. destruct (decide (id = j)) as [<-|N]; [|by rewrite lookup_insert_ne].
    rewrite lookup_insert_eq, Ch. naive_solver.
  - destruct F as (pre & [n A] & F). exists (arrived c). split; [done|].
    intros j q [[<- [= <-]]|[_ Hj]]%lookup_insert_Some; [by apply Rd|]. rewrite A. eauto.
Qed.

Lemma step_inv c e c' : inv c -> (is_call e = true -> nextID c + 1 < 2 ^ 63) -> step c e = Some c' -> inv c'.
Proof.
  intros W L. destruct e; cbn; [intros [= <-]; by apply begin_inv, L|..]; unfold call_step;
    [..|apply read_message_inv; done|apply deliver_inv; done];
    destruct (calls c !! id) as [[]|] eqn:H; try done; try (intros [= <-]; by eapply set_phase_inv).
  - destruct (chans c !! id) as [[r|]|] eqn:Hc; [|done..]. intros [= <-]. by eapply take_inv.
  - intros [= <-]. by eapply return_inv.
Qed.

Lemma step_next c e c' :
  inv c -> (is_call e = true -> nextID c + 1 < 2 ^ 63) -> step c e = Some c' ->
  nextID c' = nextID c + (if is_call e then 1 else 0).
Proof.
  intros W L. pose proof (inv_range _ W). destruct e; cbn; unfold call_step, read_message, deliver; intros St;
    [injection St as <-; cbn; rewrite wrap64_id; [done|specialize (L eq_refl); unfold in_int64, int64_min, int64_max; lia]|..];
    repeat (case_match; try done); simplify_eq/=; lia.
Qed.

Lemma calls_in_cons e es : calls_in (e :: es) = (if is_call e then 1 else 0) + calls_in es.
Proof. unfold calls_in. cbn. destruct (is_call e); cbn [length]; lia. Qed.

Lemma calls_in_nonneg es : 0 <= calls_in es.
Proof. unfold calls_in. lia. Qed.

(** An invariant of the steps is one of the runs, as long as identifiers last. *)
Lemma run_ind (P : client -> Prop) es c c' :
  (forall c e c', inv c -> P c -> (is_call e = true -> nextID c + 1 < 2 ^ 63) -> step c e = Some c' -> P c') ->
  inv c -> P c -> nextID c + calls_in es < 2 ^ 63 -> run c es = Some c' -> inv c' /\ P c'.
Proof.
  intros Pres. revert c. induction es as [|e es IH]; intros c W H L; cbn; [by intros [= <-]|].
  destruct (step c e) as [c1|] eqn:St; [|done]. cbn. rewrite calls_in_cons in L. pose proof (calls_in_nonneg es).
  assert (is_call e = true -> nextID c + 1 < 2 ^ 63) as Le by (intros E; rewrite E in L; lia).
  apply IH; [by eapply step_inv|by eapply Pres|]. rewrite (step_next _ _ _ W Le St). lia.
Qed.

Lemma NewClient_inv : inv NewClient.
Proof. split; cbn; try (intros *; rewrite ?lookup_empty); try done; [set_solver|]. exists []. split; [done|]. intros *. by rewrite lookup_empty. Qed.

Lemma reachable_inv es c : run NewClient es = Some c -> calls_in es < 2 ^ 63 -> inv c.
Proof. intros H L. eapply (run_ind (fun _ => True)); [..|exact H]; [done|apply NewClient_inv|done|done]. Qed.

(** C36. The calls of a tool server. Whatever the goroutines of callers and the read loop do, and
    whatever the server sends: a call returns a result, or an error of the server, only from a
    message that carries its own identifier and arrived after it was made; the table of pending
    calls holds exactly the calls in flight; a server that answers each call at most once never
    blocks the loop; and a waiting call gets the answer that arrives for it, and can always leave by
    its timeout. *)
Theorem calls_answered es c :
  run NewClient es = Some c -> calls_in es < 2 ^ 63 ->
  (forall id o, calls c !! id = Some (Returned o) -> explained (arrived c) id o) /\
  (forall id, id ∈ pending c <-> exists p, calls c !! id = Some p /\ in_flight p) /\
  (NoDup (RespID <$> (arrived c).*2) -> reader c = None \/ is_Some (deliver c)) /\
  (forall id m r, calls c !! id = Some (Waiting m) -> reader c = None -> chans c !! id = Some None -> RespID r = Some id ->
     exists c', run c [EMessage (Some r); EDeliver; ETake id; EReturn id] = Some c' /\
       calls c' !! id = Some (Returned (answer_of r)) /\ id ∉ pending c') /\
  (forall id m, calls c !! id = Some (Waiting m) ->
     exists c', run c [ETimeout id; EReturn id] = Some c' /\ calls c' !! id = Some (Returned (Err (TimedOut m)))).
Proof.
  intros Rn L. pose proof (reachable_inv _ _ Rn L) as [R I P C F Rd S]. split_and!.
  - intros id o H. exact (S _ _ H).
  - exact P.
  - intros ND. destruct (reader c) as [[id r]|] eqn:Rc; [right|by left]. unfold deliver. rewrite Rc.
    destruct (Rd _ _ eq_refl) as [[Er _] [p Hp]]. destruct (proj2 (C id)) as [ch Hch]; [eauto|]. rewrite Hch.
    destruct ch as [q|]; [|eauto]. exfalso. destruct F as (pre & [n A] & F). destruct (F _ _ Hch) as (Eq & k & Ik & _).
    rewrite A, !fmap_app, NoDup_app in ND. destruct ND as (_ & D & _). apply (D (Some id)).
    + apply list_elem_of_fmap. exists q. split; [done|]. apply list_elem_of_fmap. by exists (k, q).
    + cbn. rewrite Er. apply list_elem_of_singleton. done.
  - intros id m r H Rc Ch E. cbn. unfold read_message. rewrite Rc, E, bool_decide_eq_true_2.
    2:{ apply P. by exists (Waiting m). }
    cbn. unfold deliver. cbn. rewrite Ch. cbn. unfold call_step. cbn. rewrite H, lookup_insert_eq. cbn.
    rewrite lookup_insert_eq. cbn. eexists. split; [done|]. cbn. rewrite lookup_insert_eq. split; [done|set_solver].
  - intros id m H. cbn. unfold call_step. rewrite H. cbn. rewrite lookup_insert_eq. cbn. eexists. split; [done|].
    cbn. by rewrite lookup_insert_eq.
Qed.

(** A second answer for a call that has left while the first one lies in its channel blocks the
    read loop for ever: no later message is read. *)
Definition stuck (id : Z) (x : Z * Response) (c : client) : Prop :=
  reader c = Some x /\ x.1 = id /\ (exists q, chans c !! id = Some (Some q)) /\
  exists o, calls c !! id = Some (Leaving o) \/ calls c !! id = Some (Returned o).

Lemma call_step_other j e c c' id :
  call_step j e c = Some c' -> j <> id ->
  reader c' = reader c /\ chans c' !! id = chans c !! id /\ calls c' !! id = calls c !! id.
Proof.
  intros St N. unfold call_step in St. repeat (case_match; try done); simplify_eq/=; split_and!; try done;
    by rewrite lookup_insert_ne.
Qed.

Lemma call_step_gone e c c' id o :
  call_step id e c = Some c' -> calls c !! id = Some (Leaving o) \/ calls c !! id = Some (Returned o) ->
  reader c' = reader c /\ chans c' !! id = chans c !! id /\ calls c' !! id = Some (Returned o).
Proof.
  intros St [H|H]; unfold call_step in St; rewrite H in St; [|done]. destruct e; try done. injection St as <-. cbn.
  by rewrite lookup_insert_eq.
Qed.

Lemma stuck_call_step j e id x c c' : stuck id x c -> call_step j e c = Some c' -> stuck id x c'.
Proof.
  intros (Rc & Ex & Hq & (o & Ho)) St. destruct (decide (j = id)) as [->|N].
  - destruct (call_step_gone _ _ _ _ _ St Ho) as (E1 & E2 & E3). unfold stuck. rewrite E1, E2. eauto 10.
  - destruct (call_step_other _ _ _ _ _ St N) as (E1 & E2 & E3). unfold stuck. rewrite E1, E2, E3. eauto 10.
Qed.

Lemma stuck_step id x c e c' :
  inv c -> stuck id x c -> (is_call e = true -> nextID c + 1 < 2 ^ 63) -> step c e = Some c' -> stuck id x c'.
Proof.
  intros W Sk L St. destruct e; cbn in St; try by eapply stuck_call_step.
  - destruct Sk as (Rc & Ex & (q & Hq) & (o & Ho)). injection St as <-. specialize (L eq_refl). pose proof (inv_range _ W).
    assert (wrap64 (nextID c + 1) <> id) as N.
    { rewrite wrap64_id by (unfold in_int64, int64_min, int64_max; lia). intros <-.
      destruct Ho as [Ho|Ho]; apply (inv_ids _ W) in Ho; lia. }
    split_and!; cbn; [done..| |]; [exists q|exists o]; by rewrite lookup_insert_ne.
  - destruct Sk as (Rc & _). unfold read_message in St. by rewrite Rc in St.
  - destruct Sk as (Rc & Ex & (q & Hq) & _). unfold deliver in St. rewrite Rc in St. destruct x as [j r].
    cbn in Ex. subst j. by rewrite Hq in St.
Qed.

Lemma stuck_forever es id x c c' :
  inv c -> stuck id x c -> nextID c + calls_in es < 2 ^ 63 -> run c es = Some c' -> reader c' = Some x.
Proof.
  intros W Sk L Rn. destruct (run_ind (stuck id x) es c c') as [_ (H & _)]; [|done..]. intros. by eapply stuck_step.
Qed.

(** A server that answers twice, and a caller that gives up in between. *)
Lemma duplicate_answer_blocks :
  exists es c, run NewClient es = Some c /\
    forall es' c', calls_in es' < 2 ^ 63 - 1 -> run c es' = Some c' -> is_Some (reader c').
Proof.
  pose (r := mkResponse (Some 1) "{}" None).
  exists [ECall "tools/list"; ESent 1; EMessage (Some r); EDeliver; EMessage (Some r); ETimeout 1; EReturn 1]. eexists.
  split; [reflexivity|]. intros es' c' L Rn. eapply (stuck_forever es' 1 (1, r)) in Rn; [eauto| | |].
  - eapply (reachable_inv [ECall "tools/list"; ESent 1; EMessage (Some r); EDeliver; EMessage (Some r); ETimeout 1; EReturn 1]);
      [reflexivity|done].
  - split_and!; [done..|by eexists|eexists; by right].
  - change (1 + calls_in es' < 2 ^ 63). lia.
Qed.

(** ** transport.go *)

Inductive kind := KStdio | KSSE | KWebsocket.

Definition NewServer (cfg : ServerConfig) : kind :=
  if String.eqb (Type_ cfg) "stdio" then KStdio
  else if String.eqb (Type_ cfg) "sse" then KSSE
  else if String.eqb (Type_ cfg) "websocket" then KWebsocket
  else KSSE.

(** A list of the server: [dec] decodes the field of the result. The Go code reads the list and
    decodes into it in one return statement; the list is taken to be read last. *)
Definition list_result {A} (dec : RawMessage -> res string (list A)) (err_text : call_error -> string) (o : outcome)
  : Mcp.answer (list A) :=
  match o with
  | Err e => Mcp.Fault (err_text e)
  | Ok raw => match dec raw with Err m => Mcp.Fault m | Ok l => Mcp.Answer l end
  end.

Definition raw_result (err_text : call_error -> string) (o : outcome) : Mcp.answer RawMessage :=
  match o with Err e => Mcp.Fault (err_text e) | Ok raw => Mcp.Answer raw end.

(** The operations of a server, as the hub uses them, from the outcome of its calls. *)
Definition server_ops (err_text : call_error -> string) (dec_tools : RawMessage -> res string (list Mcp.Tool))
    (dec_resources : RawMessage -> res string (list Mcp.Resource)) (dec_prompts : RawMessage -> res string (list Mcp.Prompt))
    (call : nat -> string -> gmap string param -> outcome) (health : nat -> option string) : Mcp.ServerOps :=
  let ask k q := call k (rpc_method q) (rpc_params q) in
  Mcp.mkServer
    (fun k => list_result dec_tools err_text (ask k RListTools))
    (fun k n a => raw_result err_text (ask k (RCallTool n a)))
    (fun k => list_result dec_resources err_text (ask k RListResources))
    (fun k u => raw_result err_text (ask k (RReadResource u)))
    (fun k => list_result dec_prompts err_text (ask k RListPrompts))
    (fun k n a => raw_result err_text (ask k (RGetPrompt n a)))
    health.

(** ** transport_sse.go *)

Section Auth.
Context (base64 : string -> string).

Definition basic (user password : string) : string := "Basic " +:+ base64 (user +:+ ":" +:+ password).

(** The Authorization header, [None] when it is not set. *)
Definition applyAuth (cfg : ServerConfig) : option string :=
  if negb (String.eqb (APIKey cfg) "") then Some ("Bearer " +:+ APIKey cfg)
  else if String.eqb (AuthType (Auth cfg)) "bearer" then Some ("Bearer " +:+ AuthToken (Auth cfg))
  else if String.eqb (AuthType (Auth cfg)) "basic" then Some (basic (AuthUser (Auth cfg)) (AuthToken (Auth cfg)))
  else None.
End Auth.

(** What the read loop finds in the stream. *)
Inductive sse_item := Endpoint (data : string) | Msg (data : string).

(** The loop over the lines: only the first endpoint counts, only the last data line of an event. *)
Fixpoint sse_lines (sent : bool) (eventType data : string) (lines : list string) : list sse_item :=
  match lines with
  | [] => []
  | line :: lines =>
      if HasPrefix line "event:" then sse_lines sent (TrimSpace (TrimPrefix line "event:")) data lines
      else if HasPrefix line "data:" then sse_lines sent eventType (TrimSpace (TrimPrefix line "data:")) lines
      else if String.eqb line "" then
        if String.eqb eventType "endpoint" then
          if sent then sse_lines sent "" "" lines else Endpoint data :: sse_lines true "" "" lines
        else if String.eqb eventType "message" then Msg data :: sse_lines sent "" "" lines
        else sse_lines sent "" "" lines
      else sse_lines sent eventType data lines
  end.

(** [bufio.NewScanner] with its default limit. *)
Definition MaxScanTokenSize : Z := 64 * 1024.
Definition sseLoop (body : string) : list sse_item := sse_lines false "" "" (scan_lines MaxScanTokenSize body).

(** [live] is whether the stream's context is not cancelled. *)
Record sse := mkSse { postURL : string; connected : bool; live : bool }.

(** Which case of the select comes first. *)
Inductive sse_start := StCtxDone (err : string) | StLoopError (err : string) | StEndpoint (ep : string) | StTimeout.

(** [init] is the outcome of the call that initialises the session. *)
Definition sse_Connect (start : sse_start) (init : res string RawMessage) (s : sse) : res string unit * sse :=
  match start with
  | StCtxDone e => (Err e, mkSse (postURL s) (connected s) false)
  | StLoopError e => (Err ("sse: connect: " +:+ e), mkSse (postURL s) (connected s) false)
  | StTimeout => (Err "sse: timeout waiting for endpoint", mkSse (postURL s) (connected s) false)
  | StEndpoint ep =>
      let s := mkSse ep true true in
      match init with
      | Err e => (Err ("sse: initialize: " +:+ e), s)
      | Ok _ => (Ok tt, s)
      end
  end.

Definition sse_Close (s : sse) : sse := mkSse (postURL s) false false.
Definition sse_Health (s : sse) : option string := if connected s then None else Some "not connected".

(** [post] is the answer of the HTTP client to a request, [NewRequest] fails on a bad URL. *)
Definition postMessage (url_ok : string -> bool) (post : string -> Request -> res string (Z * string))
    (id : Z) (method : string) (params : option RawMessage) (s : sse) : res string unit :=
  if negb (url_ok (postURL s)) then Err "bad URL"
  else match post (postURL s) (envelope id method params) with
       | Err e => Err ("sse: post: " +:+ e)
       | Ok (code, body) => if 400 <=? code then Err ("sse: status: " +:+ take_str 512 body) else Ok tt
       end.

(** ** transport_websocket.go *)

(** [conn]: a connection was made; it is kept after [Close]. *)
Record ws := mkWs { conn : bool; ws_connected : bool }.

Definition ws_Close (s : ws) : ws := mkWs (conn s) false.
Definition ws_Health (s : ws) : option string := if ws_connected s then None else Some "not connected".

Definition ws_Connect (dial : res string unit) (init : res string RawMessage) (s : ws) : res string unit * ws :=
  match dial with
  | Err e => (Err ("websocket: dial: " +:+ e), s)
  | Ok _ =>
      let s := mkWs true true in
      match init with
      | Err e => (Err ("websocket: initialize: " +:+ e), ws_Close s)
      | Ok _ => (Ok tt, s)
      end
  end.

Definition wsSend (write : Request -> res string unit) (id : Z) (method : string) (params : option RawMessage) (s : ws)
  : res string unit :=
  if conn s then write (envelope id method params) else Err "websocket: not connected".

(** One round of [readLoop]: a read error ends it. *)
Definition ws_read (m : res string (option Response)) (c : client) (s : ws) : option client * ws :=
  match m with
  | Err _ => (Some c, mkWs (conn s) false)
  | Ok m => (read_message m c, s)
  end.

(** ** transport_stdio.go *)

Definition blockedEnvVars : list string :=
  ["LD_PRELOAD"; "LD_LIBRARY_PATH"; "DYLD_INSERT_LIBRARIES"; "DYLD_LIBRARY_PATH"; "LD_AUDIT"; "LD_DEBUG"].

Section Stdio.
Context (IsAbs : string -> bool) (ToUpper : string -> string) (Marshal : gmap string param -> option RawMessage).

(** The entries of the environment, in the order in which the map is walked. With none, the process
    inherits the environment of the gateway. *)
Fixpoint build_env (env : list (string * string)) (acc : list string) : res string (list string) :=
  match env with
  | [] => Ok acc
  | (k, v) :: env =>
      if slices_Contains blockedEnvVars (ToUpper k) then Err ("stdio: env var is not allowed: " +:+ k)
      else build_env env (acc ++ [k +:+ "=" +:+ v])
  end.

(** [mu] is whether the mutex is held, [stdin] whether the pipe was made. [spawned] is the processes
    started, with their arguments and environment. *)
Record stdio := mkStdio {
  mu : bool; running : bool; stdin : bool; spawned : list (string * list string * list string)
}.

(** What an operation comes to: it returns, or it waits for ever on the mutex. *)
Inductive finished (A : Type) := Done (a : A) | Blocked.
Arguments Done {A} a.
Arguments Blocked {A}.

(** [sendLocked] takes the mutex; its holder waits for itself. *)
Definition sendLocked (write : Request -> res string unit) (id : Z) (method : string) (params : option RawMessage) (s : stdio)
  : finished (res string unit) :=
  if mu s then Blocked
  else Done (if stdin s then write (envelope id method params) else Err "stdio: not connected").

(** A notification without parameters encodes them as null. *)
Definition notifyLocked (write : Request -> res string unit) (method : string) (s : stdio) : finished (res string unit) :=
  sendLocked write 0 method (Some "null") s.

Definition stopLocked (s : stdio) : stdio := mkStdio (mu s) false (stdin s) (spawned s).
Definition unlock (s : stdio) : stdio := mkStdio false (running s) (stdin s) (spawned s).

(** The results of making the pipes and starting the process, of the write, and of the wait for the
    answer to the initialisation once it is sent. *)
Record stdio_env := mkStdioEnv {
  stdin_pipe : option string; stdout_pipe : option string; start_err : option string;
  write_pipe : Request -> res string unit; init_answer : res string RawMessage
}.

(** The initialisation by [call], with the mutex held. *)
Definition initialize (e : stdio_env) (id : Z) (s : stdio) : finished (res string RawMessage) :=
  match sendLocked (write_pipe e) id "initialize" (Marshal init_params) s with
  | Blocked => Blocked
  | Done (Err m) => Done (Err m)
  | Done (Ok _) => Done (init_answer e)
  end.

Definition stdio_Connect (e : stdio_env) (cfg : ServerConfig) (id : Z) (s : stdio) : finished (res string unit) * stdio :=
  if mu s then (Blocked, s)
  else if negb (IsAbs (Command cfg)) then (Done (Err ("stdio: command must be an absolute path: " +:+ Command cfg)), s)
  else match build_env (Env cfg) [] with
  | Err m => (Done (Err m), s)
  | Ok env =>
      match stdin_pipe e, stdout_pipe e, start_err e with
      | Some m, _, _ => (Done (Err ("stdio: StdinPipe: " +:+ m)), s)
      | None, Some m, _ => (Done (Err ("stdio: StdoutPipe: " +:+ m)), s)
      | None, None, Some m => (Done (Err ("stdio: start: " +:+ m)), s)
      | None, None, None =>
          let s := mkStdio true true true (spawned s ++ [(Command cfg, Args cfg, env)]) in
          match initialize e id s with
          | Blocked => (Blocked, s)
          | Done (Err m) => (Done (Err ("stdio: initialize: " +:+ m)), unlock (stopLocked s))
          | Done (Ok _) =>
              match notifyLocked (write_pipe e) "notifications/initialized" s with
              | Blocked => (Blocked, s)
              | Done _ => (Done (Ok tt), unlock s)
              end
          end
      end
  end.

Definition stdio_Close (s : stdio) : finished unit * stdio :=
  if mu s then (Blocked, s) else (Done tt, stopLocked s).
Definition stdio_Health (s : stdio) : finished (option string) :=
  if mu s then Blocked else Done (if running s then None else Some "stdio process not running").

(** What the read loop takes from the output of the process: lines of at most half a megabyte. *)
Definition stdio_readLoop (dec : string -> option Response) (out : string) : list event :=
  (fun l => EMessage (dec l)) <$> scan_lines (512 * 1024) out.

(** [Hub.Connect] waits for every server. *)
Definition hub_Connect {A} (connects : list (finished A)) : finished unit :=
  if forallb (fun r => match r with Done _ => true | Blocked => false end) connects then Done tt else Blocked.

(** [Hub.Close] closes one server after the other: how many are closed, and whether it returns. *)
Fixpoint hub_Close {A} (closes : list (finished A)) : nat * finished unit :=
  match closes with
  | [] => (O, Done tt)
  | Blocked :: _ => (O, Blocked)
  | Done _ :: closes => let '(n, r) := hub_Close closes in (S n, r)
  end.

(** The name an entry of the environment gives a value to: what is before its first equality sign. *)
Fixpoint var_name (entry : string) : string :=
  match entry with
  | EmptyString => EmptyString
  | String c s => if Ascii.eqb c "=" then EmptyString else String c (var_name s)
  end.

Lemma var_name_entry k v : has_char "=" k = false -> var_name (k +:+ "=" +:+ v) = k.
Proof.
  induction k as [|c k IH]; [done|]. cbn. rewrite orb_false_iff. intros [C H]. rewrite C. f_equal. exact (IH H).
Qed.

Lemma build_env_spec env acc l :
  build_env env acc = Ok l ->
  l = acc ++ ((fun kv => kv.1 +:+ "=" +:+ kv.2) <$> env) /\ Forall (fun kv => ToUpper kv.1 ∉ blockedEnvVars) env.
Proof.
  revert acc. induction env as [|[k v] env IH]; intros acc; cbn [build_env].
  - intros [= <-]. by rewrite app_nil_r.
  - destruct (slices_Contains blockedEnvVars (ToUpper k)) eqn:B; [done|]. intros [-> F]%IH.
    rewrite <- app_assoc. split; [reflexivity|]. constructor; [|exact F]. by apply slices_Contains_false in B.
Qed.

(** What a stdio server runs. A process is started only for an absolute path, and, as long as
    no configured name contains an equality sign, no entry of its environment sets a variable whose
    upper-case name is one of the blocked ones. *)
Theorem stdio_spawn_safe e cfg id s r s' path args env :
  stdio_Connect e cfg id s = (r, s') -> (path, args, env) ∈ spawned s' ->
  (path, args, env) ∈ spawned s \/
  path = Command cfg /\ args = Args cfg /\ IsAbs path = true /\
  (Forall (fun kv => has_char "=" kv.1 = false) (Env cfg) ->
   Forall (fun x => ToUpper (var_name x) ∉ blockedEnvVars) env).
Proof.
  unfold stdio_Connect. destruct (mu s); [intros [= <- <-]; auto|].
  destruct (IsAbs (Command cfg)) eqn:A; cbn [negb]; [|intros [= <- <-]; auto].
  destruct (build_env (Env cfg) []) as [l|m] eqn:B; [|intros [= <- <-]; auto].
  destruct (stdin_pipe e); [intros [= <- <-]; auto|]. destruct (stdout_pipe e); [intros [= <- <-]; auto|].
  destruct (start_err e); [intros [= <- <-]; auto|].
  unfold initialize, sendLocked. cbn. intros [= <- <-]. cbn.
  rewrite elem_of_app, list_elem_of_singleton. intros [H|[= -> -> ->]]; [by left|]. right. split_and!; try done.
  apply build_env_spec in B as [-> F]. cbn. intros N. rewrite Forall_fmap.
  apply Forall_forall. intros [k v] I. rewrite Forall_forall in N, F.
  change (ToUpper (var_name (k +:+ "=" +:+ v)) ∉ blockedEnvVars). rewrite var_name_entry; [by apply (F (k, v))|by apply (N (k, v))].
Qed.

(** No stdio server ever connects: once its process runs, [Connect] waits for the mutex it holds, and
    so does everything after it. *)
Lemma stdio_never_connects e cfg id s r s' :
  stdio_Connect e cfg id s = (r, s') ->
  r <> Done (Ok tt) /\
  (forall m, mu s = false -> IsAbs (Command cfg) = true -> build_env (Env cfg) [] = Ok m ->
     stdin_pipe e = None -> stdout_pipe e = None -> start_err e = None ->
     r = Blocked /\ running s' = true /\ (stdio_Close s').1 = Blocked /\ stdio_Health s' = Blocked /\
     forall rs, r ∈ rs -> hub_Connect rs = Blocked).
Proof.
  intros C. split.
  - unfold stdio_Connect, initialize, notifyLocked, sendLocked in C. repeat (case_match; simplify_eq/=; try done).
  - intros m M A B P1 P2 P3. unfold stdio_Connect, initialize, notifyLocked, sendLocked in C. rewrite M, A, B, P1, P2, P3 in C. cbn in C.
    injection C as <- <-. split_and!; try done. intros rs I. unfold hub_Connect.
    destruct (forallb _ rs) eqn:F; [|done]. rewrite forallb_forall in F. apply list_elem_of_In in I. by specialize (F _ I).
Qed.

End Stdio.

(** A line that is too long ends a read loop: what the server sends after it is not read, while the
    server still counts as healthy. *)
Lemma long_line_ends max l rest :
  has_char LF l = false -> max <= Z.of_nat (String.length l) -> scan_lines max (l +:+ String LF rest) = [].
Proof.
  unfold scan_lines. change l with ("" +:+ l) at 2. generalize "" as cur. induction l as [|c l IH]; intros cur H L; cbn.
  - rewrite str_app_nil_r in L. by rewrite (proj2 (Z.leb_le _ _) L).
  - cbn in H. apply orb_false_iff in H as [-> H]. apply IH; [done|]. by rewrite str_app_assoc.
Qed.

(** ** The event stream reads back *)

Definition item_lines (i : sse_item) : list string :=
  match i with
  | Endpoint d => ["event: endpoint"; "data: " +:+ d; ""]
  | Msg d => ["event: message"; "data: " +:+ d; ""]
  end.
Definition sse_stream (items : list sse_item) : string := unlines (items ≫= item_lines).
Definition item_data (i : sse_item) : string := match i with Endpoint d | Msg d => d end.

(** Data without line breaks and blanks around it, on a line the scanner takes. *)
Definition item_ok (i : sse_item) : Prop :=
  line_ok MaxScanTokenSize ("data: " +:+ item_data i) /\ TrimSpace (item_data i) = item_data i.

(** Of the endpoints the first one. *)
Fixpoint first_endpoint (sent : bool) (items : list sse_item) : list sse_item :=
  match items with
  | [] => []
  | Endpoint d :: items => if sent then first_endpoint true items else Endpoint d :: first_endpoint true items
  | Msg d :: items => Msg d :: first_endpoint sent items
  end.

Lemma TrimSpace_blank d : TrimSpace (" " +:+ d) = TrimSpace d.
Proof.
  assert (E : space_len (" " +:+ d) = 1%nat) by (by destruct d). cbn [String.append] in E.
  unfold TrimSpace. f_equal. cbn [String.append TrimLeft_from]. by rewrite E.
Qed.

Lemma event_types :
  TrimSpace (TrimPrefix "event: endpoint" "event:") = "endpoint" /\
  TrimSpace (TrimPrefix "event: message" "event:") = "message".
Proof. by vm_compute. Qed.

Lemma item_lines_ok i : item_ok i -> Forall (line_ok MaxScanTokenSize) (item_lines i).
Proof. intros [L _]. destruct i; cbn [item_lines]; (constructor; [by vm_compute|constructor; [exact L|constructor; [by vm_compute|constructor]]]).
Qed.

Lemma sse_lines_items sent items tl :
  Forall item_ok items ->
  exists sent', sse_lines sent "" "" ((items ≫= item_lines) ++ tl) = first_endpoint sent items ++ sse_lines sent' "" "" tl.
Proof.
  intros F. revert sent. induction F as [|i items [_ T] F IH]; intros sent; [by exists sent|].
  destruct i as [d|d]; cbn [item_data] in T; cbn [mbind list_bind item_lines app sse_lines first_endpoint].
  - change (TrimSpace (TrimPrefix ("data: " +:+ d) "data:")) with (TrimSpace (" " +:+ d)).
    rewrite TrimSpace_blank, T, (proj1 event_types). cbn -[TrimSpace TrimPrefix]. destruct sent; [apply IH|].
    destruct (IH true) as [x E]. exists x. exact (f_equal (cons _) E).
  - change (TrimSpace (TrimPrefix ("data: " +:+ d) "data:")) with (TrimSpace (" " +:+ d)).
    rewrite TrimSpace_blank, T, (proj2 event_types). cbn -[TrimSpace TrimPrefix]. destruct (IH sent) as [x E]. exists x. exact (f_equal (cons _) E).
Qed.

(** The event stream of a tool server reads back: of the items a server writes, each on lines
    the scanner takes, the loop finds the messages and the first endpoint, in order, whatever
    follows. *)
Theorem sse_reads_back items rest :
  Forall item_ok items ->
  exists found, sseLoop (sse_stream items +:+ rest) = first_endpoint false items ++ found.
Proof.
  intros F. unfold sseLoop, sse_stream. rewrite scan_unlines.
  - destruct (sse_lines_items false items (scan_lines MaxScanTokenSize rest) F) as [x E]. rewrite E. eauto.
  - clear -F. induction F as [|i l H F IH]; [constructor|]. cbn. apply Forall_app. split; [by apply item_lines_ok|exact IH].
Qed.

(** ** Examples and witnesses *)

Definition demo_answer : Response := mkResponse (Some 2) "{}" None.
Definition demo_events : list event :=
  [ECall "tools/list"; ECall "tools/call"; ESent 2; ESent 1; EMessage (Some demo_answer); EDeliver; ETake 2; EReturn 2;
   EMessage (Some (mkResponse (Some 7) "" None)); EMessage None].

(** The second of two calls is answered, the first one still waits. *)
Definition demo_client : client := default NewClient (run NewClient demo_events).

Lemma calls_answered_witness :
  calls demo_client !! 2 = Some (Returned (Ok "{}")) /\ explained (arrived demo_client) 2 (Ok "{}") /\ 1 ∈ pending demo_client.
Proof.
  destruct (calls_answered demo_events demo_client eq_refl ltac:(vm_compute; reflexivity)) as (E & P & _).
  split_and!; [vm_compute; reflexivity|apply E; vm_compute; reflexivity|].
  apply P. exists (Waiting "tools/list"). split; [vm_compute; reflexivity|exact I].
Defined.

Definition demo_env : stdio_env := mkStdioEnv None None None (fun _ => Ok tt) (Ok "{}").
Definition demo_cfg (env : list (string * string)) : ServerConfig :=
  mkConfig "files" "stdio" "/bin/mcp" ["--ro"] env "" "" (mkAuth "" "" "").
Definition demo_stdio : stdio := mkStdio false false false [].
Definition demo_abs (p : string) : bool := HasPrefix p "/".
Definition demo_upper (s : string) : string := if String.eqb s "ld_preload" then "LD_PRELOAD" else s.

Lemma stdio_spawn_safe_witness :
  Forall (fun x => demo_upper (var_name x) ∉ blockedEnvVars) ["HOME=/tmp"].
Proof.
  destruct (stdio_spawn_safe demo_abs demo_upper (fun _ => None) demo_env (demo_cfg [("HOME", "/tmp")]) 1 demo_stdio _ _ "/bin/mcp" ["--ro"] ["HOME=/tmp"]
    eq_refl) as [H|(_ & _ & _ & H)].
  - vm_compute. apply list_elem_of_singleton. reflexivity.
  - apply elem_of_nil in H. destruct H.
  - apply H. repeat constructor.
Defined.

(** A blocked name is refused in any case, but not with a value in the name itself. *)
Lemma env_guard_bypassed :
  (exists m, (stdio_Connect demo_abs demo_upper (fun _ => None) demo_env (demo_cfg [("ld_preload", "/x.so")]) 1 demo_stdio).1 = Done _ (Err m)) /\
  spawned (stdio_Connect demo_abs demo_upper (fun _ => None) demo_env (demo_cfg [("LD_PRELOAD=/x.so:", "")]) 1 demo_stdio).2 =
    [("/bin/mcp", ["--ro"], ["LD_PRELOAD=/x.so:="])] /\
  var_name "LD_PRELOAD=/x.so:=" = "LD_PRELOAD".
Proof. split_and!; [eexists; vm_compute; reflexivity|vm_compute; reflexivity|vm_compute; reflexivity]. Qed.

(** A server whose session is not initialised counts as healthy. *)
Lemma sse_failed_init_healthy e s :
  let '(r, s') := sse_Connect (StEndpoint "/post") (Err e) s in
  r = Err ("sse: initialize: " +:+ e) /\ sse_Health s' = None /\ live s' = true.
Proof. done. Qed.

Lemma sse_reads_back_witness :
  exists found, sseLoop (sse_stream [Endpoint "/post?id=1"; Msg "{}"; Endpoint "/other"] +:+ "event: x") =
    [Endpoint "/post?id=1"; Msg "{}"] ++ found.
Proof.
  apply (sse_reads_back [Endpoint "/post?id=1"; Msg "{}"; Endpoint "/other"] "event: x").
  repeat (constructor; [split; vm_compute; auto|]). constructor.
Defined.

End Transport.
