(* ===== verification/Operator.v ===== *)
(** * Operator endpoints (internal/gateway/handler/admin_playground.go, admin_cache.go,
    admin_residency.go, admin_rate_limits.go; internal/cache/exact/cache.go, DeleteByPattern)

    What an administrator runs or inspects by hand: a chat through the playground, the flush of the
    exact cache, the residency policies and their check, the rate limits of a key. The theorems tie
    each to the component it shows: the playground answers as the chat handler does, a provider is
    reported as compliant exactly when the enforcer lets a request reach it, and after a flush no
    request is answered from the cache. *)

From S2P Require Import Prelude GoStrings Float64 Types ProviderErrors LoadBalancer Fallback Cost VirtualKey RateLimit.
From S2P Require Import Access ExactCache Chat.
Local Open Scope Z_scope.

Module Operator.

(** ** admin_playground.go *)

Section Playground.
Context {W : Type} `{World W}.
Context (Quote : string -> string) (err_text : PErr.goerror -> string) (uuid_Parse : string -> option UUID)
        (Marshal : ChatCompletionRequest -> string) (ToLower : string -> string).

(** A request, with the key it is logged under. *)
Record playgroundRequest := mkPlay { PKeyID : string; PRequest : ChatCompletionRequest }.

(** [strings.SplitN(model, /, 2)] has two parts when there is a slash. *)
Definition playgroundChain (model : string) : Chain :=
  match Index model "/" with
  | Some i => if negb (String.eqb (take_str i model) "") then SingleTarget (take_str i model) (drop_str (S i) model)
              else SingleTarget "openai" model
  | None => SingleTarget "openai" model
  end.

Definition SetCost (x : float64) (l : Telemetry.RequestLogContext) : Telemetry.RequestLogContext :=
  Telemetry.mkLC (Telemetry.LVirtualKeyID l) (Telemetry.LUserID l) (Telemetry.LTeamID l) (Telemetry.LOrgID l)
    (Telemetry.LModel l) (Telemetry.LProvider l) (Telemetry.LPromptTokens l) (Telemetry.LCompletionTokens l)
    (Telemetry.LTotalTokens l) (Telemetry.LFinishReason l) (Telemetry.LErrorCode l) (Telemetry.LErrorMessage l)
    (Telemetry.LIsStreaming l) (Telemetry.LTTFTAt l) x (Telemetry.LCacheResult l).

Definition recordCost (calc : option Cost.Calculator) (l : Telemetry.RequestLogContext) : Telemetry.RequestLogContext :=
  match calc with
  | None => l
  | Some c => SetCost (Cost.Calculate ToLower c (Telemetry.LModel l) (Telemetry.LPromptTokens l) (Telemetry.LCompletionTokens l)) l
  end.

(** The key of the request in the log; an identifier that does not parse, or is not found, is
    ignored. *)
Definition note_key (keys : option (gmap UUID VK.VirtualKey)) (ok : bool) (id : string) (l : Telemetry.RequestLogContext)
  : Telemetry.RequestLogContext :=
  if String.eqb id "" then l
  else match uuid_Parse id, keys with
       | Some k, Some t =>
           match (if ok then VK.store_GetByID t k else Err VK.ErrKeyNotFound) with
           | Ok key => Telemetry.SetVirtualKeyInfo (Some (VK.ID key)) (VK.UserID key) (VK.TeamID key) (VK.OrgID key) l
           | Err _ => l
           end
       | _, _ => l
       end.

(** [body] is the decoded body, or why there is none. *)
Definition playground_Chat (fr : Fallback.Router W) (keys : option (gmap UUID VK.VirtualKey)) (calc : option Cost.Calculator) (keys_ok : bool)
    (body : res string playgroundRequest) (schedule : list StreamChunk -> list Sse.input) (id : string) (created : Z)
    (l : Telemetry.RequestLogContext) (w : W) : Chat.response * Telemetry.RequestLogContext * W :=
  match body with
  | Err m => (Chat.HError 400 m "invalid_request_error" "", l, w)
  | Ok preq =>
      let req := PRequest preq in
      if String.eqb (Model req) "" then (Chat.HError 400 "model is required" "invalid_request_error" "", l, w)
      else if Z.of_nat (length (Messages req)) =? 0 then (Chat.HError 400 "messages is required" "invalid_request_error" "", l, w)
      else
        let l := note_key keys keys_ok (PKeyID preq) l in
        let chain := playgroundChain (Model req) in
        let l := Telemetry.SetModel (Model req) (Chat.primary chain) l in
        let used_model (used : Target) l :=
          if negb (String.eqb (Provider used) (Chat.primary chain)) then Telemetry.SetModel (Model req) (Provider used) l else l in
        if Stream req then
          let l := Telemetry.SetStreaming l in
          match Fallback.ExecuteStream Quote fr chain req (Marshal req) w with
          | (Err (e, _), w) =>
              match PErr.errors_As_gateway e with
              | Some g => (Chat.HStreamError (PErr.HTTPStatus g) (PErr.GMessage g) (PErr.code_string (PErr.Code g)),
                           Telemetry.SetError (PErr.code_string (PErr.Code g)) (PErr.GMessage g) l, w)
              | None => (Chat.HError 502 (err_text e) "api_error" "", Telemetry.SetError "api_error" (err_text e) l, w)
              end
          | (Ok (ch, used), w) =>
              let '(out, l) := Sse.StreamChannelToClient err_text id created (Model req) (schedule ch) (used_model used l) in
              (Chat.HStream out, recordCost calc l, w)
          end
        else
          match Fallback.Execute Quote fr chain req (Marshal req) w with
          | (Err (e, _), w) =>
              match PErr.errors_As_gateway e with
              | Some g => (Chat.HError (PErr.HTTPStatus g) (PErr.GMessage g) (PErr.code_string (PErr.Code g)) "",
                           Telemetry.SetError (PErr.code_string (PErr.Code g)) (PErr.GMessage g) l, w)
              | None => (Chat.HError 502 (err_text e) "api_error" "", Telemetry.SetError "api_error" (err_text e) l, w)
              end
          | (Ok (resp, used), w) =>
              let l := used_model used l in
              match resp with
              | None => (Chat.HPanic, l, w)
              | Some resp =>
                  let l := match RespUsage resp with
                           | Some u => Telemetry.SetTokens (PromptTokens u) (CompletionTokens u) (TotalTokens u) l
                           | None => l
                           end in
                  let l := match Choices resp with c :: _ => Telemetry.SetFinishReason (FinishReason c) l | [] => l end in
                  (Chat.HJson resp, recordCost calc l, w)
              end
          end
  end.

(** ** The playground and the chat endpoint *)

(** The chat handler the playground stands for: no rules, no chains, no residency. *)
Context (fmt_g : float64 -> string) (Unmarshal : string -> res string ChatCompletionRequest).

Lemma playgroundChain_resolve (fr : Fallback.Router W) model : playgroundChain model = Chat.resolveChain (Chat.NewChatHandler fr) model.
Proof.
  unfold playgroundChain, Chat.resolveChain, Chat.parseModel. cbn. rewrite lookup_empty.
  destruct (Index model "/") as [i|]; [|done]. by destruct (negb _).
Qed.

(** What is streamed does not depend on the log. *)
Lemma stream_out ins l l' id created model :
  (Sse.StreamChannelToClient err_text id created model ins l).1 = (Sse.StreamChannelToClient err_text id created model ins l').1.
Proof.
  unfold Sse.StreamChannelToClient. set (render := fun c => _).
  assert (E : forall l l', (Sse.stream_loop err_text render ins l).1 = (Sse.stream_loop err_text render ins l').1).
  { clear. induction ins as [|i ins IH]; intros l l'; [done|]. destruct i as [| |c now|]; cbn; try done.
    - specialize (IH l l'). destruct (Sse.stream_loop _ _ ins l), (Sse.stream_loop _ _ ins l'). cbn in *. congruence.
    - destruct (SError c); [done|]. specialize (IH (Sse.note_chunk c now l) (Sse.note_chunk c now l')).
      destruct (Sse.stream_loop _ _ ins _), (Sse.stream_loop _ _ ins _). cbn in *. congruence. }
  specialize (E l l'). destruct (Sse.stream_loop _ _ ins l), (Sse.stream_loop _ _ ins l'). cbn in *. congruence.
Qed.

(** What an answer says: a body, a stream, or an error by status, message and type. *)
Inductive said := SJson (r : ChatCompletionResponse) | SStream (out : list Sse.output) | SError (code : Z) (msg type : string) | SPanic.
Definition says (r : Chat.response) : said :=
  match r with
  | Chat.HError c m t _ | Chat.HStreamError c m t => SError c m t
  | Chat.HJson r => SJson r
  | Chat.HStream out => SStream out
  | Chat.HPanic => SPanic
  end.

(** The playground answers as the chat endpoint would: for a request that endpoint accepts,
    a chat handler without rules, chains and residency, given the encoding of the same request, says
    the same and does the same to the providers and circuit breakers. *)
Theorem playground_as_chat fr keys calc keys_ok preq ctx schedule id created l l' w :
  let req := PRequest preq in
  Unmarshal (Marshal req) = Ok req -> Chat.valid req ->
  let '(rep, _, w1) := playground_Chat fr keys calc keys_ok (Ok preq) schedule id created l w in
  let '(rep', _, w2) :=
    Chat.Handle Quote fmt_g err_text Unmarshal (Chat.NewChatHandler fr) ctx (Some (Marshal req)) schedule id created l' w in
  says rep = says rep' /\ w1 = w2.
Proof.
  intros req U V. unfold playground_Chat, Chat.Handle. fold req. rewrite U.
  destruct V as (Nm & Ms & T & M) eqn:Ev. clear Ev.
  assert (Chat.validateChatRequest fmt_g req = Ok tt) as -> by (by apply Chat.validate_spec).
  rewrite (proj2 (String.eqb_neq _ _) Nm). destruct (Z.eqb_spec (Z.of_nat (length (Messages req))) 0) as [E|_].
  { destruct (Messages req); [done|]. cbn in E. lia. }
  cbn [Chat.advRouter Chat.NewChatHandler]. rewrite <- playgroundChain_resolve.
  assert (exists t, Targets (playgroundChain (Model req)) = [t]) as [t Tg].
  { unfold playgroundChain, SingleTarget. destruct (Index _ _); [destruct (negb _)|]; eexists; done. }
  rewrite Tg. cbn [length Z.of_nat]. cbn -[playgroundChain Fallback.Execute Fallback.ExecuteStream].
  destruct (Stream req).
  - unfold Chat.handleStream. cbn [Chat.fallbackRouter Chat.NewChatHandler].
    destruct (Fallback.ExecuteStream _ _ _ _ _ _) as [[[ch used]|[e at_]] w']; [|by destruct (PErr.errors_As_gateway e)].
    match goal with |- context [Sse.StreamChannelToClient ?et ?i ?c ?m ?ins ?a] => set (l1 := a) end.
    match goal with |- context [Sse.StreamChannelToClient ?et ?i ?c ?m ?ins (if ?b then ?x else ?y)] => set (l2 := if b then x else y) end.
    pose proof (stream_out (schedule ch) l1 l2 id created (Model req)) as O.
    destruct (Sse.StreamChannelToClient _ _ _ _ _ l1), (Sse.StreamChannelToClient _ _ _ _ _ l2). cbn in *. by rewrite O.
  - destruct (Fallback.Execute _ _ _ _ _ _) as [[[resp used]|[e at_]] w']; [|by destruct (PErr.errors_As_gateway e)].
    by destruct resp.
Qed.
End Playground.

(** ** cache/exact/cache.go: DeleteByPattern, and admin_cache.go *)

(** One round of the scan: an error of SCAN, or the keys it returns with the result of deleting
    them. *)
Inductive scan_round := ScanError | Scanned (keys : list string) (del_ok : bool).

(** The rounds until the cursor is back at zero; [false] is an error. *)
Fixpoint DeleteByPattern (rounds : list scan_round) (st : gmap string (string * option Time)) : bool * gmap string (string * option Time) :=
  match rounds with
  | [] => (true, st)
  | ScanError :: _ => (false, st)
  | Scanned [] _ :: rounds => DeleteByPattern rounds st
  | Scanned keys del_ok :: rounds =>
      if del_ok then DeleteByPattern rounds (foldr delete st keys) else (false, st)
  end.

(** The flush; the model asked for is not applied. *)
Definition cache_Delete (rounds : list scan_round) (st : gmap string (string * option Time)) : Z * gmap string (string * option Time) :=
  let '(ok, st) := DeleteByPattern rounds st in (if ok then 200 else 500, st).

Section Flush.
Context `{Exact.Codec}.

Definition cache_Get (st : gmap string (string * option Time)) (hash : string) (ok : bool) (now : Time) : Z * option Exact.Entry :=
  if String.eqb hash "" then (400, None)
  else match Exact.Get st hash ok now with
       | Err _ => (500, None)
       | Ok None => (404, None)
       | Ok (Some e) => (200, Some e)
       end.

Definition scanned (rounds : list scan_round) : list string :=
  rounds ≫= fun r => match r with Scanned keys _ => keys | ScanError => [] end.

Lemma foldr_delete_lookup (st : gmap string (string * option Time)) keys k :
  foldr delete st keys !! k = if bool_decide (k ∈ keys) then None else st !! k.
Proof.
  induction keys as [|x keys IH]; [done|]. cbn. destruct (decide (x = k)) as [->|N].
  - rewrite lookup_delete_eq. by rewrite bool_decide_eq_true_2 by left.
  - rewrite lookup_delete_ne, IH by done. by rewrite (bool_decide_ext (k ∈ x :: keys) (k ∈ keys)) by set_solver.
Qed.

Lemma DeleteByPattern_spec rounds st st' :
  DeleteByPattern rounds st = (true, st') ->
  forall k, st' !! k = if bool_decide (k ∈ scanned rounds) then None else st !! k.
Proof.
  revert st. induction rounds as [|r rounds IH]; intros st E k; cbn in E.
  - by injection E as <-.
  - destruct r as [|keys del_ok]; [done|]. cbn. destruct keys as [|x keys]; [by apply IH|].
    destruct del_ok; [|done]. rewrite (IH _ E). rewrite foldr_delete_lookup.
    destruct (bool_decide (k ∈ scanned rounds)) eqn:B; breflect.
    + rewrite bool_decide_eq_true_2; [done|]. rewrite elem_of_app. auto.
    + destruct (bool_decide (k ∈ x :: keys)) eqn:B2; breflect.
      * rewrite bool_decide_eq_true_2; [done|]. rewrite elem_of_app. auto.
      * rewrite bool_decide_eq_false_2; [done|]. rewrite elem_of_app. tauto.
Qed.

(** A flush empties the cache: when a flush succeeds, and the scan did what Redis promises (it
    returned every key of the pattern that was there throughout, and only such keys), every later
    lookup of a chat entry misses, under whatever key, and no entry of another kind is touched. *)
Theorem flush_complete rounds st st' :
  (forall k, is_Some (st !! (Exact.keyPrefix +:+ k)) -> Exact.keyPrefix +:+ k ∈ scanned rounds) ->
  Forall (fun k => HasPrefix k Exact.keyPrefix = true) (scanned rounds) ->
  cache_Delete rounds st = (200, st') ->
  (forall k ok now, ok = true -> Exact.Get st' k ok now = Ok None) /\
  (forall k, HasPrefix k Exact.keyPrefix = false -> st' !! k = st !! k).
Proof.
  intros All Only. unfold cache_Delete. destruct (DeleteByPattern rounds st) as [[] s] eqn:D; [|done].
  intros [= <-]. pose proof (DeleteByPattern_spec _ _ _ D) as L. split.
  - intros k ok now ->. unfold Exact.Get, Exact.redis_get. cbn [negb]. rewrite L.
    case_bool_decide as B; [done|]. destruct (st !! (Exact.keyPrefix +:+ k)) eqn:E; [|done]. destruct B. eauto.
  - intros k N. rewrite L. case_bool_decide as B; [|done]. rewrite Forall_forall in Only. specialize (Only _ B). congruence.
Qed.

End Flush.

(** ** admin_residency.go *)

(** A policy as it is listed; the order of the names is that of the maps. *)
Record policy_view := mkView { VName : string; VAllowed : list string; VBlocked : list string; VRegions : list string }.

Definition view (p : Residency.Policy) : policy_view :=
  mkView (Residency.PolName p) (Residency.AllowedProviderNames p) (map_to_list (Residency.BlockedProviders p)).*1
    (Residency.AllowedRegions p).

Definition residency_List (r : Residency.PRegistry) : list policy_view := view <$> Residency.List_ r.
Definition residency_Get (r : Residency.PRegistry) (name : string) : option policy_view := view <$> Residency.Get r name.
Definition residency_Report (r : Residency.PRegistry) : list policy_view * Z :=
  (view <$> Residency.List_ r, Z.of_nat (length (Residency.List_ r))).

(** The answer to a check: a bad request, or whether the provider complies. *)
Inductive verdict := VBad (msg : string) | VCompliant | VRefused (e : Residency.ErrNoCompliantProvider).

Definition Validate (r : Residency.PRegistry) (body : option (string * string * string)) : verdict :=
  match body with
  | None => VBad "invalid JSON"
  | Some (policy, provider, model) =>
      let policy := TrimSpace policy in
      let provider := TrimSpace provider in
      if String.eqb policy "" || String.eqb provider "" then VBad "policy and provider are required"
      else match Residency.CheckProvider r policy provider model with None => VCompliant | Some e => VRefused e end
  end.

(** The check of a provider tells the truth: it reports compliance exactly when the enforcer lets
    a request for that provider pass under the policy, and otherwise the refusal the enforcer gives;
    in a chain of several targets, the ones the enforcer keeps are those the check reports as
    compliant. *)
Theorem validate_agrees r policy provider model m :
  TrimSpace policy = policy -> TrimSpace provider = provider -> policy <> "" -> provider <> "" ->
  match Validate r (Some (policy, provider, model)) with
  | VBad _ => False
  | VCompliant => Residency.FilterChain r policy (SingleTarget provider m) model = Ok (SingleTarget provider m)
  | VRefused e => Residency.FilterChain r policy (SingleTarget provider m) model = Err e
  end /\
  forall chain c t, Residency.FilterChain r policy chain model = Ok c -> t ∈ Targets chain -> Provider t = provider ->
    (t ∈ Targets c <-> Validate r (Some (policy, provider, model)) = VCompliant).
Proof.
  intros T1 T2 N1 N2. unfold Validate. rewrite T1, T2, (proj2 (String.eqb_neq _ _) N1), (proj2 (String.eqb_neq _ _) N2).
  cbn [orb]. unfold Residency.CheckProvider, Residency.FilterChain. destruct (Residency.Get r policy) as [p|].
  - split.
    + cbn. destruct (Residency.IsProviderAllowed p provider); done.
    + intros chain c t F I <-. destruct (_ =? 0); [done|]. injection F as <-. cbn. rewrite list_elem_of_In, filter_In, <- list_elem_of_In.
      destruct (Residency.IsProviderAllowed p (Provider t)); cbn; naive_solver.
  - split; [done|]. intros chain c t [= <-] I _. naive_solver.
Qed.

(** ** admin_rate_limits.go *)

Inductive limits_reply := LBad | LMissing | LLimits (id : UUID) (rpm tpm : option Z) (window : string)
| LReset (id : UUID) (rpm_key tpm_key : string) (reset_at : Time).

Section Limits.
Context (uuid_Parse : string -> option UUID) (keys : gmap UUID VK.VirtualKey) (ok : bool).

Definition find_key (id : string) : option (option VK.VirtualKey) :=
  match uuid_Parse id with
  | None => None
  | Some k => Some (if ok then match VK.store_GetByID keys k with Ok key => Some key | Err _ => None end else None)
  end.

Definition limits_Get (id : string) (now : Time) : limits_reply :=
  match find_key id with
  | None => LBad
  | Some None => LMissing
  | Some (Some k) => LLimits (VK.ID k) (VK.RPMLimit k) (VK.TPMLimit k) (RL.WindowMinute now)
  end.

(** Nothing is reset: the answer says when the next minute begins. *)
Definition limits_Reset (id : string) (now : Time) : limits_reply :=
  match find_key id with
  | None => LBad
  | Some None => LMissing
  | Some (Some k) => LReset (VK.ID k) (RL.KeyForKeyRPM (VK.ID k) (RL.WindowMinute now))
                       (RL.KeyForKeyTPM (VK.ID k) (RL.WindowMinute now)) (now / Minute * Minute + Minute)
  end.

End Limits.

(** ** Witnesses *)

#[local] Existing Instance Fallback.sim_world.

Definition demo_valid : Chat.valid Chat.demo_request.
Proof. apply (proj1 (Chat.validate_spec (fun _ => "") Chat.demo_request)). vm_compute. reflexivity. Defined.

Lemma playground_as_chat_witness :
  let '(rep, l, w1) := playground_Chat id (fun _ => "") (fun _ => None) (fun _ => "{}") id Fallback.sim_router None None true
    (Ok (mkPlay "" Chat.demo_request)) (fun _ => []) "id" 0 Telemetry.empty_log (Fallback.sim_start 5) in
  let '(rep', l', w2) := Chat.Handle id (fun _ => "") (fun _ => "") (fun _ => Ok Chat.demo_request)
    (Chat.NewChatHandler Fallback.sim_router) Tenant.empty_ctx (Some "{}") (fun _ => []) "id" 0 Telemetry.empty_log
    (Fallback.sim_start 5) in
  says rep = says rep' /\ w1 = w2.
Proof.
  exact (playground_as_chat id (fun _ => "") (fun _ => None) (fun _ => "{}") id (fun _ => "") (fun _ => Ok Chat.demo_request)
    Fallback.sim_router None None true (mkPlay "" Chat.demo_request) Tenant.empty_ctx (fun _ => []) "id" 0 Telemetry.empty_log
    Telemetry.empty_log (Fallback.sim_start 5) eq_refl demo_valid).
Defined.

Definition demo_store : gmap string (string * option Time) :=
  <["cache:exact:a" := ("x", None)]> (<["cache:emb:b" := ("y", None)]> ∅).

Lemma flush_complete_witness `{Exact.Codec} :
  Exact.Get (delete "cache:exact:a" demo_store) "a" true 0 = Ok None /\
  delete "cache:exact:a" demo_store !! "cache:emb:b" = Some ("y", None).
Proof.
  destruct (flush_complete [Scanned [] true; Scanned ["cache:exact:a"] true] demo_store (delete "cache:exact:a" demo_store)) as [G O].
  - intros k [x Hx]. unfold demo_store in Hx. apply lookup_insert_Some in Hx as [[<- _]|[_ Hx]]; [set_solver|].
    apply lookup_insert_Some in Hx as [[E _]|[_ Hx]]; [discriminate E|]. by rewrite lookup_empty in Hx.
  - repeat constructor.
  - reflexivity.
  - split; [by apply G|]. by apply O.
Defined.

Definition demo_policies : Residency.PRegistry :=
  Residency.NewRegistry [Residency.mkPolicy "eu" (<["azure" := Residency.mkConstraint "azure" "eu-west"]> ∅) ∅ []].

Lemma validate_agrees_witness :
  Residency.FilterChain demo_policies "eu" (SingleTarget "azure" "gpt") "gpt" = Ok (SingleTarget "azure" "gpt") /\
  exists e, Residency.FilterChain demo_policies "eu" (SingleTarget "openai" "gpt") "gpt" = Err e.
Proof.
  split.
  - exact (proj1 (validate_agrees demo_policies "eu" "azure" "gpt" "gpt" eq_refl eq_refl ltac:(done) ltac:(done))).
  - eexists. exact (proj1 (validate_agrees demo_policies "eu" "openai" "gpt" "gpt" eq_refl eq_refl ltac:(done) ltac:(done))).
Defined.

End Operator.
