(* ===== verification/Routes.v ===== *)
(** * Routes (cmd/gateway/main.go: registerAdminRoutes, registerMCPRoutes, the routes of main;
    internal/gateway/router/router.go: Setup)

    The table of routes with the middlewares in front of each handler, as the program registers them,
    and the serving of a request: the router finds a route, its middlewares let the request pass or
    answer 401. The theorem: everything under /admin/ but the login needs a valid administrator's
    token, everything under /v1/ and /mcp/v1/ a valid virtual key, every administrative change but
    those of tool servers is audited, and no route is registered twice. The router's search is a
    parameter with what it promises. *)

From S2P Require Import Prelude GoStrings Types VirtualKey Access Sessions.
Local Open Scope Z_scope.

Module Routes.

Local Open Scope go_scope.

(** ** Routes *)

(** The middlewares of groups of routes. *)
Inductive mw := MAdminAuth | MAudit | MKeyAuth | MSession.

#[global] Instance mw_eq_dec : EqDecision mw.
Proof. solve_decision. Defined.

(** The method, empty for all of them; the pattern; the handler, by its name in the source. *)
Record route := mkRoute { rt_method : string; rt_pattern : string; rt_mws : list mw; rt_handler : string }.

Definition behind (mws : list mw) (rs : list (string * string * string)) : list route :=
  (fun '(m, p, h) => mkRoute m p mws h) <$> rs.
Definition when (b : bool) (rs : list route) : list route := if b then rs else [].

(** Which parts of the program there are. *)
Record parts := mkParts {
  has_audit : bool; has_cipher : bool; has_rules : bool; has_cache : bool; has_audit_store : bool; has_alerts : bool;
  has_prompts : bool; has_abtests : bool; has_billing : bool; has_residency : bool; has_mcp : bool; has_oauth : bool
}.

(** ** registerAdminRoutes *)

Definition admin_table : list (string * string * string) :=
  [("POST", "/admin/auth/change-password", "adminAuthHandler.ChangePassword");
   ("GET", "/admin/auth/me", "adminAuthHandler.Me"); ("POST", "/admin/keys", "vkHandler.Create");
   ("GET", "/admin/keys", "vkHandler.List"); ("GET", "/admin/keys/{id}", "vkHandler.Get");
   ("PATCH", "/admin/keys/{id}", "vkHandler.Update"); ("DELETE", "/admin/keys/{id}", "vkHandler.Deactivate");
   ("POST", "/admin/keys/{id}/regenerate", "vkHandler.Regenerate"); ("GET", "/admin/logs", "logsHandler.List");
   ("GET", "/admin/logs/{request_id}", "logsHandler.Get"); ("GET", "/admin/circuit-breakers", "cbHandler.List");
   ("POST", "/admin/circuit-breakers/{provider}/reset", "cbHandler.Reset");
   ("GET", "/admin/rate-limits/{id}", "rlHandler.Get"); ("POST", "/admin/rate-limits/{id}/reset", "rlHandler.Reset");
   ("POST", "/admin/budgets", "budgetHandler.Create");
   ("GET", "/admin/budgets/{entity_type}/{entity_id}", "budgetHandler.List");
   ("POST", "/admin/budgets/{id}/reset", "budgetHandler.Reset");
   ("GET", "/admin/usage/summary", "usageHandler.Summary");
   ("GET", "/admin/usage/top-spenders", "usageHandler.TopSpenders");
   ("POST", "/admin/organizations", "orgsHandler.CreateOrg");
   ("GET", "/admin/organizations", "orgsHandler.ListOrgs");
   ("GET", "/admin/organizations/{id}", "orgsHandler.GetOrg");
   ("PUT", "/admin/organizations/{id}", "orgsHandler.UpdateOrg"); ("POST", "/admin/teams", "orgsHandler.CreateTeam");
   ("GET", "/admin/teams", "orgsHandler.ListTeams"); ("GET", "/admin/teams/{id}", "orgsHandler.GetTeam");
   ("PUT", "/admin/teams/{id}", "orgsHandler.UpdateTeam"); ("POST", "/admin/users", "orgsHandler.CreateUser");
   ("GET", "/admin/users", "orgsHandler.ListUsers"); ("GET", "/admin/users/{id}", "orgsHandler.GetUser");
   ("PUT", "/admin/users/{id}", "orgsHandler.UpdateUser"); ("GET", "/admin/roles", "rolesHandler.ListRoles");
   ("POST", "/admin/users/{user_id}/roles", "rolesHandler.AssignRole");
   ("GET", "/admin/routing", "routingHandler.Get"); ("PUT", "/admin/routing", "routingHandler.Update");
   ("POST", "/admin/routing/reload", "routingHandler.Reload"); ("GET", "/admin/cache/stats", "cacheHandler.Stats");
   ("GET", "/admin/alerts/history", "alertsHandler.History");
   ("GET", "/admin/alerts/config", "alertsHandler.GetConfig");
   ("PUT", "/admin/alerts/config", "alertsHandler.UpdateConfig")].
Definition catalog_table : list (string * string * string) :=
  [("GET", "/admin/models", "providersHandler.ListAllModels");
   ("GET", "/admin/providers", "providersHandler.ListProviders");
   ("POST", "/admin/providers", "providersHandler.CreateProvider");
   ("GET", "/admin/providers/{id}", "providersHandler.GetProvider");
   ("PUT", "/admin/providers/{id}", "providersHandler.UpdateProvider");
   ("DELETE", "/admin/providers/{id}", "providersHandler.DeleteProvider");
   ("GET", "/admin/providers/{id}/models", "providersHandler.ListModels");
   ("POST", "/admin/providers/{id}/models", "providersHandler.CreateModel");
   ("PUT", "/admin/providers/{id}/models/{modelId}", "providersHandler.UpdateModel");
   ("DELETE", "/admin/providers/{id}/models/{modelId}", "providersHandler.DeleteModel");
   ("GET", "/admin/guardrails", "guardrailsHandler.List");
   ("GET", "/admin/guardrails/{type}", "guardrailsHandler.Get");
   ("PUT", "/admin/guardrails/{type}", "guardrailsHandler.Update");
   ("PUT", "/admin/guardrails", "guardrailsHandler.UpdateAll");
   ("POST", "/admin/playground", "playgroundHandler.Chat"); ("GET", "/admin/openapi.json", "openAPIHandler.Spec");
   ("GET", "/admin/openapi.yaml", "openAPIHandler.SpecYAML")].
Definition provider_key_table : list (string * string * string) :=
  [("POST", "/admin/provider-keys", "pkHandler.Create"); ("GET", "/admin/provider-keys", "pkHandler.List");
   ("GET", "/admin/provider-keys/{id}", "pkHandler.Get"); ("PUT", "/admin/provider-keys/{id}", "pkHandler.Update");
   ("DELETE", "/admin/provider-keys/{id}", "pkHandler.Delete");
   ("PUT", "/admin/provider-keys/{id}/rotate", "pkHandler.Rotate")].
Definition rule_table : list (string * string * string) :=
  [("GET", "/admin/routing/rules", "rrHandler.List"); ("POST", "/admin/routing/rules", "rrHandler.Create");
   ("PUT", "/admin/routing/rules/{id}", "rrHandler.UpdateRule");
   ("DELETE", "/admin/routing/rules/{id}", "rrHandler.DeleteRule");
   ("POST", "/admin/routing/rules/reload", "rrHandler.ReloadRules");
   ("POST", "/admin/routing/test", "rrHandler.DryRun")].
Definition cache_table : list (string * string * string) :=
  [("DELETE", "/admin/cache/exact", "cacheHandler.Delete"); ("GET", "/admin/cache/exact/{hash}", "cacheHandler.Get")].
Definition audit_table : list (string * string * string) :=
  [("GET", "/admin/audit-logs", "auditHandler.List");
   ("GET", "/admin/audit-logs/security-events", "auditHandler.SecurityEvents")].
Definition alert_table : list (string * string * string) :=
  [("POST", "/admin/alerts/test", "alertsHandler.Test")].
Definition prompt_table : list (string * string * string) :=
  [("GET", "/admin/prompts", "promptsHandler.List"); ("POST", "/admin/prompts", "promptsHandler.Create");
   ("GET", "/admin/prompts/{slug}", "promptsHandler.Get");
   ("GET", "/admin/prompts/{slug}/versions", "promptsHandler.ListVersions");
   ("POST", "/admin/prompts/{slug}/versions", "promptsHandler.PublishVersion");
   ("GET", "/admin/prompts/{slug}/versions/{version}", "promptsHandler.GetVersion");
   ("POST", "/admin/prompts/{slug}/rollback/{version}", "promptsHandler.Rollback");
   ("POST", "/admin/prompts/{slug}/render", "promptsHandler.Render");
   ("GET", "/admin/prompts/{slug}/diff", "promptsHandler.Diff")].
Definition abtest_table : list (string * string * string) :=
  [("POST", "/admin/ab-tests", "abHandler.Create"); ("GET", "/admin/ab-tests", "abHandler.List");
   ("GET", "/admin/ab-tests/{id}", "abHandler.Get"); ("GET", "/admin/ab-tests/{id}/results", "abHandler.Results");
   ("DELETE", "/admin/ab-tests/{id}", "abHandler.Delete"); ("POST", "/admin/ab-tests/{id}/start", "abHandler.Start");
   ("POST", "/admin/ab-tests/{id}/pause", "abHandler.Pause");
   ("POST", "/admin/ab-tests/{id}/stop", "abHandler.Stop");
   ("POST", "/admin/ab-tests/{id}/promote", "abHandler.Promote")].
Definition billing_table : list (string * string * string) :=
  [("GET", "/admin/reports/chargeback", "reportsHandler.Chargeback");
   ("GET", "/admin/reports/showback", "reportsHandler.Showback");
   ("GET", "/admin/billing/markup", "reportsHandler.GetMarkup");
   ("PUT", "/admin/billing/markup", "reportsHandler.UpsertMarkup");
   ("GET", "/api/billing/usage", "billingAPIHandler.Usage")].
Definition residency_table : list (string * string * string) :=
  [("GET", "/admin/data-residency/policies", "drHandler.List");
   ("GET", "/admin/data-residency/policies/{name}", "drHandler.Get");
   ("POST", "/admin/data-residency/validate", "drHandler.Validate");
   ("GET", "/admin/data-residency/report", "drHandler.Report")].

(** The router does not look at the order of registration: the routes of optional parts come last. *)
Definition registerAdminRoutes (w : parts) : list route :=
  let admin := behind (MAdminAuth :: if has_audit w then [MAudit] else []) in
  behind [] [("POST", "/admin/auth/login", "adminAuthHandler.Login")] ++
  admin admin_table ++ admin catalog_table ++ when (has_cipher w) (admin provider_key_table) ++ when (has_rules w) (admin rule_table) ++
  when (has_cache w) (admin cache_table) ++ when (has_audit_store w) (admin audit_table) ++
  when (has_alerts w) (admin alert_table) ++ when (has_prompts w) (admin prompt_table) ++
  when (has_abtests w) (admin abtest_table) ++ when (has_billing w) (admin billing_table) ++
  when (has_residency w) (admin residency_table).

(** ** registerMCPRoutes *)

Definition mcp_table : list (string * string * string) :=
  [("POST", "/mcp/v1/initialize", "mcpHandler.Initialize"); ("POST", "/mcp/v1/tools/list", "mcpHandler.ListTools");
   ("POST", "/mcp/v1/tools/call", "mcpHandler.CallTool");
   ("POST", "/mcp/v1/resources/list", "mcpHandler.ListResources");
   ("POST", "/mcp/v1/resources/read", "mcpHandler.ReadResource");
   ("POST", "/mcp/v1/prompts/list", "mcpHandler.ListPrompts");
   ("POST", "/mcp/v1/prompts/get", "mcpHandler.GetPrompt")].
Definition mcp_admin_table : list (string * string * string) :=
  [("GET", "/admin/mcp/servers", "adminMCPHandler.ListServers");
   ("POST", "/admin/mcp/servers", "adminMCPHandler.RegisterServer");
   ("GET", "/admin/mcp/servers/{name}", "adminMCPHandler.GetServer");
   ("DELETE", "/admin/mcp/servers/{name}", "adminMCPHandler.DeleteServer");
   ("GET", "/admin/mcp/servers/{name}/health", "adminMCPHandler.HealthCheck");
   ("GET", "/admin/mcp/servers/{name}/tools", "adminMCPHandler.ListServerTools");
   ("POST", "/admin/mcp/policies", "adminMCPHandler.SetPolicy")].
Definition registerMCPRoutes : list route := behind [MKeyAuth] mcp_table ++ behind [MAdminAuth] mcp_admin_table.

(** ** Setup of router.go, and main *)

Definition v1_table : list (string * string * string) :=
  [("POST", "/v1/chat/completions", "chat.Handle"); ("POST", "/v1/completions", "comp.Handle");
   ("POST", "/v1/embeddings", "emb.Handle"); ("GET", "/v1/models", "models.List"); ("GET", "/v1/models/*", "models.Get")].
Definition open_table : list (string * string * string) :=
  [("GET", "/docs", "docsHandler.UI"); ("GET", "/docs/openapi.json", "docsHandler.JSON");
   ("GET", "/docs/openapi.yaml", "docsHandler.YAML"); ("GET", "/ping", "internalhandler.Ping");
   ("GET", "/health", "healthHandler.Full"); ("GET", "/health/live", "healthHandler.Live");
   ("GET", "/health/ready", "healthHandler.Ready"); ("GET", "/health/providers", "healthHandler.Providers");
   ("", "/metrics", "promhttp.Handler")].
Definition oauth_table : list (string * string * string) :=
  [("GET", "/auth/providers", "authHandler.Providers"); ("GET", "/auth/login", "authHandler.Login");
   ("GET", "/auth/callback", "authHandler.Callback"); ("POST", "/auth/logout", "authHandler.Logout")].

Definition routes (w : parts) : list route :=
  behind [MKeyAuth] v1_table ++ when (has_mcp w) registerMCPRoutes ++ behind [] open_table ++ registerAdminRoutes w ++
  when (has_oauth w) (behind [] oauth_table ++ behind [MSession] [("GET", "/auth/me", "authHandler.Me")]).

(** ** Serving a request *)

Fixpoint segments (s : string) : list string :=
  match s with
  | EmptyString => [""]
  | String c s =>
      if Ascii.eqb c "/" then "" :: segments s
      else match segments s with x :: xs => String c x :: xs | [] => [String c ""] end
  end.

Definition is_param (s : string) : bool := HasPrefix s "{".

(** A pattern matches a path segment by segment: a parameter takes any non-empty segment, a star the
    rest of the path. *)
Fixpoint seg_match (pat path : list string) : bool :=
  match pat, path with
  | [], [] => true
  | p :: pat, x :: path =>
      if String.eqb p "*" then true
      else (if is_param p then negb (String.eqb x "") else String.eqb p x) && seg_match pat path
  | _, _ => false
  end.

Definition route_matches (r : route) (method path : string) : bool :=
  (String.eqb (rt_method r) "" || String.eqb (rt_method r) method) && seg_match (segments (rt_pattern r)) (segments path).

(** What the router promises: the route it finds is one of the table, for the method and the path. *)
Class Dispatch (dispatch : list route -> string -> string -> option route) : Prop := {
  dispatch_sound : forall rs m p r, dispatch rs m p = Some r -> r ∈ rs /\ route_matches r m p = true
}.

Inductive outcome := NotFound | Refused (by_ : mw) | Ran (handler : string).

Section Serve.
Context `{AdminAuth.JWTLib} (HashKey : string -> string) (auth : VK.AuthState) (f : VK.faults) (now : Time).

(** Whether a middleware lets a request with this Authorization header pass; the session middleware
    and the audit let every request pass. *)
Definition admits (header : string) (m : mw) : bool :=
  match m with
  | MAdminAuth => bool_decide (is_Some (AdminAuth.AdminAuth header now))
  | MKeyAuth => match (VK.Middleware HashKey auth header f now).1 with VK.Pass _ => true | VK.Reject _ => false end
  | MAudit | MSession => true
  end.

Definition serve (dispatch : list route -> string -> string -> option route) (w : parts) (method path header : string) : outcome :=
  match dispatch (routes w) method path with
  | None => NotFound
  | Some r => match find (fun m => negb (admits header m)) (rt_mws r) with Some m => Refused m | None => Ran (rt_handler r) end
  end.

(** ** The table *)

(** The first segment of a path or pattern that starts with a slash. *)
Definition top (segs : list string) : string := match segs with _ :: x :: _ => x | _ => "" end.

(** A route under a top segment is behind its middleware. *)
Definition guarded (r : route) : bool :=
  let t := top (segments (rt_pattern r)) in
  HasPrefix (rt_pattern r) "/" && negb (is_param t) && negb (String.eqb t "*") &&
  (if String.eqb t "admin" || String.eqb t "api"
   then bool_decide (head (rt_mws r) = Some MAdminAuth) ||
        (String.eqb (rt_method r) "POST" && String.eqb (rt_pattern r) "/admin/auth/login" &&
         String.eqb (rt_handler r) "adminAuthHandler.Login" && bool_decide (rt_mws r = []))
   else if String.eqb t "v1" || String.eqb t "mcp" then bool_decide (head (rt_mws r) = Some MKeyAuth)
   else true).

(** A change of administration: not read, not the login, not of tool servers. *)
Definition audited_change (r : route) : bool :=
  String.eqb (top (segments (rt_pattern r))) "admin" && negb (String.eqb (rt_method r) "GET") &&
  negb (String.eqb (rt_pattern r) "/admin/auth/login") && negb (HasPrefix (rt_pattern r) "/admin/mcp/").

Lemma forallb_when (P : route -> bool) b rs : forallb P rs = true -> forallb P (when b rs) = true.
Proof. by destruct b. Qed.

Lemma table_forall (P : route -> bool) w :
  forallb P (behind (MAdminAuth :: if has_audit w then [MAudit] else [])
     (admin_table ++ catalog_table ++ provider_key_table ++ rule_table ++ cache_table ++ audit_table ++ alert_table ++ prompt_table ++
      abtest_table ++ billing_table ++ residency_table)) = true ->
  forallb P (behind [MKeyAuth] v1_table ++ registerMCPRoutes ++ behind [] open_table ++
     behind [] [("POST", "/admin/auth/login", "adminAuthHandler.Login")] ++ behind [] oauth_table ++
     behind [MSession] [("GET", "/auth/me", "authHandler.Me")]) = true ->
  forallb P (routes w) = true.
Proof.
  intros A O. unfold behind in A, O. rewrite !fmap_app, !forallb_app, !andb_true_iff in A.
  rewrite !forallb_app, !andb_true_iff in O. unfold routes, registerAdminRoutes, behind.
  rewrite !forallb_app, !andb_true_iff. split_and!; try apply forallb_when; rewrite ?forallb_app, ?andb_true_iff; tauto.
Qed.

Lemma table_In (P : route -> bool) w r : forallb P (routes w) = true -> r ∈ routes w -> P r = true.
Proof. intros F I. rewrite forallb_forall in F. by apply F, list_elem_of_In. Qed.

Lemma routes_guarded w : forallb guarded (routes w) = true.
Proof. apply table_forall; [destruct (has_audit w)|]; vm_compute; reflexivity. Qed.

Lemma routes_audited w :
  has_audit w = true ->
  forallb (fun r => negb (audited_change r) || bool_decide (MAudit ∈ rt_mws r)) (routes w) = true.
Proof. intros A. apply table_forall; [rewrite A|]; vm_compute; reflexivity. Qed.

Lemma segments_cons s : exists x xs, segments s = x :: xs.
Proof.
  destruct s as [|c s]; cbn; [eauto|]. destruct (Ascii.eqb c "/"); [eauto|]. destruct (segments s); eauto.
Qed.

(** A path has the top segment of the pattern it matches. *)
Lemma match_top r m p : guarded r = true -> route_matches r m p = true -> top (segments p) = top (segments (rt_pattern r)).
Proof.
  unfold guarded, route_matches. rewrite !andb_true_iff, !negb_true_iff. intros (((Pre & NP) & NS) & _) (_ & M).
  apply HasPrefix_spec in Pre as [s Es]. rewrite Es in M, NP, NS |- *.
  destruct (segments_cons s) as (x & xs & E).
  assert (Es' : segments ("/" +:+ s) = "" :: x :: xs) by (cbn; by rewrite E). rewrite Es' in *. cbn [top] in NP, NS |- *.
  destruct (segments p) as [|y [|z zs]]; [done|cbn in M; by rewrite andb_false_r in M|].
  cbn -[is_param String.eqb] in M. rewrite NS, NP in M. apply andb_true_iff in M as [_ M].
  apply andb_true_iff in M as [M _]. by apply String.eqb_eq in M.
Qed.

Lemma dispatched_guarded dispatch w m p r :
  Dispatch dispatch -> dispatch (routes w) m p = Some r -> r ∈ routes w /\ guarded r = true /\ route_matches r m p = true.
Proof.
  intros D E. destruct (dispatch_sound _ _ _ _ E) as [I M]. split_and!; [done| |done].
  by apply (table_In _ w), I; apply routes_guarded.
Qed.

(** A route behind a middleware as its first one runs its handler only if that lets the request pass. *)
Lemma first_refuses header r x :
  head (rt_mws r) = Some x -> admits header x = false ->
  find (fun m => negb (admits header m)) (rt_mws r) = Some x.
Proof. destruct (rt_mws r) as [|y l]; [done|]. cbn. intros [= ->] ->. done. Qed.

Definition key (r : route) : string * string := (rt_method r, rt_pattern r).

Lemma key_behind mws rs : key <$> behind mws rs = fst <$> rs.
Proof. unfold behind. rewrite <- list_fmap_compose. apply list_fmap_ext. by intros i [[m p] h] _. Qed.

Lemma keys_when b rs : key <$> when b rs `sublist_of` key <$> rs.
Proof. destruct b; [done|apply sublist_nil_l]. Qed.

Definition all_parts : parts := mkParts true true true true true true true true true true true true.

Lemma keys_sublist w : key <$> routes w `sublist_of` key <$> routes all_parts.
Proof.
  unfold routes, registerAdminRoutes. rewrite !fmap_app, !key_behind.
  repeat (apply sublist_app; [try first [apply keys_when|reflexivity]|]); try (etransitivity; [apply keys_when|]);
    rewrite ?fmap_app, ?key_behind; cbn [when has_mcp has_cipher has_rules has_cache has_audit_store has_alerts has_prompts
      has_abtests has_billing has_residency has_oauth all_parts]; rewrite ?fmap_app, ?key_behind; try reflexivity.
Qed.

Lemma routes_distinct w : NoDup (key <$> routes w).
Proof.
  eapply sublist_NoDup; [|apply keys_sublist]. apply (bool_decide_unpack _). vm_compute. exact I.
Qed.

Lemma guarded_admin r :
  guarded r = true -> top (segments (rt_pattern r)) = "admin" \/ top (segments (rt_pattern r)) = "api" ->
  head (rt_mws r) = Some MAdminAuth \/
  rt_method r = "POST" /\ rt_pattern r = "/admin/auth/login" /\ rt_handler r = "adminAuthHandler.Login" /\ rt_mws r = [].
Proof.
  unfold guarded. intros (_ & G)%andb_true_iff P.
  assert (String.eqb (top (segments (rt_pattern r))) "admin" || String.eqb (top (segments (rt_pattern r))) "api" = true) as Q
    by (destruct P as [->| ->]; done).
  rewrite Q in G. apply orb_true_iff in G as [G%bool_decide_eq_true|G]; [by left|right]. by breflect.
Qed.

Lemma guarded_key r :
  guarded r = true -> top (segments (rt_pattern r)) = "v1" \/ top (segments (rt_pattern r)) = "mcp" ->
  head (rt_mws r) = Some MKeyAuth.
Proof.
  unfold guarded. intros (_ & G)%andb_true_iff P. destruct P as [P|P]; rewrite P in G; cbn in G; by apply bool_decide_eq_true in G.
Qed.

Lemma seg_match_static pat path :
  forallb (fun p => negb (is_param p) && negb (String.eqb p "*")) pat = true -> seg_match pat path = true -> path = pat.
Proof.
  revert path. induction pat as [|p pat IH]; intros [|x path]; cbn [forallb seg_match]; [done..|].
  rewrite !andb_true_iff, !negb_true_iff. intros [[P S] F]. rewrite S, P.
  intros [E%String.eqb_eq M]%andb_true_iff. f_equal; [done|by apply IH].
Qed.

Lemma login_matches r m p :
  rt_method r = "POST" -> rt_pattern r = "/admin/auth/login" -> route_matches r m p = true ->
  m = "POST" /\ segments p = segments "/admin/auth/login".
Proof.
  intros Em Ep. unfold route_matches. rewrite Em, Ep. intros [[[=]|<-%String.eqb_eq]%orb_true_iff S]%andb_true_iff.
  split; [done|]. by apply seg_match_static.
Qed.

(** C3. The gates of the routes. Under whatever parts of the program: a request whose path is under
    /admin/ or /api/ and which carries no valid administrator's token runs no handler, but for the
    login; a request under /v1/ or /mcp/ without a valid virtual key runs none; every change of
    administration outside the tool servers is behind the audit when there is one; and no method and
    pattern is registered twice. *)
Theorem routes_gated dispatch w method path header :
  Dispatch dispatch ->
  (top (segments path) = "admin" \/ top (segments path) = "api" -> AdminAuth.AdminAuth header now = None ->
     serve dispatch w method path header = NotFound \/ serve dispatch w method path header = Refused MAdminAuth \/
     serve dispatch w method path header = Ran "adminAuthHandler.Login" /\ method = "POST" /\
       segments path = segments "/admin/auth/login") /\
  (top (segments path) = "v1" \/ top (segments path) = "mcp" ->
     (forall k, (VK.Middleware HashKey auth header f now).1 <> VK.Pass k) ->
     serve dispatch w method path header = NotFound \/ serve dispatch w method path header = Refused MKeyAuth) /\
  (has_audit w = true -> forall r, dispatch (routes w) method path = Some r -> audited_change r = true -> MAudit ∈ rt_mws r) /\
  NoDup (key <$> routes w).
Proof.
  intros D. split_and!; [..|apply routes_distinct]; unfold serve; (destruct (dispatch (routes w) method path) as [r|] eqn:E; [|auto; done]);
    destruct (dispatched_guarded _ _ _ _ _ D E) as (I & G & M); pose proof (match_top _ _ _ G M) as T.
  - intros P A. right. rewrite T in P. destruct (guarded_admin r G P) as [Hd|(Em & Ep & Eh & Es)].
    + left. rewrite (first_refuses header r MAdminAuth Hd); [done|]. cbn. by rewrite A.
    + right. destruct (login_matches r method path Em Ep M) as [-> Eq]. by rewrite Es, Eh.
  - intros P K. right. rewrite T in P. rewrite (first_refuses header r MKeyAuth (guarded_key r G P)); [done|]. cbn.
    destruct (VK.Middleware _ _ _ _ _).1 as [msg|k] eqn:Mw; [done|]. by destruct (K k).
  - intros A r' [= <-] C. pose proof (table_In _ _ _ (routes_audited w A) I) as X. cbn in X. rewrite C in X.
    by apply bool_decide_eq_true in X.
Qed.

End Serve.

(** ** What is not in front of the handlers *)

(** No route of the administration is behind a middleware that puts a user into the context, so the
    handler that assigns roles finds no caller: it never assigns one. *)
Lemma role_assignment_never_succeeds w r uuid_Parse path body lookup_ok refs_ok cache_ok db c :
  r ∈ routes w -> rt_handler r = "rolesHandler.AssignRole" ->
  MSession ∉ rt_mws r /\
  let '(rep, db', _) := Roles.AssignRole uuid_Parse None path body lookup_ok refs_ok cache_ok db c in
  rep <> Roles.Replied 200 /\ db' = db.
Proof.
  intros I Hr. split.
  - pose (P := fun r => negb (String.eqb (rt_handler r) "rolesHandler.AssignRole") || negb (bool_decide (MSession ∈ rt_mws r))).
    assert (X : P r = true).
    { apply (table_In P w); [|done]. apply table_forall; [destruct (has_audit w)|]; vm_compute; reflexivity. }
    unfold P in X. rewrite Hr in X. by apply negb_true_iff, bool_decide_eq_false in X.
  - unfold Roles.AssignRole. repeat case_match; simplify_eq; done.
Qed.

(** Changes of tool servers are not audited. *)
Lemma mcp_changes_not_audited w r :
  r ∈ routes w -> HasPrefix (rt_pattern r) "/admin/mcp/" = true -> MAudit ∉ rt_mws r.
Proof.
  intros I Hr.
  pose (P := fun r => negb (HasPrefix (rt_pattern r) "/admin/mcp/") || negb (bool_decide (MAudit ∈ rt_mws r))).
  assert (X : P r = true).
  { apply (table_In P w); [|done]. apply table_forall; [destruct (has_audit w)|]; vm_compute; reflexivity. }
  unfold P in X. rewrite Hr in X. by apply negb_true_iff, bool_decide_eq_false in X.
Qed.

(** ** A router, and the witness *)

Definition first_match (rs : list route) (m p : string) : option route := find (fun r => route_matches r m p) rs.

#[global] Instance first_match_dispatch : Dispatch first_match.
Proof. split. intros rs m p r [I M]%find_some. by apply list_elem_of_In in I. Qed.

(** A JWT library that signs nothing and accepts nothing. *)
#[local] Instance no_jwt : AdminAuth.JWTLib.
Proof.
  refine {| AdminAuth.SignedString := fun _ => None; AdminAuth.ParseWithClaims := fun _ _ => None |}. intros c t n E. discriminate E.
Defined.

Definition demo_serve (method path : string) : outcome :=
  serve VK.demo_hash VK.demo_state0 (VK.mkFaults true true true) 0 first_match all_parts method path "".

Lemma routes_gated_witness :
  demo_serve "DELETE" "/admin/keys/k1" = Refused MAdminAuth /\ demo_serve "POST" "/v1/chat/completions" = Refused MKeyAuth.
Proof.
  split.
  - destruct (routes_gated VK.demo_hash VK.demo_state0 (VK.mkFaults true true true) 0 first_match all_parts "DELETE"
      "/admin/keys/k1" "" first_match_dispatch) as (A & _).
    destruct (A ltac:(left; vm_compute; reflexivity) eq_refl) as [N|[R|(L & _)]]; [vm_compute in N; discriminate N|exact R|].
    vm_compute in L. discriminate L.
  - destruct (routes_gated VK.demo_hash VK.demo_state0 (VK.mkFaults true true true) 0 first_match all_parts "POST"
      "/v1/chat/completions" "" first_match_dispatch) as (_ & K & _).
    destruct (K ltac:(left; vm_compute; reflexivity) ltac:(vm_compute; discriminate)) as [N|R];
      [vm_compute in N; discriminate N|exact R].
Defined.

End Routes.
