(* ===== verification/ApiDoc.v ===== *)
(** * The API description (internal/gateway/handler/admin_openapi.go and docs.go)

    The document that describes the administration API, the handlers that serve it, and what it
    says against the table of routes: every operation it describes but one is registered, behind
    the administrator's token as the document says, when the optional parts of the program are
    there. *)

From S2P Require Import Prelude GoStrings Types VirtualKey Access Sessions Routes.
Local Open Scope Z_scope.
Import Routes.

Module ApiDoc.

Record Info := mkInfo { title : string; doc_version : string; description : string }.
Record SecurityScheme := mkScheme { sc_type : string; sc_scheme : string; sc_format : string }.

(** The document; a path has operations, by method, with their summaries. *)
Record Document := mkDoc {
  openapi : string;
  info : Info;
  security : list (string * list string);
  securitySchemes : list (string * SecurityScheme);
  doc_paths : list (string * list (string * string))
}.

Definition doc_table : list (string * list (string * string)) :=
  [("/admin/keys", [("get", "List virtual keys"); ("post", "Create a virtual key")]);
   ("/admin/keys/{id}", [("get", "Get a virtual key"); ("patch", "Update a virtual key");
      ("delete", "Deactivate a virtual key")]);
   ("/admin/keys/{id}/regenerate", [("post", "Regenerate (rotate) a virtual key")]);
   ("/admin/provider-keys", [("get", "List provider keys"); ("post", "Create a provider key")]);
   ("/admin/provider-keys/{id}", [("get", "Get a provider key"); ("put", "Update a provider key");
      ("delete", "Delete a provider key")]);
   ("/admin/provider-keys/{id}/rotate", [("put", "Rotate a provider key")]);
   ("/admin/organizations", [("get", "List organizations"); ("post", "Create an organization")]);
   ("/admin/organizations/{id}", [("get", "Get an organization"); ("put", "Update an organization")]);
   ("/admin/teams", [("get", "List teams"); ("post", "Create a team")]);
   ("/admin/teams/{id}", [("get", "Get a team"); ("put", "Update a team")]);
   ("/admin/users", [("get", "List users"); ("post", "Create a user")]);
   ("/admin/users/{id}", [("get", "Get a user"); ("put", "Update a user")]);
   ("/admin/users/{user_id}/roles", [("post", "Assign a role to a user")]);
   ("/admin/roles", [("get", "List available roles")]);
   ("/admin/usage/summary", [("get", "Get usage summary for an entity")]);
   ("/admin/usage/top-spenders", [("get", "List top-spending virtual keys")]);
   ("/admin/logs", [("get", "List request logs")]);
   ("/admin/logs/{request_id}", [("get", "Get a single request log")]);
   ("/admin/budgets", [("post", "Create a budget")]);
   ("/admin/budgets/{entity_type}/{entity_id}", [("get", "List budgets for an entity")]);
   ("/admin/budgets/{id}/reset", [("post", "Reset a budget period")]);
   ("/admin/rate-limits/{id}", [("get", "Get rate limit status for a key")]);
   ("/admin/rate-limits/{id}/reset", [("post", "Reset rate limit counters for a key")]);
   ("/admin/circuit-breakers", [("get", "List circuit breaker states")]);
   ("/admin/circuit-breakers/{provider}/reset", [("post", "Reset a circuit breaker")]);
   ("/admin/routing", [("get", "Get current routing configuration"); ("put", "Update routing configuration")]);
   ("/admin/routing/reload", [("post", "Trigger hot reload of routing config")]);
   ("/admin/routing/rules", [("get", "List advanced routing rules"); ("post", "Create an advanced routing rule")]);
   ("/admin/routing/rules/{id}", [("put", "Update an advanced routing rule");
      ("delete", "Delete an advanced routing rule")]);
   ("/admin/routing/rules/reload", [("post", "Reload routing rules from DB")]);
   ("/admin/routing/test", [("post", "Dry-run routing rule evaluation")]);
   ("/admin/cache/exact", [("delete", "Evict exact-match cache entries")]);
   ("/admin/cache/exact/{hash}", [("get", "Get a cached entry by hash")]);
   ("/admin/audit-logs", [("get", "List audit log entries")]);
   ("/admin/audit-logs/security-events", [("get", "List security-related audit events")]);
   ("/admin/alerts/test", [("post", "Send a test alert to configured channels")]);
   ("/admin/alerts/history", [("get", "List alert history")]);
   ("/admin/prompts", [("get", "List prompt templates"); ("post", "Create a prompt template")]);
   ("/admin/prompts/{slug}", [("get", "Get the active version of a prompt"); ("delete", "Archive a prompt")]);
   ("/admin/prompts/{slug}/versions", [("get", "List versions of a prompt");
      ("post", "Publish a new version of a prompt")]);
   ("/admin/prompts/{slug}/versions/{version}", [("get", "Get a specific prompt version")]);
   ("/admin/prompts/{slug}/rollback/{version}", [("post", "Roll back a prompt to a previous version")]);
   ("/admin/prompts/{slug}/render", [("post", "Render a prompt template with variables")]);
   ("/admin/prompts/{slug}/diff", [("get", "Compare two versions of a prompt")])].

Definition buildOpenAPISpec : Document :=
  mkDoc "3.0.3"
    (mkInfo "LLM Router Admin API" "1.0.0"
       "Gateway administration API for managing keys, routing, budgets, and observability.")
    [("bearerAuth", [])] [("bearerAuth", mkScheme "http" "bearer" "master_key")] doc_table.

(** ** The handlers *)

Inductive response :=
| Page (status : Z) (contentType body : string)
| Failed (status : Z) (msg : string).

Section Handlers.
(** The encoders; the page of the user interface is a constant. *)
Context (to_json : Document -> string) (to_yaml : Document -> option string) (swaggerUIHTML : string).

Definition Spec : response := Page 200 "application/json" (to_json buildOpenAPISpec).

Definition SpecYAML : response :=
  match to_yaml buildOpenAPISpec with
  | None => Failed 500 "failed to marshal YAML"
  | Some b => Page 200 "application/yaml" b
  end.

Definition SpecJSON : response := Page 200 "application/json" (to_json buildOpenAPISpec).

Definition UI : response := Page 200 "text/html; charset=utf-8" swaggerUIHTML.
Definition JSON : response := SpecJSON.
Definition YAML : response := SpecYAML.

End Handlers.

(** ** The document and the routes *)

(** The operations of the document, with the methods as the router has them. *)
Definition http_method (m : string) : string :=
  if String.eqb m "get" then "GET" else if String.eqb m "post" then "POST"
  else if String.eqb m "put" then "PUT" else if String.eqb m "patch" then "PATCH"
  else if String.eqb m "delete" then "DELETE" else m.

Definition operations (d : Document) : list (string * string) :=
  doc_paths d ≫= fun '(p, ops) => (fun op => (http_method op.1, p)) <$> ops.

Definition is_for (op : string * string) (r : route) : bool :=
  String.eqb (rt_method r) op.1 && String.eqb (rt_pattern r) op.2.

(** The operation that the document has and the program does not. *)
Definition archive_prompt : string * string := ("DELETE", "/admin/prompts/{slug}").

(** The parts of the program the document describes. *)
Definition complete (w : parts) : bool :=
  has_cipher w && has_rules w && has_cache w && has_audit_store w && has_alerts w && has_prompts w.

(** The routes of these parts. *)
Definition described_table : list (string * string * string) :=
  admin_table ++ provider_key_table ++ rule_table ++ cache_table ++ audit_table ++ alert_table ++ prompt_table.

Lemma described_registered w m p h :
  complete w = true -> (m, p, h) ∈ described_table ->
  mkRoute m p (MAdminAuth :: if has_audit w then [MAudit] else []) h ∈ routes w.
Proof.
  unfold complete. rewrite !andb_true_iff. intros (((((C1 & C2) & C3) & C4) & C5) & C6) I.
  unfold routes, registerAdminRoutes. rewrite C1, C2, C3, C4, C5, C6. cbn [when].
  assert (forall tbl, (m, p, h) ∈ tbl ->
    mkRoute m p (MAdminAuth :: if has_audit w then [MAudit] else []) h ∈
    behind (MAdminAuth :: if has_audit w then [MAudit] else []) tbl) as B
    by (intros tbl T; apply list_elem_of_fmap; by exists (m, p, h)).
  unfold described_table in I. rewrite !elem_of_app in I. rewrite !elem_of_app. naive_solver.
Qed.

(** The document describes the program. With the parts it describes in place, every operation of
    the document but the archiving of prompts is a registered route, and it needs the
    administrator's token, as the document says; for the archiving there is no route, whatever
    parts there are. *)
Theorem documented_operations_routed w op :
  complete w = true -> op ∈ operations buildOpenAPISpec ->
  (op <> archive_prompt ->
     exists r, r ∈ routes w /\ is_for op r = true /\ head (rt_mws r) = Some MAdminAuth) /\
  (op = archive_prompt -> forall w', forallb (fun r => negb (is_for op r)) (routes w') = true).
Proof.
  intros C I. split.
  - intros N.
    assert (forallb (fun o => bool_decide (o = archive_prompt) ||
      existsb (fun t => bool_decide (t.1 = o)) described_table) (operations buildOpenAPISpec) = true) as F
      by (vm_compute; reflexivity).
    rewrite forallb_forall in F. specialize (F op (proj1 (list_elem_of_In _ _) I)).
    apply orb_true_iff in F as [F|F]; [by apply bool_decide_eq_true in F|].
    apply existsb_exists in F as ([[m p] h] & T & E). apply bool_decide_eq_true in E. cbn in E. subst op.
    eexists. split; [apply (described_registered w m p h C); by apply list_elem_of_In|].
    split; [|done]. unfold is_for. cbn [rt_method rt_pattern fst snd]. by rewrite !String.eqb_refl.
  - intros -> w'. apply table_forall; [destruct (has_audit w')|]; vm_compute; reflexivity.
Qed.

Definition all_parts : parts := mkParts true true true true true true true true true true true true.

Lemma documented_operations_routed_witness :
  exists r, r ∈ routes all_parts /\ is_for ("POST", "/admin/keys") r = true /\ head (rt_mws r) = Some MAdminAuth.
Proof.
  destruct (documented_operations_routed all_parts ("POST", "/admin/keys")) as [H _].
  - reflexivity.
  - apply list_elem_of_In. vm_compute. tauto.
  - apply H. discriminate.
Defined.

(** Routes of the administration that the document leaves out, without the optional tables. *)
Example undocumented :
  List.filter (fun t => negb (existsb (fun o => bool_decide (o = t.1)) (operations buildOpenAPISpec)))
    described_table =
  [("POST", "/admin/auth/change-password", "adminAuthHandler.ChangePassword");
   ("GET", "/admin/auth/me", "adminAuthHandler.Me"); ("GET", "/admin/cache/stats", "cacheHandler.Stats");
   ("GET", "/admin/alerts/config", "alertsHandler.GetConfig");
   ("PUT", "/admin/alerts/config", "alertsHandler.UpdateConfig")].
Proof. vm_compute. reflexivity. Qed.

End ApiDoc.
